(* ===== verification/_CoqProject ===== *)
-Q . S2P
Prelude.v
Bits.v
Inst.v
Fmt.v
Host.v
Memory.v
MemoryProps.v
Float.v
FloatRound.v
Cpu.v
Syscall.v
Exec.v
Rvc.v
Run.v
Safe.v
SafeExec.v
RunProps.v
IsaSpec.v
RvcProps.v
RunRef.v
IsaMem.v
SysProps.v
FloatProps.v
FloatSpec.v
Errors.v
Profile.v
Cli.v
Disasm.v
Sim.v
DisasmProps.v
SimProps.v
Object.v
Session.v
