(* ===== verification/Prelude.v ===== *)
(** * riscv-rs: a verified model of the emulator

    riscv-rs is a RISC-V emulator (RV32IMAFDC, machine-mode interrupts) written in
    Rust and run in the browser as WebAssembly.  This library is a shallow embedding
    of all the files of [src/src/] and proves what makes them correct.

    ** The program and its model

    A [Simulator] ([lib.rs]) owns a [Cpu] ([cpu.rs]), a [Memory] ([memory.rs]) and a
    symbol table.  It loads a file, with options parsed by [cli.rs], and lets the host
    run it in slices or drive it as a debugger.  The CPU fetches through
    [fetch_window], decodes with [inst.rs], and executes; an [ecall] goes to
    [syscall.rs]; memory accesses at or above [0xFFFF0000], system calls, messages and
    interrupt polling go to the host through [host_imports.rs].  [disasm.rs] renders
    instructions as text.

    - [Prelude]: machine integers as [Z] ([wrap], [sext], the casts), the host monad
      [HM] (a computation that may call the host and may panic), the state-and-error
      monad [EM] with outcomes [Ok], [Err] and [Panic], bounded loops, automation.
      [Bits]: decision by reflection of equations between bit-field expressions.
      [Fmt]: the number formatting and parsing of the standard library in use.
    - [Inst]: [utils.rs] and [inst.rs].  [Host]: [host_imports.rs].  [Memory]:
      [memory.rs].  [Cpu], [Exec], [Rvc], [Run]: [cpu.rs] (state and accessors, 32-bit
      instructions, compressed instructions, run loops).  [Float]: the [f32] and [f64]
      operations used there.  [Syscall]: [syscall.rs].  [Cli]: [cli.rs].  [Disasm]:
      [disasm.rs].  [Sim]: [lib.rs].
    - [MemoryProps], [Safe], [SafeExec], [RunProps], [IsaSpec], [RvcProps], [RunRef],
      [IsaMem], [SysProps], [FloatProps], [FloatSpec], [Errors], [Profile],
      [DisasmProps], [SimProps], [Object], [Session]: specifications and theorems; those
      of the decoder and of the argument parser are in [Inst] and [Cli].  [FloatRound]
      holds the facts about [SpecFloat] the floating-point theorems need.

    Definitions keep the names of the source; a method [Memory::read_u8] is
    [Memory_read_u8].  A method on [&mut self] is a computation on the [Machine] (CPU,
    memory, host), a [Result] is the [Ok] and [Err] outcomes, and an index out of
    bounds, a bad slice or a checked overflow is [Panic].  Long match arms are split
    into one definition per arm.

    ** Interfaces

    - [HostOps]: what the JavaScript side provides.  [HostReads] (a read delivers no
      more than was asked for) and [QuietHost] (the interrupt controller is idle) are
      the two promises some theorems rely on; the native build's mock host is an
      instance that satisfies both.
    - [MemoryOps]: the trait of [memory.rs].  [MemoryLaws] is what the CPU relies on
      (no access panics, loads are in range, stores keep the memory well-formed); the
      safety and run-loop theorems are proved against it, and [Memory_laws] discharges
      it for the paged memory.
    - [FloatEnv]: what the language leaves open (the NaN an operation returns, [min]
      and [max] of zeros of opposite sign).
    - [ElfParser]: the [goblin] crate.  [Target]: the width of [usize].
      [BuildProfile]: whether [+] checks for overflow.  Theorems with the hypothesis
      [overflow_checks = false] are about the release profile, the one that ships;
      [Profile] relates the two: with the checks on, an instruction computes the same
      or panics, and which instructions panic is stated exactly.

    ** What is proved

    - Decoding ([Inst]): decoding inverts encoding in all formats; fields are in range
      and immediates are those of the manual.
    - Memory ([MemoryProps]): the page-based word and block accesses equal the
      byte-by-byte methods of the trait; the instruction window never causes a device
      read; write then read; no panic.
    - Instructions: RV32IM against an independent specification ([isa_refines] in
      [IsaSpec]); loads, stores, devices and atomics ([IsaMem]); every compressed code
      point against the expansion table of the manual less the [c.lui x0] hints, which
      the emulator refuses ([RvcProps]); system calls with the limits of the program
      break, CSRs, interrupts ([SysProps]); the F and D instructions against IEEE 754
      numbers ([FloatSpec]: every operation correctly rounded, the multiply-add family
      in two operations where the manual fuses them, conversions truncated and
      saturated, exact conversions invertible); independence of the platform's NaNs and
      the doubleword round trip ([FloatProps]).
    - Errors: exactly which words are refused, with which error and with what left
      untouched ([Errors]); what overflow checks change ([Profile]).
    - Safety ([Safe], [SafeExec], [RunProps]): [cpu_ok] and [machine_ok] are the type
      invariants; executing any word preserves them without a panic.
    - Run loops ([RunProps], [RunRef]): a slice terminates within its budget with an
      accurate status and breakpoints cannot stall a run.  On a host with an idle
      interrupt controller ([QuietHost]) a slice equals an instruction-at-a-time
      reference loop, slices compose, stepping agrees with slicing, and [run], out of
      debug mode, returns the exit code of every program that ends.
    - Front ends: option parsing ([Cli]); disassembly against the instruction set, with
      the texts that differ from an assembler's stated ([DisasmProps]); loading, which
      starts from scratch and panics exactly on headers whose file range wraps around
      ([load_fresh]), the loaded image of an executable in RAM, the debugger commands
      and range disassembly ([SimProps]); the layout, image, symbols and entry point of
      an object file, and the batch entry point [run_riscv_binary] from file to exit
      code ([Object]); the public methods as a transition system, with an invariant of
      every reachable state and what the next call does ([Session]).

    ** Bounds

    Loops run with an explicit number of iterations that is shown to be enough.  The
    inner loop of a slice makes at most [chunk + 1] iterations, the outer one
    [budget + 1], the block accesses one per byte and one more, [disassemble_range]
    one per byte of the range and one more.  [run] and [run_until_breakpoint] need not
    terminate, because a guest need not: they take the number of slices to try, and
    [run_complete], [batch_run] and [continue_complete] say how many are enough for a
    guest that stops.  In [Session] a call that has used up its slices has not
    returned.  Number formatting produces at most 64 digits, more than a 64-bit integer
    has in any base.

    ** What is not modelled

    The glue generated by [wasm-bindgen] and [serde] (JavaScript objects and argument
    arrays: the model takes lists of strings and returns records), the panic hook, the
    ELF parser itself, inlining and other attributes, and the cost of operations.  An
    allocation succeeds unless its size exceeds what a vector can hold
    ([read_memory_range]): running out of memory is not modelled.  The tests, the
    benches, the web page and the vendored C++ emulator are not part of the emulator.
    The floating-point arithmetic is specified by the Standard Library's [SpecFloat];
    the arithmetic of the target processor is taken to be IEEE 754. *)

From stdpp Require Export base numbers list gmap strings.
From Stdlib Require Export Lia.

#[global] Open Scope Z_scope.

(** * Machine integers

    A [w]-bit unsigned Rust integer is a [Z] in [0, 2^w), a [w]-bit signed one a
    [Z] in [-2^(w-1), 2^(w-1)).  The casts [as u32], [as i32], ... are [wrap] and
    [sext]. *)

Declare Scope word_scope.
Delimit Scope word_scope with word.
Infix ".&" := Z.land (at level 45, left associativity) : word_scope.
Infix ".^" := Z.lxor (at level 47, left associativity) : word_scope.
Infix ".|" := Z.lor (at level 48, left associativity) : word_scope.
Infix ".<<" := Z.shiftl (at level 42, left associativity) : word_scope.
Infix ".>>" := Z.shiftr (at level 42, left associativity) : word_scope.
#[global] Open Scope word_scope.

Definition wrap (w x : Z) : Z := x mod 2 ^ w.
Definition sext (w x : Z) : Z := (x + 2 ^ (w - 1)) mod 2 ^ w - 2 ^ (w - 1).

Abbreviation u8 := (wrap 8).
Abbreviation u16 := (wrap 16).
Abbreviation u32 := (wrap 32).
Abbreviation u64 := (wrap 64).
Abbreviation i8 := (sext 8).
Abbreviation i16 := (sext 16).
Abbreviation i32 := (sext 32).
Abbreviation i64 := (sext 64).

(** Bitwise complement of a [w]-bit word: Rust's [!x]. *)
Definition not_u (w x : Z) : Z := 2 ^ w - 1 - x.

Definition is_u (w x : Z) : Prop := 0 <= x < 2 ^ w.
Definition is_i (w x : Z) : Prop := - 2 ^ (w - 1) <= x < 2 ^ (w - 1).

#[global] Instance is_u_dec w x : Decision (is_u w x).
Proof. unfold is_u; apply _. Defined.
#[global] Instance is_i_dec w x : Decision (is_i w x).
Proof. unfold is_i; apply _. Defined.

(** [lia] with [/] and [mod] by constants translated to equations. *)
Ltac zlia := Z.to_euclidean_division_equations; lia.

Create HintDb word.

Lemma wrap_is_u w x : 0 <= w -> is_u w (wrap w x).
Proof. intros. unfold is_u, wrap. apply Z.mod_pos_bound. lia. Qed.

Lemma wrap_small w x : is_u w x -> wrap w x = x.
Proof. intros. by apply Z.mod_small. Qed.

Lemma sext_is_i w x : 0 < w -> is_i w (sext w x).
Proof.
  intros. unfold is_i, sext.
  pose proof (Z.mod_pos_bound (x + 2 ^ (w - 1)) (2 ^ w)).
  replace (2 ^ w) with (2 * 2 ^ (w - 1)) in * by (rewrite <- Z.pow_succ_r; f_equal; lia).
  lia.
Qed.

Lemma is_u_mono w w' x : 0 <= w <= w' -> is_u w x -> is_u w' x.
Proof.
  unfold is_u. intros Hw Hx. pose proof (Z.pow_le_mono_r 2 w w'). lia.
Qed.

Lemma is_u_nonneg w x : is_u w x -> 0 <= x.
Proof. unfold is_u. lia. Qed.

Lemma testbit_wrap w x i :
  0 <= w -> 0 <= i -> Z.testbit (wrap w x) i = (i <? w) && Z.testbit x i.
Proof.
  intros. unfold wrap. destruct (Z.ltb_spec i w).
  - by rewrite Z.mod_pow2_bits_low by lia.
  - by rewrite Z.mod_pow2_bits_high by lia.
Qed.

(** The complement of a word, bit by bit; masking with it clears bits. *)
Lemma not_u_testbit w x i :
  0 <= w -> is_u w x -> 0 <= i -> Z.testbit (not_u w x) i = (i <? w) && negb (Z.testbit x i).
Proof.
  intros Hw Hx Hi. replace (not_u w x) with (wrap w (Z.lnot x)).
  - rewrite testbit_wrap, Z.lnot_spec by done. done.
  - unfold wrap, not_u, Z.lnot, is_u in *. symmetry. apply Z.mod_unique with (-1); lia.
Qed.

Lemma land_not_u w x y : 0 <= w -> is_u w x -> is_u w y -> x .& not_u w y = Z.ldiff x y.
Proof.
  intros Hw Hx Hy. apply Z.bits_inj'. intros i Hi. rewrite Z.land_spec, Z.ldiff_spec, not_u_testbit by done.
  rewrite <- (wrap_small w x Hx), testbit_wrap by done. by destruct (i <? w), (Z.testbit x i).
Qed.

(** Sign extension in terms of truncation: the form the bit-level proofs use. *)
Lemma sext_wrap w x :
  0 < w ->
  sext w x = if Z.testbit x (w - 1) then wrap w x - 2 ^ w else wrap w x.
Proof.
  intros Hw. unfold sext, wrap.
  set (h := 2 ^ (w - 1)).
  assert (Hp : 2 ^ w = 2 * h) by (unfold h; rewrite <- Z.pow_succ_r; f_equal; lia).
  assert (0 < h) by (unfold h; lia).
  assert (Ht : Z.testbit x (w - 1) = (h <=? x mod 2 ^ w)).
  { transitivity (Z.testbit (wrap w x) (w - 1)).
    - rewrite testbit_wrap by lia. by rewrite (proj2 (Z.ltb_lt _ _)) by lia.
    - pose proof (Z.mod_pos_bound x (2 ^ w)). unfold wrap.
      destruct (Z.leb_spec h (x mod 2 ^ w)).
      + apply Z.testbit_true; [lia|]. fold h.
        replace (x mod 2 ^ w / h) with 1; [done|].
        apply Z.div_unique with (x mod 2 ^ w - h); lia.
      + apply Z.testbit_false; [lia|]. fold h. rewrite Z.div_small by lia. done. }
  rewrite Ht, Hp in *. pose proof (Z.mod_pos_bound x (2 * h)).
  pose proof (Z.div_mod x (2 * h)) as Hx.
  destruct (Z.leb_spec h (x mod (2 * h))).
  - replace ((x + h) mod (2 * h)) with (x mod (2 * h) - h); [lia|].
    apply Z.mod_unique with (x / (2 * h) + 1); lia.
  - replace ((x + h) mod (2 * h)) with (x mod (2 * h) + h); [lia|].
    apply Z.mod_unique with (x / (2 * h)); lia.
Qed.

Lemma testbit_sub_pow2 w x i :
  is_u w x -> 0 <= w <= i -> Z.testbit (x - 2 ^ w) i = true.
Proof.
  unfold is_u. intros. rewrite <- (Z.lnot_involutive (x - 2 ^ w)), Z.lnot_spec by lia.
  apply negb_true_iff.
  rewrite <- (Z.mod_small (Z.lnot _) (2 ^ w)) by (unfold Z.lnot; lia).
  by rewrite Z.mod_pow2_bits_high by lia.
Qed.

Lemma testbit_sext w x i :
  0 < w -> 0 <= i -> Z.testbit (sext w x) i = Z.testbit x (Z.min i (w - 1)).
Proof.
  intros Hw Hi. rewrite sext_wrap by done.
  destruct (Z.min_spec i (w - 1)) as [[? ->]|[? ->]].
  - destruct (Z.testbit x (w - 1)); [|rewrite testbit_wrap by lia; by destruct (Z.ltb_spec i w); [|lia]].
    transitivity (Z.testbit (wrap w (wrap w x - 2 ^ w)) i).
    { rewrite testbit_wrap by lia. by destruct (Z.ltb_spec i w); [|lia]. }
    replace (wrap w (wrap w x - 2 ^ w)) with (wrap w x).
    { rewrite testbit_wrap by lia. by destruct (Z.ltb_spec i w); [|lia]. }
    unfold wrap. rewrite Zminus_mod_idemp_l, <- Zminus_mod_idemp_r, Z_mod_same_full.
    f_equal. lia.
  - destruct (Z.testbit x (w - 1)) eqn:Hb.
    + destruct (decide (i = w - 1)) as [->|].
      * rewrite <- (Z.mod_pow2_bits_low _ w) by lia.
        rewrite <- Zminus_mod_idemp_r, Z_mod_same_full, Z.sub_0_r.
        unfold wrap. rewrite Zmod_mod. by rewrite Z.mod_pow2_bits_low by lia.
      * apply testbit_sub_pow2; [apply wrap_is_u|]; lia.
    + rewrite testbit_wrap by lia. destruct (Z.ltb_spec i w); simpl; [|done].
      by replace i with (w - 1) by lia.
Qed.

(** * Effects

    [HM H A]: a computation that may call the host (state [H]) and may panic
    ([None]).  The memory operations live here.

    [EM S E A]: a computation over a mutable state [S] that returns [Ok], returns
    an error [Err] with the state as it was left, or panics.  The [Result]-valued
    methods of the CPU live here; [?] is [mbind]. *)

Definition HM (H A : Type) : Type := H -> option (A * H).

#[global] Instance HM_ret {H} : MRet (HM H) := fun A a h => Some (a, h).
#[global] Instance HM_bind {H} : MBind (HM H) :=
  fun A B f m h => match m h with Some (a, h') => f a h' | None => None end.

Definition hm_panic {H A} : HM H A := fun _ => None.
(** Unwraps an indexing operation: [None] is an index out of bounds. *)
Definition hm_index {H A} (o : option A) : HM H A :=
  match o with Some a => mret a | None => hm_panic end.

Lemma hm_bind_some {H A B} (m : HM H A) (f : A -> HM H B) h a h' :
  m h = Some (a, h') -> (m ≫= f) h = f a h'.
Proof. intros E. unfold mbind, HM_bind. by rewrite E. Qed.

Lemma hm_index_bind {H A B} (a : A) (f : A -> HM H B) h : (hm_index (Some a) ≫= f) h = f a h.
Proof. done. Qed.

Inductive outcome (S E A : Type) : Type :=
| Ok (a : A) (s : S)
| Err (e : E) (s : S)
| Panic.
Arguments Ok {S E A} a s.
Arguments Err {S E A} e s.
Arguments Panic {S E A}.

Definition EM (S E A : Type) : Type := S -> outcome S E A.

#[global] Instance EM_ret {S E} : MRet (EM S E) := fun A a s => Ok a s.
#[global] Instance EM_bind {S E} : MBind (EM S E) :=
  fun A B f m s =>
    match m s with
    | Ok a s' => f a s'
    | Err e s' => Err e s'
    | Panic => Panic
    end.

Definition em_get {S E} : EM S E S := fun s => Ok s s.
Definition em_gets {S E A} (f : S -> A) : EM S E A := fun s => Ok (f s) s.
Definition em_modify {S E} (f : S -> S) : EM S E unit := fun s => Ok tt (f s).
Definition em_throw {S E A} (e : E) : EM S E A := fun s => Err e s.
Definition em_panic {S E A} : EM S E A := fun _ => Panic.
Definition em_index {S E A} (o : option A) : EM S E A :=
  match o with Some a => mret a | None => em_panic end.
(** [Result::map_err]. *)
Definition em_map_err {S E E' A} (f : E -> E') (m : EM S E A) : EM S E' A :=
  fun s => match m s with Ok a s' => Ok a s' | Err e s' => Err (f e) s' | Panic => Panic end.

(** The [Result] as a value: [match m { Ok .. Err .. }]. *)
Definition em_result {S E E' A} (m : EM S E A) : EM S E' (E + A) :=
  fun s => match m s with Ok a s' => Ok (inr a) s' | Err e s' => Ok (inl e) s' | Panic => Panic end.

(** ** Total-correctness triples

    [triple P m Q R]: from a state satisfying [P], [m] does not panic, and it
    either returns with [Q] or fails with [R]. *)

Definition triple {S E A} (P : S -> Prop) (m : EM S E A)
  (Q : A -> S -> Prop) (R : E -> S -> Prop) : Prop :=
  forall s, P s -> match m s with Ok a s' => Q a s' | Err e s' => R e s' | Panic => False end.

Section Triples.
Context {S E : Type}.
Implicit Types P : S -> Prop.
Implicit Types R : E -> S -> Prop.

Lemma triple_ret {A} P (a : A) (Q : A -> S -> Prop) R :
  (forall s, P s -> Q a s) -> triple P (mret a) Q R.
Proof. intros H s Hs. by apply H. Qed.

Lemma triple_bind {A B} P (m : EM S E A) (f : A -> EM S E B) Q' Q R :
  triple P m Q' R -> (forall a, triple (Q' a) (f a) Q R) -> triple P (m ≫= f) Q R.
Proof.
  intros Hm Hf s Hs. unfold mbind, EM_bind. specialize (Hm s Hs).
  destruct (m s) as [a s'|e s'|]; [by apply Hf|done|done].
Qed.

Lemma triple_consequence {A} P P' (m : EM S E A) (Q Q' : A -> S -> Prop) R R' :
  triple P' m Q' R' -> (forall s, P s -> P' s) -> (forall a s, Q' a s -> Q a s) ->
  (forall e s, R' e s -> R e s) -> triple P m Q R.
Proof.
  intros Hm HP HQ HR s Hs. specialize (Hm s (HP s Hs)). destruct (m s); eauto.
Qed.

Lemma triple_throw {A} P (e : E) (Q : A -> S -> Prop) R :
  (forall s, P s -> R e s) -> triple P (em_throw e) Q R.
Proof. intros H s Hs. by apply H. Qed.

Lemma triple_modify P f (Q : unit -> S -> Prop) R :
  (forall s, P s -> Q tt (f s)) -> triple P (em_modify f) Q R.
Proof. intros H s Hs. by apply H. Qed.

Lemma triple_gets {A} P (f : S -> A) (Q : A -> S -> Prop) R :
  (forall s, P s -> Q (f s) s) -> triple P (em_gets f) Q R.
Proof. intros H s Hs. by apply H. Qed.

Lemma triple_pure {A} (φ : Prop) P (m : EM S E A) Q R :
  (φ -> triple P m Q R) -> triple (fun s => φ /\ P s) m Q R.
Proof. intros H s [Hφ Hs]. by apply H. Qed.
End Triples.

(** * Loops

    [loop body n s] runs [body] at most [n] times, stopping at the first [inr].
    The count is a binary number, so a bound such as [u32::MAX] stays executable.
    [loop_nat] is its unary specification. *)

Fixpoint loop {S R} (body : S -> S + R) (n : positive) (s : S) : S + R :=
  match n with
  | xH => body s
  | xO n => match loop body n s with inl s' => loop body n s' | inr r => inr r end
  | xI n =>
    match body s with
    | inl s' => match loop body n s' with inl s'' => loop body n s'' | inr r => inr r end
    | inr r => inr r
    end
  end.

Fixpoint loop_nat {S R} (body : S -> S + R) (n : nat) (s : S) : S + R :=
  match n with
  | O => inl s
  | Datatypes.S n => match body s with inl s' => loop_nat body n s' | inr r => inr r end
  end.

Lemma loop_nat_add {S R} (body : S -> S + R) n m s :
  loop_nat body (n + m) s =
  match loop_nat body n s with inl s' => loop_nat body m s' | inr r => inr r end.
Proof. revert s. induction n as [|n IH]; intros s; simpl; [done|]. by destruct (body s). Qed.

Lemma loop_spec {S R} (body : S -> S + R) n s : loop body n s = loop_nat body (Pos.to_nat n) s.
Proof.
  revert s. induction n as [n IH|n IH|]; intros s; cbn [loop].
  - rewrite Pos2Nat.inj_xI. simpl. destruct (body s) as [s'|r]; [|done].
    rewrite Nat.add_0_r, loop_nat_add, IH. by destruct (loop_nat body (Pos.to_nat n) s').
  - rewrite Pos2Nat.inj_xO. simpl. rewrite Nat.add_0_r, loop_nat_add, IH.
    by destruct (loop_nat body (Pos.to_nat n) s).
  - rewrite Pos2Nat.inj_1. simpl. by destruct (body s).
Qed.

(** A loop whose body decreases a measure stops within that many iterations. *)
Lemma loop_nat_terminates {S R} (body : S -> S + R) (I : S -> Prop) (μ : S -> Z) n s :
  (forall s s', I s -> body s = inl s' -> I s' /\ 0 <= μ s' < μ s) ->
  I s -> μ s < Z.of_nat n -> 0 <= μ s -> exists r, loop_nat body n s = inr r.
Proof.
  intros Hb. revert s. induction n as [|n IH]; intros s Hs Hn Hp; [lia|]. simpl.
  destruct (body s) as [s'|r] eqn:Hbs; [|eauto].
  destruct (Hb _ _ Hs Hbs) as [Hs' ?]. apply IH; [done|lia..].
Qed.

(** Partial-correctness rule: an invariant of the body and what each exit gives. *)
Lemma loop_nat_inv {S R} (body : S -> S + R) (I : S -> Prop) (Q : R -> Prop) n s :
  (forall s, I s -> match body s with inl s' => I s' | inr r => Q r end) ->
  I s -> match loop_nat body n s with inl s' => I s' | inr r => Q r end.
Proof.
  intros Hb. revert s. induction n as [|n IH]; intros s Hs; simpl; [done|].
  pose proof (Hb s Hs) as Hs'. destruct (body s); [by apply IH|done].
Qed.

(** A loop of effectful iterations.  Running out of iterations counts as [Panic],
    so a proof that a loop does not panic shows that the bound is enough. *)
Definition em_loop_body {S E A R} (body : A -> EM S E (A + R)) (x : A * S)
  : (A * S) + outcome S E R :=
  match body x.1 x.2 with
  | Ok (inl a) s => inl (a, s)
  | Ok (inr r) s => inr (Ok r s)
  | Err e s => inr (Err e s)
  | Panic => inr Panic
  end.

Definition em_loop {S E A R} (body : A -> EM S E (A + R)) (n : positive) (a : A) : EM S E R :=
  fun s => match loop (em_loop_body body) n (a, s) with inl _ => Panic | inr o => o end.

(** Total correctness of a loop, from an invariant and a measure that fits the
    bound. *)
Lemma triple_em_loop {S E A R} (body : A -> EM S E (A + R)) (I : A -> S -> Prop) (μ : A -> Z)
    (Q : R -> S -> Prop) (X : E -> S -> Prop) n a :
  (forall a, triple (I a) (body a)
    (fun r s => match r with inl a' => I a' s /\ 0 <= μ a' < μ a | inr r => Q r s end) X) ->
  0 <= μ a < Zpos n -> triple (I a) (em_loop body n a) Q X.
Proof.
  intros Hb Hμ s Hs. unfold em_loop. rewrite loop_spec.
  assert (Hn : μ a < Z.of_nat (Pos.to_nat n)) by lia.
  assert (H0 : 0 <= μ a) by lia. clear Hμ.
  revert a s Hs Hn H0. induction (Pos.to_nat n) as [|k IH]; intros a s Hs Hn H0; [lia|].
  cbn [loop_nat]. unfold em_loop_body at 1. cbn [fst snd]. specialize (Hb a s Hs).
  destruct (body a s) as [[a'|r] s'|e s'|]; [|done..].
  destruct Hb as [HI ?]. apply IH; [done|lia..].
Qed.
