(* ===== verification/Bits.v ===== *)
(** Proof by reflection for bit-field expressions.

    Instruction decoding, immediate reassembly and byte packing are built from
    masks, shifts, truncations and sign extensions of a few variables of known
    width.  [bexp] is the syntax of such expressions; [bit] computes, for each bit
    position of the result, which input bit (or constant) ends up there; [bit_eq]
    and [bit_range] turn an equality or a range statement about two expressions
    into a finite computation.  The tactics [bits] and [bits_range] reify a goal
    and run it. *)

From S2P Require Import Prelude.

Inductive bexp :=
| BVar (n : nat)
| BConst (z : Z)
| BAnd (a b : bexp)
| BOr (a b : bexp)
| BXor (a b : bexp)
| BAdd (a b : bexp)
| BShl (a : bexp) (k : Z)
| BShr (a : bexp) (k : Z)
| BWrap (w : Z) (a : bexp)
| BSext (w : Z) (a : bexp).

(** The environment pairs each variable with its width. *)
Definition env := list (Z * Z).

Definition lookup_var (ρ : env) (n : nat) : Z * Z := nth n ρ (0, 0).
Definition env_ok (ρ : env) : Prop := Forall (fun p => 0 <= p.1 /\ is_u p.1 p.2) ρ.

Fixpoint denote (ρ : env) (e : bexp) : Z :=
  match e with
  | BVar n => (lookup_var ρ n).2
  | BConst z => z
  | BAnd a b => denote ρ a .& denote ρ b
  | BOr a b => denote ρ a .| denote ρ b
  | BXor a b => denote ρ a .^ denote ρ b
  | BAdd a b => denote ρ a + denote ρ b
  | BShl a k => denote ρ a .<< k
  | BShr a k => denote ρ a .>> k
  | BWrap w a => wrap w (denote ρ a)
  | BSext w a => sext w (denote ρ a)
  end.

(** Symbolic value of one bit. *)
Inductive bx :=
| Bc (b : bool)
| Bv (n : nat) (i : Z)
| Band (a b : bx)
| Bor (a b : bx)
| Bxor (a b : bx).

#[global] Instance bx_eq_dec : EqDecision bx.
Proof. solve_decision. Defined.

Fixpoint bdenote (ρ : env) (x : bx) : bool :=
  match x with
  | Bc b => b
  | Bv n i => Z.testbit (lookup_var ρ n).2 i
  | Band a b => bdenote ρ a && bdenote ρ b
  | Bor a b => bdenote ρ a || bdenote ρ b
  | Bxor a b => xorb (bdenote ρ a) (bdenote ρ b)
  end.

Definition mk_and (a b : bx) : bx :=
  match a, b with
  | Bc false, _ | _, Bc false => Bc false
  | Bc true, x | x, Bc true => x
  | _, _ => Band a b
  end.

Definition mk_or (a b : bx) : bx :=
  match a, b with
  | Bc true, _ | _, Bc true => Bc true
  | Bc false, x | x, Bc false => x
  | _, _ => if decide (a = b) then a else Bor a b
  end.

Definition mk_xor (a b : bx) : bx :=
  match a, b with
  | Bc x, Bc y => Bc (xorb x y)
  | Bc false, x | x, Bc false => x
  | _, _ => if decide (a = b) then Bc false else Bxor a b
  end.

(** [ws] lists the variables' widths. *)
Fixpoint bit (ws : list Z) (e : bexp) (i : Z) : bx :=
  match e with
  | BVar n => if i <? nth n ws 0 then Bv n i else Bc false
  | BConst z => Bc (Z.testbit z i)
  | BAnd a b => mk_and (bit ws a i) (bit ws b i)
  | BOr a b | BAdd a b => mk_or (bit ws a i) (bit ws b i)
  | BXor a b => mk_xor (bit ws a i) (bit ws b i)
  | BShl a k => if i <? k then Bc false else bit ws a (i - k)
  | BShr a k => bit ws a (i + k)
  | BWrap w a => if i <? w then bit ws a i else Bc false
  | BSext w a => bit ws a (Z.min i (w - 1))
  end.

(** Position from which every bit of the value is the same. *)
Fixpoint stab (ws : list Z) (e : bexp) : Z :=
  match e with
  | BVar n => nth n ws 0
  | BConst z => Z.succ (Z.log2 (Z.abs z))
  | BAnd a b | BOr a b | BXor a b | BAdd a b => Z.max (stab ws a) (stab ws b)
  | BShl a k => stab ws a + k
  | BShr a k => Z.max 0 (stab ws a - k)
  | BWrap w a => w
  | BSext w a => w - 1
  end.

(** Sums are bitwise only when no bit position is set on both sides. *)
Definition disjoint_check (ws : list Z) (a b : bexp) : bool :=
  forallb (fun i => bool_decide (mk_and (bit ws a i) (bit ws b i) = Bc false))
    (seqZ 0 (Z.succ (Z.max (stab ws a) (stab ws b)))).

Fixpoint bwf (ws : list Z) (e : bexp) : bool :=
  match e with
  | BVar _ | BConst _ => true
  | BAnd a b | BOr a b | BXor a b => bwf ws a && bwf ws b
  | BAdd a b => bwf ws a && bwf ws b && disjoint_check ws a b
  | BShl a k | BShr a k => (0 <=? k) && bwf ws a
  | BWrap w a | BSext w a => (0 <? w) && bwf ws a
  end.

Definition widths (ρ : env) : list Z := map fst ρ.

Section Soundness.
Context (ρ : env) (Hρ : env_ok ρ).

Lemma widths_nth n : nth n (widths ρ) 0 = (lookup_var ρ n).1.
Proof. exact (map_nth fst ρ (0, 0) n). Qed.

Lemma lookup_var_ok n : 0 <= (lookup_var ρ n).1 /\ is_u (lookup_var ρ n).1 (lookup_var ρ n).2.
Proof.
  unfold lookup_var. destruct (Nat.lt_ge_cases n (length ρ)) as [Hn|Hn].
  - unfold env_ok in Hρ. rewrite Stdlib.Lists.List.Forall_forall in Hρ. apply Hρ, nth_In, Hn.
  - rewrite nth_overflow by done. unfold is_u. simpl. lia.
Qed.

Lemma mk_and_ok a b : bdenote ρ (mk_and a b) = bdenote ρ a && bdenote ρ b.
Proof. destruct a as [[]| | | |], b as [[]| | | |]; simpl; by rewrite ?andb_true_r, ?andb_false_r. Qed.

Lemma mk_or_ok a b : bdenote ρ (mk_or a b) = bdenote ρ a || bdenote ρ b.
Proof.
  destruct a as [[]| | | |], b as [[]| | | |]; unfold mk_or; simpl;
    repeat case_decide; simplify_eq; simpl; by rewrite ?orb_true_r, ?orb_false_r, ?orb_diag.
Qed.

Lemma mk_xor_ok a b : bdenote ρ (mk_xor a b) = xorb (bdenote ρ a) (bdenote ρ b).
Proof.
  destruct a as [[]| | | |], b as [[]| | | |]; unfold mk_xor; simpl;
    repeat case_decide; simplify_eq; simpl; by rewrite ?xorb_false_l, ?xorb_false_r, ?xorb_nilpotent.
Qed.

Lemma const_stab z i :
  Z.succ (Z.log2 (Z.abs z)) <= i -> Z.testbit z i = (z <? 0).
Proof.
  intros Hi. pose proof (Z.log2_nonneg (Z.abs z)). destruct (Z.ltb_spec z 0).
  - apply Z.bits_above_log2_neg; [done|].
    pose proof (Z.log2_le_mono (Z.pred (- z)) (Z.abs z)). lia.
  - apply Z.bits_above_log2; [done|]. rewrite Z.abs_eq in Hi by done. lia.
Qed.

Lemma seqZ_forallb (f : Z -> bool) n i :
  forallb f (seqZ 0 n) = true -> 0 <= i < n -> f i = true.
Proof.
  intros Hf Hi. rewrite forallb_forall in Hf. apply Hf.
  apply list_elem_of_In, elem_of_seqZ. lia.
Qed.

Lemma add_disjoint x y : x .& y = 0 -> x + y = x .| y.
Proof. intros H. rewrite Z.add_nocarry_lxor by done. by rewrite Z.lxor_lor. Qed.

(** What the induction establishes of each subexpression. *)
Definition sound (e : bexp) : Prop :=
  0 <= stab (widths ρ) e /\
  (forall i, 0 <= i -> bdenote ρ (bit (widths ρ) e i) = Z.testbit (denote ρ e) i) /\
  (forall i, stab (widths ρ) e <= i ->
     Z.testbit (denote ρ e) i = Z.testbit (denote ρ e) (stab (widths ρ) e)).

Lemma sound_binop f (g : bool -> bool -> bool) mk a b :
  (forall x y i, Z.testbit (f x y) i = g (Z.testbit x i) (Z.testbit y i)) ->
  (forall x y, bdenote ρ (mk x y) = g (bdenote ρ x) (bdenote ρ y)) ->
  sound a -> sound b ->
  let N := Z.max (stab (widths ρ) a) (stab (widths ρ) b) in
  0 <= N /\
  (forall i, 0 <= i -> bdenote ρ (mk (bit (widths ρ) a i) (bit (widths ρ) b i))
                       = Z.testbit (f (denote ρ a) (denote ρ b)) i) /\
  (forall i, N <= i -> Z.testbit (f (denote ρ a) (denote ρ b)) i
                       = Z.testbit (f (denote ρ a) (denote ρ b)) N).
Proof.
  intros Hf Hmk (Ha0 & Ha & Hsa) (Hb0 & Hb & Hsb) N. split_and!; [lia|..]; intros i Hi.
  - by rewrite Hmk, Hf, Ha, Hb.
  - rewrite !Hf. rewrite (Hsa i), (Hsb i), (Hsa N), (Hsb N) by lia. done.
Qed.

Lemma sound_and a b : sound a -> sound b -> sound (BAnd a b).
Proof. apply (sound_binop Z.land andb mk_and); [apply Z.land_spec|apply mk_and_ok]. Qed.
Lemma sound_or a b : sound a -> sound b -> sound (BOr a b).
Proof. apply (sound_binop Z.lor orb mk_or); [apply Z.lor_spec|apply mk_or_ok]. Qed.
Lemma sound_xor a b : sound a -> sound b -> sound (BXor a b).
Proof. apply (sound_binop Z.lxor xorb mk_xor); [apply Z.lxor_spec|apply mk_xor_ok]. Qed.

Lemma disjoint_ok a b :
  sound a -> sound b -> disjoint_check (widths ρ) a b = true -> denote ρ a .& denote ρ b = 0.
Proof.
  intros Ha Hb Hd. destruct (sound_and a b Ha Hb) as (HN & Hbit & Hst). cbn [stab denote bit] in *.
  set (N := Z.max _ _) in *.
  assert (Hlow : forall i, 0 <= i <= N -> Z.testbit (denote ρ a .& denote ρ b) i = false).
  { intros i Hi. rewrite <- Hbit by lia.
    pose proof (seqZ_forallb _ _ i Hd ltac:(lia)) as ->%bool_decide_eq_true. done. }
  apply Z.bits_inj'. intros i Hi. rewrite Z.bits_0.
  destruct (Z.le_gt_cases i N); [by apply Hlow|]. rewrite Hst by lia. apply Hlow. lia.
Qed.

Lemma sound_add a b :
  sound a -> sound b -> disjoint_check (widths ρ) a b = true -> sound (BAdd a b).
Proof.
  intros Ha Hb Hd. pose proof (disjoint_ok a b Ha Hb Hd) as H0%add_disjoint.
  destruct (sound_or a b Ha Hb) as (HN & Hbit & Hst). unfold sound. cbn [stab denote bit] in *.
  rewrite H0. done.
Qed.

Lemma bwf_sound e : bwf (widths ρ) e = true -> sound e.
Proof.
  induction e; cbn [bwf]; intros Hwf; rewrite ?andb_true_iff in Hwf.
  - unfold sound. cbn [stab bit denote]. rewrite widths_nth.
    destruct (lookup_var_ok n) as [? Hu].
    rewrite <- (wrap_small _ _ Hu). split_and!; [done|..]; intros i Hi; rewrite !testbit_wrap by lia.
    + destruct (Z.ltb_spec i (lookup_var ρ n).1); done.
    + destruct (Z.ltb_spec i (lookup_var ρ n).1); [lia|].
      by destruct (Z.ltb_spec (lookup_var ρ n).1 (lookup_var ρ n).1); [lia|].
  - unfold sound. cbn [stab bit denote]. pose proof (Z.log2_nonneg (Z.abs z)).
    split_and!; [lia|done|]. intros i Hi. by rewrite !const_stab by lia.
  - destruct Hwf. apply sound_and; auto.
  - destruct Hwf. apply sound_or; auto.
  - destruct Hwf. apply sound_xor; auto.
  - destruct Hwf as [[] ?]. apply sound_add; auto.
  - destruct Hwf as [?%Z.leb_le (H0 & Hb & Hs)%IHe]. unfold sound. cbn [stab bit denote].
    split_and!; [lia|..]; intros i Hi; rewrite !Z.shiftl_spec by lia.
    + destruct (Z.ltb_spec i k); simpl; [by rewrite Z.testbit_neg_r by lia|]. apply Hb. lia.
    + rewrite (Hs (i - k)), (Hs (_ + k - k)) by lia. done.
  - destruct Hwf as [?%Z.leb_le (H0 & Hb & Hs)%IHe]. unfold sound. cbn [stab bit denote].
    split_and!; [lia|..]; intros i Hi; rewrite !Z.shiftr_spec by lia.
    + apply Hb. lia.
    + rewrite (Hs (i + k)), (Hs (Z.max _ _ + k)) by lia. done.
  - destruct Hwf as [?%Z.ltb_lt (H0 & Hb & Hs)%IHe]. unfold sound. cbn [stab bit denote].
    split_and!; [lia|..]; intros i Hi; rewrite !testbit_wrap by lia.
    + destruct (i <? w); simpl; auto.
    + destruct (Z.ltb_spec i w); [lia|]. by destruct (Z.ltb_spec w w); [lia|].
  - destruct Hwf as [?%Z.ltb_lt (H0 & Hb & Hs)%IHe]. unfold sound. cbn [stab bit denote].
    split_and!; [lia|..]; intros i Hi; rewrite !testbit_sext by lia.
    + apply Hb. lia.
    + f_equal. lia.
Qed.

Definition bit_eq_check (ws : list Z) (e1 e2 : bexp) : bool :=
  bwf ws e1 && bwf ws e2 &&
  forallb (fun i => bool_decide (bit ws e1 i = bit ws e2 i))
    (seqZ 0 (Z.succ (Z.max (stab ws e1) (stab ws e2)))).

Lemma bit_eq e1 e2 : bit_eq_check (widths ρ) e1 e2 = true -> denote ρ e1 = denote ρ e2.
Proof.
  unfold bit_eq_check. rewrite !andb_true_iff.
  intros [[(H1 & Hb1 & Hs1)%bwf_sound (H2 & Hb2 & Hs2)%bwf_sound] Hf].
  set (N := Z.max (stab (widths ρ) e1) (stab (widths ρ) e2)) in *.
  assert (Hlow : forall i, 0 <= i <= N -> Z.testbit (denote ρ e1) i = Z.testbit (denote ρ e2) i).
  { intros i Hi. pose proof (seqZ_forallb _ _ i Hf ltac:(lia)) as Hb%bool_decide_eq_true.
    rewrite <- Hb1, <- Hb2, Hb by lia. done. }
  apply Z.bits_inj'. intros i Hi. destruct (Z.le_gt_cases i N); [by apply Hlow; lia|].
  rewrite (Hs1 i), (Hs2 i), <- (Hs1 N), <- (Hs2 N) by lia. apply Hlow. lia.
Qed.

Definition bit_range_check (ws : list Z) (w : Z) (e : bexp) : bool :=
  bwf ws e && (0 <=? w) &&
  forallb (fun i => (i <? w) || bool_decide (bit ws e i = Bc false))
    (seqZ 0 (Z.succ (Z.max w (stab ws e)))).

Lemma bit_range w e : bit_range_check (widths ρ) w e = true -> is_u w (denote ρ e).
Proof.
  unfold bit_range_check. rewrite !andb_true_iff.
  intros [[(H0 & Hb & Hs)%bwf_sound Hw%Z.leb_le] Hf].
  set (N := Z.max w (stab (widths ρ) e)) in *.
  assert (Hlow : forall i, w <= i <= N -> Z.testbit (denote ρ e) i = false).
  { intros i Hi. pose proof (seqZ_forallb _ _ i Hf ltac:(lia)) as Hbi.
    apply orb_true_iff in Hbi as [?%Z.ltb_lt|Hbi%bool_decide_eq_true]; [lia|].
    rewrite <- Hb, Hbi by lia. done. }
  replace (denote ρ e) with (wrap w (denote ρ e)); [by apply wrap_is_u|].
  apply Z.bits_inj'. intros i Hi. rewrite testbit_wrap by done.
  destruct (Z.ltb_spec i w); [done|]. simpl. symmetry.
  destruct (Z.le_gt_cases i N); [apply Hlow; lia|].
  rewrite (Hs i), <- (Hs N) by lia. apply Hlow. lia.
Qed.
End Soundness.

(** ** Reification

    [reifies ρ e t] relates a term to its syntax.  It is built constructor by
    constructor, so that checking it never has to unfold an arithmetic operation. *)

Inductive reifies (ρ : env) : bexp -> Z -> Prop :=
| RVar n w x : lookup_var ρ n = (w, x) -> reifies ρ (BVar n) x
| RConst z : reifies ρ (BConst z) z
| RAnd a b x y : reifies ρ a x -> reifies ρ b y -> reifies ρ (BAnd a b) (Z.land x y)
| ROr a b x y : reifies ρ a x -> reifies ρ b y -> reifies ρ (BOr a b) (Z.lor x y)
| RXor a b x y : reifies ρ a x -> reifies ρ b y -> reifies ρ (BXor a b) (Z.lxor x y)
| RAdd a b x y : reifies ρ a x -> reifies ρ b y -> reifies ρ (BAdd a b) (Z.add x y)
| RShl a x k : reifies ρ a x -> reifies ρ (BShl a k) (Z.shiftl x k)
| RShr a x k : reifies ρ a x -> reifies ρ (BShr a k) (Z.shiftr x k)
| RWrap w a x : reifies ρ a x -> reifies ρ (BWrap w a) (wrap w x)
| RSext w a x : reifies ρ a x -> reifies ρ (BSext w a) (sext w x).

Lemma reifies_denote ρ e t : reifies ρ e t -> denote ρ e = t.
Proof. induction 1; simpl; try congruence. by rewrite H. Qed.

Lemma bits_solve ρ e1 e2 a b :
  env_ok ρ -> reifies ρ e1 a -> reifies ρ e2 b ->
  bit_eq_check (widths ρ) e1 e2 = true -> a = b.
Proof. intros Hρ <-%reifies_denote <-%reifies_denote. by apply bit_eq. Qed.

Lemma range_solve ρ w e a :
  env_ok ρ -> reifies ρ e a -> bit_range_check (widths ρ) w e = true -> is_u w a.
Proof. intros Hρ <-%reifies_denote. by apply bit_range. Qed.

Lemma env_ok_nil : env_ok [].
Proof. constructor. Qed.
Lemma env_ok_cons w x ρ : (0 <=? w) = true -> is_u w x -> env_ok ρ -> env_ok ((w, x) :: ρ).
Proof. intros ?%Z.leb_le ? ?. by constructor. Qed.

Ltac b_is_const t :=
  lazymatch t with
  | Z0 => idtac
  | Zpos ?p => b_is_pos p
  | Zneg ?p => b_is_pos p
  end
with b_is_pos p :=
  lazymatch p with
  | xH => idtac
  | xO ?q => b_is_pos q
  | xI ?q => b_is_pos q
  end.

Ltac b_index ρ x :=
  lazymatch ρ with
  | (_, x) :: _ => constr:(O)
  | _ :: ?r => let n := b_index r x in constr:(S n)
  end.

(** Variables are the atoms for which the context has an [is_u] hypothesis. *)
Ltac b_vars ρ t :=
  lazymatch t with
  | Z.land ?a ?b => let ρ := b_vars ρ a in b_vars ρ b
  | Z.lor ?a ?b => let ρ := b_vars ρ a in b_vars ρ b
  | Z.lxor ?a ?b => let ρ := b_vars ρ a in b_vars ρ b
  | Z.add ?a ?b => let ρ := b_vars ρ a in b_vars ρ b
  | Z.shiftl ?a _ => b_vars ρ a
  | Z.shiftr ?a _ => b_vars ρ a
  | wrap _ ?a => b_vars ρ a
  | sext _ ?a => b_vars ρ a
  | _ =>
    match constr:(Set) with
    | _ => let _ := match goal with |- _ => b_is_const t end in ρ
    | _ => let _ := b_index ρ t in ρ
    | _ => match goal with H : is_u ?w t |- _ => constr:((w, t) :: ρ) end
    end
  end.

Ltac b_reify ρ t :=
  lazymatch t with
  | Z.land ?a ?b => let x := b_reify ρ a in let y := b_reify ρ b in constr:(BAnd x y)
  | Z.lor ?a ?b => let x := b_reify ρ a in let y := b_reify ρ b in constr:(BOr x y)
  | Z.lxor ?a ?b => let x := b_reify ρ a in let y := b_reify ρ b in constr:(BXor x y)
  | Z.add ?a ?b => let x := b_reify ρ a in let y := b_reify ρ b in constr:(BAdd x y)
  | Z.shiftl ?a ?k => let x := b_reify ρ a in constr:(BShl x k)
  | Z.shiftr ?a ?k => let x := b_reify ρ a in constr:(BShr x k)
  | wrap ?w ?a => let x := b_reify ρ a in constr:(BWrap w x)
  | sext ?w ?a => let x := b_reify ρ a in constr:(BSext w x)
  | _ =>
    match constr:(Set) with
    | _ => let _ := match goal with |- _ => b_is_const t end in constr:(BConst t)
    | _ => let n := b_index ρ t in constr:(BVar n)
    end
  end.

Ltac b_reifies :=
  lazymatch goal with
  | |- reifies _ (BVar _) _ => eapply RVar; reflexivity
  | |- reifies _ (BConst _) _ => apply RConst
  | |- reifies _ (BAnd _ _) _ => apply RAnd; b_reifies
  | |- reifies _ (BOr _ _) _ => apply ROr; b_reifies
  | |- reifies _ (BXor _ _) _ => apply RXor; b_reifies
  | |- reifies _ (BAdd _ _) _ => apply RAdd; b_reifies
  | |- reifies _ (BShl _ _) _ => apply RShl; b_reifies
  | |- reifies _ (BShr _ _) _ => apply RShr; b_reifies
  | |- reifies _ (BWrap _ _) _ => apply RWrap; b_reifies
  | |- reifies _ (BSext _ _) _ => apply RSext; b_reifies
  end.

Ltac b_env_ok :=
  repeat (apply env_ok_cons; [reflexivity|assumption|]); apply env_ok_nil.

(** Solves [e1 = e2] for bit-field expressions over variables of known width. *)
Ltac bits :=
  intros;
  lazymatch goal with
  | |- ?a = ?b =>
    let ρ := b_vars (@nil (Z * Z)) a in
    let ρ := b_vars ρ b in
    let x := b_reify ρ a in
    let y := b_reify ρ b in
    apply (bits_solve ρ x y); [b_env_ok | b_reifies | b_reifies | vm_compute; reflexivity]
  end.

(** Solves [is_u w e] for a bit-field expression over variables of known width. *)
Ltac bits_range :=
  intros;
  lazymatch goal with
  | |- is_u ?w ?a =>
    let ρ := b_vars (@nil (Z * Z)) a in
    let x := b_reify ρ a in
    apply (range_solve ρ w x); [b_env_ok | b_reifies | vm_compute; reflexivity]
  end.
