(* ===== verification/Inst.v ===== *)
(** Instruction words: field extraction and immediates.

    Models [src/src/utils.rs] ([shift_then_mask]) and [src/src/inst.rs] (the major
    opcodes, [DecodedInst32], [DecodedInst16] and the immediate accessors), plus
    the compressed-format field helpers at the top of [src/src/cpu.rs].  The
    encoders of [src/tests/instruction_tests.rs] serve as the inverse of decoding. *)

From S2P Require Import Prelude Bits.

Definition shift_then_mask (val shift mask : Z) : Z := (val .>> shift) .& mask.

Definition OP_LUI : Z := 0x37.
Definition OP_AUIPC : Z := 0x17.
Definition OP_JAL : Z := 0x6F.
Definition OP_JALR : Z := 0x67.
Definition OP_BRANCH : Z := 0x63.
Definition OP_LOAD : Z := 0x03.
Definition OP_STORE : Z := 0x23.
Definition OP_IMM : Z := 0x13.
Definition OP_OP : Z := 0x33.
Definition OP_MISC_MEM : Z := 0x0F.
Definition OP_SYSTEM : Z := 0x73.
Definition OP_AMO : Z := 0x2F.
Definition OP_LOAD_FP : Z := 0x07.
Definition OP_STORE_FP : Z := 0x27.
Definition OP_MADD : Z := 0x43.
Definition OP_MSUB : Z := 0x47.
Definition OP_NMSUB : Z := 0x4B.
Definition OP_NMADD : Z := 0x4F.
Definition OP_OP_FP : Z := 0x53.

Record DecodedInst32 := {
  raw : Z;
  opcode : Z;
  rd : Z;
  rs1 : Z;
  rs2 : Z;
  rs3 : Z;
  funct3 : Z;
  funct7 : Z
}.

Definition decode32 (inst : Z) : DecodedInst32 := {|
  raw := inst;
  opcode := u8 (inst .& 0x7F);
  rd := shift_then_mask inst 7 0x1F;
  funct3 := u8 (shift_then_mask inst 12 0x7);
  rs1 := shift_then_mask inst 15 0x1F;
  rs2 := shift_then_mask inst 20 0x1F;
  rs3 := shift_then_mask inst 27 0x1F;
  funct7 := u8 (shift_then_mask inst 25 0x7F)
|}.

Definition i_imm (i : DecodedInst32) : Z := i32 i.(raw) .>> 20.

Definition s_imm (i : DecodedInst32) : Z :=
  let imm11_5 := shift_then_mask i.(raw) 25 0x7F in
  let imm4_0 := shift_then_mask i.(raw) 7 0x1F in
  let raw_s := u32 (imm11_5 .<< 5) .| imm4_0 in
  i32 (i32 raw_s .<< 20) .>> 20.

Definition b_imm (i : DecodedInst32) : Z :=
  let imm12 := shift_then_mask i.(raw) 31 1 in
  let imm10_5 := shift_then_mask i.(raw) 25 0x3F in
  let imm4_1 := shift_then_mask i.(raw) 8 0xF in
  let imm11 := shift_then_mask i.(raw) 7 1 in
  let offset := u32 (imm12 .<< 12) .| u32 (imm11 .<< 11) .| u32 (imm10_5 .<< 5)
                .| u32 (imm4_1 .<< 1) in
  i32 (i32 offset .<< 19) .>> 19.

Definition u_imm (i : DecodedInst32) : Z := i.(raw) .& 0xFFFFF000.

Definition j_imm (i : DecodedInst32) : Z :=
  let imm20 := shift_then_mask i.(raw) 31 1 in
  let imm10_1 := shift_then_mask i.(raw) 21 0x3FF in
  let imm11 := shift_then_mask i.(raw) 20 1 in
  let imm19_12 := shift_then_mask i.(raw) 12 0xFF in
  let offset := u32 (imm20 .<< 20) .| u32 (imm19_12 .<< 12) .| u32 (imm11 .<< 11)
                .| u32 (imm10_1 .<< 1) in
  i32 (i32 offset .<< 11) .>> 11.

Record DecodedInst16 := { raw16 : Z; op16 : Z; funct3_16 : Z }.

Definition decode16 (inst : Z) : DecodedInst16 := {|
  raw16 := inst;
  op16 := u8 (inst .& 0x3);
  funct3_16 := u8 (shift_then_mask inst 13 0x7)
|}.

(** ** Compressed-format helpers of [cpu.rs] *)

Definition creg (inst shift : Z) : Z := u16 (shift_then_mask inst shift 0x7 + 8).

Definition cl_word_offset (inst : Z) : Z :=
  u32 (shift_then_mask inst 10 0x7 .<< 3) .| u32 (shift_then_mask inst 6 0x1 .<< 2)
  .| u32 (shift_then_mask inst 5 0x1 .<< 6).

Definition cl_double_offset (inst : Z) : Z :=
  u32 (shift_then_mask inst 10 0x7 .<< 3) .| u32 (shift_then_mask inst 5 0x3 .<< 6).

Definition ci_word_sp_offset (inst : Z) : Z :=
  u32 (shift_then_mask inst 12 0x1 .<< 5) .| u32 (shift_then_mask inst 4 0x7 .<< 2)
  .| u32 (shift_then_mask inst 2 0x3 .<< 6).

Definition ci_double_sp_offset (inst : Z) : Z :=
  u32 (shift_then_mask inst 12 0x1 .<< 5) .| u32 (shift_then_mask inst 5 0x3 .<< 3)
  .| u32 (shift_then_mask inst 2 0x7 .<< 6).

Definition css_word_sp_offset (inst : Z) : Z :=
  u32 (shift_then_mask inst 9 0xF .<< 2) .| u32 (shift_then_mask inst 7 0x3 .<< 6).

Definition css_double_sp_offset (inst : Z) : Z :=
  u32 (shift_then_mask inst 10 0x7 .<< 3) .| u32 (shift_then_mask inst 7 0x7 .<< 6).

(** ** The encoders of the instruction tests *)

Definition encode_r (op rd funct3 rs1 rs2 funct7 : Z) : Z :=
  u32 (funct7 .<< 25) .| u32 (rs2 .<< 20) .| u32 (rs1 .<< 15) .| u32 (funct3 .<< 12)
  .| u32 (rd .<< 7) .| op.

Definition encode_i (op rd funct3 rs1 imm : Z) : Z :=
  u32 ((u32 imm .& 0xFFF) .<< 20) .| u32 (rs1 .<< 15) .| u32 (funct3 .<< 12)
  .| u32 (rd .<< 7) .| op.

Definition encode_s (op funct3 rs1 rs2 imm : Z) : Z :=
  let imm_u := u32 imm in
  u32 (((imm_u .>> 5) .& 0x7F) .<< 25) .| u32 (rs2 .<< 20) .| u32 (rs1 .<< 15)
  .| u32 (funct3 .<< 12) .| u32 ((imm_u .& 0x1F) .<< 7) .| op.

Definition encode_b (op funct3 rs1 rs2 imm : Z) : Z :=
  let imm_u := u32 imm in
  u32 (((imm_u .>> 12) .& 1) .<< 31) .| u32 (((imm_u .>> 5) .& 0x3F) .<< 25)
  .| u32 (rs2 .<< 20) .| u32 (rs1 .<< 15) .| u32 (funct3 .<< 12)
  .| u32 (((imm_u .>> 1) .& 0xF) .<< 8) .| u32 (((imm_u .>> 11) .& 1) .<< 7) .| op.

Definition encode_u (op rd imm : Z) : Z :=
  (imm .& 0xFFFFF000) .| u32 (rd .<< 7) .| op.

Definition encode_j (op rd imm : Z) : Z :=
  let imm_u := u32 imm in
  u32 (((imm_u .>> 20) .& 1) .<< 31) .| u32 (((imm_u .>> 1) .& 0x3FF) .<< 21)
  .| u32 (((imm_u .>> 11) .& 1) .<< 20) .| u32 (((imm_u .>> 12) .& 0xFF) .<< 12)
  .| u32 (rd .<< 7) .| op.

Definition encode_r4 (op rd funct3 rs1 rs2 rs3 fmt : Z) : Z :=
  u32 (rs3 .<< 27) .| u32 (fmt .<< 25) .| u32 (rs2 .<< 20) .| u32 (rs1 .<< 15)
  .| u32 (funct3 .<< 12) .| u32 (rd .<< 7) .| op.

(** An assembly-level instruction of one of the seven 32-bit formats. *)
Inductive asm32 :=
| FmtR (op rd funct3 rs1 rs2 funct7 : Z)
| FmtI (op rd funct3 rs1 imm : Z)
| FmtS (op funct3 rs1 rs2 imm : Z)
| FmtB (op funct3 rs1 rs2 imm : Z)
| FmtU (op rd imm : Z)
| FmtJ (op rd imm : Z)
| FmtR4 (op rd funct3 rs1 rs2 rs3 fmt : Z).

Definition encode32 (a : asm32) : Z :=
  match a with
  | FmtR op rd f3 rs1 rs2 f7 => encode_r op rd f3 rs1 rs2 f7
  | FmtI op rd f3 rs1 imm => encode_i op rd f3 rs1 imm
  | FmtS op f3 rs1 rs2 imm => encode_s op f3 rs1 rs2 imm
  | FmtB op f3 rs1 rs2 imm => encode_b op f3 rs1 rs2 imm
  | FmtU op rd imm => encode_u op rd imm
  | FmtJ op rd imm => encode_j op rd imm
  | FmtR4 op rd f3 rs1 rs2 rs3 fmt => encode_r4 op rd f3 rs1 rs2 rs3 fmt
  end.

(** Operands that the format can represent. *)
Definition asm32_ok (a : asm32) : Prop :=
  match a with
  | FmtR op rd f3 rs1 rs2 f7 =>
    is_u 7 op /\ is_u 5 rd /\ is_u 3 f3 /\ is_u 5 rs1 /\ is_u 5 rs2 /\ is_u 7 f7
  | FmtI op rd f3 rs1 imm => is_u 7 op /\ is_u 5 rd /\ is_u 3 f3 /\ is_u 5 rs1 /\ is_i 12 imm
  | FmtS op f3 rs1 rs2 imm => is_u 7 op /\ is_u 3 f3 /\ is_u 5 rs1 /\ is_u 5 rs2 /\ is_i 12 imm
  | FmtB op f3 rs1 rs2 imm =>
    is_u 7 op /\ is_u 3 f3 /\ is_u 5 rs1 /\ is_u 5 rs2 /\ is_i 13 imm /\ imm mod 2 = 0
  | FmtU op rd imm => is_u 7 op /\ is_u 5 rd /\ is_u 32 imm /\ imm mod 2 ^ 12 = 0
  | FmtJ op rd imm => is_u 7 op /\ is_u 5 rd /\ is_i 21 imm /\ imm mod 2 = 0
  | FmtR4 op rd f3 rs1 rs2 rs3 fmt =>
    is_u 7 op /\ is_u 5 rd /\ is_u 3 f3 /\ is_u 5 rs1 /\ is_u 5 rs2 /\ is_u 5 rs3 /\ is_u 2 fmt
  end.

(** The decoder recovers every operand of the format. *)
Definition decodes_to (d : DecodedInst32) (a : asm32) : Prop :=
  match a with
  | FmtR op rd' f3 r1 r2 f7 =>
    opcode d = op /\ rd d = rd' /\ funct3 d = f3 /\ rs1 d = r1 /\ rs2 d = r2 /\ funct7 d = f7
  | FmtI op rd' f3 r1 imm =>
    opcode d = op /\ rd d = rd' /\ funct3 d = f3 /\ rs1 d = r1 /\ i_imm d = imm
  | FmtS op f3 r1 r2 imm =>
    opcode d = op /\ funct3 d = f3 /\ rs1 d = r1 /\ rs2 d = r2 /\ s_imm d = imm
  | FmtB op f3 r1 r2 imm =>
    opcode d = op /\ funct3 d = f3 /\ rs1 d = r1 /\ rs2 d = r2 /\ b_imm d = imm
  | FmtU op rd' imm => opcode d = op /\ rd d = rd' /\ u_imm d = imm
  | FmtJ op rd' imm => opcode d = op /\ rd d = rd' /\ j_imm d = imm
  | FmtR4 op rd' f3 r1 r2 r3 fmt =>
    opcode d = op /\ rd d = rd' /\ funct3 d = f3 /\ rs1 d = r1 /\ rs2 d = r2 /\ rs3 d = r3
    /\ shift_then_mask (raw d) 25 3 = fmt
  end.

Ltac unfold_inst :=
  unfold decodes_to, encode32, encode_r, encode_i, encode_s, encode_b, encode_u, encode_j,
    encode_r4, i_imm, s_imm, b_imm, u_imm, j_imm, decode32, decode16, creg, cl_word_offset,
    cl_double_offset, ci_word_sp_offset, ci_double_sp_offset, css_word_sp_offset,
    css_double_sp_offset, shift_then_mask in *;
  cbn [raw opcode rd rs1 rs2 rs3 funct3 funct7 raw16 op16 funct3_16] in *.

(** A signed immediate is the sign extension of its low bits. *)
Lemma is_i_sext w x : 0 < w -> is_i w x -> x = sext w (wrap w x).
Proof.
  unfold is_i, sext, wrap. intros Hw Hx. rewrite Zplus_mod_idemp_l.
  replace (2 ^ w) with (2 * 2 ^ (w - 1)) by (rewrite <- Z.pow_succ_r; f_equal; lia).
  rewrite Z.mod_small; lia.
Qed.

(** A value with [k] low zero bits is a shifted value of [w - k] bits. *)
Lemma aligned_shiftl w k x :
  0 <= k <= w -> x mod 2 ^ k = 0 -> exists y, is_u (w - k) y /\ wrap w x = y .<< k.
Proof.
  intros Hk Hx. exists (wrap w x .>> k). unfold is_u.
  assert (H2 : 2 ^ w = 2 ^ k * 2 ^ (w - k)) by (rewrite <- Z.pow_add_r by lia; f_equal; lia).
  assert (0 < 2 ^ k) by lia. assert (0 < 2 ^ (w - k)) by lia.
  assert (Hm : wrap w x mod 2 ^ k = 0).
  { unfold wrap. rewrite H2, Z.rem_mul_r by lia. rewrite Hx, Z.add_0_l, Z.mul_comm.
    apply Z.mod_mul. lia. }
  pose proof (wrap_is_u w x ltac:(lia)) as Hu. unfold is_u in Hu.
  rewrite Z.shiftr_div_pow2, Z.shiftl_mul_pow2 by lia. split.
  - split; [apply Z.div_pos; lia|]. apply Z.div_lt_upper_bound; lia.
  - rewrite Z.mul_comm. pose proof (Z.div_mod (wrap w x) (2 ^ k)). lia.
Qed.

(** Replaces a signed operand by the sign extension of a bit-field variable. *)
Ltac imm_bits w k imm Hi Hm :=
  let y := fresh "y" in let Hy := fresh "Hy" in let E := fresh "E" in
  destruct (aligned_shiftl w k imm ltac:(lia) Hm) as (y & Hy & E);
  assert (imm = sext w (y .<< k)) by (rewrite <- E; apply is_i_sext; [lia|exact Hi]);
  clear E; subst imm.

Lemma mod_1 x : x mod 2 ^ 0 = 0.
Proof. apply Z.mod_1_r. Qed.

Lemma decode_encode_lemma a : asm32_ok a -> decodes_to (decode32 (encode32 a)) a.
Proof.
  destruct a; cbn [asm32_ok].
  - intros (? & ? & ? & ? & ? & ?). unfold_inst; split_and!; bits.
  - intros (? & ? & ? & ? & Hi). imm_bits 12 0 imm Hi (mod_1 imm).
    unfold_inst; split_and!; bits.
  - intros (? & ? & ? & ? & Hi). imm_bits 12 0 imm Hi (mod_1 imm).
    unfold_inst; split_and!; bits.
  - intros (? & ? & ? & ? & Hi & Hm). imm_bits 13 1 imm Hi Hm.
    unfold_inst; split_and!; bits.
  - intros (? & ? & Hi & Hm).
    destruct (aligned_shiftl 32 12 imm ltac:(lia) Hm) as (y & Hy & E).
    rewrite wrap_small in E by done. subst. unfold_inst; split_and!; bits.
  - intros (? & ? & Hi & Hm). imm_bits 21 1 imm Hi Hm. unfold_inst; split_and!; bits.
  - intros (? & ? & ? & ? & ? & ? & ?). unfold_inst; split_and!; bits.
Qed.

(** ** Facts the execution proofs use *)

Lemma decode32_bounds inst :
  is_u 32 inst ->
  let d := decode32 inst in
  is_u 7 (opcode d) /\ is_u 5 (rd d) /\ is_u 5 (rs1 d) /\ is_u 5 (rs2 d) /\ is_u 5 (rs3 d)
  /\ is_u 3 (funct3 d) /\ is_u 7 (funct7 d) /\ is_u 32 (raw d).
Proof. intros Hi d. subst d. unfold_inst. split_and!; bits_range || done. Qed.

Lemma u_imm_is_u inst : is_u 32 inst -> is_u 32 (u_imm (decode32 inst)).
Proof. unfold_inst. bits_range. Qed.

Lemma creg_bounds inst k :
  is_u 16 inst -> 8 <= creg inst k < 16.
Proof.
  intros Hi. unfold creg, shift_then_mask.
  assert (H : is_u 3 ((inst .>> k) .& 7)).
  { change 7 with (Z.ones 3). rewrite Z.land_ones by lia. apply Z.mod_pos_bound. lia. }
  unfold is_u in H. rewrite wrap_small by (unfold is_u; lia). lia.
Qed.

(** Reads a small field off its range: case analysis on a [k]-bit value. *)
Lemma is_u_3_cases x : is_u 3 x ->
  x = 0 \/ x = 1 \/ x = 2 \/ x = 3 \/ x = 4 \/ x = 5 \/ x = 6 \/ x = 7.
Proof. unfold is_u. lia. Qed.

Lemma is_u_2_cases x : is_u 2 x -> x = 0 \/ x = 1 \/ x = 2 \/ x = 3.
Proof. unfold is_u. lia. Qed.

(** * Properties *)

(** C19: Encoding then decoding returns the operands.  For each of the seven
    32-bit formats (R, I, S, B, U, J, R4) and all operands the format can
    represent, the decoder recovers the opcode, the register numbers, the function
    codes and the (sign-extended) immediate that the encoder packed. *)
Theorem decode_encode a : asm32_ok a -> decodes_to (decode32 (encode32 a)) a.
Proof. apply decode_encode_lemma. Qed.

Lemma decode_encode_witness :
  asm32_ok (FmtB OP_BRANCH 1 5 0 (-8)) /\
  decodes_to (decode32 (encode32 (FmtB OP_BRANCH 1 5 0 (-8)))) (FmtB OP_BRANCH 1 5 0 (-8)).
Proof.
  assert (H : asm32_ok (FmtB OP_BRANCH 1 5 0 (-8))).
  { unfold asm32_ok, is_u, is_i, OP_BRANCH. repeat split; lia || reflexivity. }
  split; [exact H | apply (decode_encode _ H)].
Defined.

(** Bits [lo .. lo+len-1] of [x]. *)
Definition slice (x lo len : Z) : Z := (x / 2 ^ lo) mod 2 ^ len.

Lemma slice_bits x lo len :
  0 <= lo -> 0 <= len -> slice x lo len = (x .>> lo) .& Z.ones len.
Proof. intros. unfold slice. by rewrite Z.land_ones, Z.shiftr_div_pow2 by lia. Qed.

Ltac eval_ones :=
  repeat match goal with
  | |- context [Z.ones ?n] => let v := eval vm_compute in (Z.ones n) in change (Z.ones n) with v
  end.

(** C20: The decoder reads the fields and immediates of the RISC-V manual.  For
    every instruction word, register numbers are below 32, [funct3] below 8, [funct7]
    and the opcode below 128, so no index taken from a decoded instruction can be out
    of bounds, and together they determine the word; [i_imm], [s_imm], [b_imm],
    [u_imm] and [j_imm] are the sign-extended concatenations of the bit slices the
    manual prescribes for the I, S, B, U and J formats, and branch and jump offsets
    are even. *)
Theorem decode32_spec x :
  is_u 32 x ->
  let d := decode32 x in
  encode_r (opcode d) (rd d) (funct3 d) (rs1 d) (rs2 d) (funct7 d) = x
  /\ 0 <= rd d < 32 /\ 0 <= rs1 d < 32 /\ 0 <= rs2 d < 32 /\ 0 <= rs3 d < 32
  /\ 0 <= funct3 d < 8 /\ 0 <= funct7 d < 128 /\ 0 <= opcode d < 128
  /\ rs3 d = funct7 d .>> 2
  /\ i_imm d = sext 12 (slice x 20 12)
  /\ s_imm d = sext 12 (slice x 25 7 .<< 5 + slice x 7 5)
  /\ b_imm d = sext 13 (slice x 31 1 .<< 12 + slice x 7 1 .<< 11 + slice x 25 6 .<< 5
                        + slice x 8 4 .<< 1)
  /\ u_imm d = slice x 12 20 .<< 12
  /\ j_imm d = sext 21 (slice x 31 1 .<< 20 + slice x 12 8 .<< 12 + slice x 20 1 .<< 11
                        + slice x 21 10 .<< 1)
  /\ b_imm d .& 1 = 0 /\ j_imm d .& 1 = 0.
Proof.
  intros Hx d. pose proof (decode32_bounds x Hx) as (? & ? & ? & ? & ? & ? & ? & ?).
  assert (rs3 d = funct7 d .>> 2) by (subst d; unfold_inst; bits).
  split; [subst d; unfold_inst; bits|].
  unfold is_u in *. change (is_u 32 x) in Hx. subst d. do 8 (split; [lia || done|]).
  rewrite !slice_bits by lia. eval_ones. unfold_inst. split_and!; bits.
Qed.

Lemma decode32_spec_witness :
  encode_r (opcode (decode32 0xFE510093)) (rd (decode32 0xFE510093)) (funct3 (decode32 0xFE510093))
    (rs1 (decode32 0xFE510093)) (rs2 (decode32 0xFE510093)) (funct7 (decode32 0xFE510093))
  = 0xFE510093 /\ i_imm (decode32 0xFE510093) = -27.
Proof.
  split; [exact (proj1 (decode32_spec 0xFE510093 ltac:(unfold is_u; lia)))|reflexivity].
Defined.
