(* ===== verification/Fmt.v ===== *)
(** Number formatting and parsing of the Rust standard library, as far as the
    program uses it: [{}], [{:x}], [{:#x}], [{:08x}], [{:#010x}] in the error
    messages and the disassembler, [str::parse] and [from_str_radix] in the
    argument parser, and [String::from_utf8_lossy] in the native host. *)

From S2P Require Import Prelude.
From Stdlib Require Import Ascii.

#[global] Open Scope string_scope.
#[global] Open Scope Z_scope.

(** ** Digits *)

Definition digit_char (d : Z) : ascii :=
  ascii_of_nat (Z.to_nat (if d <? 10 then 48 + d else 87 + d)).

Definition digit_value (c : ascii) : option Z :=
  let n := Z.of_nat (nat_of_ascii c) in
  if (48 <=? n) && (n <=? 57) then Some (n - 48)
  else if (97 <=? n) && (n <=? 122) then Some (n - 87)
  else if (65 <=? n) && (n <=? 90) then Some (n - 55)
  else None.

(** Digits of [z] in front of [acc]; [fuel] bounds the number of digits. *)
Fixpoint digits (base : Z) (fuel : nat) (z : Z) (acc : string) : string :=
  match fuel with
  | O => acc
  | S fuel =>
    let acc' := String (digit_char (z mod base)) acc in
    if z / base =? 0 then acc' else digits base fuel (z / base) acc'
  end.

(** Sixty-four digits are enough for every integer of at most 64 bits, in any base
    from 2 up. *)
Definition fmt_radix (base z : Z) : string := digits base 64 z "".

Definition zero_pad (width : nat) (s : string) : string :=
  String.concat "" (replicate (width - String.length s) "0") +:+ s.

(** [{}] on an integer, [{:x}], [{:0w x}], [{:#x}] and [{:#0w x}]. *)
Definition fmt_dec (z : Z) : string :=
  if z <? 0 then "-" +:+ fmt_radix 10 (- z) else fmt_radix 10 z.
Definition fmt_hex (z : Z) : string := fmt_radix 16 z.
Definition fmt_hex_pad (width : nat) (z : Z) : string := zero_pad width (fmt_radix 16 z).
Definition fmt_hex_alt (z : Z) : string := "0x" +:+ fmt_radix 16 z.
Definition fmt_hex_alt_pad (width : nat) (z : Z) : string :=
  "0x" +:+ zero_pad (width - 2) (fmt_radix 16 z).

(** ** Parsing: [uN::from_str_radix], [str::parse::<uN>] *)

Fixpoint parse_digits (base bound acc : Z) (s : string) : option Z :=
  match s with
  | EmptyString => Some acc
  | String c s =>
    match digit_value c with
    | Some d =>
      if d <? base then
        let acc' := acc * base + d in
        if acc' <? bound then parse_digits base bound acc' s else None
      else None
    | None => None
    end
  end.

(** A leading [+] is accepted; an empty digit string is an error. *)
Definition parse_radix (base bound : Z) (s : string) : option Z :=
  match s with
  | EmptyString => None
  | String "+" EmptyString => None
  | String "+" s => parse_digits base bound 0 s
  | _ => parse_digits base bound 0 s
  end.

(** ** UTF-8 *)

Definition byte_char (b : Z) : ascii := ascii_of_nat (Z.to_nat b).
Fixpoint bytes_to_string (bs : list Z) : string :=
  match bs with [] => "" | b :: bs => String (byte_char b) (bytes_to_string bs) end.

Definition in_range (lo hi b : Z) : bool := (lo <=? b) && (b <=? hi).

(** Length of a sequence by its first byte, and the bytes that may follow it. *)
Definition utf8_width (b : Z) : nat :=
  if b <? 128 then 1%nat
  else if in_range 0xC2 0xDF b then 2%nat
  else if in_range 0xE0 0xEF b then 3%nat
  else if in_range 0xF0 0xF4 b then 4%nat
  else O.
Definition utf8_second_ok (b c : Z) : bool :=
  if b =? 0xE0 then in_range 0xA0 0xBF c
  else if b =? 0xED then in_range 0x80 0x9F c
  else if b =? 0xF0 then in_range 0x90 0xBF c
  else if b =? 0xF4 then in_range 0x80 0x8F c
  else in_range 0x80 0xBF c.

Definition utf8_replacement : list Z := [0xEF; 0xBF; 0xBD].

(** [from_utf8_lossy]: each maximal invalid prefix becomes U+FFFD. *)
Fixpoint utf8_lossy (fuel : nat) (bs : list Z) : list Z :=
  match fuel, bs with
  | O, _ | _, [] => []
  | S fuel, b :: r =>
    match utf8_width b, r with
    | 1%nat, _ => b :: utf8_lossy fuel r
    | 2%nat, c :: r1 =>
      if utf8_second_ok b c then b :: c :: utf8_lossy fuel r1
      else utf8_replacement ++ utf8_lossy fuel r
    | 3%nat, c :: r1 =>
      if utf8_second_ok b c then
        match r1 with
        | d :: r2 =>
          if in_range 0x80 0xBF d then b :: c :: d :: utf8_lossy fuel r2
          else utf8_replacement ++ utf8_lossy fuel r1
        | [] => utf8_replacement
        end
      else utf8_replacement ++ utf8_lossy fuel r
    | 4%nat, c :: r1 =>
      if utf8_second_ok b c then
        match r1 with
        | d :: r2 =>
          if in_range 0x80 0xBF d then
            match r2 with
            | e :: r3 =>
              if in_range 0x80 0xBF e then b :: c :: d :: e :: utf8_lossy fuel r3
              else utf8_replacement ++ utf8_lossy fuel r2
            | [] => utf8_replacement
            end
          else utf8_replacement ++ utf8_lossy fuel r1
        | [] => utf8_replacement
        end
      else utf8_replacement ++ utf8_lossy fuel r
    | _, _ => utf8_replacement ++ utf8_lossy fuel r
    end
  end.

Definition from_utf8_lossy (bs : list Z) : string :=
  bytes_to_string (utf8_lossy (length bs) bs).

(** ** Round trip *)

Lemma digit_value_char d : 0 <= d < 16 -> digit_value (digit_char d) = Some d.
Proof.
  intros Hd. assert (H : forallb (fun d => bool_decide (digit_value (digit_char d) = Some d))
    (seqZ 0 16) = true) by reflexivity.
  rewrite forallb_forall in H. specialize (H d).
  rewrite bool_decide_eq_true in H. apply H, list_elem_of_In, elem_of_seqZ. lia.
Qed.

Lemma parse_digits_digits base bound fuel z acc :
  2 <= base <= 16 -> 0 <= z < base ^ Z.of_nat fuel -> z < bound ->
  parse_digits base bound 0 (digits base fuel z acc) = parse_digits base bound z acc.
Proof.
  intros Hb. revert z acc. induction fuel as [|fuel IH]; intros z acc Hz Hbd.
  { simpl in *. by replace z with 0 by lia. }
  assert (Hm : 0 <= z mod base < base) by (apply Z.mod_pos_bound; lia).
  pose proof (Z.div_mod z base ltac:(lia)) as Hdm.
  assert (Hstep : forall a, a * base + z mod base = z ->
    parse_digits base bound a (String (digit_char (z mod base)) acc) = parse_digits base bound z acc).
  { intros a Ha. simpl. rewrite digit_value_char by lia.
    destruct (Z.ltb_spec (z mod base) base); [|lia]. rewrite Ha.
    by destruct (Z.ltb_spec z bound); [|lia]. }
  cbn [digits]. destruct (Z.eqb_spec (z / base) 0).
  - apply Hstep. lia.
  - rewrite IH; [apply Hstep; lia| |].
    + rewrite Nat2Z.inj_succ, Z.pow_succ_r in Hz by lia. split; [apply Z.div_pos; lia|].
      apply Z.div_lt_upper_bound; lia.
    + apply Z.le_lt_trans with z; [|done]. apply Z.div_le_upper_bound; nia.
Qed.

Lemma digits_head base fuel z acc :
  2 <= base <= 16 -> fuel <> O ->
  exists d s, 0 <= d < 16 /\ digits base fuel z acc = String (digit_char d) s.
Proof.
  intros Hb. revert z acc. induction fuel as [|fuel IH]; intros z acc Hf; [done|].
  assert (0 <= z mod base < base) by (apply Z.mod_pos_bound; lia).
  cbn [digits]. destruct (z / base =? 0).
  - exists (z mod base), acc. split; [lia|done].
  - destruct fuel as [|fuel]; [exists (z mod base), acc; split; [lia|done]|]. by apply IH.
Qed.

Lemma digit_char_not_plus d : 0 <= d < 16 -> digit_char d <> "+"%char.
Proof. intros Hd He. pose proof (digit_value_char d Hd) as H. rewrite He in H. done. Qed.

(** Parsing the printed form of an unsigned integer of at most 64 bits gives it
    back, in any base up to sixteen. *)
Lemma parse_fmt_radix base bound z :
  2 <= base <= 16 -> is_u 64 z -> z < bound -> parse_radix base bound (fmt_radix base z) = Some z.
Proof.
  intros Hb Hz Hbound. unfold fmt_radix, is_u in *.
  assert (Hz64 : 0 <= z < base ^ Z.of_nat 64) by (pose proof (Z.pow_le_mono_l 2 base 64); lia).
  pose proof (parse_digits_digits base bound 64 z "" Hb Hz64 Hbound) as Hp.
  destruct (digits_head base 64 z "" Hb ltac:(done)) as (d & s & Hd & Hs).
  rewrite Hs in *. pose proof (digit_char_not_plus d Hd) as Hne.
  unfold parse_radix. revert Hp Hne. generalize (digit_char d).
  intros c Hp Hne. destruct c as [[] [] [] [] [] [] [] []]; (done || (by rewrite Hp)).
Qed.
