(* ===== verification/Host.v ===== *)
(** The host environment: [src/src/host_imports.rs].

    In the browser build every function of this module calls a JavaScript import
    (the [ffi] block); those are outside the repository, so they are the operations
    of the class [HostOps], over an abstract host state.  Values that come back
    across the boundary are coerced to the width the import is declared with, which
    is what the functions below do.

    The native build replaces the imports by thread-local mocks; [MockHost] models
    them and is an instance of the class. *)

From S2P Require Import Prelude Fmt.

Class HostOps (H : Type) := {
  ffi_custom_syscall : Z -> Z -> Z -> Z -> Z -> H -> Z * H;
  ffi_external_interrupt : H -> Z * H;
  ffi_interrupt_enabled : H -> Z * H;
  ffi_get_int_inst_delay : H -> Z * H;
  ffi_read_mmio : Z -> Z -> H -> Z * H;
  ffi_write_mmio : Z -> Z -> Z -> H -> H;
  (** The bytes the host placed in the buffer, and the count it reports. *)
  ffi_read_from_stdin : Z -> H -> (Z * list Z) * H;
  ffi_read_interactive_command : H -> Z * H;
  ffi_print : string -> H -> H;
  ffi_print_err : string -> H -> H;
  ffi_write_stdout : list Z -> H -> H;
  ffi_write_stderr : list Z -> H -> H;
  ffi_notify_unknown_syscall : Z -> Z -> Z -> Z -> Z -> H -> H
}.

Section HostImports.
Context {H : Type} `{HostOps H}.

Definition custom_syscall (a0 a1 a2 a3 a7 : Z) (h : H) : Z * H :=
  let '(r, h') := ffi_custom_syscall a0 a1 a2 a3 a7 h in (i32 r, h').
Definition js_external_interrupt (h : H) : Z * H :=
  let '(r, h') := ffi_external_interrupt h in (i32 r, h').
Definition js_interrupt_enabled (h : H) : Z * H :=
  let '(r, h') := ffi_interrupt_enabled h in (i32 r, h').
Definition js_get_int_inst_delay (h : H) : Z * H :=
  let '(r, h') := ffi_get_int_inst_delay h in (i32 r, h').
Definition js_read_mmio (addr size : Z) (h : H) : Z * H :=
  let '(r, h') := ffi_read_mmio addr size h in (u32 r, h').
Definition js_write_mmio (addr size val : Z) (h : H) : H := ffi_write_mmio addr size val h.
Definition read_from_stdin (count : Z) (h : H) : (Z * list Z) * H :=
  let '((n, bs), h') := ffi_read_from_stdin count h in ((i32 n, map u8 bs), h').
Definition read_interactive_command (h : H) : Z * H :=
  let '(r, h') := ffi_read_interactive_command h in (i32 r, h').
Definition js_print (msg : string) (h : H) : H := ffi_print msg h.
Definition js_print_err (msg : string) (h : H) : H := ffi_print_err msg h.
Definition js_write_stdout (bytes : list Z) (h : H) : H := ffi_write_stdout bytes h.
Definition js_write_stderr (bytes : list Z) (h : H) : H := ffi_write_stderr bytes h.
Definition notify_unknown_syscall (sys_num a0 a1 a2 a3 : Z) (h : H) : H :=
  ffi_notify_unknown_syscall sys_num a0 a1 a2 a3 h.
End HostImports.

(** What the emulator relies on: a read reports at most as many bytes as were
    asked for. *)
Class HostReads (H : Type) `{HostOps H} : Prop :=
  host_read_count : forall count h, 0 <= count -> (read_from_stdin count h).1.1 <= count.

(** The interrupt controller of the host is idle: polling it has no effect and
    never reports an interrupt. *)
Class QuietHost (H : Type) `{HostOps H} : Prop := {
  quiet_delay : forall h, (js_get_int_inst_delay h).2 = h;
  quiet_enabled : forall h, js_interrupt_enabled h = (0, h)
}.

(** ** The native mocks *)

Record MockHost (D : Type) := {
  MOCK_STDOUT : list string;
  MOCK_STDERR : list string;
  MOCK_STDIN : list Z;
  MOCK_CUSTOM_SYSCALL : option (Z -> Z -> Z -> Z -> Z -> D -> Z * D);
  MOCK_MMIO_READ : option (Z -> Z -> D -> Z * D);
  MOCK_MMIO_WRITE : option (Z -> Z -> Z -> D -> D);
  (** State captured by the installed closures. *)
  mock_device : D
}.
Arguments MOCK_STDOUT {D}.
Arguments MOCK_STDERR {D}.
Arguments MOCK_STDIN {D}.
Arguments MOCK_CUSTOM_SYSCALL {D}.
Arguments MOCK_MMIO_READ {D}.
Arguments MOCK_MMIO_WRITE {D}.
Arguments mock_device {D}.

Section Mock.
Context {D : Type}.
Implicit Types h : MockHost D.

Definition with_stdout (l : list string) h : MockHost D :=
  Build_MockHost D l (MOCK_STDERR h) (MOCK_STDIN h) (MOCK_CUSTOM_SYSCALL h)
    (MOCK_MMIO_READ h) (MOCK_MMIO_WRITE h) (mock_device h).
Definition with_stderr (l : list string) h : MockHost D :=
  Build_MockHost D (MOCK_STDOUT h) l (MOCK_STDIN h) (MOCK_CUSTOM_SYSCALL h)
    (MOCK_MMIO_READ h) (MOCK_MMIO_WRITE h) (mock_device h).
Definition with_stdin (l : list Z) h : MockHost D :=
  Build_MockHost D (MOCK_STDOUT h) (MOCK_STDERR h) l (MOCK_CUSTOM_SYSCALL h)
    (MOCK_MMIO_READ h) (MOCK_MMIO_WRITE h) (mock_device h).
Definition with_device (d : D) h : MockHost D :=
  Build_MockHost D (MOCK_STDOUT h) (MOCK_STDERR h) (MOCK_STDIN h) (MOCK_CUSTOM_SYSCALL h)
    (MOCK_MMIO_READ h) (MOCK_MMIO_WRITE h) d.

(** [reset_mocks]. *)
Definition reset_mocks h : MockHost D :=
  Build_MockHost D [] [] [] None None None (mock_device h).

Definition get_mock_stdout h : list string := MOCK_STDOUT h.
Definition get_mock_stderr h : list string := MOCK_STDERR h.
Definition set_mock_stdin (bytes : list Z) h : MockHost D := with_stdin bytes h.
Definition set_mock_custom_syscall f h : MockHost D :=
  Build_MockHost D (MOCK_STDOUT h) (MOCK_STDERR h) (MOCK_STDIN h) (Some f)
    (MOCK_MMIO_READ h) (MOCK_MMIO_WRITE h) (mock_device h).
Definition set_mock_mmio_read f h : MockHost D :=
  Build_MockHost D (MOCK_STDOUT h) (MOCK_STDERR h) (MOCK_STDIN h) (MOCK_CUSTOM_SYSCALL h)
    (Some f) (MOCK_MMIO_WRITE h) (mock_device h).
Definition set_mock_mmio_write f h : MockHost D :=
  Build_MockHost D (MOCK_STDOUT h) (MOCK_STDERR h) (MOCK_STDIN h) (MOCK_CUSTOM_SYSCALL h)
    (MOCK_MMIO_READ h) (Some f) (mock_device h).

Definition mock_custom_syscall (a0 a1 a2 a3 a7 : Z) h : Z * MockHost D :=
  match MOCK_CUSTOM_SYSCALL h with
  | Some f => let '(r, d) := f a0 a1 a2 a3 a7 (mock_device h) in (r, with_device d h)
  | None => (0, h)
  end.

Definition mock_read_mmio (addr size : Z) h : Z * MockHost D :=
  match MOCK_MMIO_READ h with
  | Some f => let '(r, d) := f addr size (mock_device h) in (r, with_device d h)
  | None => (0, h)
  end.

Definition mock_write_mmio (addr size val : Z) h : MockHost D :=
  match MOCK_MMIO_WRITE h with
  | Some f => with_device (f addr size val (mock_device h)) h
  | None => h
  end.

(** The buffer pointer is the address of a live allocation, never null. *)
Definition mock_read_from_stdin (count : Z) h : (Z * list Z) * MockHost D :=
  if count =? 0 then ((0, []), h)
  else
    let to_read := Z.min (u32 (Z.of_nat (length (MOCK_STDIN h)))) count in
    if 0 <? to_read then
      let n := Z.to_nat to_read in
      ((i32 to_read, take n (MOCK_STDIN h)), with_stdin (drop n (MOCK_STDIN h)) h)
    else ((0, []), h).

Definition mock_print (msg : string) h : MockHost D :=
  with_stdout (MOCK_STDOUT h ++ [msg]) h.
Definition mock_print_err (msg : string) h : MockHost D :=
  with_stderr (MOCK_STDERR h ++ [msg]) h.
Definition mock_write_stdout (bytes : list Z) h : MockHost D :=
  with_stdout (MOCK_STDOUT h ++ [from_utf8_lossy bytes]) h.
Definition mock_write_stderr (bytes : list Z) h : MockHost D :=
  with_stderr (MOCK_STDERR h ++ [from_utf8_lossy bytes]) h.

#[global] Instance MockHost_ops : HostOps (MockHost D) := {
  ffi_custom_syscall := mock_custom_syscall;
  ffi_external_interrupt := fun h => (0, h);
  ffi_interrupt_enabled := fun h => (0, h);
  ffi_get_int_inst_delay := fun h => (0, h);
  ffi_read_mmio := mock_read_mmio;
  ffi_write_mmio := mock_write_mmio;
  ffi_read_from_stdin := mock_read_from_stdin;
  ffi_read_interactive_command := fun h => (0, h);
  ffi_print := mock_print;
  ffi_print_err := mock_print_err;
  ffi_write_stdout := mock_write_stdout;
  ffi_write_stderr := mock_write_stderr;
  ffi_notify_unknown_syscall := fun _ _ _ _ _ h => h
}.

#[global] Instance MockHost_quiet : QuietHost (MockHost D).
Proof. split; reflexivity. Qed.

Lemma sext_le w x : 0 < w -> 0 <= x -> sext w x <= x.
Proof.
  intros Hw Hx. unfold sext.
  assert (0 < 2 ^ w) by lia. assert (0 < 2 ^ (w - 1)) by lia.
  pose proof (Z.mod_le (x + 2 ^ (w - 1)) (2 ^ w)). lia.
Qed.

#[global] Instance MockHost_reads : HostReads (MockHost D).
Proof.
  intros count h Hc. unfold read_from_stdin. simpl. unfold mock_read_from_stdin.
  pose proof (wrap_is_u 32 (Z.of_nat (length (MOCK_STDIN h)))) as Hu. unfold is_u in Hu.
  destruct (Z.eqb_spec count 0); [done|].
  destruct (Z.ltb_spec 0 (Z.min (u32 (Z.of_nat (length (MOCK_STDIN h)))) count)) as [Hm|Hm];
    cbn [fst]; [|by rewrite sext_wrap; simpl].
  set (m := Z.min _ count) in *.
  assert (i32 m <= m) by (apply sext_le; lia).
  destruct (Z.le_gt_cases 0 (i32 m)).
  - assert (i32 (i32 m) <= i32 m) by (apply sext_le; lia). lia.
  - assert (Hs : i32 (i32 m) = i32 m).
    { symmetry. pose proof (sext_is_i 32 m ltac:(lia)) as Hi. unfold is_i in Hi.
      unfold sext at 2. rewrite Z.mod_small; lia. }
    lia.
Qed.
End Mock.

(** A fresh native host with nothing installed. *)
Definition mock_host0 : MockHost unit := Build_MockHost unit [] [] [] None None None tt.
