(* ===== verification/Memory.v ===== *)
(** Guest memory: [src/src/memory.rs].

    [MemoryOps] is the trait; [default_*] are its provided methods.  [Memory] is the
    lazily allocated paged memory and [Memory_*] its methods, written over the host
    monad because an access at or above [MMIO_BASE] is a call to the host.  An index
    out of bounds is a panic ([None]). *)

From S2P Require Import Prelude Bits Host.

Definition PAGE_SIZE : Z := 65536.
Definition PAGE_MASK : Z := 0xFFFF.
Definition PAGE_SHIFT : Z := 16.
Definition PAGE_COUNT : Z := 65536.
Definition MMIO_BASE : Z := 0xFFFF0000.

(** [u32::wrapping_add]. *)
Definition wrapping_add (a b : Z) : Z := u32 (a + b).

(** [to_le_bytes] and [from_le_bytes]. *)
Definition le_byte (v : Z) (i : Z) : Z := (v .>> (8 * i)) .& 0xFF.
Definition from_le_bytes2 (b0 b1 : Z) : Z := b0 .| (b1 .<< 8).
Definition from_le_bytes4 (b0 b1 b2 b3 : Z) : Z :=
  b0 .| (b1 .<< 8) .| (b2 .<< 16) .| (b3 .<< 24).

(** * The trait *)

Class MemoryOps (H Mem : Type) := {
  read_u8 : Mem -> Z -> HM H Z;
  write_u8 : Mem -> Z -> Z -> HM H Mem;
  read_u16 : Mem -> Z -> HM H Z;
  write_u16 : Mem -> Z -> Z -> HM H Mem;
  read_u32 : Mem -> Z -> HM H Z;
  write_u32 : Mem -> Z -> Z -> HM H Mem;
  read_bytes : Mem -> Z -> Z -> HM H (list Z);
  write_bytes : Mem -> Z -> list Z -> HM H Mem;
  fetch_window : Mem -> Z -> HM H (Z * bool);
  get_brk : Mem -> Z;
  set_brk : Mem -> Z -> Mem
}.

(** The provided methods, from the two required ones. *)
Section Defaults.
Context {H Mem : Type} (rd8 : Mem -> Z -> HM H Z) (wr8 : Mem -> Z -> Z -> HM H Mem).

Definition default_read_u16 (m : Mem) (addr : Z) : HM H Z :=
  b0 ← rd8 m addr;
  b1 ← rd8 m (wrapping_add addr 1);
  mret (b0 .| u16 (b1 .<< 8)).

Definition default_write_u16 (m : Mem) (addr val : Z) : HM H Mem :=
  m ← wr8 m addr (le_byte val 0);
  wr8 m (wrapping_add addr 1) (le_byte val 1).

Definition default_read_u32 (m : Mem) (addr : Z) : HM H Z :=
  b0 ← rd8 m addr;
  b1 ← rd8 m (wrapping_add addr 1);
  b2 ← rd8 m (wrapping_add addr 2);
  b3 ← rd8 m (wrapping_add addr 3);
  mret (b0 .| u32 (b1 .<< 8) .| u32 (b2 .<< 16) .| u32 (b3 .<< 24)).

Definition default_write_u32 (m : Mem) (addr val : Z) : HM H Mem :=
  m ← wr8 m addr (le_byte val 0);
  m ← wr8 m (wrapping_add addr 1) (le_byte val 1);
  m ← wr8 m (wrapping_add addr 2) (le_byte val 2);
  wr8 m (wrapping_add addr 3) (le_byte val 3).

(** The [for] loops of [read_bytes] and [write_bytes] from index [i] on. *)
Fixpoint read_each (m : Mem) (addr : Z) (i : Z) (n : nat) : HM H (list Z) :=
  match n with
  | O => mret []
  | S n =>
    b ← rd8 m (wrapping_add addr (u32 i));
    bs ← read_each m addr (i + 1) n;
    mret (b :: bs)
  end.

Fixpoint write_each (m : Mem) (addr : Z) (i : Z) (bytes : list Z) : HM H Mem :=
  match bytes with
  | [] => mret m
  | b :: bytes => m ← wr8 m (wrapping_add addr (u32 i)) b; write_each m addr (i + 1) bytes
  end.

Definition default_read_bytes (m : Mem) (addr len : Z) : HM H (list Z) :=
  read_each m addr 0 (Z.to_nat len).
Definition default_write_bytes (m : Mem) (addr : Z) (bytes : list Z) : HM H Mem :=
  write_each m addr 0 bytes.

Definition default_fetch_window (m : Mem) (addr : Z) : HM H (Z * bool) :=
  w ← default_read_u32 m addr; mret (w, true).
End Defaults.

(** * Paged memory *)

(** A page is an array of [PAGE_SIZE] bytes, all zero when created; the map holds
    the bytes that were written. *)
Abbreviation Page := (gmap Z Z).

Record Memory := {
  pages : gmap Z Page;
  brk_ptr : Z;
  initial_brk : Z
}.

Definition Memory_new : Memory :=
  let initial_brk := 0x1000000 in
  {| pages := ∅; brk_ptr := initial_brk; initial_brk := initial_brk |}.

Definition with_pages (p : gmap Z Page) (m : Memory) : Memory :=
  {| pages := p; brk_ptr := m.(brk_ptr); initial_brk := m.(initial_brk) |}.

Definition idx_of (addr : Z) : Z := addr .>> PAGE_SHIFT.
Definition offset_of (addr : Z) : Z := addr .& PAGE_MASK.

(** Array and slice accesses, with their bounds checks. *)
Definition page_get (p : Page) (i : Z) : option Z :=
  if (0 <=? i) && (i <? PAGE_SIZE) then Some (default 0 (p !! i)) else None.
Definition page_set (p : Page) (i v : Z) : option Page :=
  if (0 <=? i) && (i <? PAGE_SIZE) then Some (<[i := v]> p) else None.
Definition page_slice (p : Page) (off n : Z) : option (list Z) :=
  if off + n <=? PAGE_SIZE then Some (map (fun i => default 0 (p !! i)) (seqZ off n)) else None.
Fixpoint blit (p : Page) (off : Z) (bytes : list Z) : Page :=
  match bytes with [] => p | b :: bytes => blit (<[off := b]> p) (off + 1) bytes end.
Definition page_blit (p : Page) (off : Z) (bytes : list Z) : option Page :=
  if off + Z.of_nat (length bytes) <=? PAGE_SIZE then Some (blit p off bytes) else None.

Definition get_page (m : Memory) (page_idx : Z) : option (option Page) :=
  if (0 <=? page_idx) && (page_idx <? PAGE_COUNT) then Some (m.(pages) !! page_idx) else None.

(** [get_or_create_page] followed by writes through the returned reference. *)
Definition get_or_create_page (m : Memory) (page_idx : Z) : option Page :=
  match get_page m page_idx with
  | Some (Some p) => Some p
  | Some None => Some ∅
  | None => None
  end.
Definition update_page (m : Memory) (page_idx : Z) (f : Page -> option Page) : option Memory :=
  p ← get_or_create_page m page_idx;
  p' ← f p;
  Some (with_pages (<[page_idx := p']> m.(pages)) m).

Section MemoryImpl.
Context {H : Type} `{HostOps H}.

Definition mmio_read (addr size : Z) : HM H Z := fun h => Some (js_read_mmio addr size h).
Definition mmio_write (m : Memory) (addr size val : Z) : HM H Memory :=
  fun h => Some (m, js_write_mmio addr size val h).

Definition Memory_read_u8 (m : Memory) (addr : Z) : HM H Z :=
  if MMIO_BASE <=? addr then v ← mmio_read addr 1; mret (u8 (v .& 0xFF))
  else
    p ← hm_index (get_page m (idx_of addr));
    match p with
    | Some page => hm_index (page_get page (offset_of addr))
    | None => mret 0
    end.

Definition Memory_write_u8 (m : Memory) (addr val : Z) : HM H Memory :=
  if MMIO_BASE <=? addr then mmio_write m addr 1 val
  else hm_index (update_page m (idx_of addr) (fun p => page_set p (offset_of addr) val)).

Definition Memory_read_u16 (m : Memory) (addr : Z) : HM H Z :=
  if MMIO_BASE <=? addr then v ← mmio_read addr 2; mret (u16 (v .& 0xFFFF))
  else
    let offset := offset_of addr in
    if (addr .& 1 =? 0) || (offset + 1 <? PAGE_SIZE) then
      p ← hm_index (get_page m (idx_of addr));
      match p with
      | Some page =>
        b0 ← hm_index (page_get page offset);
        b1 ← hm_index (page_get page (offset + 1));
        mret (from_le_bytes2 b0 b1)
      | None => mret 0
      end
    else default_read_u16 Memory_read_u8 m addr.

Definition Memory_write_u16 (m : Memory) (addr val : Z) : HM H Memory :=
  if MMIO_BASE <=? addr then mmio_write m addr 2 val
  else
    let offset := offset_of addr in
    if (addr .& 1 =? 0) || (offset + 1 <? PAGE_SIZE) then
      hm_index (update_page m (addr .>> PAGE_SHIFT) (fun p =>
        p ← page_set p offset (le_byte val 0);
        page_set p (offset + 1) (le_byte val 1)))
    else default_write_u16 Memory_write_u8 m addr val.

Definition read_word (page : Page) (offset : Z) : HM H Z :=
  b0 ← hm_index (page_get page offset);
  b1 ← hm_index (page_get page (offset + 1));
  b2 ← hm_index (page_get page (offset + 2));
  b3 ← hm_index (page_get page (offset + 3));
  mret (from_le_bytes4 b0 b1 b2 b3).

Definition Memory_read_u32 (m : Memory) (addr : Z) : HM H Z :=
  if MMIO_BASE <=? addr then mmio_read addr 4
  else
    let offset := offset_of addr in
    if (addr .& 3 =? 0) || (offset + 3 <? PAGE_SIZE) then
      p ← hm_index (get_page m (idx_of addr));
      match p with
      | Some page => read_word page offset
      | None => mret 0
      end
    else default_read_u32 Memory_read_u8 m addr.

Definition Memory_fetch_window (m : Memory) (addr : Z) : HM H (Z * bool) :=
  let offset := offset_of addr in
  if (addr <? MMIO_BASE) && (offset + 3 <? PAGE_SIZE) then
    p ← hm_index (get_page m (idx_of addr));
    match p with
    | Some page => w ← read_word page offset; mret (w, true)
    | None => mret (0, false)
    end
  else
    v ← Memory_read_u16 m addr;
    mret (v, false).

Definition Memory_write_u32 (m : Memory) (addr val : Z) : HM H Memory :=
  if MMIO_BASE <=? addr then mmio_write m addr 4 val
  else
    let offset := offset_of addr in
    if (addr .& 3 =? 0) || (offset + 3 <? PAGE_SIZE) then
      hm_index (update_page m (idx_of addr) (fun p =>
        p ← page_set p offset (le_byte val 0);
        p ← page_set p (offset + 1) (le_byte val 1);
        p ← page_set p (offset + 2) (le_byte val 2);
        page_set p (offset + 3) (le_byte val 3)))
    else default_write_u32 Memory_write_u8 m addr val.

(** One iteration of the [while] loop of [read_bytes].  The state is
    [curr_addr], the bytes of the buffer filled so far (their number is
    [offset_in_buf]) and the host. *)
Definition read_bytes_step (m : Memory) (len : Z) (s : Z * list Z * H)
  : (Z * list Z * H) + option (list Z * H) :=
  let '(curr_addr, buf, h) := s in
  let offset_in_buf := Z.of_nat (length buf) in
  if len <=? offset_in_buf then inr (Some (buf, h))
  else if MMIO_BASE <=? curr_addr then
    inr ((rest ← read_each Memory_read_u8 m curr_addr 0 (Z.to_nat (len - offset_in_buf));
          mret (buf ++ rest)) h)
  else
    let page_offset := offset_of curr_addr in
    let bytes_in_page := Z.min (PAGE_SIZE - page_offset) (len - offset_in_buf) in
    match get_page m (idx_of curr_addr) with
    | None => inr None
    | Some p =>
      match
        match p with
        | Some page => page_slice page page_offset bytes_in_page
        | None => Some (replicate (Z.to_nat bytes_in_page) 0)
        end
      with
      | Some bs => inl (wrapping_add curr_addr (u32 bytes_in_page), buf ++ bs, h)
      | None => inr None
      end
    end.

(** The loop makes progress by at least one byte, so [len + 1] iterations are
    enough. *)
Definition Memory_read_bytes (m : Memory) (addr len : Z) : HM H (list Z) := fun h =>
  if len =? 0 then Some ([], h)
  else
    match loop (read_bytes_step m len) (Z.to_pos (len + 1)) (addr, [], h) with
    | inr r => r
    | inl _ => None
    end.

(** One iteration of [write_bytes]; [src] is the part not yet written. *)
Definition write_bytes_step (s : Z * list Z * Memory * H)
  : (Z * list Z * Memory * H) + option (Memory * H) :=
  let '(curr_addr, src, m, h) := s in
  if Z.of_nat (length src) <=? 0 then inr (Some (m, h))
  else if MMIO_BASE <=? curr_addr then inr (write_each Memory_write_u8 m curr_addr 0 src h)
  else
    let page_offset := offset_of curr_addr in
    let bytes_in_page := Z.min (PAGE_SIZE - page_offset) (Z.of_nat (length src)) in
    let n := Z.to_nat bytes_in_page in
    match update_page m (idx_of curr_addr) (fun p => page_blit p page_offset (take n src)) with
    | Some m' => inl (wrapping_add curr_addr (u32 bytes_in_page), drop n src, m', h)
    | None => inr None
    end.

Definition Memory_write_bytes (m : Memory) (addr : Z) (bytes : list Z) : HM H Memory := fun h =>
  let len := Z.of_nat (length bytes) in
  if len =? 0 then Some (m, h)
  else
    match loop write_bytes_step (Z.to_pos (len + 1)) (addr, bytes, m, h) with
    | inr r => r
    | inl _ => None
    end.

Definition Memory_get_brk (m : Memory) : Z := m.(brk_ptr).

Definition Memory_set_brk (m : Memory) (val : Z) : Memory :=
  if (m.(initial_brk) <=? val) && (val <? MMIO_BASE) then
    {| pages := m.(pages); brk_ptr := val; initial_brk := m.(initial_brk) |}
  else m.

#[global] Instance Memory_ops : MemoryOps H Memory := {
  read_u8 := Memory_read_u8;
  write_u8 := Memory_write_u8;
  read_u16 := Memory_read_u16;
  write_u16 := Memory_write_u16;
  read_u32 := Memory_read_u32;
  write_u32 := Memory_write_u32;
  read_bytes := Memory_read_bytes;
  write_bytes := Memory_write_bytes;
  fetch_window := Memory_fetch_window;
  get_brk := Memory_get_brk;
  set_brk := Memory_set_brk
}.
End MemoryImpl.
