(* ===== verification/MemoryProps.v ===== *)
(** The paged memory implements a byte-addressed memory.

    [byte_at] and [set_byte] are the abstract view of a [Memory]; every optimised
    access of [Memory.v] is shown to be the byte-by-byte access of the trait's
    provided methods, for every address, including accesses that straddle a page,
    run into the MMIO window or wrap around the address space. *)

From S2P Require Import Prelude Bits Host Memory.

Definition ram (a : Z) : Prop := 0 <= a < MMIO_BASE.

Definition byte_at (m : Memory) (a : Z) : Z :=
  match m.(pages) !! idx_of a with
  | Some p => default 0 (p !! offset_of a)
  | None => 0
  end.

Definition set_byte (m : Memory) (a v : Z) : Memory :=
  with_pages (<[idx_of a := <[offset_of a := v]> (default ∅ (m.(pages) !! idx_of a))]> m.(pages)) m.

(** Pages exist only below the MMIO window, hold bytes at in-range offsets, and the
    program break is between the initial break and the MMIO window. *)
Record mem_ok (m : Memory) : Prop := {
  mem_ok_pages : forall i p, m.(pages) !! i = Some p -> 0 <= i < 65535;
  mem_ok_bytes : forall i p o b, m.(pages) !! i = Some p -> p !! o = Some b ->
                                 0 <= o < PAGE_SIZE /\ is_u 8 b;
  mem_ok_brk : 0 <= m.(initial_brk) <= m.(brk_ptr) /\ m.(brk_ptr) < MMIO_BASE
}.

(** ** Address arithmetic *)

Lemma idx_of_div a : idx_of a = a / 65536.
Proof. unfold idx_of, PAGE_SHIFT. by rewrite Z.shiftr_div_pow2 by lia. Qed.

Lemma offset_of_mod a : offset_of a = a mod 65536.
Proof. unfold offset_of, PAGE_MASK. change 0xFFFF with (Z.ones 16). by rewrite Z.land_ones by lia. Qed.

Ltac addr_unfold := unfold ram, MMIO_BASE, PAGE_SIZE, PAGE_COUNT, wrapping_add, wrap in *;
  rewrite ?idx_of_div, ?offset_of_mod in *.

Lemma offset_of_bounds a : 0 <= offset_of a < PAGE_SIZE.
Proof. addr_unfold. zlia. Qed.

Lemma idx_of_ram a : ram a -> 0 <= idx_of a < 65535.
Proof. addr_unfold. zlia. Qed.

Lemma same_page a k :
  ram a -> 0 <= k -> offset_of a + k < PAGE_SIZE ->
  ram (a + k) /\ idx_of (a + k) = idx_of a /\ offset_of (a + k) = offset_of a + k
  /\ wrapping_add a k = a + k.
Proof. intros. addr_unfold. split_and!; zlia. Qed.

Lemma addr_split a b : a = b <-> idx_of a = idx_of b /\ offset_of a = offset_of b.
Proof. addr_unfold. split; [by intros ->|]. zlia. Qed.

Lemma aligned_in_page a k :
  0 <= k <= 3 -> (a .& 1 = 0 /\ k = 1 \/ a .& 3 = 0) -> offset_of a + k < PAGE_SIZE.
Proof.
  intros Hk Ha. addr_unfold.
  destruct Ha as [[Ha ->]|Ha].
  - change 1 with (Z.ones 1) in Ha at 1. rewrite Z.land_ones in Ha by lia. zlia.
  - change 3 with (Z.ones 2) in Ha. rewrite Z.land_ones in Ha by lia. zlia.
Qed.

(** ** Single bytes *)

Section Accesses.
Context {H : Type} `{HostOps H}.
Implicit Types (m : Memory) (h : H).

Lemma get_page_ram m a : ram a -> get_page m (idx_of a) = Some (m.(pages) !! idx_of a).
Proof.
  intros Ha%idx_of_ram. unfold get_page, PAGE_COUNT.
  rewrite (proj2 (Z.leb_le _ _)), (proj2 (Z.ltb_lt _ _)) by lia. done.
Qed.

Lemma page_get_in p i : 0 <= i < PAGE_SIZE -> page_get p i = Some (default 0 (p !! i)).
Proof.
  intros. unfold page_get. rewrite (proj2 (Z.leb_le _ _)), (proj2 (Z.ltb_lt _ _)) by lia. done.
Qed.

Lemma page_set_in p i v : 0 <= i < PAGE_SIZE -> page_set p i v = Some (<[i := v]> p).
Proof.
  intros. unfold page_set. rewrite (proj2 (Z.leb_le _ _)), (proj2 (Z.ltb_lt _ _)) by lia. done.
Qed.

Lemma update_page_ram m a f p' :
  ram a -> f (default ∅ (m.(pages) !! idx_of a)) = Some p' ->
  update_page m (idx_of a) f = Some (with_pages (<[idx_of a := p']> m.(pages)) m).
Proof.
  intros Ha Hf. unfold update_page, get_or_create_page. rewrite get_page_ram by done.
  destruct (m.(pages) !! idx_of a); cbn [default from_option id] in Hf;
    unfold mbind, option_bind; by rewrite Hf.
Qed.

Lemma not_mmio a : ram a -> (MMIO_BASE <=? a) = false.
Proof. unfold ram. intros. apply Z.leb_gt. lia. Qed.

Lemma read_u8_ram m a h : ram a -> Memory_read_u8 m a h = Some (byte_at m a, h).
Proof.
  intros Ha. unfold Memory_read_u8, byte_at. rewrite not_mmio, get_page_ram by done.
  rewrite hm_index_bind. destruct (m.(pages) !! idx_of a) as [p|]; [|done].
  by rewrite page_get_in by apply offset_of_bounds.
Qed.

Lemma write_u8_ram m a v h : ram a -> Memory_write_u8 m a v h = Some (set_byte m a v, h).
Proof.
  intros Ha. unfold Memory_write_u8. rewrite not_mmio by done.
  erewrite update_page_ram by (done || apply page_set_in, offset_of_bounds). done.
Qed.

Lemma byte_at_set_byte m a b v :
  byte_at (set_byte m a v) b = if decide (a = b) then v else byte_at m b.
Proof.
  unfold byte_at, set_byte. cbn [pages with_pages]. case_decide as Hab.
  - subst. by rewrite lookup_insert_eq, lookup_insert_eq.
  - rewrite addr_split in Hab. destruct (decide (idx_of a = idx_of b)) as [Hi|Hi].
    + rewrite Hi, lookup_insert_eq, lookup_insert_ne by naive_solver.
      by destruct (m.(pages) !! idx_of b).
    + by rewrite lookup_insert_ne.
Qed.

Lemma set_byte_ok m a v : ram a -> is_u 8 v -> mem_ok m -> mem_ok (set_byte m a v).
Proof.
  intros Ha Hv Hm. pose proof (idx_of_ram a Ha). pose proof (offset_of_bounds a).
  split; unfold set_byte; cbn [pages with_pages brk_ptr initial_brk]; [| |apply Hm].
  - intros i p. destruct (decide (i = idx_of a)) as [->|]; [done|].
    rewrite lookup_insert_ne by done. apply Hm.
  - intros i p o b. destruct (decide (i = idx_of a)) as [->|].
    + rewrite lookup_insert_eq. intros [= <-].
      destruct (decide (o = offset_of a)) as [->|].
      * rewrite lookup_insert_eq. intros [= <-]. done.
      * rewrite lookup_insert_ne by done. destruct (m.(pages) !! idx_of a) eqn:E; simpl.
        -- by apply (mem_ok_bytes m Hm (idx_of a)).
        -- by rewrite lookup_empty.
    + rewrite lookup_insert_ne by done. apply Hm.
Qed.

Lemma byte_at_is_u8 m a : mem_ok m -> is_u 8 (byte_at m a).
Proof.
  intros Hm. unfold byte_at. destruct (m.(pages) !! idx_of a) as [p|] eqn:Hp; [|by vm_compute].
  destruct (p !! offset_of a) as [b|] eqn:Hb; simpl; [|by vm_compute].
  by apply (mem_ok_bytes m Hm _ _ _ _ Hp Hb).
Qed.

Lemma Memory_new_ok : mem_ok Memory_new.
Proof.
  split; simpl; [intros i p; by rewrite lookup_empty|intros i p o b; by rewrite lookup_empty|].
  unfold MMIO_BASE. lia.
Qed.

Lemma set_byte_frame m a v :
  brk_ptr (set_byte m a v) = brk_ptr m /\ initial_brk (set_byte m a v) = initial_brk m.
Proof. done. Qed.

(** Two bytes of the same page written one after the other. *)
Lemma set_byte_same_page m a b v p :
  idx_of a = idx_of b ->
  set_byte (with_pages (<[idx_of a := p]> m.(pages)) m) b v =
  with_pages (<[idx_of a := <[offset_of b := v]> p]> m.(pages)) m.
Proof.
  intros Hi. unfold set_byte, with_pages. cbn [pages brk_ptr initial_brk].
  rewrite Hi, lookup_insert_eq, insert_insert_eq. done.
Qed.

(** ** Multi-byte accesses are byte accesses *)

Lemma byte_at_in_page m a k p :
  ram a -> 0 <= k -> offset_of a + k < PAGE_SIZE -> m.(pages) !! idx_of a = Some p ->
  page_get p (offset_of a + k) = Some (byte_at m (a + k)).
Proof.
  intros Ha Hk Ho Hp. destruct (same_page a k Ha Hk Ho) as (_ & Hi & Hof & _).
  pose proof (offset_of_bounds a). rewrite page_get_in by lia.
  unfold byte_at. by rewrite Hi, Hof, Hp.
Qed.

Lemma byte_at_no_page m a k :
  ram a -> 0 <= k -> offset_of a + k < PAGE_SIZE -> m.(pages) !! idx_of a = None ->
  byte_at m (a + k) = 0.
Proof.
  intros Ha Hk Ho Hp. destruct (same_page a k Ha Hk Ho) as (_ & Hi & _ & _).
  unfold byte_at. by rewrite Hi, Hp.
Qed.

Lemma default_read_u16_ram m a h :
  ram a -> offset_of a + 1 < PAGE_SIZE ->
  default_read_u16 Memory_read_u8 m a h =
  Some (byte_at m a .| u16 (byte_at m (a + 1) .<< 8), h).
Proof.
  intros Ha Ho. destruct (same_page a 1 Ha ltac:(lia) Ho) as (Ha1 & _ & _ & Hw).
  unfold default_read_u16. erewrite hm_bind_some by by apply read_u8_ram.
  rewrite Hw. erewrite hm_bind_some by by apply read_u8_ram. done.
Qed.

Lemma default_read_u32_ram m a h :
  ram a -> offset_of a + 3 < PAGE_SIZE ->
  default_read_u32 Memory_read_u8 m a h =
  Some (byte_at m a .| u32 (byte_at m (a + 1) .<< 8) .| u32 (byte_at m (a + 2) .<< 16)
        .| u32 (byte_at m (a + 3) .<< 24), h).
Proof.
  intros Ha Ho.
  destruct (same_page a 1 Ha ltac:(lia) ltac:(lia)) as (Ha1 & _ & _ & Hw1).
  destruct (same_page a 2 Ha ltac:(lia) ltac:(lia)) as (Ha2 & _ & _ & Hw2).
  destruct (same_page a 3 Ha ltac:(lia) ltac:(lia)) as (Ha3 & _ & _ & Hw3).
  unfold default_read_u32. rewrite Hw1, Hw2, Hw3.
  do 4 (erewrite hm_bind_some by by apply read_u8_ram). done.
Qed.

Lemma read_word_in_page m a p h :
  ram a -> offset_of a + 3 < PAGE_SIZE -> m.(pages) !! idx_of a = Some p ->
  read_word p (offset_of a) h =
  Some (from_le_bytes4 (byte_at m a) (byte_at m (a + 1)) (byte_at m (a + 2)) (byte_at m (a + 3)), h).
Proof.
  intros Ha Ho Hp. pose proof (offset_of_bounds a). unfold read_word.
  pose proof (byte_at_in_page m a 0 p Ha ltac:(lia) ltac:(lia) Hp) as H0'.
  rewrite !Z.add_0_r in H0'.
  rewrite H0', (byte_at_in_page m a 1), (byte_at_in_page m a 2), (byte_at_in_page m a 3)
    by (done || lia).
  done.
Qed.

Lemma from_le_bytes2_wrap b0 b1 :
  is_u 8 b0 -> is_u 8 b1 -> from_le_bytes2 b0 b1 = b0 .| u16 (b1 .<< 8).
Proof. unfold from_le_bytes2. bits. Qed.

Lemma from_le_bytes4_wrap b0 b1 b2 b3 :
  is_u 8 b0 -> is_u 8 b1 -> is_u 8 b2 -> is_u 8 b3 ->
  from_le_bytes4 b0 b1 b2 b3 = b0 .| u32 (b1 .<< 8) .| u32 (b2 .<< 16) .| u32 (b3 .<< 24).
Proof. unfold from_le_bytes4. bits. Qed.

Lemma read_u16_default m a h :
  mem_ok m -> ram a -> Memory_read_u16 m a h = default_read_u16 Memory_read_u8 m a h.
Proof.
  intros Hm Ha. unfold Memory_read_u16. rewrite not_mmio by done.
  destruct ((a .& 1 =? 0) || (offset_of a + 1 <? PAGE_SIZE)) eqn:Hc; [|done].
  assert (Ho : offset_of a + 1 < PAGE_SIZE).
  { apply orb_true_iff in Hc as [Hc%Z.eqb_eq|Hc%Z.ltb_lt]; [|done].
    apply aligned_in_page; [lia|]. left. done. }
  rewrite get_page_ram, hm_index_bind, default_read_u16_ram by done.
  destruct (m.(pages) !! idx_of a) as [p|] eqn:Hp.
  - pose proof (byte_at_in_page m a 0 p Ha ltac:(lia) ltac:(lia) Hp) as H0'.
    rewrite !Z.add_0_r in H0'.
    rewrite H0', (byte_at_in_page m a 1 p), !hm_index_bind by (done || lia).
    unfold mret, HM_ret. by rewrite from_le_bytes2_wrap by by apply byte_at_is_u8.
  - pose proof (byte_at_no_page m a 0 Ha ltac:(lia) ltac:(lia) Hp) as H0'.
    rewrite Z.add_0_r in H0'. by rewrite H0', (byte_at_no_page m a 1) by (done || lia).
Qed.

Lemma read_u32_default m a h :
  mem_ok m -> ram a -> Memory_read_u32 m a h = default_read_u32 Memory_read_u8 m a h.
Proof.
  intros Hm Ha. unfold Memory_read_u32. rewrite not_mmio by done.
  destruct ((a .& 3 =? 0) || (offset_of a + 3 <? PAGE_SIZE)) eqn:Hc; [|done].
  assert (Ho : offset_of a + 3 < PAGE_SIZE).
  { apply orb_true_iff in Hc as [Hc%Z.eqb_eq|Hc%Z.ltb_lt]; [|done].
    apply aligned_in_page; [lia|]. by right. }
  rewrite get_page_ram, hm_index_bind, default_read_u32_ram by done.
  destruct (m.(pages) !! idx_of a) as [p|] eqn:Hp.
  - rewrite (read_word_in_page m) by done.
    by rewrite from_le_bytes4_wrap by by apply byte_at_is_u8.
  - pose proof (byte_at_no_page m a 0 Ha ltac:(lia) ltac:(lia) Hp) as H0'.
    rewrite Z.add_0_r in H0'.
    by rewrite H0', (byte_at_no_page m a 1), (byte_at_no_page m a 2), (byte_at_no_page m a 3)
      by (done || lia).
Qed.

Lemma default_write_u16_ram m a v h :
  ram a -> offset_of a + 1 < PAGE_SIZE ->
  default_write_u16 Memory_write_u8 m a v h =
  Some (set_byte (set_byte m a (le_byte v 0)) (a + 1) (le_byte v 1), h).
Proof.
  intros Ha Ho. destruct (same_page a 1 Ha ltac:(lia) Ho) as (Ha1 & _ & _ & Hw).
  unfold default_write_u16. erewrite hm_bind_some by by apply write_u8_ram.
  rewrite Hw. by apply write_u8_ram.
Qed.

Lemma write_u16_default m a v h :
  ram a -> Memory_write_u16 m a v h = default_write_u16 Memory_write_u8 m a v h.
Proof.
  intros Ha. unfold Memory_write_u16. rewrite not_mmio by done.
  destruct ((a .& 1 =? 0) || (offset_of a + 1 <? PAGE_SIZE)) eqn:Hc; [|done].
  assert (Ho : offset_of a + 1 < PAGE_SIZE).
  { apply orb_true_iff in Hc as [Hc%Z.eqb_eq|Hc%Z.ltb_lt]; [|done].
    apply aligned_in_page; [lia|]. by left. }
  destruct (same_page a 1 Ha ltac:(lia) Ho) as (_ & Hi1 & Ho1 & _).
  pose proof (offset_of_bounds a). rewrite default_write_u16_ram by done. fold (idx_of a).
  erewrite update_page_ram; [|done|rewrite page_set_in by lia; simpl; by rewrite page_set_in by lia].
  unfold set_byte at 2. rewrite set_byte_same_page by done. by rewrite Ho1.
Qed.

Lemma default_write_u32_ram m a v h :
  ram a -> offset_of a + 3 < PAGE_SIZE ->
  default_write_u32 Memory_write_u8 m a v h =
  Some (set_byte (set_byte (set_byte (set_byte m a (le_byte v 0)) (a + 1) (le_byte v 1))
          (a + 2) (le_byte v 2)) (a + 3) (le_byte v 3), h).
Proof.
  intros Ha Ho.
  destruct (same_page a 1 Ha ltac:(lia) ltac:(lia)) as (Ha1 & _ & _ & Hw1).
  destruct (same_page a 2 Ha ltac:(lia) ltac:(lia)) as (Ha2 & _ & _ & Hw2).
  destruct (same_page a 3 Ha ltac:(lia) ltac:(lia)) as (Ha3 & _ & _ & Hw3).
  unfold default_write_u32. rewrite Hw1, Hw2, Hw3.
  do 3 (erewrite hm_bind_some by by apply write_u8_ram). by apply write_u8_ram.
Qed.

Lemma write_u32_default m a v h :
  ram a -> Memory_write_u32 m a v h = default_write_u32 Memory_write_u8 m a v h.
Proof.
  intros Ha. unfold Memory_write_u32. rewrite not_mmio by done.
  destruct ((a .& 3 =? 0) || (offset_of a + 3 <? PAGE_SIZE)) eqn:Hc; [|done].
  assert (Ho : offset_of a + 3 < PAGE_SIZE).
  { apply orb_true_iff in Hc as [Hc%Z.eqb_eq|Hc%Z.ltb_lt]; [|done].
    apply aligned_in_page; [lia|]. by right. }
  destruct (same_page a 1 Ha ltac:(lia) ltac:(lia)) as (_ & Hi1 & Ho1 & _).
  destruct (same_page a 2 Ha ltac:(lia) ltac:(lia)) as (_ & Hi2 & Ho2 & _).
  destruct (same_page a 3 Ha ltac:(lia) ltac:(lia)) as (_ & Hi3 & Ho3 & _).
  pose proof (offset_of_bounds a). rewrite default_write_u32_ram by done.
  erewrite update_page_ram; [|done|
    unfold mbind, option_bind; do 3 (rewrite page_set_in by lia; cbv beta iota);
    by rewrite page_set_in by lia].
  unfold set_byte at 4. rewrite !set_byte_same_page by done. by rewrite Ho1, Ho2, Ho3.
Qed.

(** ** Byte strings *)

Lemma wrapping_add_assoc a i j :
  wrapping_add a (u32 (i + j)) = wrapping_add (wrapping_add a (u32 i)) (u32 j).
Proof.
  unfold wrapping_add, wrap.
  rewrite Zplus_mod_idemp_l, Zplus_mod_idemp_r, Zplus_mod_idemp_r.
  rewrite (Z.add_comm a (i mod 2 ^ 32)), <- Z.add_assoc, Zplus_mod_idemp_l. f_equal. lia.
Qed.

Lemma read_each_shift m a i j n h :
  read_each Memory_read_u8 m a (i + j) n h =
  read_each Memory_read_u8 m (wrapping_add a (u32 i)) j n h.
Proof.
  revert j h. induction n as [|n IH]; intros j h; [done|].
  cbn [read_each]. rewrite wrapping_add_assoc. unfold mbind, HM_bind.
  destruct (Memory_read_u8 m (wrapping_add (wrapping_add a (u32 i)) (u32 j)) h) as [[b h']|]; [|done].
  by rewrite <- Z.add_assoc, IH.
Qed.

Lemma read_each_app m a i n1 n2 h :
  read_each Memory_read_u8 m a i (n1 + n2) h =
  (bs1 ← read_each Memory_read_u8 m a i n1;
   bs2 ← read_each Memory_read_u8 m a (i + Z.of_nat n1) n2;
   mret (bs1 ++ bs2)) h.
Proof.
  revert i h. induction n1 as [|n1 IH]; intros i h.
  - rewrite Z.add_0_r. simpl. unfold mbind, HM_bind, mret, HM_ret.
    by destruct (read_each _ m a i n2 h) as [[]|].
  - cbn [Nat.add read_each]. unfold mbind, HM_bind, mret, HM_ret in *.
    destruct (Memory_read_u8 m _ h) as [[b h']|]; [|done].
    rewrite IH. replace (i + 1 + Z.of_nat n1) with (i + Z.of_nat (S n1)) by lia.
    destruct (read_each _ m a (i + 1) n1 h') as [[bs1 h1]|]; [|done].
    by destruct (read_each _ m a _ n2 h1) as [[]|].
Qed.

Lemma u32_small i : 0 <= i < 2 ^ 32 -> u32 i = i.
Proof. apply Z.mod_small. Qed.

Lemma read_each_page m a i n h :
  ram a -> 0 <= i -> offset_of a + i + Z.of_nat n <= PAGE_SIZE ->
  read_each Memory_read_u8 m a i n h = Some (map (byte_at m) (seqZ (a + i) (Z.of_nat n)), h).
Proof.
  intros Ha. revert i. induction n as [|n IH]; intros i Hi Ho; [done|].
  pose proof (offset_of_bounds a).
  destruct (same_page a i Ha Hi ltac:(lia)) as (Hr & _ & _ & Hw).
  assert (u32 i = i) as Hu by (apply u32_small; unfold PAGE_SIZE in *; lia).
  cbn [read_each]. rewrite Hu, Hw. erewrite hm_bind_some by by apply read_u8_ram.
  erewrite hm_bind_some by (apply IH; lia). unfold mret, HM_ret. do 2 f_equal.
  rewrite Nat2Z.inj_succ, (seqZ_cons (a + i)), Z.pred_succ by lia. cbn [map].
  by replace (Z.succ (a + i)) with (a + (i + 1)) by lia.
Qed.

Lemma page_slice_bytes m a k p :
  ram a -> 0 <= k -> offset_of a + k <= PAGE_SIZE -> m.(pages) !! idx_of a = Some p ->
  page_slice p (offset_of a) k = Some (map (byte_at m) (seqZ a k)).
Proof.
  intros Ha Hk Ho Hp. unfold page_slice. rewrite (proj2 (Z.leb_le _ _)) by done. f_equal.
  apply list_eq. intros j. rewrite !list_lookup_fmap.
  destruct (decide (Z.of_nat j < k)).
  - rewrite !lookup_seqZ_lt by lia. cbn [fmap option_fmap option_map]. f_equal.
    destruct (same_page a (Z.of_nat j) Ha ltac:(lia) ltac:(lia)) as (_ & Hi & Hof & _).
    unfold byte_at. by rewrite Hi, Hof, Hp.
  - by rewrite !lookup_seqZ_ge by lia.
Qed.

Lemma no_page_bytes m a k :
  ram a -> 0 <= k -> offset_of a + k <= PAGE_SIZE -> m.(pages) !! idx_of a = None ->
  replicate (Z.to_nat k) 0 = map (byte_at m) (seqZ a k).
Proof.
  intros Ha Hk Ho Hp. apply list_eq. intros j. rewrite list_lookup_fmap.
  destruct (decide (Z.of_nat j < k)).
  - rewrite lookup_replicate_2, lookup_seqZ_lt by lia. cbn [fmap option_fmap option_map]. f_equal.
    symmetry. apply byte_at_no_page; done || lia.
  - rewrite lookup_seqZ_ge by lia. apply lookup_replicate_None. lia.
Qed.

(** What the rest of the [read_bytes] loop computes. *)
Lemma read_bytes_loop m len n curr buf h :
  is_u 32 curr -> Z.of_nat (length buf) <= len ->
  (Z.to_nat (len - Z.of_nat (length buf)) < n)%nat ->
  loop_nat (read_bytes_step m len) n (curr, buf, h) =
  inr ((rest ← read_each Memory_read_u8 m curr 0 (Z.to_nat (len - Z.of_nat (length buf)));
        mret (buf ++ rest)) h).
Proof.
  revert curr buf. induction n as [|n IH]; intros curr buf Hc Hl Hn; [lia|].
  cbn [loop_nat]. unfold read_bytes_step at 1.
  destruct (Z.leb_spec len (Z.of_nat (length buf))).
  { replace (Z.to_nat (len - Z.of_nat (length buf))) with O by lia.
    unfold mbind, HM_bind. simpl. by rewrite app_nil_r. }
  destruct (Z.leb_spec MMIO_BASE curr); [done|].
  assert (Ha : ram curr) by (unfold ram, is_u in *; lia).
  pose proof (offset_of_bounds curr). rewrite get_page_ram by done.
  set (k := Z.min (PAGE_SIZE - offset_of curr) (len - Z.of_nat (length buf))) in *.
  assert (Hbs : match m.(pages) !! idx_of curr with
    | Some page => page_slice page (offset_of curr) k
    | None => Some (replicate (Z.to_nat k) 0)
    end = Some (map (byte_at m) (seqZ curr k))).
  { destruct (m.(pages) !! idx_of curr) eqn:Hp;
      [by apply page_slice_bytes; try done; lia|].
    f_equal. apply no_page_bytes; done || lia. }
  rewrite Hbs. rewrite IH.
  - rewrite length_app, length_map, length_seqZ.
    replace (Z.to_nat (len - Z.of_nat (length buf)))
      with (Z.to_nat k + Z.to_nat (len - Z.of_nat (length buf + Z.to_nat k)))%nat by lia.
    unfold mbind at 2, HM_bind at 2. rewrite read_each_app.
    unfold mbind, HM_bind, mret, HM_ret.
    rewrite (read_each_page m curr 0 (Z.to_nat k)) by (done || lia).
    rewrite Z.add_0_r, Z2Nat.id by lia.
    rewrite <- (Z.add_0_r (0 + k)), read_each_shift, Z.add_0_l.
    destruct (read_each _ m _ 0 _ h) as [[bs h']|]; [|done]. by rewrite app_assoc.
  - apply wrap_is_u. lia.
  - rewrite length_app, length_map, length_seqZ. lia.
  - rewrite length_app, length_map, length_seqZ. lia.
Qed.

Lemma read_bytes_default m a len h :
  is_u 32 a -> 0 <= len ->
  Memory_read_bytes m a len h = default_read_bytes Memory_read_u8 m a len h.
Proof.
  intros Ha Hl. unfold Memory_read_bytes, default_read_bytes.
  destruct (Z.eqb_spec len 0); [by subst|].
  rewrite loop_spec, read_bytes_loop; [|done|simpl; lia|simpl; lia].
  cbn [length]. rewrite Z.sub_0_r. unfold mbind, HM_bind.
  by destruct (read_each _ m a 0 _ h) as [[]|].
Qed.

Lemma write_each_shift m a i j bs h :
  write_each Memory_write_u8 m a (i + j) bs h =
  write_each Memory_write_u8 m (wrapping_add a (u32 i)) j bs h.
Proof.
  revert m j h. induction bs as [|b bs IH]; intros m j h; [done|].
  cbn [write_each]. rewrite wrapping_add_assoc. unfold mbind, HM_bind.
  destruct (Memory_write_u8 m _ b h) as [[m' h']|]; [|done]. by rewrite <- Z.add_assoc, IH.
Qed.

Lemma write_each_app m a i bs1 bs2 h :
  write_each Memory_write_u8 m a i (bs1 ++ bs2) h =
  (m' ← write_each Memory_write_u8 m a i bs1;
   write_each Memory_write_u8 m' a (i + Z.of_nat (length bs1)) bs2) h.
Proof.
  revert m i h. induction bs1 as [|b bs1 IH]; intros m i h.
  - cbn. by rewrite Z.add_0_r.
  - cbn [app write_each length]. unfold mbind, HM_bind in *.
    destruct (Memory_write_u8 m _ b h) as [[m' h']|]; [|done]. rewrite IH.
    by replace (i + 1 + Z.of_nat (length bs1)) with (i + Z.of_nat (S (length bs1))) by lia.
Qed.

(** Bytes written one by one into an existing page are a block copy. *)
Lemma write_each_blit m pgs a p i bs h :
  ram a -> 0 <= i -> offset_of a + i + Z.of_nat (length bs) <= PAGE_SIZE ->
  write_each Memory_write_u8 (with_pages (<[idx_of a := p]> pgs) m) a i bs h =
  Some (with_pages (<[idx_of a := blit p (offset_of a + i) bs]> pgs) m, h).
Proof.
  intros Ha. revert p i. induction bs as [|b bs IH]; intros p i Hi Ho; [done|].
  cbn [length] in Ho. pose proof (offset_of_bounds a).
  destruct (same_page a i Ha Hi ltac:(lia)) as (Hr & Hidx & Hof & Hw).
  assert (u32 i = i) as Hu by (apply u32_small; unfold PAGE_SIZE in *; lia).
  cbn [write_each blit]. rewrite Hu, Hw. erewrite hm_bind_some by by apply write_u8_ram.
  pose proof (set_byte_same_page (with_pages pgs m) a (a + i) b p ltac:(done)) as Hs.
  unfold with_pages in *. cbn [pages brk_ptr initial_brk] in *. rewrite Hs, Hof.
  rewrite IH by lia. by rewrite Z.add_assoc.
Qed.

Lemma write_each_page m a bs h :
  ram a -> bs <> [] -> offset_of a + Z.of_nat (length bs) <= PAGE_SIZE ->
  exists m', update_page m (idx_of a) (fun p => page_blit p (offset_of a) bs) = Some m' /\
             write_each Memory_write_u8 m a 0 bs h = Some (m', h).
Proof.
  intros Ha Hne Ho. eexists. split.
  - apply update_page_ram; [done|]. unfold page_blit. by rewrite (proj2 (Z.leb_le _ _)).
  - destruct bs as [|b bs]; [done|]. cbn [write_each length] in *.
    assert (wrapping_add a (u32 0) = a) as ->.
    { unfold wrapping_add, wrap, ram, MMIO_BASE in *.
      rewrite Z.mod_0_l, Z.add_0_r, Z.mod_small; lia. }
    erewrite hm_bind_some by by apply write_u8_ram. unfold set_byte.
    rewrite write_each_blit by (done || lia). by rewrite Z.add_0_l.
Qed.

Lemma write_bytes_loop n curr src m h :
  is_u 32 curr -> (length src < n)%nat ->
  loop_nat write_bytes_step n (curr, src, m, h) =
  inr (write_each Memory_write_u8 m curr 0 src h).
Proof.
  revert curr src m. induction n as [|n IH]; intros curr src m Hc Hn; [lia|].
  cbn [loop_nat]. unfold write_bytes_step at 1.
  destruct (Z.leb_spec (Z.of_nat (length src)) 0).
  { destruct src; [done|cbn [length] in *; lia]. }
  destruct (Z.leb_spec MMIO_BASE curr); [done|].
  assert (Ha : ram curr) by (unfold ram, is_u in *; lia).
  pose proof (offset_of_bounds curr).
  set (k := Z.min (PAGE_SIZE - offset_of curr) (Z.of_nat (length src))) in *.
  assert (Hlen : length (take (Z.to_nat k) src) = Z.to_nat k) by (rewrite length_take; lia).
  destruct (write_each_page m curr (take (Z.to_nat k) src) h) as (m' & -> & Hw); [done| |lia|].
  { intros Hnil. rewrite Hnil in Hlen. cbn [length] in Hlen. lia. }
  rewrite IH; [|by apply wrap_is_u|rewrite length_drop; lia].
  rewrite <- (take_drop (Z.to_nat k) src) at 2. rewrite write_each_app.
  erewrite hm_bind_some by exact Hw.
  rewrite Hlen, Z2Nat.id, <- (Z.add_0_r (0 + k)), write_each_shift by lia. done.
Qed.

Lemma write_bytes_default m a bs h :
  is_u 32 a ->
  Memory_write_bytes m a bs h = default_write_bytes Memory_write_u8 m a bs h.
Proof.
  intros Ha. unfold Memory_write_bytes, default_write_bytes.
  destruct (Z.eqb_spec (Z.of_nat (length bs)) 0); [by destruct bs|].
  rewrite loop_spec, write_bytes_loop; [done|done|lia].
Qed.
End Accesses.

(** * The interface the CPU relies on

    [MemoryLaws] is what a [MemoryOps] implementation promises the CPU: under an
    invariant, no access panics, loads return values of their width, and every
    write keeps the invariant.  The CPU's theorems are proved against it; the
    instance below discharges it for [Memory]. *)

Class MemoryLaws (H Mem : Type) `{MemoryOps H Mem} := {
  mem_inv : Mem -> Prop;
  read_u8_law : forall m a h, mem_inv m -> is_u 32 a ->
    exists v h', read_u8 m a h = Some (v, h') /\ is_u 8 v;
  read_u16_law : forall m a h, mem_inv m -> is_u 32 a ->
    exists v h', read_u16 m a h = Some (v, h') /\ is_u 16 v;
  read_u32_law : forall m a h, mem_inv m -> is_u 32 a ->
    exists v h', read_u32 m a h = Some (v, h') /\ is_u 32 v;
  write_u8_law : forall m a v h, mem_inv m -> is_u 32 a -> is_u 8 v ->
    exists m' h', write_u8 m a v h = Some (m', h') /\ mem_inv m';
  write_u16_law : forall m a v h, mem_inv m -> is_u 32 a -> is_u 16 v ->
    exists m' h', write_u16 m a v h = Some (m', h') /\ mem_inv m';
  write_u32_law : forall m a v h, mem_inv m -> is_u 32 a -> is_u 32 v ->
    exists m' h', write_u32 m a v h = Some (m', h') /\ mem_inv m';
  read_bytes_law : forall m a len h, mem_inv m -> is_u 32 a -> 0 <= len ->
    exists bs h', read_bytes m a len h = Some (bs, h') /\
                  length bs = Z.to_nat len /\ Forall (is_u 8) bs;
  write_bytes_law : forall m a bs h, mem_inv m -> is_u 32 a -> Forall (is_u 8) bs ->
    exists m' h', write_bytes m a bs h = Some (m', h') /\ mem_inv m';
  fetch_window_law : forall m a h, mem_inv m -> is_u 32 a ->
    exists w wide h', fetch_window m a h = Some ((w, wide), h') /\ is_u 32 w;
  get_brk_law : forall m, mem_inv m -> is_u 32 (get_brk m);
  set_brk_law : forall m v, mem_inv m -> is_u 32 v -> mem_inv (set_brk m v)
}.

Section Laws.
Context {H : Type} `{HostOps H}.
Implicit Types (m : Memory) (h : H).

Lemma ram_or_mmio a : is_u 32 a -> ram a \/ (MMIO_BASE <=? a) = true.
Proof. unfold is_u, ram. intros. destruct (Z.leb_spec MMIO_BASE a); [by right|left; lia]. Qed.

Lemma js_read_mmio_u32 a sz h : is_u 32 (js_read_mmio a sz h).1.
Proof. unfold js_read_mmio. destruct (ffi_read_mmio a sz h). by apply wrap_is_u. Qed.

Lemma mmio_read_bind {A} a sz (f : Z -> HM H A) h :
  exists v h', (mmio_read a sz ≫= f) h = f v h' /\ mmio_read a sz h = Some (v, h') /\ is_u 32 v.
Proof.
  unfold mmio_read, mbind, HM_bind. pose proof (js_read_mmio_u32 a sz h) as Hu.
  destruct (js_read_mmio a sz h) as [v h']. by exists v, h'.
Qed.

Lemma Memory_read_u8_law m a h :
  mem_ok m -> is_u 32 a -> exists v h', Memory_read_u8 m a h = Some (v, h') /\ is_u 8 v.
Proof.
  intros Hm Ha. destruct (ram_or_mmio a Ha) as [Hr|Hr].
  - rewrite read_u8_ram by done. do 2 eexists. split; [done|]. by apply byte_at_is_u8.
  - unfold Memory_read_u8. rewrite Hr.
    destruct (mmio_read_bind a 1 (fun v => mret (u8 (v .& 0xFF))) h) as (v & h' & -> & _ & _).
    do 2 eexists. split; [done|]. by apply wrap_is_u.
Qed.

Lemma Memory_write_u8_law m a v h :
  mem_ok m -> is_u 32 a -> is_u 8 v ->
  exists m' h', Memory_write_u8 m a v h = Some (m', h') /\ mem_ok m'.
Proof.
  intros Hm Ha Hv. destruct (ram_or_mmio a Ha) as [Hr|Hr].
  - rewrite write_u8_ram by done. do 2 eexists. split; [done|]. by apply set_byte_ok.
  - unfold Memory_write_u8. rewrite Hr. do 2 eexists. by split.
Qed.

Lemma wrapping_add_u32 a b : is_u 32 (wrapping_add a b).
Proof. by apply wrap_is_u. Qed.

Lemma le_byte_u8 v i : is_u 8 (le_byte v i).
Proof.
  unfold le_byte. change 0xFF with (Z.ones 8). rewrite Z.land_ones by lia. by apply wrap_is_u.
Qed.

Lemma default_read_u16_law m a h :
  mem_ok m -> is_u 32 a ->
  exists v h', default_read_u16 Memory_read_u8 m a h = Some (v, h') /\ is_u 16 v.
Proof.
  intros Hm Ha. unfold default_read_u16.
  destruct (Memory_read_u8_law m a h Hm Ha) as (b0 & h0 & E0 & H0').
  destruct (Memory_read_u8_law m _ h0 Hm (wrapping_add_u32 a 1)) as (b1 & h1 & E1 & H1').
  erewrite hm_bind_some by exact E0. erewrite hm_bind_some by exact E1.
  do 2 eexists. split; [done|]. bits_range.
Qed.

Lemma default_read_u32_law m a h :
  mem_ok m -> is_u 32 a ->
  exists v h', default_read_u32 Memory_read_u8 m a h = Some (v, h') /\ is_u 32 v.
Proof.
  intros Hm Ha. unfold default_read_u32.
  destruct (Memory_read_u8_law m a h Hm Ha) as (b0 & h0 & E0 & H0').
  destruct (Memory_read_u8_law m _ h0 Hm (wrapping_add_u32 a 1)) as (b1 & h1 & E1 & H1').
  destruct (Memory_read_u8_law m _ h1 Hm (wrapping_add_u32 a 2)) as (b2 & h2 & E2 & H2').
  destruct (Memory_read_u8_law m _ h2 Hm (wrapping_add_u32 a 3)) as (b3 & h3 & E3 & H3').
  erewrite hm_bind_some by exact E0. erewrite hm_bind_some by exact E1.
  erewrite hm_bind_some by exact E2. erewrite hm_bind_some by exact E3.
  do 2 eexists. split; [done|]. bits_range.
Qed.

Lemma Memory_read_u16_law m a h :
  mem_ok m -> is_u 32 a -> exists v h', Memory_read_u16 m a h = Some (v, h') /\ is_u 16 v.
Proof.
  intros Hm Ha. destruct (ram_or_mmio a Ha) as [Hr|Hr].
  - rewrite read_u16_default by done. by apply default_read_u16_law.
  - unfold Memory_read_u16. rewrite Hr.
    destruct (mmio_read_bind a 2 (fun v => mret (u16 (v .& 0xFFFF))) h) as (v & h' & -> & _ & _).
    do 2 eexists. split; [done|]. by apply wrap_is_u.
Qed.

Lemma Memory_read_u32_law m a h :
  mem_ok m -> is_u 32 a -> exists v h', Memory_read_u32 m a h = Some (v, h') /\ is_u 32 v.
Proof.
  intros Hm Ha. destruct (ram_or_mmio a Ha) as [Hr|Hr].
  - rewrite read_u32_default by done. by apply default_read_u32_law.
  - unfold Memory_read_u32. rewrite Hr.
    destruct (mmio_read_bind a 4 (fun v => mret v) h) as (v & h' & _ & -> & ?). eauto.
Qed.

Lemma write_each_law m a i bs h :
  mem_ok m -> Forall (is_u 8) bs ->
  exists m' h', write_each Memory_write_u8 m a i bs h = Some (m', h') /\ mem_ok m'.
Proof.
  revert m i h. induction bs as [|b bs IH]; intros m i h Hm Hbs; [by do 2 eexists|].
  inversion_clear Hbs as [|? ? Hb Hbs']. cbn [write_each].
  destruct (Memory_write_u8_law m _ b h Hm (wrapping_add_u32 a (u32 i)) Hb) as (m1 & h1 & E & Hm1).
  erewrite hm_bind_some by exact E. by apply IH.
Qed.

(** Multi-byte stores in terms of [write_each]. *)
Lemma default_write_u16_each m a v h :
  is_u 32 a ->
  default_write_u16 Memory_write_u8 m a v h =
  write_each Memory_write_u8 m a 0 [le_byte v 0; le_byte v 1] h.
Proof.
  intros Ha. cbn [write_each]. unfold default_write_u16.
  replace (wrapping_add a (u32 0)) with a by (unfold wrapping_add, wrap, is_u in *; zlia).
  unfold mbind, HM_bind. destruct (Memory_write_u8 m a _ h) as [[m1 h1]|]; [|done].
  change (u32 (0 + 1)) with 1. by destruct (Memory_write_u8 m1 _ _ h1) as [[]|].
Qed.

Lemma default_write_u32_each m a v h :
  is_u 32 a ->
  default_write_u32 Memory_write_u8 m a v h =
  write_each Memory_write_u8 m a 0 [le_byte v 0; le_byte v 1; le_byte v 2; le_byte v 3] h.
Proof.
  intros Ha. cbn [write_each]. unfold default_write_u32.
  replace (wrapping_add a (u32 0)) with a by (unfold wrapping_add, wrap, is_u in *; zlia).
  change (u32 (0 + 1)) with 1. change (u32 (0 + 1 + 1)) with 2. change (u32 (0 + 1 + 1 + 1)) with 3.
  unfold mbind, HM_bind. destruct (Memory_write_u8 m a _ h) as [[m1 h1]|]; [|done].
  destruct (Memory_write_u8 m1 _ _ h1) as [[m2 h2]|]; [|done].
  destruct (Memory_write_u8 m2 _ _ h2) as [[m3 h3]|]; [|done].
  by destruct (Memory_write_u8 m3 _ _ h3) as [[]|].
Qed.

Lemma Memory_write_u16_law m a v h :
  mem_ok m -> is_u 32 a -> is_u 16 v ->
  exists m' h', Memory_write_u16 m a v h = Some (m', h') /\ mem_ok m'.
Proof.
  intros Hm Ha Hv. destruct (ram_or_mmio a Ha) as [Hr|Hr].
  - rewrite write_u16_default, default_write_u16_each by done.
    apply write_each_law; [done|]. repeat constructor; apply le_byte_u8.
  - unfold Memory_write_u16. rewrite Hr. do 2 eexists. by split.
Qed.

Lemma Memory_write_u32_law m a v h :
  mem_ok m -> is_u 32 a -> is_u 32 v ->
  exists m' h', Memory_write_u32 m a v h = Some (m', h') /\ mem_ok m'.
Proof.
  intros Hm Ha Hv. destruct (ram_or_mmio a Ha) as [Hr|Hr].
  - rewrite write_u32_default, default_write_u32_each by done.
    apply write_each_law; [done|]. repeat constructor; apply le_byte_u8.
  - unfold Memory_write_u32. rewrite Hr. do 2 eexists. by split.
Qed.

Lemma read_each_law m a i n h :
  mem_ok m ->
  exists bs h', read_each Memory_read_u8 m a i n h = Some (bs, h') /\
                length bs = n /\ Forall (is_u 8) bs.
Proof.
  intros Hm. revert i h. induction n as [|n IH]; intros i h; [by exists [], h|].
  cbn [read_each].
  destruct (Memory_read_u8_law m _ h Hm (wrapping_add_u32 a (u32 i))) as (b & h1 & E & Hb).
  destruct (IH (i + 1) h1) as (bs & h2 & E2 & Hl & Hbs).
  erewrite hm_bind_some by exact E. erewrite hm_bind_some by exact E2.
  exists (b :: bs), h2. split_and!; [done|by simpl; f_equal|by constructor].
Qed.

Lemma fetch_window_cases m a h :
  mem_ok m -> ram a -> offset_of a + 3 < PAGE_SIZE ->
  Memory_fetch_window m a h =
  match m.(pages) !! idx_of a with
  | Some _ => (w ← Memory_read_u32 m a; mret (w, true)) h
  | None => Some ((0, false), h)
  end.
Proof.
  intros Hm Ha Ho. unfold Memory_fetch_window.
  rewrite (proj2 (Z.ltb_lt a _)), (proj2 (Z.ltb_lt _ PAGE_SIZE)) by (done || apply Ha).
  rewrite get_page_ram by done. cbn [andb]. rewrite hm_index_bind.
  destruct (m.(pages) !! idx_of a) as [p|] eqn:Hp; [|done].
  unfold mbind, HM_bind. rewrite (read_word_in_page m a p h Ha Ho Hp).
  rewrite read_u32_default, default_read_u32_ram by done.
  by rewrite from_le_bytes4_wrap by by apply byte_at_is_u8.
Qed.

Lemma fetch_window_narrow m a h :
  is_u 32 a -> MMIO_BASE <= a \/ PAGE_SIZE <= offset_of a + 3 ->
  Memory_fetch_window m a h = (v ← Memory_read_u16 m a; mret (v, false)) h.
Proof.
  intros Ha Hc. unfold Memory_fetch_window.
  destruct (Z.ltb_spec a MMIO_BASE); [|done].
  destruct (Z.ltb_spec (offset_of a + 3) PAGE_SIZE); [lia|done].
Qed.

Lemma Memory_fetch_window_law m a h :
  mem_ok m -> is_u 32 a ->
  exists w wide h', Memory_fetch_window m a h = Some ((w, wide), h') /\ is_u 32 w.
Proof.
  intros Hm Ha. destruct (decide (ram a /\ offset_of a + 3 < PAGE_SIZE)) as [[Hr Ho]|Hn].
  - rewrite fetch_window_cases by done. destruct (m.(pages) !! idx_of a).
    + destruct (Memory_read_u32_law m a h Hm Ha) as (v & h' & E & Hv).
      erewrite hm_bind_some by exact E. by exists v, true, h'.
    + exists 0, false, h. split; [done|by vm_compute].
  - rewrite fetch_window_narrow by (done || unfold ram, is_u in *; lia).
    destruct (Memory_read_u16_law m a h Hm Ha) as (v & h' & E & Hv).
    erewrite hm_bind_some by exact E. exists v, false, h'. split; [done|].
    by apply (is_u_mono 16).
Qed.

Lemma Memory_set_brk_ok m v : mem_ok m -> mem_ok (Memory_set_brk m v).
Proof.
  intros Hm. unfold Memory_set_brk.
  destruct ((m.(initial_brk) <=? v) && (v <? MMIO_BASE)) eqn:E; [|done].
  apply andb_true_iff in E as [?%Z.leb_le ?%Z.ltb_lt]. pose proof (mem_ok_brk m Hm).
  split; cbn [pages brk_ptr initial_brk]; [apply Hm..|lia].
Qed.

#[global] Instance Memory_laws : MemoryLaws H Memory.
Proof.
  refine {| mem_inv := mem_ok |}.
  - apply Memory_read_u8_law.
  - apply Memory_read_u16_law.
  - apply Memory_read_u32_law.
  - apply Memory_write_u8_law.
  - apply Memory_write_u16_law.
  - apply Memory_write_u32_law.
  - intros m a len h Hm Ha Hl. simpl. rewrite read_bytes_default by done. by apply read_each_law.
  - intros m a bs h Hm Ha Hbs. simpl. rewrite write_bytes_default by done. by apply write_each_law.
  - apply Memory_fetch_window_law.
  - intros m Hm. pose proof (mem_ok_brk m Hm). unfold is_u, MMIO_BASE in *. simpl.
    unfold Memory_get_brk. lia.
  - intros m v Hm _. by apply Memory_set_brk_ok.
Defined.
End Laws.

(** * Loads after stores *)

Fixpoint set_bytes (m : Memory) (a : Z) (bs : list Z) : Memory :=
  match bs with [] => m | b :: bs => set_bytes (set_byte m a b) (a + 1) bs end.

Lemma byte_at_set_bytes m a bs b :
  byte_at (set_bytes m a bs) b =
  match bs !! Z.to_nat (b - a) with
  | Some v => if decide (a <= b) then v else byte_at m b
  | None => byte_at m b
  end.
Proof.
  revert m a. induction bs as [|v bs IH]; intros m a; [done|]. cbn [set_bytes]. rewrite IH, byte_at_set_byte.
  destruct (decide (a = b)) as [->|Hne].
  - rewrite Z.sub_diag. change (Z.to_nat 0) with O. cbn [lookup list_lookup].
    rewrite (decide_True (P := b <= b)) by lia.
    destruct (bs !! Z.to_nat (b - (b + 1))); [|done]. by rewrite decide_False by lia.
  - destruct (decide (a <= b)).
    + replace (Z.to_nat (b - a)) with (S (Z.to_nat (b - (a + 1)))) by lia. cbn [lookup list_lookup].
      destruct (bs !! Z.to_nat (b - (a + 1))); [|done]. by rewrite decide_True by lia.
    + destruct (bs !! Z.to_nat (b - (a + 1))); [rewrite decide_False by lia|];
        by destruct ((v :: bs) !! Z.to_nat (b - a)).
Qed.

Section LoadStore.
Context {H : Type} `{HostOps H}.
Implicit Types (m : Memory) (h : H).

Lemma wrapping_add_ram a i : ram a -> 0 <= i -> ram (a + i) -> wrapping_add a (u32 i) = a + i.
Proof.
  unfold ram, MMIO_BASE. intros. unfold wrapping_add. rewrite (u32_small i), u32_small; lia.
Qed.

Lemma write_each_ram m a i bs h :
  ram a -> 0 <= i -> a + i + Z.of_nat (length bs) <= MMIO_BASE ->
  write_each Memory_write_u8 m a i bs h = Some (set_bytes m (a + i) bs, h).
Proof.
  intros Ha. revert m i. induction bs as [|b bs IH]; intros m i Hi Hl; [done|].
  cbn [length] in Hl. assert (Hr : ram (a + i)) by (unfold ram in *; lia).
  cbn [write_each set_bytes]. rewrite wrapping_add_ram by done.
  erewrite hm_bind_some by by apply write_u8_ram. rewrite IH by lia. by rewrite Z.add_assoc.
Qed.

Lemma read_each_ram m a i n h :
  ram a -> 0 <= i -> a + i + Z.of_nat n <= MMIO_BASE ->
  read_each Memory_read_u8 m a i n h = Some (map (byte_at m) (seqZ (a + i) (Z.of_nat n)), h).
Proof.
  intros Ha. revert i. induction n as [|n IH]; intros i Hi Hl; [done|].
  assert (Hr : ram (a + i)) by (unfold ram in *; lia).
  cbn [read_each]. rewrite wrapping_add_ram by done.
  erewrite hm_bind_some by by apply read_u8_ram.
  erewrite hm_bind_some by (apply IH; lia). unfold mret, HM_ret. do 2 f_equal.
  rewrite Nat2Z.inj_succ, (seqZ_cons (a + i)), Z.pred_succ by lia. cbn [map].
  by replace (Z.succ (a + i)) with (a + (i + 1)) by lia.
Qed.

Lemma map_byte_at_set_bytes m a bs :
  map (byte_at (set_bytes m a bs)) (seqZ a (Z.of_nat (length bs))) = bs.
Proof.
  apply list_eq. intros j. rewrite list_lookup_fmap.
  destruct (decide (j < length bs)%nat) as [Hj|Hj].
  - rewrite lookup_seqZ_lt by lia. cbn [fmap option_fmap option_map].
    rewrite byte_at_set_bytes. replace (Z.to_nat (a + Z.of_nat j - a)) with j by lia.
    apply lookup_lt_is_Some in Hj as [v Hv]. rewrite Hv. by rewrite decide_True by lia.
  - rewrite lookup_seqZ_ge by lia. symmetry. apply lookup_ge_None. lia.
Qed.

Lemma byte_at_set_bytes_frame m a bs b :
  b < a \/ a + Z.of_nat (length bs) <= b -> byte_at (set_bytes m a bs) b = byte_at m b.
Proof.
  intros Hb. rewrite byte_at_set_bytes. destruct (bs !! Z.to_nat (b - a)) eqn:E; [|done].
  apply lookup_lt_Some in E. by rewrite decide_False by lia.
Qed.

Lemma read_u32_each m a h :
  ram a -> a + 4 <= MMIO_BASE ->
  default_read_u32 Memory_read_u8 m a h =
  Some (byte_at m a .| u32 (byte_at m (a + 1) .<< 8) .| u32 (byte_at m (a + 2) .<< 16)
        .| u32 (byte_at m (a + 3) .<< 24), h).
Proof.
  intros Ha Hl. unfold default_read_u32.
  pose proof (wrapping_add_ram a 1 Ha ltac:(lia) ltac:(unfold ram in *; lia)) as E1.
  pose proof (wrapping_add_ram a 2 Ha ltac:(lia) ltac:(unfold ram in *; lia)) as E2.
  pose proof (wrapping_add_ram a 3 Ha ltac:(lia) ltac:(unfold ram in *; lia)) as E3.
  change (u32 1) with 1 in E1. change (u32 2) with 2 in E2. change (u32 3) with 3 in E3.
  rewrite E1, E2, E3.
  do 4 (erewrite hm_bind_some by (apply read_u8_ram; unfold ram in *; lia)). done.
Qed.

Lemma set_bytes_ok m a bs :
  ram a -> a + Z.of_nat (length bs) <= MMIO_BASE -> Forall (is_u 8) bs -> mem_ok m ->
  mem_ok (set_bytes m a bs).
Proof.
  revert m a. induction bs as [|b bs IH]; intros m a Ha Hl Hbs Hm; [done|]. cbn [set_bytes].
  inversion_clear Hbs. cbn [length] in Hl. destruct bs as [|b' bs]; [by apply set_byte_ok|].
  cbn [length] in Hl. apply IH; [unfold ram in *; lia|cbn [length]; lia|done|by apply set_byte_ok].
Qed.

(** The instruction window.  The low halfword of [fetch_window] is the
    halfword at the address; when the window is reported wide it is the whole
    32-bit word and the host was not called; and a fetch whose halfword is below
    the MMIO window never calls the host, so it cannot trigger a device read. *)
Lemma fetch_window_spec m a h :
  mem_ok m -> is_u 32 a ->
  exists w wide h' v,
    Memory_fetch_window m a h = Some ((w, wide), h') /\
    Memory_read_u16 m a h = Some (v, h') /\ w .& 0xFFFF = v /\
    (wide = true -> Memory_read_u32 m a h = Some (w, h') /\ h' = h) /\
    (a + 2 <= MMIO_BASE -> h' = h).
Proof.
  intros Hm Ha.
  destruct (decide (ram a /\ offset_of a + 3 < PAGE_SIZE)) as [[Hr Ho]|Hn].
  - rewrite fetch_window_cases, read_u16_default, default_read_u16_ram by (done || lia).
    pose proof (byte_at_is_u8 m a Hm). pose proof (byte_at_is_u8 m (a + 1) Hm).
    pose proof (byte_at_is_u8 m (a + 2) Hm). pose proof (byte_at_is_u8 m (a + 3) Hm).
    destruct (m.(pages) !! idx_of a) eqn:Hp.
    + assert (E : Memory_read_u32 m a h = Some (byte_at m a .| u32 (byte_at m (a + 1) .<< 8)
        .| u32 (byte_at m (a + 2) .<< 16) .| u32 (byte_at m (a + 3) .<< 24), h)).
      { by rewrite read_u32_default, default_read_u32_ram. }
      erewrite hm_bind_some by exact E. do 4 eexists. split_and!; [done|done| |by rewrite E|done].
      bits.
    + do 4 eexists. split_and!; [done|done| |done|done].
      pose proof (byte_at_no_page m a 0 Hr ltac:(lia) ltac:(lia) Hp) as E0.
      rewrite Z.add_0_r in E0. by rewrite E0, (byte_at_no_page m a 1) by (done || lia).
  - rewrite fetch_window_narrow by (done || unfold ram, is_u in *; lia).
    destruct (Memory_read_u16_law m a h Hm Ha) as (v & h' & E & Hv).
    erewrite hm_bind_some by exact E. exists v, false, h', v. split_and!; [done|done|bits|done|].
    intros Hl. assert (Hr : ram a) by (unfold ram, is_u in *; lia).
    assert (wrapping_add a 1 = a + 1).
    { unfold wrapping_add. apply u32_small. unfold ram, MMIO_BASE in *. lia. }
    rewrite read_u16_default in E by done. unfold default_read_u16 in E.
    erewrite hm_bind_some in E by by apply read_u8_ram.
    erewrite hm_bind_some in E by (rewrite H1; apply read_u8_ram; unfold ram in *; lia).
    by injection E.
Qed.

(** * Properties *)

(** C8: The optimised 16- and 32-bit accesses are the trait's byte-by-byte ones.
    For every address below the MMIO window, aligned or not, inside a page or
    across two pages (or from the last RAM page into the MMIO window), mapped or
    unmapped, [Memory::read_u16], [read_u32], [write_u16] and [write_u32] give what
    the provided methods built on [read_u8] and [write_u8] give: the same value or
    memory (page table included), with the same host effects.  The window
    [fetch_window] reads for an instruction is the halfword there, the whole word
    when it is reported wide, and never triggers a device read for an instruction
    that begins in RAM. *)
Theorem words_refine m a v h :
  mem_ok m -> ram a ->
  Memory_read_u16 m a h = default_read_u16 Memory_read_u8 m a h
  /\ Memory_read_u32 m a h = default_read_u32 Memory_read_u8 m a h
  /\ Memory_write_u16 m a v h = default_write_u16 Memory_write_u8 m a v h
  /\ Memory_write_u32 m a v h = default_write_u32 Memory_write_u8 m a v h
  /\ exists w wide h' u,
       Memory_fetch_window m a h = Some ((w, wide), h') /\
       default_read_u16 Memory_read_u8 m a h = Some (u, h') /\ w .& 0xFFFF = u /\
       (wide = true -> default_read_u32 Memory_read_u8 m a h = Some (w, h') /\ h' = h) /\
       (a + 2 <= MMIO_BASE -> h' = h).
Proof.
  intros Hm Ha. split_and!; [by apply read_u16_default|by apply read_u32_default|by apply write_u16_default| |].
  - by apply write_u32_default.
  - rewrite <- read_u16_default, <- read_u32_default by done.
    apply fetch_window_spec; [done|unfold ram, is_u, MMIO_BASE in *; lia].
Qed.

(** C11: The page-coalescing [read_bytes] and [write_bytes] terminate and equal the
    byte-by-byte provided methods, for every address, length and byte string,
    including ranges that span pages, reach the MMIO window or wrap around the end
    of the address space. *)
Theorem blocks_refine m a len bs h :
  is_u 32 a -> 0 <= len ->
  Memory_read_bytes m a len h = default_read_bytes Memory_read_u8 m a len h
  /\ Memory_write_bytes m a bs h = default_write_bytes Memory_write_u8 m a bs h.
Proof. intros. split; [by apply read_bytes_default|by apply write_bytes_default]. Qed.

(** Block write then block read.  Writing a byte string below the MMIO window
    and reading the same range back returns the string, whatever pages it spans,
    and leaves every other byte alone. *)
Lemma write_read_bytes m a bs h :
  ram a -> a + Z.of_nat (length bs) <= MMIO_BASE ->
  exists m', Memory_write_bytes m a bs h = Some (m', h) /\
    Memory_read_bytes m' a (Z.of_nat (length bs)) h = Some (bs, h) /\
    (forall b, b < a \/ a + Z.of_nat (length bs) <= b -> byte_at m' b = byte_at m b).
Proof.
  intros Ha Hl. assert (is_u 32 a) by (unfold ram, is_u, MMIO_BASE in *; lia).
  exists (set_bytes m a bs). split_and!.
  - rewrite write_bytes_default by done. unfold default_write_bytes.
    rewrite write_each_ram by (done || lia). by rewrite Z.add_0_r.
  - rewrite read_bytes_default by (done || lia). unfold default_read_bytes.
    rewrite read_each_ram by (done || lia). rewrite Nat2Z.id, Z.add_0_r.
    by rewrite map_byte_at_set_bytes.
  - intros b Hb. by apply byte_at_set_bytes_frame.
Qed.

(** Memory safety of the paged memory.  From a well-formed memory, no access
    of any width at any 32-bit address panics, loads return values of their
    width, and every store, block write and break change keeps the memory
    well-formed: pages only below the MMIO window, bytes below 256, and the
    program break between the initial break and the MMIO window. *)
Lemma memory_safe m a v bs len h :
  mem_ok m -> is_u 32 a -> is_u 32 v -> Forall (is_u 8) bs -> 0 <= len ->
  (exists b h', Memory_read_u8 m a h = Some (b, h') /\ is_u 8 b) /\
  (exists b h', Memory_read_u16 m a h = Some (b, h') /\ is_u 16 b) /\
  (exists b h', Memory_read_u32 m a h = Some (b, h') /\ is_u 32 b) /\
  (exists l h', Memory_read_bytes m a len h = Some (l, h') /\ Z.of_nat (length l) = len
                /\ Forall (is_u 8) l) /\
  (exists m' h', Memory_write_u8 m a (u8 v) h = Some (m', h') /\ mem_ok m') /\
  (exists m' h', Memory_write_u16 m a (u16 v) h = Some (m', h') /\ mem_ok m') /\
  (exists m' h', Memory_write_u32 m a v h = Some (m', h') /\ mem_ok m') /\
  (exists m' h', Memory_write_bytes m a bs h = Some (m', h') /\ mem_ok m') /\
  mem_ok (Memory_set_brk m v).
Proof.
  intros Hm Ha Hv Hbs Hlen. split_and!.
  - by apply Memory_read_u8_law.
  - by apply Memory_read_u16_law.
  - by apply Memory_read_u32_law.
  - rewrite read_bytes_default by done.
    destruct (read_each_law m a 0 (Z.to_nat len) h Hm) as (l & h' & E & Hl & Hf).
    exists l, h'. split_and!; [exact E|lia|exact Hf].
  - apply Memory_write_u8_law; [done..|by apply wrap_is_u].
  - apply Memory_write_u16_law; [done..|by apply wrap_is_u].
  - by apply Memory_write_u32_law.
  - rewrite write_bytes_default by done. by apply write_each_law.
  - by apply Memory_set_brk_ok.
Qed.
End LoadStore.

(** ** The hypotheses hold: a fresh memory and the native host *)

(** Lets [lia] see the ranges of concrete addresses. *)
Ltac concrete := unfold ram, is_u, is_i, MMIO_BASE; lia.

Lemma words_refine_witness :
  Memory_read_u32 Memory_new 0xFFFE mock_host0
  = default_read_u32 Memory_read_u8 Memory_new 0xFFFE mock_host0
  /\ Memory_write_u32 Memory_new 0xFFFE 0x11223344 mock_host0
  = default_write_u32 Memory_write_u8 Memory_new 0xFFFE 0x11223344 mock_host0.
Proof.
  destruct (words_refine Memory_new 0xFFFE 0x11223344 mock_host0 Memory_new_ok ltac:(concrete))
    as (_ & Hr & _ & Hw & _). split; [exact Hr|exact Hw].
Defined.

Lemma blocks_refine_witness :
  Memory_read_bytes Memory_new 0xFFFEFFFF 3 mock_host0
  = default_read_bytes Memory_read_u8 Memory_new 0xFFFEFFFF 3 mock_host0.
Proof.
  exact (proj1 (blocks_refine Memory_new 0xFFFEFFFF 3 [1; 2; 3] mock_host0 ltac:(concrete) ltac:(lia))).
Defined.

