(* ===== verification/Float.v ===== *)
(** The [f32] and [f64] operations of the language, on bit patterns.

    A Rust float is represented by its IEEE 754 bit pattern ([to_bits]), so that
    [from_bits]/[to_bits] are the identity and NaN payloads are visible.
    Arithmetic goes through the Standard Library's executable IEEE 754
    specification ([SpecFloat], round to nearest even).

    Two results are left unspecified by the language: which NaN an arithmetic
    operation returns, and which operand [min]/[max] return for zeros of opposite
    sign.  They are parameters, the class [FloatEnv]. *)

From S2P Require Import Prelude Bits.
From Stdlib Require Import SpecFloat.

Class FloatEnv := {
  (** payload source of the NaN an operation returns: operation and operands *)
  nan_choice : Z -> Z -> Z -> Z;
  (** [min]/[max] of two zeros of opposite sign return the first operand *)
  zero_choice : Z -> Z -> bool
}.

(** A choice, for evaluation. *)
Definition default_float_env : FloatEnv :=
  {| nan_choice := fun _ _ _ => 0; zero_choice := fun _ _ => true |}.

Section Format.
(** Mantissa and exponent widths. *)
Context (mb eb : Z).
Let prec := mb + 1.
Let emax := 2 ^ (eb - 1).
Let emin := 3 - emax - prec.

Definition f_sign (x : Z) : bool := Z.testbit x (mb + eb).
Definition f_exp (x : Z) : Z := (x / 2 ^ mb) mod 2 ^ eb.
Definition f_man (x : Z) : Z := x mod 2 ^ mb.

Definition sf_of_bits (x : Z) : spec_float :=
  let s := f_sign x in
  if f_exp x =? 0 then
    match f_man x with
    | Zpos m => S754_finite s m emin
    | _ => S754_zero s
    end
  else if f_exp x =? 2 ^ eb - 1 then
    if f_man x =? 0 then S754_infinity s else S754_nan
  else
    match f_man x + 2 ^ mb with
    | Zpos m => S754_finite s m (f_exp x - 1 + emin)
    | _ => S754_nan
    end.

Definition sign_bits (s : bool) : Z := if s then 2 ^ (mb + eb) else 0.

(** Some NaN, picked from [p]. *)
Definition mk_nan (p : Z) : Z :=
  let m := if p mod 2 ^ mb =? 0 then 2 ^ (mb - 1) else p mod 2 ^ mb in
  sign_bits (Z.testbit p (mb + eb)) + (2 ^ eb - 1) * 2 ^ mb + m.

(** The bit pattern of a canonical number; the truncation to the format's width
    is the identity on those. *)
Definition bits_of_sf (nan : Z) (f : spec_float) : Z :=
  match f with
  | S754_zero s => sign_bits s
  | S754_infinity s => sign_bits s + (2 ^ eb - 1) * 2 ^ mb
  | S754_nan => mk_nan nan
  | S754_finite s m e =>
    wrap (mb + eb + 1)
      (if Zpos m <? 2 ^ mb then sign_bits s + Zpos m
       else sign_bits s + (e - emin + 1) * 2 ^ mb + (Zpos m - 2 ^ mb))
  end.

Definition f_is_nan (x : Z) : bool := (f_exp x =? 2 ^ eb - 1) && negb (f_man x =? 0).
Definition f_is_infinite (x : Z) : bool := (f_exp x =? 2 ^ eb - 1) && (f_man x =? 0).
Definition f_is_zero (x : Z) : bool := (f_exp x =? 0) && (f_man x =? 0).
Definition f_is_subnormal (x : Z) : bool := (f_exp x =? 0) && negb (f_man x =? 0).

Definition f_neg (x : Z) : Z := x .^ 2 ^ (mb + eb).
Definition f_lt (a b : Z) : bool := SFltb (sf_of_bits a) (sf_of_bits b).
Definition f_le (a b : Z) : bool := SFleb (sf_of_bits a) (sf_of_bits b).
Definition f_eq (a b : Z) : bool := SFeqb (sf_of_bits a) (sf_of_bits b).

Context `{FloatEnv}.

Definition f_add (a b : Z) : Z :=
  bits_of_sf (nan_choice 0 a b) (SFadd prec emax (sf_of_bits a) (sf_of_bits b)).
Definition f_sub (a b : Z) : Z :=
  bits_of_sf (nan_choice 1 a b) (SFsub prec emax (sf_of_bits a) (sf_of_bits b)).
Definition f_mul (a b : Z) : Z :=
  bits_of_sf (nan_choice 2 a b) (SFmul prec emax (sf_of_bits a) (sf_of_bits b)).
Definition f_div (a b : Z) : Z :=
  bits_of_sf (nan_choice 3 a b) (SFdiv prec emax (sf_of_bits a) (sf_of_bits b)).
Definition f_sqrt (a : Z) : Z :=
  bits_of_sf (nan_choice 4 a 0) (SFsqrt prec emax (sf_of_bits a)).

Definition f_min (a b : Z) : Z :=
  if f_is_nan a then b else if f_is_nan b then a
  else if f_lt a b then a else if f_lt b a then b
  else if zero_choice a b then a else b.
Definition f_max (a b : Z) : Z :=
  if f_is_nan a then b else if f_is_nan b then a
  else if f_lt b a then a else if f_lt a b then b
  else if zero_choice a b then a else b.

(** [as iN]/[as uN]: truncation, saturating at the bounds, NaN to zero. *)
Definition clamp (lo hi x : Z) : Z := Z.max lo (Z.min hi x).
Definition f_to_int (lo hi : Z) (x : Z) : Z :=
  match sf_of_bits x with
  | S754_zero _ | S754_nan => 0
  | S754_infinity s => if s then lo else hi
  | S754_finite s m e =>
    let a := if 0 <=? e then Zpos m * 2 ^ e else Zpos m / 2 ^ (- e) in
    clamp lo hi (if s then - a else a)
  end.

(** [as fN] from an integer. *)
Definition f_of_int (z : Z) : Z := bits_of_sf 0 (binary_normalize prec emax z 0 false).

(** Conversion of a value of another format. *)
Definition f_of_sf (op x : Z) (f : spec_float) : Z :=
  match f with
  | S754_finite s m e =>
    bits_of_sf 0 (binary_normalize prec emax (if s then Zneg m else Zpos m) e s)
  | f => bits_of_sf (nan_choice op x 0) f
  end.
End Format.

Section Formats.
Context `{FloatEnv}.

Definition f32_is_nan := f_is_nan 23 8.
Definition f32_is_infinite := f_is_infinite 23 8.
Definition f32_is_zero := f_is_zero 23 8.
Definition f32_is_subnormal := f_is_subnormal 23 8.
Definition f32_add := f_add 23 8.
Definition f32_sub := f_sub 23 8.
Definition f32_mul := f_mul 23 8.
Definition f32_div := f_div 23 8.
Definition f32_sqrt := f_sqrt 23 8.
Definition f32_neg := f_neg 23 8.
Definition f32_min := f_min 23 8.
Definition f32_max := f_max 23 8.
Definition f32_lt := f_lt 23 8.
Definition f32_le := f_le 23 8.
Definition f32_eq := f_eq 23 8.
Definition f32_to_i32 := f_to_int 23 8 (- 2 ^ 31) (2 ^ 31 - 1).
Definition f32_to_u32 := f_to_int 23 8 0 (2 ^ 32 - 1).
Definition f32_of_int := f_of_int 23 8.

Definition f64_is_nan := f_is_nan 52 11.
Definition f64_is_infinite := f_is_infinite 52 11.
Definition f64_is_zero := f_is_zero 52 11.
Definition f64_is_subnormal := f_is_subnormal 52 11.
Definition f64_add := f_add 52 11.
Definition f64_sub := f_sub 52 11.
Definition f64_mul := f_mul 52 11.
Definition f64_div := f_div 52 11.
Definition f64_sqrt := f_sqrt 52 11.
Definition f64_neg := f_neg 52 11.
Definition f64_min := f_min 52 11.
Definition f64_max := f_max 52 11.
Definition f64_lt := f_lt 52 11.
Definition f64_le := f_le 52 11.
Definition f64_eq := f_eq 52 11.
Definition f64_to_i32 := f_to_int 52 11 (- 2 ^ 31) (2 ^ 31 - 1).
Definition f64_to_u32 := f_to_int 52 11 0 (2 ^ 32 - 1).
Definition f64_of_int := f_of_int 52 11.

(** [as f64] on an [f32], [as f32] on an [f64]. *)
Definition f64_of_f32 (x : Z) : Z := f_of_sf 52 11 5 x (sf_of_bits 23 8 x).
Definition f32_of_f64 (x : Z) : Z := f_of_sf 23 8 6 x (sf_of_bits 52 11 x).
End Formats.

(** ** Well-formedness *)

Section FormatFacts.
Context (mb eb : Z) (Hmb : 2 <= mb) (Heb : 2 <= eb).

Lemma pow_split : 2 ^ (mb + eb) = 2 ^ eb * 2 ^ mb.
Proof. rewrite Z.pow_add_r by lia. lia. Qed.
Lemma pow_top : 2 ^ (mb + eb + 1) = 2 * (2 ^ eb * 2 ^ mb).
Proof. rewrite Z.pow_add_r, pow_split by lia. lia. Qed.

Lemma sign_bits_bound s : sign_bits mb eb s = 0 \/ sign_bits mb eb s = 2 ^ eb * 2 ^ mb.
Proof. unfold sign_bits. rewrite pow_split. destruct s; auto. Qed.

(** Fields of a number assembled from its fields. *)
Lemma assemble_fields s e m :
  0 <= e < 2 ^ eb -> 0 <= m < 2 ^ mb ->
  let x := sign_bits mb eb s + e * 2 ^ mb + m in
  is_u (mb + eb + 1) x /\ f_sign mb eb x = s /\ f_exp mb eb x = e /\ f_man mb x = m.
Proof.
  intros He Hm x. assert (0 < 2 ^ mb) by lia. assert (0 < 2 ^ eb) by lia.
  assert (Hx : x = (Z.b2z s * 2 ^ eb + e) * 2 ^ mb + m).
  { subst x. unfold sign_bits. rewrite pow_split. destruct s; simpl Z.b2z; lia. }
  assert (Hdiv : x / 2 ^ mb = Z.b2z s * 2 ^ eb + e).
  { rewrite Hx, Z.div_add_l, (Z.div_small m) by lia. lia. }
  split_and!.
  - unfold is_u. rewrite pow_top, Hx. destruct s; simpl Z.b2z; nia.
  - unfold f_sign.
    destruct s; [apply Z.testbit_true|apply Z.testbit_false]; try lia;
      rewrite Z.pow_add_r, <- Z.div_div, Hdiv by lia; simpl Z.b2z;
      rewrite Z.div_add_l, (Z.div_small e) by lia; done.
  - unfold f_exp. rewrite Hdiv. rewrite Z.add_comm, Z.mod_add, Z.mod_small by lia. lia.
  - unfold f_man. rewrite Hx, Z.add_comm, Z.mod_add, Z.mod_small by lia. lia.
Qed.

Lemma mk_nan_ok p : is_u (mb + eb + 1) (mk_nan mb eb p) /\ f_is_nan mb eb (mk_nan mb eb p) = true.
Proof.
  unfold mk_nan. set (m := if p mod 2 ^ mb =? 0 then 2 ^ (mb - 1) else p mod 2 ^ mb).
  assert (Hm : 0 < m < 2 ^ mb).
  { pose proof (Z.mod_pos_bound p (2 ^ mb)). subst m. destruct (Z.eqb_spec (p mod 2 ^ mb) 0); [|lia].
    pose proof (Z.pow_lt_mono_r 2 (mb - 1) mb). lia. }
  destruct (assemble_fields (Z.testbit p (mb + eb)) (2 ^ eb - 1) m) as (? & _ & He & Hf);
    [lia|lia|]. split; [done|]. unfold f_is_nan. rewrite He, Hf, Z.eqb_refl.
  by destruct (Z.eqb_spec m 0); [lia|].
Qed.

Lemma bits_of_sf_range nan f : is_u (mb + eb + 1) (bits_of_sf mb eb nan f).
Proof.
  destruct f as [s|s| |s m e]; simpl.
  - destruct (assemble_fields s 0 0) as [Hu _]; [lia|lia|]. by rewrite Z.mul_0_l, !Z.add_0_r in Hu.
  - destruct (assemble_fields s (2 ^ eb - 1) 0) as [Hu _]; [lia|lia|]. by rewrite Z.add_0_r in Hu.
  - apply mk_nan_ok.
  - apply wrap_is_u. lia.
Qed.

(** A bit pattern is the assembly of its fields. *)
Lemma fields_assemble x :
  is_u (mb + eb + 1) x ->
  x = sign_bits mb eb (f_sign mb eb x) + f_exp mb eb x * 2 ^ mb + f_man mb x.
Proof.
  intros Hx. unfold is_u in Hx. rewrite pow_top in Hx.
  assert (0 < 2 ^ mb) by lia. assert (0 < 2 ^ eb) by lia.
  assert (Hs : sign_bits mb eb (f_sign mb eb x) = (x / 2 ^ mb / 2 ^ eb) * (2 ^ eb * 2 ^ mb)).
  { unfold sign_bits, f_sign. rewrite pow_split.
    assert (Hq : x / 2 ^ mb / 2 ^ eb = 0 \/ x / 2 ^ mb / 2 ^ eb = 1).
    { rewrite Z.div_div by lia.
      assert (0 <= x / (2 ^ mb * 2 ^ eb)) by (apply Z.div_pos; lia).
      assert (x / (2 ^ mb * 2 ^ eb) < 2) by (apply Z.div_lt_upper_bound; lia). lia. }
    destruct (Z.testbit x (mb + eb)) eqn:Ht.
    - apply Z.testbit_true in Ht; [|lia]. rewrite Z.pow_add_r, <- Z.div_div in Ht by lia.
      destruct Hq as [Hq|Hq]; rewrite Hq in *; [done|lia].
    - apply Z.testbit_false in Ht; [|lia]. rewrite Z.pow_add_r, <- Z.div_div in Ht by lia.
      destruct Hq as [Hq|Hq]; rewrite Hq in *; [lia|done]. }
  rewrite Hs. unfold f_exp, f_man.
  pose proof (Z.div_mod x (2 ^ mb)). pose proof (Z.div_mod (x / 2 ^ mb) (2 ^ eb)). nia.
Qed.

Lemma bits_sf_roundtrip nan x :
  is_u (mb + eb + 1) x -> f_is_nan mb eb x = false ->
  bits_of_sf mb eb nan (sf_of_bits mb eb x) = x.
Proof.
  intros Hx Hn. pose proof (fields_assemble x Hx) as Hf.
  assert (He : 0 <= f_exp mb eb x < 2 ^ eb) by (apply Z.mod_pos_bound; lia).
  assert (Hm : 0 <= f_man mb x < 2 ^ mb) by (apply Z.mod_pos_bound; lia).
  unfold sf_of_bits, f_is_nan in *.
  destruct (Z.eqb_spec (f_exp mb eb x) 0) as [E0|E0].
  { rewrite E0 in Hf. destruct (f_man mb x) as [|m|m]; [cbn; lia| |lia].
    cbn [bits_of_sf]. destruct (Z.ltb_spec (Zpos m) (2 ^ mb)); [|lia]. rewrite wrap_small; [lia|].
    by replace (sign_bits mb eb (f_sign mb eb x) + Zpos m) with x by lia. }
  destruct (Z.eqb_spec (f_exp mb eb x) (2 ^ eb - 1)) as [E1|E1].
  { destruct (Z.eqb_spec (f_man mb x) 0) as [E2|E2]; [|done]. cbn. lia. }
  destruct (f_man mb x + 2 ^ mb) as [|m|m] eqn:Em; [lia| |lia].
  cbn [bits_of_sf]. destruct (Z.ltb_spec (Zpos m) (2 ^ mb)); [lia|].
  match goal with |- wrap _ ?t = _ => replace t with x by lia end. by apply wrap_small.
Qed.
End FormatFacts.

Section Ranges.
Context `{FloatEnv}.

Lemma f32_bits_range nan f : is_u 32 (bits_of_sf 23 8 nan f).
Proof. apply (bits_of_sf_range 23 8); lia. Qed.
Lemma f64_bits_range nan f : is_u 64 (bits_of_sf 52 11 nan f).
Proof. apply (bits_of_sf_range 52 11); lia. Qed.
Lemma f32_of_sf_range op x f : is_u 32 (f_of_sf 23 8 op x f).
Proof. destruct f; apply f32_bits_range. Qed.
Lemma f64_of_sf_range op x f : is_u 64 (f_of_sf 52 11 op x f).
Proof. destruct f; apply f64_bits_range. Qed.

Lemma f_minmax_range mb eb w a b :
  is_u w a -> is_u w b -> is_u w (f_min mb eb a b) /\ is_u w (f_max mb eb a b).
Proof.
  intros. unfold f_min, f_max.
  destruct (f_is_nan mb eb a), (f_is_nan mb eb b), (f_lt mb eb a b), (f_lt mb eb b a),
    (zero_choice a b); done.
Qed.

Lemma f_neg_range mb eb w x : 0 <= mb -> 0 <= eb -> w = mb + eb + 1 -> is_u w x -> is_u w (f_neg mb eb x).
Proof.
  intros ? ? -> Hx. unfold f_neg. rewrite <- (wrap_small _ _ Hx).
  assert (Hp : 2 ^ (mb + eb) = wrap (mb + eb + 1) (2 ^ (mb + eb))).
  { symmetry. apply wrap_small. unfold is_u. pose proof (Z.pow_lt_mono_r 2 (mb + eb) (mb + eb + 1)). lia. }
  rewrite Hp. replace (wrap (mb + eb + 1) x .^ wrap (mb + eb + 1) (2 ^ (mb + eb)))
    with (wrap (mb + eb + 1) (x .^ 2 ^ (mb + eb))); [apply wrap_is_u; lia|].
  apply Z.bits_inj'. intros i Hi. rewrite Z.lxor_spec, !testbit_wrap, Z.lxor_spec by lia.
  by destruct (i <? mb + eb + 1).
Qed.

Lemma clamp_range lo hi x : lo <= hi -> lo <= clamp lo hi x <= hi.
Proof. unfold clamp. lia. Qed.

Lemma f_to_int_range mb eb lo hi x : lo <= 0 <= hi -> lo <= f_to_int mb eb lo hi x <= hi.
Proof.
  intros. unfold f_to_int. destruct (sf_of_bits mb eb x) as [|[]| |s m e]; try lia.
  apply clamp_range. lia.
Qed.
End Ranges.
