(* ===== verification/FloatRound.v ===== *)
(** Canonical floating-point numbers.

    The Standard Library's [SpecFloat] gives the IEEE 754 operations but no facts
    about them.  Here: the result of every operation is canonical ([valid_binary]),
    canonical numbers and bit patterns are in correspondence, and an integer of at
    most [prec] bits is represented exactly. *)

From S2P Require Import Prelude Bits Float.
From Stdlib Require Import SpecFloat.

Lemma digits2_pos_log2 p : Zpos (digits2_pos p) = Z.log2 (Zpos p) + 1.
Proof.
  induction p as [p IH|p IH|]; cbn [digits2_pos]; [..|done]; rewrite Pos2Z.inj_succ, IH.
  - rewrite (Pos2Z.inj_xI p), Z.log2_succ_double by lia. lia.
  - rewrite (Pos2Z.inj_xO p), Z.log2_double by lia. lia.
Qed.

(** [Zdigits2] of a number that is not negative: the least [d] with [m < 2^d]. *)
Lemma Zdigits2_bound m : 0 <= m -> 0 <= Zdigits2 m /\ m < 2 ^ Zdigits2 m.
Proof.
  intros Hm. destruct m as [|p|p]; [done| |lia]. cbn [Zdigits2]. rewrite digits2_pos_log2.
  destruct (Z.log2_spec (Zpos p)) as [_ Hl]; [lia|]. pose proof (Z.log2_nonneg (Zpos p)).
  rewrite <- Z.add_1_r in Hl. by split; [lia|].
Qed.

Lemma Zdigits2_lower m : 0 < m -> 0 < Zdigits2 m /\ 2 ^ (Zdigits2 m - 1) <= m.
Proof.
  intros Hm. destruct m as [|p|p]; [lia| |lia]. cbn [Zdigits2]. rewrite digits2_pos_log2.
  destruct (Z.log2_spec (Zpos p)) as [Hl _]; [lia|]. pose proof (Z.log2_nonneg (Zpos p)).
  rewrite Z.add_simpl_r. by split; [lia|].
Qed.

Lemma Zdigits2_ge m k : 0 <= m -> 0 <= k -> 2 ^ k <= m -> k + 1 <= Zdigits2 m.
Proof.
  intros Hm Hk Hle. destruct (Zdigits2_bound m Hm) as [Hd Hb].
  assert (2 ^ k < 2 ^ Zdigits2 m) as Hlt by lia. apply Z.pow_lt_mono_r_iff in Hlt; lia.
Qed.

Lemma Zdigits2_le m k : 0 <= m -> 0 <= k -> m < 2 ^ k -> Zdigits2 m <= k.
Proof.
  intros Hm Hk Hlt. destruct (decide (m = 0)) as [->|]; [done|].
  destruct (Zdigits2_lower m) as [Hd Hb]; [lia|].
  assert (2 ^ (Zdigits2 m - 1) < 2 ^ k) as Hp by lia. apply Z.pow_lt_mono_r_iff in Hp; lia.
Qed.

Lemma Zdigits2_unique m k : 0 < k -> 2 ^ (k - 1) <= m < 2 ^ k -> Zdigits2 m = k.
Proof.
  intros Hk Hm. assert (0 < 2 ^ (k - 1)) by lia.
  pose proof (Zdigits2_ge m (k - 1)). pose proof (Zdigits2_le m k). lia.
Qed.

(** ** Shifting right with sticky bits *)

Lemma shr_1_m r : 0 <= shr_m r -> shr_m (shr_1 r) = shr_m r / 2 /\ 0 <= shr_m (shr_1 r).
Proof.
  destruct r as [m r s]. cbn [shr_m]. intros Hm.
  assert (E : shr_m (shr_1 {| shr_m := m; shr_r := r; shr_s := s |}) = Z.div2 m).
  { destruct m as [|[p|p|]|p]; cbn; try done; lia. }
  rewrite E, Z.div2_div. split; [done|]. apply Z.div_pos; lia.
Qed.

Lemma iter_shr_m p r :
  0 <= shr_m r ->
  shr_m (iter_pos shr_1 p r) = shr_m r / 2 ^ Zpos p /\ 0 <= shr_m (iter_pos shr_1 p r).
Proof.
  revert r. induction p as [p IH|p IH|]; intros r Hr; cbn [iter_pos].
  - destruct (shr_1_m r Hr) as [E1 H1]. destruct (IH _ H1) as [E2 H2]. destruct (IH _ H2) as [E3 H3].
    split; [|done]. rewrite E3, E2, E1, !Z.div_div by lia.
    rewrite (Pos2Z.inj_xI p), Z.pow_add_r, <- (Z.add_diag (Zpos p)), Z.pow_add_r by lia. f_equal. lia.
  - destruct (IH _ Hr) as [E2 H2]. destruct (IH _ H2) as [E3 H3].
    split; [|done]. rewrite E3, E2, !Z.div_div by lia.
    by rewrite (Pos2Z.inj_xO p), <- (Z.add_diag (Zpos p)), Z.pow_add_r by lia.
  - by apply shr_1_m.
Qed.

Section Canonical.
Context (prec emax : Z) (Hprec : 1 < prec) (Hemax : prec < emax).
Abbreviation fexp := (SpecFloat.fexp prec emax).
Abbreviation emin := (SpecFloat.emin prec emax).
Abbreviation valid := (valid_binary prec emax).

Lemma fexp_mono a b : a <= b -> fexp a <= fexp b.
Proof. unfold SpecFloat.fexp. lia. Qed.
Lemma fexp_spec d : fexp d = Z.max (d - prec) emin.
Proof. done. Qed.

Lemma shr_fexp_spec m e l :
  0 <= m ->
  let n := Z.max 0 (fexp (Zdigits2 m + e) - e) in
  shr_m (shr_fexp prec emax m e l).1 = m / 2 ^ n /\ (shr_fexp prec emax m e l).2 = e + n.
Proof.
  intros Hm n. unfold shr_fexp, shr. fold fexp.
  assert (E : shr_m (shr_record_of_loc m l) = m) by by destruct l as [|[]].
  subst n. destruct (fexp (Zdigits2 m + e) - e) as [|p|p].
  - cbn. rewrite E. split; [|lia]. by rewrite Z.div_1_r.
  - cbn [fst snd]. rewrite Z.max_r by lia. split; [|done].
    destruct (iter_shr_m p (shr_record_of_loc m l)) as [-> _]; [by rewrite E|]. by rewrite E.
  - cbn [fst snd]. rewrite Z.max_l by lia. rewrite E. split; [|lia]. by rewrite Z.div_1_r.
Qed.

Lemma round_ne_spec m l : round_nearest_even m l = m \/ round_nearest_even m l = m + 1.
Proof. destruct l as [|[]]; cbn; auto. destruct (Z.even m); auto. Qed.

Lemma canonical_of m e : 0 < m -> fexp (Zdigits2 m + e) = e -> e <= emax - prec ->
  valid (S754_finite false (Z.to_pos m) e) = true.
Proof.
  intros Hm Hf He. destruct m as [|p|p]; try lia.
  cbn [valid_binary Z.to_pos]. unfold bounded, canonical_mantissa. fold fexp.
  cbn [Zdigits2] in Hf. rewrite Hf, Z.eqb_refl. cbn. by apply Z.leb_le.
Qed.

(** After the first shift the mantissa has at most [prec] digits, and exactly
    [prec] unless the exponent is the least one; rounding may carry into one more. *)
Lemma first_shift m e :
  0 <= m -> e <= fexp (Zdigits2 m + e) ->
  let e' := fexp (Zdigits2 m + e) in
  let m' := m / 2 ^ (e' - e) in
  0 <= m' < 2 ^ prec /\ (e' = emin \/ 2 ^ (prec - 1) <= m') /\ emin <= e'.
Proof.
  intros Hm He e' m'. subst m' e'. destruct (Zdigits2_bound m Hm) as [Hd Hb].
  set (d := Zdigits2 m) in *. assert (Hf : fexp (d + e) = Z.max (d + e - prec) emin) by done.
  set (n := fexp (d + e) - e) in *.
  split; [|split; [|lia]].
  - split; [apply Z.div_pos; lia|]. apply Z.div_lt_upper_bound; [lia|].
    rewrite <- Z.pow_add_r by lia. apply Z.lt_le_trans with (2 ^ d); [done|].
    apply Z.pow_le_mono_r; lia.
  - destruct (Z.max_spec (d + e - prec) emin) as [[? ?]|[? Hmax]]; [left; lia|].
    destruct (decide (fexp (d + e) = emin)); [by left|]. right.
    assert (d = n + prec) by lia. assert (m <> 0) by (intros ->; subst d; cbn in *; lia).
    destruct (Zdigits2_lower m) as [_ Hl]; [lia|]. fold d in Hl.
    apply Z.div_le_lower_bound; [lia|]. rewrite <- Z.pow_add_r by lia.
    by replace (n + (prec - 1)) with (d - 1) by lia.
Qed.

Lemma second_shift m e :
  0 < m <= 2 ^ prec -> emin <= e -> e = emin \/ 2 ^ (prec - 1) <= m ->
  let n := Z.max 0 (fexp (Zdigits2 m + e) - e) in
  0 < m / 2 ^ n /\ fexp (Zdigits2 (m / 2 ^ n) + (e + n)) = e + n.
Proof.
  intros Hm He Hc n. subst n. rewrite fexp_spec.
  assert (H2 : 2 ^ prec = 2 * 2 ^ (prec - 1)) by (rewrite <- Z.pow_succ_r by lia; f_equal; lia).
  destruct (decide (m = 2 ^ prec)) as [->|].
  - assert (E : Zdigits2 (2 ^ prec) = prec + 1).
    { apply Zdigits2_unique; [lia|]. rewrite Z.add_simpl_r, Z.pow_add_r by lia. lia. }
    rewrite E. replace (Z.max 0 (Z.max (prec + 1 + e - prec) emin - e)) with 1 by lia.
    assert (Ed : 2 ^ prec / 2 ^ 1 = 2 ^ (prec - 1)) by (rewrite H2, Z.mul_comm; by apply Z.div_mul).
    rewrite Ed. split; [lia|]. rewrite (Zdigits2_unique _ prec) by lia. rewrite fexp_spec. lia.
  - assert (Hd : Zdigits2 m <= prec) by (apply Zdigits2_le; lia).
    rewrite (Z.max_l 0) by lia. rewrite Z.pow_0_r, Z.div_1_r. split; [lia|].
    rewrite Z.add_0_r, fexp_spec. destruct Hc as [->|Hc]; [lia|].
    rewrite (Zdigits2_unique m prec) by lia. lia.
Qed.

Lemma valid_sign s s' m e : valid (S754_finite s m e) = valid (S754_finite s' m e).
Proof. done. Qed.

(** Rounding gives a canonical number, provided no digit of the result was lost. *)
Lemma round_aux_valid s m e l :
  0 <= m -> e <= fexp (Zdigits2 m + e) -> valid (binary_round_aux prec emax s m e l) = true.
Proof.
  intros Hm He. unfold binary_round_aux.
  destruct (shr_fexp_spec m e l Hm) as [E1 E2]. destruct (first_shift m e Hm He) as (Hr & Hc & Hmin).
  rewrite (Z.max_r 0) in E1, E2 by lia.
  destruct (shr_fexp prec emax m e l) as [mrs e1]. cbn [fst snd] in E1, E2. subst e1.
  replace (e + (fexp (Zdigits2 m + e) - e)) with (fexp (Zdigits2 m + e)) by lia.
  set (e1 := fexp (Zdigits2 m + e)) in *.
  set (m2 := round_nearest_even (shr_m mrs) (loc_of_shr_record mrs)).
  assert (Hm2 : m2 = shr_m mrs \/ m2 = shr_m mrs + 1) by apply round_ne_spec. rewrite E1 in Hm2.
  assert (0 <= m2 <= 2 ^ prec) by lia.
  destruct (shr_fexp_spec m2 e1 loc_Exact) as [F1 F2]; [lia|].
  destruct (shr_fexp prec emax m2 e1 loc_Exact) as [mrs2 e2]. cbn [fst snd] in F1, F2.
  destruct (decide (m2 = 0)) as [Z0|].
  { rewrite Z0, Z.div_0_l in F1 by lia. by rewrite F1. }
  destruct (second_shift m2 e1) as [Hpos Hcan]; [lia|lia|lia|].
  rewrite <- F1, <- F2 in Hcan. rewrite <- F1 in Hpos. destruct (shr_m mrs2) as [|p|p] eqn:Em; [lia| |lia].
  destruct (Z.leb_spec e2 (emax - prec)); [|done].
  rewrite (valid_sign s false). by apply (canonical_of (Zpos p) e2).
Qed.

Lemma iter_xO p d : Zpos (Pos.iter xO p d) = Zpos p * 2 ^ Zpos d.
Proof.
  induction d as [|d IH] using Pos.peano_ind; [cbn; lia|].
  rewrite Pos.iter_succ, (Pos2Z.inj_xO (Pos.iter _ _ _)), IH, Pos2Z.inj_succ, Z.pow_succ_r by lia. lia.
Qed.

(** ** Every operation *)

Lemma shl_align_spec m e e' :
  Zpos (shl_align m e e').1 = Zpos m * 2 ^ Z.max 0 (e - e')
  /\ (shl_align m e e').2 = Z.min e e'.
Proof.
  unfold shl_align. destruct (e' - e) as [|d|d] eqn:E; cbn [fst snd].
  - rewrite (Z.max_l 0) by lia. split; lia.
  - rewrite (Z.max_l 0) by lia. split; lia.
  - rewrite iter_xO. rewrite (Z.max_r 0) by lia. split; [|lia]. by replace (e - e') with (Zpos d) by lia.
Qed.

Lemma Zdigits2_shift m n : 0 < m -> 0 <= n -> Zdigits2 (m * 2 ^ n) = Zdigits2 m + n.
Proof.
  intros Hm Hn. destruct (Zdigits2_lower m Hm) as [Hd Hl]. destruct (Zdigits2_bound m) as [_ Hb]; [lia|].
  apply Zdigits2_unique; [lia|]. replace (Zdigits2 m + n - 1) with (Zdigits2 m - 1 + n) by lia.
  rewrite !Z.pow_add_r by lia. nia.
Qed.

(** The aligned mantissa of [binary_round]. *)
Lemma align_spec m e :
  let n := Z.max 0 (e - fexp (Zdigits2 (Zpos m) + e)) in
  exists m', shl_align m e (fexp (Zpos (digits2_pos m) + e)) = (m', e - n)
    /\ Zpos m' = Zpos m * 2 ^ n
    /\ Zdigits2 (Zpos m') + (e - n) = Zdigits2 (Zpos m) + e
    /\ e - n <= fexp (Zdigits2 (Zpos m') + (e - n)).
Proof.
  intros n. destruct (shl_align_spec m e (fexp (Zpos (digits2_pos m) + e))) as [E1 E2].
  change (Zpos (digits2_pos m)) with (Zdigits2 (Zpos m)) in *. fold n in E1.
  destruct (shl_align m e _) as [m' e']. cbn [fst snd] in E1, E2. exists m'.
  assert (e' = e - n) as -> by lia. split; [done|]. split; [done|].
  assert (E : Zdigits2 (Zpos m') + (e - n) = Zdigits2 (Zpos m) + e)
    by (rewrite E1, Zdigits2_shift by lia; lia).
  split; [done|]. rewrite E. lia.
Qed.

Lemma binary_round_valid s m e : valid (binary_round prec emax s m e) = true.
Proof.
  unfold binary_round. fold fexp. destruct (align_spec m e) as (m' & -> & _ & _ & He).
  apply round_aux_valid; [lia|done].
Qed.

Lemma normalize_valid m e z : valid (binary_normalize prec emax m e z) = true.
Proof. destruct m; [done|apply binary_round_valid..]. Qed.

Lemma SFadd_valid x y : valid x = true -> valid y = true -> valid (SFadd prec emax x y) = true.
Proof.
  intros Hx Hy. destruct x as [[]|[]| |], y as [[]|[]| |]; cbn [SFadd]; try done; apply normalize_valid.
Qed.
Lemma SFsub_valid x y : valid x = true -> valid y = true -> valid (SFsub prec emax x y) = true.
Proof.
  intros Hx Hy. destruct x as [[]|[]| |], y as [[]|[]| |]; cbn [SFsub]; try done; apply normalize_valid.
Qed.
Lemma SFopp_valid x : valid (SFopp x) = valid x.
Proof. by destruct x. Qed.

(** The exponent of a canonical number, and when it has fewer than [prec] digits. *)
Lemma valid_finite s m e :
  valid (S754_finite s m e) = true ->
  Zdigits2 (Zpos m) <= prec /\ emin <= e <= emax - prec /\ (Zdigits2 (Zpos m) = prec \/ e = emin).
Proof.
  cbn [valid_binary]. unfold bounded, canonical_mantissa. fold fexp.
  intros [Hc He]%andb_prop. apply Z.eqb_eq in Hc. apply Z.leb_le in He.
  change (Zpos (digits2_pos m)) with (Zdigits2 (Zpos m)) in Hc. rewrite fexp_spec in Hc. lia.
Qed.

Lemma emin_neg : emin <= 0.
Proof. unfold SpecFloat.emin. lia. Qed.

Lemma SFmul_valid x y : valid x = true -> valid y = true -> valid (SFmul prec emax x y) = true.
Proof.
  intros Hx Hy. destruct x as [| | |sx mx ex], y as [| | |sy my ey]; try done. cbn [SFmul].
  apply valid_finite in Hx as (_ & Hex & Hx). apply valid_finite in Hy as (_ & Hey & Hy).
  apply round_aux_valid; [lia|]. rewrite Pos2Z.inj_mul.
  destruct (Zdigits2_lower (Zpos mx)) as [? Hlx]; [lia|].
  destruct (Zdigits2_lower (Zpos my)) as [? Hly]; [lia|].
  pose proof (Zdigits2_ge (Zpos mx * Zpos my) (Zdigits2 (Zpos mx) - 1 + (Zdigits2 (Zpos my) - 1))) as Hd.
  rewrite Z.pow_add_r in Hd by lia. rewrite fexp_spec. pose proof emin_neg. nia.
Qed.

Lemma SFdiv_core_spec m1 e1 m2 e2 q e l :
  0 < m1 -> 0 < m2 -> SFdiv_core_binary prec emax m1 e1 m2 e2 = (q, e, l) ->
  0 <= q /\ e <= fexp (Zdigits2 q + e).
Proof.
  intros H1 H2. unfold SFdiv_core_binary. fold fexp. cbv zeta.
  set (d := Zdigits2 m1 + e1 - (Zdigits2 m2 + e2)). set (e' := Z.min (fexp d) (e1 - e2)).
  set (n := e1 - e2 - e'). assert (Hn : 0 <= n) by lia.
  assert (Em : match n with Zpos _ => Z.shiftl m1 n | Z0 => m1 | Zneg _ => 0 end = m1 * 2 ^ n).
  { destruct n; [lia| |lia]. by apply Z.shiftl_mul_pow2. }
  rewrite Em.
  assert (Hq : Z.div_eucl (m1 * 2 ^ n) m2 = ((m1 * 2 ^ n) / m2, (m1 * 2 ^ n) mod m2))
    by (unfold Z.div, Z.modulo; by destruct (Z.div_eucl _ _)).
  rewrite Hq. intros [= <- <- _].
  assert (Hpos : 0 <= m1 * 2 ^ n / m2) by (apply Z.div_pos; lia). split; [done|].
  apply Z.le_trans with (fexp d); [lia|]. apply fexp_mono. subst d.
  destruct (Z.le_gt_cases (Zdigits2 m1 + n - Zdigits2 m2) 0) as [Hle|Hgt].
  { destruct (Zdigits2_bound (m1 * 2 ^ n / m2)); lia. }
  destruct (Zdigits2_lower m1 H1) as [? Hl1]. destruct (Zdigits2_bound m2) as [? Hb2]; [lia|].
  pose proof (Zdigits2_ge (m1 * 2 ^ n / m2) (Zdigits2 m1 + n - Zdigits2 m2 - 1)) as Hd.
  assert (2 ^ (Zdigits2 m1 + n - Zdigits2 m2 - 1) <= m1 * 2 ^ n / m2); [|lia].
  apply Z.div_le_lower_bound; [lia|].
  apply Z.le_trans with (2 ^ Zdigits2 m2 * 2 ^ (Zdigits2 m1 + n - Zdigits2 m2 - 1)); [nia|].
  rewrite <- Z.pow_add_r by lia.
  replace (Zdigits2 m2 + (Zdigits2 m1 + n - Zdigits2 m2 - 1)) with (Zdigits2 m1 - 1 + n) by lia.
  rewrite Z.pow_add_r by lia. nia.
Qed.

Lemma SFdiv_valid x y : valid x = true -> valid y = true -> valid (SFdiv prec emax x y) = true.
Proof.
  intros Hx Hy. destruct x as [| | |sx mx ex], y as [| | |sy my ey]; try done. cbn [SFdiv].
  destruct (SFdiv_core_binary _ _ _ _ _ _) as [[q e] l] eqn:E.
  apply SFdiv_core_spec in E as [? ?]; [|done..]. by apply round_aux_valid.
Qed.

Lemma SFsqrt_core_spec m e0 q e l :
  0 < m -> SFsqrt_core_binary prec emax m e0 = (q, e, l) -> 0 <= q /\ e <= fexp (Zdigits2 q + e).
Proof.
  intros Hm. unfold SFsqrt_core_binary. fold fexp. cbv zeta. rewrite !Z.div2_div.
  set (h := (Zdigits2 m + e0 + 1) / 2). set (e' := Z.min (fexp h) (e0 / 2)).
  set (n := e0 - 2 * e'). pose proof (Z.div_mod e0 2). pose proof (Z.mod_pos_bound e0 2).
  assert (Hn : 0 <= n) by lia.
  assert (Em : match n with Zpos _ => Z.shiftl m n | Z0 => m | Zneg _ => 0 end = m * 2 ^ n).
  { destruct n; [lia| |lia]. by apply Z.shiftl_mul_pow2. }
  rewrite Em.
  pose proof (Z.sqrtrem_sqrt (m * 2 ^ n)) as Hs. destruct (Z.sqrtrem (m * 2 ^ n)) as [q' r'].
  cbn [fst] in Hs. subst q'. intros [= <- <- _]. split; [apply Z.sqrt_nonneg|].
  apply Z.le_trans with (fexp h); [lia|]. apply fexp_mono.
  destruct (Zdigits2_lower m Hm) as [? Hl].
  assert (Hh : h = (Zdigits2 m - 1 + n) / 2 + 1 + e').
  { subst h n.
    replace (Zdigits2 m + e0 + 1) with (Zdigits2 m - 1 + (e0 - 2 * e') + (1 + e') * 2) by lia.
    rewrite Z.div_add by lia. lia. }
  pose proof (Z.div_mod (Zdigits2 m - 1 + n) 2). pose proof (Z.mod_pos_bound (Zdigits2 m - 1 + n) 2).
  set (k := (Zdigits2 m - 1 + n) / 2) in *. assert (0 <= k) by lia.
  pose proof (Zdigits2_ge (Z.sqrt (m * 2 ^ n)) k). pose proof (Z.sqrt_nonneg (m * 2 ^ n)).
  assert (2 ^ k <= Z.sqrt (m * 2 ^ n)); [|lia].
  apply Z.sqrt_le_square; [nia|lia|]. rewrite <- Z.pow_add_r by lia.
  apply Z.le_trans with (2 ^ (Zdigits2 m - 1 + n)); [apply Z.pow_le_mono_r; lia|].
  rewrite Z.pow_add_r by lia. nia.
Qed.

Lemma SFsqrt_valid x : valid x = true -> valid (SFsqrt prec emax x) = true.
Proof.
  intros Hx. destruct x as [|[]| |[] mx ex]; try done. cbn [SFsqrt].
  destruct (SFsqrt_core_binary _ _ _ _) as [[q e] l] eqn:E.
  apply SFsqrt_core_spec in E as [? ?]; [|done]. by apply round_aux_valid.
Qed.

(** ** Exact results *)

Lemma iter_shr_exact p m :
  0 <= m ->
  iter_pos shr_1 p {| shr_m := m * 2 ^ Zpos p; shr_r := false; shr_s := false |}
  = {| shr_m := m; shr_r := false; shr_s := false |}.
Proof.
  assert (H1 : forall k, 0 <= k -> shr_1 {| shr_m := 2 * k; shr_r := false; shr_s := false |}
    = {| shr_m := k; shr_r := false; shr_s := false |}) by (intros [|k|k] ?; [done..|lia]).
  revert m. induction p as [p IH|p IH|]; intros m Hm; cbn [iter_pos].
  - rewrite (Pos2Z.inj_xI p), Z.pow_add_r, <- (Z.add_diag (Zpos p)), Z.pow_add_r by lia.
    replace (m * (2 ^ Zpos p * 2 ^ Zpos p * 2 ^ 1)) with (2 * (m * 2 ^ Zpos p * 2 ^ Zpos p)) by lia.
    rewrite H1, IH, IH by lia. done.
  - rewrite (Pos2Z.inj_xO p), <- (Z.add_diag (Zpos p)), Z.pow_add_r, Z.mul_assoc by lia.
    by rewrite IH, IH by lia.
  - rewrite Z.mul_comm. by apply H1.
Qed.

Lemma shr_fexp_exact m e n :
  0 < m -> 0 <= n -> fexp (Zdigits2 m + e) = e ->
  shr_fexp prec emax (m * 2 ^ n) (e - n) loc_Exact
  = ({| shr_m := m; shr_r := false; shr_s := false |}, e).
Proof.
  intros Hm Hn He. unfold shr_fexp. fold fexp. rewrite Zdigits2_shift by lia.
  replace (Zdigits2 m + n + (e - n)) with (Zdigits2 m + e) by lia. rewrite He.
  replace (e - (e - n)) with n by lia. unfold shr, shr_record_of_loc. destruct n as [|n|n]; [|f_equal|lia].
  - by rewrite Z.mul_1_r, Z.sub_0_r.
  - by apply iter_shr_exact; lia.
  - lia.
Qed.

(** A canonical number is a fixed point of rounding, with any number of trailing
    zeros added to its mantissa. *)
Lemma round_aux_exact s m e n :
  0 <= n -> valid (S754_finite s m e) = true ->
  binary_round_aux prec emax s (Zpos m * 2 ^ n) (e - n) loc_Exact = S754_finite s m e.
Proof.
  intros Hn Hv. pose proof (valid_finite _ _ _ Hv) as (Hd & He & Hc).
  assert (Hf : fexp (Zdigits2 (Zpos m) + e) = e) by (rewrite fexp_spec; lia).
  unfold binary_round_aux. rewrite shr_fexp_exact by lia. cbn [shr_m loc_of_shr_record round_nearest_even].
  pose proof (shr_fexp_exact (Zpos m) e 0 ltac:(lia) ltac:(lia) Hf) as E.
  rewrite Z.mul_1_r, Z.sub_0_r in E. rewrite E. cbn [shr_m].
  by destruct (Z.leb_spec e (emax - prec)); [|lia].
Qed.

Lemma binary_round_exact s m e :
  Zdigits2 (Zpos m) <= prec -> emin <= e -> Zdigits2 (Zpos m) + e <= emax ->
  exists m' n, 0 <= n /\ Zpos m' = Zpos m * 2 ^ n
    /\ binary_round prec emax s m e = S754_finite s m' (e - n)
    /\ valid (S754_finite s m' (e - n)) = true.
Proof.
  intros Hd He Hmax. unfold binary_round. fold fexp.
  destruct (align_spec m e) as (m' & -> & Em & Ed & Hle).
  set (n := Z.max 0 (e - fexp (Zdigits2 (Zpos m) + e))) in *. exists m', n.
  assert (Hn : n = Z.max 0 (e - Z.max (Zdigits2 (Zpos m) + e - prec) emin)) by done.
  assert (Hv : valid (S754_finite s m' (e - n)) = true).
  { rewrite (valid_sign s false). apply (canonical_of (Zpos m') (e - n)); [lia|..].
    - rewrite fexp_spec, Ed. lia.
    - rewrite Hn. unfold SpecFloat.emin. lia. }
  split_and!; [lia|done| |done].
  pose proof (round_aux_exact s m' (e - n) 0 ltac:(lia) Hv) as E.
  by rewrite Z.mul_1_r, Z.sub_0_r in E.
Qed.

Lemma binary_round_canonical s m e n m' :
  0 <= n -> valid (S754_finite s m e) = true -> Zpos m' = Zpos m * 2 ^ n ->
  binary_round prec emax s m' (e - n) = S754_finite s m e.
Proof.
  intros Hn Hv Em. pose proof (valid_finite _ _ _ Hv) as (Hd & He & Hc). unfold binary_round. fold fexp.
  destruct (align_spec m' (e - n)) as (m'' & -> & Em' & _ & _).
  assert (Hz : Z.max 0 (e - n - fexp (Zdigits2 (Zpos m') + (e - n))) = 0).
  { rewrite Em, Zdigits2_shift, fexp_spec by lia. lia. }
  rewrite Hz in *. rewrite Em', Em, Z.mul_1_r, Z.sub_0_r. by apply round_aux_exact.
Qed.
End Canonical.

(** ** Numbers and bit patterns *)

Section Patterns.
Context (mb eb : Z) (Hmb : 2 <= mb) (Heb : 2 <= eb) (Hfit : mb + 1 < 2 ^ (eb - 1)).
Abbreviation prec := (mb + 1).
Abbreviation emax := (2 ^ (eb - 1)).
Abbreviation valid := (valid_binary prec emax).

Lemma emax_double : 2 ^ eb = 2 * emax.
Proof. rewrite <- Z.pow_succ_r by lia. f_equal. lia. Qed.

Lemma sf_of_bits_valid x : valid (sf_of_bits mb eb x) = true.
Proof.
  assert (He : 0 <= f_exp mb eb x < 2 ^ eb) by (apply Z.mod_pos_bound; lia).
  assert (Hm : 0 <= f_man mb x < 2 ^ mb) by (apply Z.mod_pos_bound; lia).
  pose proof emax_double. unfold sf_of_bits.
  destruct (Z.eqb_spec (f_exp mb eb x) 0).
  { destruct (f_man mb x) as [|m|m] eqn:Em; [done| |done].
    rewrite (valid_sign prec emax _ false). apply (canonical_of prec emax (Zpos m)); [lia| |lia].
    pose proof (Zdigits2_le (Zpos m) mb). rewrite fexp_spec. unfold emin. lia. }
  destruct (Z.eqb_spec (f_exp mb eb x) (2 ^ eb - 1)); [by destruct (f_man mb x =? 0)|].
  destruct (f_man mb x + 2 ^ mb) as [|m|m] eqn:Em; [done| |done].
  rewrite (valid_sign prec emax _ false). apply (canonical_of prec emax (Zpos m)); [lia| |lia].
  rewrite (Zdigits2_unique (Zpos m) prec); [rewrite fexp_spec; unfold emin; lia|lia|].
  rewrite Z.add_simpl_r, Z.pow_add_r by lia. lia.
Qed.

Lemma sf_bits_roundtrip nan f : valid f = true -> sf_of_bits mb eb (bits_of_sf mb eb nan f) = f.
Proof.
  intros Hv. pose proof emax_double. assert (2 ^ eb <> 1) by lia.
  assert (Hget : forall s e m, 0 <= e < 2 ^ eb -> 0 <= m < 2 ^ mb ->
    sf_of_bits mb eb (sign_bits mb eb s + e * 2 ^ mb + m)
    = if e =? 0 then match m with Zpos m => S754_finite s m (3 - emax - prec) | _ => S754_zero s end
      else if e =? 2 ^ eb - 1 then if m =? 0 then S754_infinity s else S754_nan
      else match m + 2 ^ mb with Zpos m => S754_finite s m (e - 1 + (3 - emax - prec)) | _ => S754_nan end).
  { intros s e m He Hm. destruct (assemble_fields mb eb Hmb Heb s e m He Hm) as (_ & Es & Ee & Em).
    unfold sf_of_bits. by rewrite Es, Ee, Em. }
  destruct f as [s|s| |s m e]; cbn [bits_of_sf].
  - specialize (Hget s 0 0). rewrite !Z.add_0_r in Hget. apply Hget; lia.
  - specialize (Hget s (2 ^ eb - 1) 0). rewrite Z.add_0_r in Hget. rewrite Hget by lia.
    rewrite Z.eqb_refl. by destruct (Z.eqb_spec (2 ^ eb - 1) 0); [lia|].
  - destruct (mk_nan_ok mb eb Hmb Heb nan) as [_ Hn]. unfold f_is_nan, sf_of_bits in *.
    apply andb_prop in Hn as [He Hm]. apply Z.eqb_eq in He. rewrite He, Z.eqb_refl.
    destruct (Z.eqb_spec (2 ^ eb - 1) 0); [lia|]. by destruct (f_man mb (mk_nan mb eb nan) =? 0).
  - apply valid_finite in Hv as (Hd & He & Hc); [|lia..]. unfold emin in *.
    destruct (Zdigits2_bound (Zpos m)) as [_ Hb]; [lia|].
    assert (Zpos m < 2 ^ prec) by (apply Z.lt_le_trans with (2 ^ Zdigits2 (Zpos m)); [done|apply Z.pow_le_mono_r; lia]).
    rewrite Z.pow_add_r in * by lia.
    destruct (Z.ltb_spec (Zpos m) (2 ^ mb)) as [Hlt|Hge].
    + assert (Zdigits2 (Zpos m) <= mb) by (apply Zdigits2_le; lia).
      destruct (assemble_fields mb eb Hmb Heb s 0 (Zpos m)) as [Hu _]; [lia|lia|].
      specialize (Hget s 0 (Zpos m)). rewrite Z.mul_0_l, Z.add_0_r in Hget, Hu.
      rewrite wrap_small by done. rewrite Hget by lia. f_equal. lia.
    + set (x := e - (3 - emax - prec) + 1). assert (0 < x < 2 ^ eb - 1) by (subst x; lia).
      destruct (assemble_fields mb eb Hmb Heb s x (Zpos m - 2 ^ mb)) as [Hu _]; [lia|lia|].
      rewrite wrap_small by done. rewrite Hget by lia.
      destruct (Z.eqb_spec x 0); [lia|]. destruct (Z.eqb_spec x (2 ^ eb - 1)); [lia|].
      rewrite Z.sub_add. f_equal. lia.
Qed.

Lemma sf_nan_iff x : f_is_nan mb eb x = match sf_of_bits mb eb x with S754_nan => true | _ => false end.
Proof.
  assert (He : 0 <= f_exp mb eb x < 2 ^ eb) by (apply Z.mod_pos_bound; lia).
  assert (Hm : 0 <= f_man mb x < 2 ^ mb) by (apply Z.mod_pos_bound; lia).
  pose proof emax_double. unfold f_is_nan, sf_of_bits.
  destruct (Z.eqb_spec (f_exp mb eb x) 0).
  { destruct (Z.eqb_spec (f_exp mb eb x) (2 ^ eb - 1)); [lia|]. by destruct (f_man mb x). }
  destruct (Z.eqb_spec (f_exp mb eb x) (2 ^ eb - 1)); [by destruct (f_man mb x =? 0)|].
  destruct (f_man mb x + 2 ^ mb) eqn:E; [lia|done|lia].
Qed.

Lemma lxor_pow2_clear x n : 0 <= n -> Z.testbit x n = false -> Z.lxor x (2 ^ n) = x + 2 ^ n.
Proof.
  intros Hn Hb. symmetry. apply Z.add_nocarry_lxor. apply Z.bits_inj'. intros i Hi.
  rewrite Z.land_spec, Z.pow2_bits_eqb, Z.bits_0 by lia.
  destruct (Z.eqb_spec n i) as [<-|]; [by rewrite Hb|by rewrite andb_false_r].
Qed.

Lemma lxor_pow2_set x n : 0 <= n -> Z.testbit x n = true -> Z.lxor x (2 ^ n) = x - 2 ^ n.
Proof.
  intros Hn Hb. pose proof (lxor_pow2_clear (Z.lxor x (2 ^ n)) n Hn) as E.
  rewrite Z.lxor_spec, Hb, Z.pow2_bits_true in E by lia. specialize (E eq_refl).
  rewrite Z.lxor_assoc, Z.lxor_nilpotent, Z.lxor_0_r in E. lia.
Qed.

Lemma f_neg_sf x : is_u (mb + eb + 1) x -> sf_of_bits mb eb (f_neg mb eb x) = SFopp (sf_of_bits mb eb x).
Proof.
  intros Hx. pose proof (fields_assemble mb eb Hmb Heb x Hx) as Ex.
  assert (He : 0 <= f_exp mb eb x < 2 ^ eb) by (apply Z.mod_pos_bound; lia).
  assert (Hm : 0 <= f_man mb x < 2 ^ mb) by (apply Z.mod_pos_bound; lia).
  assert (En : f_neg mb eb x = sign_bits mb eb (negb (f_sign mb eb x)) + f_exp mb eb x * 2 ^ mb + f_man mb x).
  { unfold f_neg, f_sign, sign_bits in *. destruct (Z.testbit x (mb + eb)) eqn:Hs; cbn [negb].
    - rewrite lxor_pow2_set by (lia || done). lia.
    - rewrite lxor_pow2_clear by (lia || done). lia. }
  destruct (assemble_fields mb eb Hmb Heb (negb (f_sign mb eb x)) _ _ He Hm) as (_ & Es & Ee & Em).
  rewrite <- En in Es, Ee, Em. unfold sf_of_bits. rewrite Es, Ee, Em.
  destruct (f_exp mb eb x =? 0); [by destruct (f_man mb x)|].
  destruct (f_exp mb eb x =? 2 ^ eb - 1); [by destruct (f_man mb x =? 0)|].
  by destruct (f_man mb x + 2 ^ mb).
Qed.
End Patterns.
