(* ===== verification/Cpu.v ===== *)
(** CPU state: the register file, the CSR file, the error type, floating-point
    register accesses, interrupt entry and the debugger snapshot of
    [src/src/cpu.rs]; [DebuggerSnapshot] of [src/src/lib.rs].

    The state of a run is a [Machine]: the CPU, its memory (any [MemoryOps]
    implementation) and the host.  A method taking [&mut self] and [&mut M] and
    returning a [Result] is a computation in [EM (Machine ..) E].

    [BuildProfile] says whether the build checks arithmetic overflow: Cargo's
    [dev]/[test] profiles do (a plain [+] that overflows panics), the [release]
    profile does not (it wraps). *)

From S2P Require Import Prelude Bits Fmt Host Memory Float.

Class BuildProfile := overflow_checks : bool.
Definition release_profile : BuildProfile := false.
Definition debug_profile : BuildProfile := true.

Definition NAN_F32 : Z := 0x7FC00000.
Definition NAN_F64 : Z := 0xFFFFFFFF7FC00000.
Definition MSTATUS : Z := 0x300.
Definition MEPC : Z := 0x341.
Definition MCAUSE : Z := 0x342.
Definition MTVEC : Z := 0x305.
Definition MSTATUS_MIE : Z := 1 .<< 3.
Definition MSTATUS_MPIE : Z := 1 .<< 7.
Definition A0 : Z := 10.
Definition A1 : Z := 11.
Definition A2 : Z := 12.
Definition A3 : Z := 13.
Definition A7 : Z := 17.
Definition TRAP_EXIT_CODE : Z := 134.

(** [syscall.rs]: an unknown syscall number with its arguments. *)
Record UnknownSyscall := {
  sys_num : Z;
  sys_a0 : Z;
  sys_a1 : Z;
  sys_a2 : Z;
  sys_a3 : Z
}.

Inductive CpuError :=
| IllegalInstruction (pc raw : Z)
| UnknownOpcode (pc opcode : Z)
| UnalignedAccess (pc addr : Z)
| MemoryFault (pc addr : Z)
| UnhandledSyscall (pc number : Z)
| UnknownSyscallError (e : UnknownSyscall)
| ExecutionError (msg : string).

(** [Display for CpuError]. *)
Definition cpu_error_to_string (e : CpuError) : string :=
  match e with
  | IllegalInstruction pc raw =>
    "Illegal instruction " +:+ fmt_hex_alt_pad 10 raw +:+ " at PC " +:+ fmt_hex_alt_pad 10 pc
  | UnknownOpcode pc opcode =>
    "Unknown opcode " +:+ fmt_hex_alt_pad 4 opcode +:+ " at PC " +:+ fmt_hex_alt_pad 10 pc
  | UnalignedAccess pc addr =>
    "Unaligned memory access at " +:+ fmt_hex_alt_pad 10 addr +:+ " (PC "
      +:+ fmt_hex_alt_pad 10 pc +:+ ")"
  | MemoryFault pc addr =>
    "Memory fault at address " +:+ fmt_hex_alt_pad 10 addr +:+ " (PC "
      +:+ fmt_hex_alt_pad 10 pc +:+ ")"
  | UnhandledSyscall pc number =>
    "Unhandled syscall " +:+ fmt_dec number +:+ " at PC " +:+ fmt_hex_alt_pad 10 pc
  | UnknownSyscallError s =>
    "Unknown syscall " +:+ fmt_dec (sys_num s) +:+ " (a0: " +:+ fmt_hex_alt (sys_a0 s)
      +:+ ", a1: " +:+ fmt_hex_alt (sys_a1 s) +:+ ", a2: " +:+ fmt_hex_alt (sys_a2 s)
      +:+ ", a3: " +:+ fmt_hex_alt (sys_a3 s) +:+ ")"
  | ExecutionError msg => msg
  end.

Inductive StepResult :=
| StepOk
| BreakpointHit (addr : Z)
| StepHalted (code : Z)
| StepTrap (pc : Z).

(** ** CSR file: an array of 4096 words, all zero at first *)

Definition CSR_COUNT : Z := 4096.
Definition CSR_MASK : Z := CSR_COUNT - 1.

Record CsrFile := { csr_values : gmap Z Z }.
Definition CsrFile_new : CsrFile := {| csr_values := ∅ |}.
Definition csr_get (f : CsrFile) (num : Z) : Z := default 0 (csr_values f !! (num .& CSR_MASK)).
Definition csr_set (f : CsrFile) (num val : Z) : CsrFile :=
  {| csr_values := <[num .& CSR_MASK := val]> (csr_values f) |}.

(** ** The CPU *)

Record Cpu := {
  regs : list Z;
  fregs : list Z;
  pc : Z;
  fcsr : Z;
  csrs : CsrFile;
  is_halted : bool;
  exit_code : Z;
  debug_enabled : bool;
  breakpoints : gset Z;
  step_counter : Z;
  has_custom_syscalls : bool;
  trapped : bool;
  resume_past_breakpoint : option Z
}.

Definition with_regs r c := Build_Cpu r (fregs c) (pc c) (fcsr c) (csrs c) (is_halted c)
  (exit_code c) (debug_enabled c) (breakpoints c) (step_counter c) (has_custom_syscalls c)
  (trapped c) (resume_past_breakpoint c).
Definition with_fregs r c := Build_Cpu (regs c) r (pc c) (fcsr c) (csrs c) (is_halted c)
  (exit_code c) (debug_enabled c) (breakpoints c) (step_counter c) (has_custom_syscalls c)
  (trapped c) (resume_past_breakpoint c).
Definition with_pc p c := Build_Cpu (regs c) (fregs c) p (fcsr c) (csrs c) (is_halted c)
  (exit_code c) (debug_enabled c) (breakpoints c) (step_counter c) (has_custom_syscalls c)
  (trapped c) (resume_past_breakpoint c).
Definition with_csrs f c := Build_Cpu (regs c) (fregs c) (pc c) (fcsr c) f (is_halted c)
  (exit_code c) (debug_enabled c) (breakpoints c) (step_counter c) (has_custom_syscalls c)
  (trapped c) (resume_past_breakpoint c).
Definition with_halted b c := Build_Cpu (regs c) (fregs c) (pc c) (fcsr c) (csrs c) b
  (exit_code c) (debug_enabled c) (breakpoints c) (step_counter c) (has_custom_syscalls c)
  (trapped c) (resume_past_breakpoint c).
Definition with_exit_code e c := Build_Cpu (regs c) (fregs c) (pc c) (fcsr c) (csrs c)
  (is_halted c) e (debug_enabled c) (breakpoints c) (step_counter c) (has_custom_syscalls c)
  (trapped c) (resume_past_breakpoint c).
Definition with_debug b c := Build_Cpu (regs c) (fregs c) (pc c) (fcsr c) (csrs c)
  (is_halted c) (exit_code c) b (breakpoints c) (step_counter c) (has_custom_syscalls c)
  (trapped c) (resume_past_breakpoint c).
Definition with_breakpoints s c := Build_Cpu (regs c) (fregs c) (pc c) (fcsr c) (csrs c)
  (is_halted c) (exit_code c) (debug_enabled c) s (step_counter c) (has_custom_syscalls c)
  (trapped c) (resume_past_breakpoint c).
Definition with_step_counter n c := Build_Cpu (regs c) (fregs c) (pc c) (fcsr c) (csrs c)
  (is_halted c) (exit_code c) (debug_enabled c) (breakpoints c) n (has_custom_syscalls c)
  (trapped c) (resume_past_breakpoint c).
Definition with_custom_syscalls b c := Build_Cpu (regs c) (fregs c) (pc c) (fcsr c) (csrs c)
  (is_halted c) (exit_code c) (debug_enabled c) (breakpoints c) (step_counter c) b
  (trapped c) (resume_past_breakpoint c).
Definition with_trapped b c := Build_Cpu (regs c) (fregs c) (pc c) (fcsr c) (csrs c)
  (is_halted c) (exit_code c) (debug_enabled c) (breakpoints c) (step_counter c)
  (has_custom_syscalls c) b (resume_past_breakpoint c).
Definition with_resume r c := Build_Cpu (regs c) (fregs c) (pc c) (fcsr c) (csrs c)
  (is_halted c) (exit_code c) (debug_enabled c) (breakpoints c) (step_counter c)
  (has_custom_syscalls c) (trapped c) r.

Definition Cpu_new : Cpu := {|
  regs := <[2%nat := 0x7FFFFFC]> (replicate 32 0);
  fregs := replicate 32 0;
  pc := 0;
  fcsr := 0;
  csrs := CsrFile_new;
  is_halted := false;
  exit_code := 0;
  debug_enabled := false;
  breakpoints := ∅;
  step_counter := 0;
  has_custom_syscalls := false;
  trapped := false;
  resume_past_breakpoint := None
|}.

(** Array accesses, with their bounds check. *)
Definition idx (l : list Z) (i : Z) : option Z := l !! Z.to_nat i.
Definition upd (l : list Z) (i v : Z) : option (list Z) :=
  if i <? Z.of_nat (length l) then Some (<[Z.to_nat i := v]> l) else None.

Definition Cpu_read_reg (c : Cpu) (reg : Z) : option Z :=
  if reg =? 0 then Some 0 else idx (regs c) reg.
Definition Cpu_write_reg (c : Cpu) (reg val : Z) : option Cpu :=
  if negb (reg =? 0) then r ← upd (regs c) reg val; Some (with_regs r c) else Some c.

Definition Cpu_read_f32 (c : Cpu) (reg : Z) : option Z :=
  bits ← idx (fregs c) reg;
  Some (if (bits .>> 32) =? 0xFFFFFFFF then u32 bits else NAN_F32).
Definition Cpu_write_f32 (c : Cpu) (reg val : Z) : option Cpu :=
  let bits := if f32_is_nan val then NAN_F64 else (0xFFFFFFFF .<< 32) .| val in
  r ← upd (fregs c) reg bits; Some (with_fregs r c).
Definition Cpu_read_f64 (c : Cpu) (reg : Z) : option Z := idx (fregs c) reg.
Definition Cpu_write_f64 (c : Cpu) (reg val : Z) : option Cpu :=
  let res_val := if f64_is_nan val then 0x7FF8000000000000 else val in
  r ← upd (fregs c) reg res_val; Some (with_fregs r c).
(** [self.fregs[reg] = f64::from_bits(bits)]. *)
Definition Cpu_set_freg (c : Cpu) (reg bits : Z) : option Cpu :=
  r ← upd (fregs c) reg bits; Some (with_fregs r c).

Definition interrupts_enabled (c : Cpu) : bool :=
  negb ((csr_get (csrs c) MSTATUS .& MSTATUS_MIE) =? 0).

Definition handle_interrupt (irq : Z) (c : Cpu) : Cpu :=
  let f := csr_set (csrs c) MEPC (pc c) in
  let f := csr_set f MCAUSE (0x80000000 .| u32 irq) in
  let mstatus := csr_get f MSTATUS in
  let new_mstatus := mstatus .& not_u 32 (MSTATUS_MIE .| MSTATUS_MPIE) in
  let new_mstatus :=
    if negb ((mstatus .& MSTATUS_MIE) =? 0) then new_mstatus .| MSTATUS_MPIE else new_mstatus in
  let f := csr_set f MSTATUS new_mstatus in
  let mtvec := csr_get f MTVEC in
  let c := with_csrs f c in
  if negb (mtvec =? 0) then with_pc mtvec c else c.

Record DebuggerSnapshot := {
  snap_pc : Z;
  gpr : list Z;
  fpr : list Z;
  snap_csrs : list Z;
  step_count : Z;
  snap_is_halted : bool;
  is_breakpoint : bool;
  hit_address : Z;
  snap_exit_code : Z;
  snap_trapped : bool
}.

Definition snapshot (c : Cpu) (is_breakpoint : bool) (hit_address : Z) : DebuggerSnapshot :=
  let mstatus := csr_get (csrs c) MSTATUS in
  let mcause := csr_get (csrs c) MCAUSE in
  let mepc := csr_get (csrs c) MEPC in
  let mtvec := csr_get (csrs c) MTVEC in
  {| snap_pc := pc c;
     gpr := regs c;
     fpr := fregs c;
     snap_csrs := [mstatus; mcause; mepc; mtvec; fcsr c];
     step_count := step_counter c;
     snap_is_halted := is_halted c;
     is_breakpoint := is_breakpoint;
     hit_address := hit_address;
     snap_exit_code := exit_code c;
     snap_trapped := trapped c |}.

(** ** The machine *)

Record Machine (H Mem : Type) := { cpu : Cpu; mem : Mem; host : H }.
Arguments cpu {H Mem}.
Arguments mem {H Mem}.
Arguments host {H Mem}.
Arguments Build_Machine {H Mem}.

Section MachineOps.
Context {H Mem : Type} `{HostOps H} `{MemoryOps H Mem} `{BuildProfile} {E : Type}.
Abbreviation M := (EM (Machine H Mem) E).

Definition get_cpu : M Cpu := em_gets cpu.
Definition modify_cpu (f : Cpu -> Cpu) : M unit :=
  em_modify (fun s => Build_Machine (f (cpu s)) (mem s) (host s)).
(** A CPU update that may be an index out of bounds. *)
Definition try_cpu (f : Cpu -> option Cpu) : M unit := fun s =>
  match f (cpu s) with
  | Some c => Ok tt (Build_Machine c (mem s) (host s))
  | None => Panic
  end.
Definition try_gets {A} (f : Cpu -> option A) : M A := fun s =>
  match f (cpu s) with Some a => Ok a s | None => Panic end.

Definition mread {A} (f : Mem -> HM H A) : M A := fun s =>
  match f (mem s) (host s) with
  | Some (a, h) => Ok a (Build_Machine (cpu s) (mem s) h)
  | None => Panic
  end.
Definition mwrite (f : Mem -> HM H Mem) : M unit := fun s =>
  match f (mem s) (host s) with
  | Some (m, h) => Ok tt (Build_Machine (cpu s) m h)
  | None => Panic
  end.
Definition modify_mem (f : Mem -> Mem) : M unit :=
  em_modify (fun s => Build_Machine (cpu s) (f (mem s)) (host s)).
Definition get_mem : M Mem := em_gets mem.

Definition hcall {A} (f : H -> A * H) : M A := fun s =>
  let '(a, h) := f (host s) in Ok a (Build_Machine (cpu s) (mem s) h).
Definition hnotify (f : H -> H) : M unit :=
  em_modify (fun s => Build_Machine (cpu s) (mem s) (f (host s))).

Definition read_reg (reg : Z) : M Z := try_gets (fun c => Cpu_read_reg c reg).
Definition write_reg (reg val : Z) : M unit := try_cpu (fun c => Cpu_write_reg c reg val).
Definition read_f32 (reg : Z) : M Z := try_gets (fun c => Cpu_read_f32 c reg).
Definition write_f32 (reg val : Z) : M unit := try_cpu (fun c => Cpu_write_f32 c reg val).
Definition read_f64 (reg : Z) : M Z := try_gets (fun c => Cpu_read_f64 c reg).
Definition write_f64 (reg val : Z) : M unit := try_cpu (fun c => Cpu_write_f64 c reg val).
Definition freg_bits (reg : Z) : M Z := try_gets (fun c => idx (fregs c) reg).
Definition set_freg (reg bits : Z) : M unit := try_cpu (fun c => Cpu_set_freg c reg bits).

(** A plain [+] on [w]-bit unsigned integers. *)
Definition checked_add (w a b : Z) : M Z :=
  if overflow_checks && (2 ^ w <=? a + b) then em_panic else mret (wrap w (a + b)).
End MachineOps.
