(* ===== verification/Syscall.v ===== *)
(** System calls: [handle_ecall] of [src/src/syscall.rs].

    The call number is in [a7], the arguments in [a0] .. [a3], the result goes to
    [a0].  A handler the host installed is tried first; a call nobody knows is the
    error [UnknownSyscall] with its arguments. *)

From S2P Require Import Prelude Host Memory Cpu.

(** [16 * 1024 * 1024], the cap on one transfer. *)
Definition IO_LIMIT : Z := 16 * 1024 * 1024.

(** The buffer after the host stored [bs] at its start. *)
Definition fill_buffer (buf bs : list Z) : list Z :=
  take (length buf) bs ++ drop (length bs) buf.

(** [&buf[..n]]. *)
Definition slice_to (buf : list Z) (n : Z) : option (list Z) :=
  if n <=? Z.of_nat (length buf) then Some (take (Z.to_nat n) buf) else None.

Section Ecall.
Context {H Mem : Type} `{HostOps H} `{MemoryOps H Mem}.
Abbreviation M := (EM (Machine H Mem) UnknownSyscall).

Definition sys_exit (a0 : Z) : M unit :=
  modify_cpu (with_halted true);;
  modify_cpu (with_exit_code (i32 a0)).

Definition sys_write (a0 a1 a2 : Z) : M unit :=
  let fd := a0 in
  let buf_ptr := a1 in
  let count := Z.min a2 IO_LIMIT in
  bytes ← mread (fun m => read_bytes m buf_ptr count);
  (if fd =? 1 then hnotify (js_write_stdout bytes)
   else if fd =? 2 then hnotify (js_write_stderr bytes)
   else mret tt);;
  write_reg 10 a2.

Definition sys_read (a1 a2 : Z) : M unit :=
  let buf_ptr := a1 in
  let count := Z.min a2 IO_LIMIT in
  let scratch := replicate (Z.to_nat count) 0 in
  '(bytes_read, bs) ← hcall (read_from_stdin (u32 count));
  let scratch := fill_buffer scratch bs in
  if 0 <? bytes_read then
    bytes ← em_index (slice_to scratch bytes_read);
    mwrite (fun m => write_bytes m buf_ptr bytes);;
    write_reg 10 (u32 bytes_read)
  else write_reg 10 0.

Definition sys_brk (a0 : Z) : M unit :=
  (if negb (a0 =? 0) then modify_mem (fun m => set_brk m a0) else mret tt);;
  m ← get_mem;
  write_reg 10 (get_brk m).

Definition handle_ecall_builtin (a7 a0 a1 a2 a3 : Z) : M unit :=
  if (a7 =? 93) || (a7 =? 10) || (a7 =? 1) then sys_exit a0
  else if (a7 =? 64) || (a7 =? 4) then sys_write a0 a1 a2
  else if (a7 =? 63) || (a7 =? 3) then sys_read a1 a2
  else if (a7 =? 214) || (a7 =? 45) then sys_brk a0
  else if (a7 =? 57) || (a7 =? 62) || (a7 =? 80) then write_reg 10 0
  else em_throw {| sys_num := a7; sys_a0 := a0; sys_a1 := a1; sys_a2 := a2; sys_a3 := a3 |}.

Definition handle_ecall : M unit :=
  a7 ← read_reg A7;
  a0 ← read_reg A0;
  a1 ← read_reg A1;
  a2 ← read_reg A2;
  a3 ← read_reg A3;
  c ← get_cpu;
  if has_custom_syscalls c then
    res ← hcall (custom_syscall (i32 a0) (i32 a1) (i32 a2) (i32 a3) (i32 a7));
    if negb (res =? 0) then write_reg A0 (u32 res)
    else handle_ecall_builtin a7 a0 a1 a2 a3
  else handle_ecall_builtin a7 a0 a1 a2 a3.
End Ecall.
