(* ===== verification/Exec.v ===== *)
(** Execution of 32-bit instructions: [execute_inst32], [exec_rv32i],
    [exec_rv32m], [exec_rv32a], [exec_rv32fd] and [exec_csr] of [src/src/cpu.rs].

    A computation of [EM (Machine H Mem) CpuError]; the out-parameter [next_pc] is
    passed and returned.  [exec_rv32fd] is split along its match arms. *)

From S2P Require Import Prelude Bits Inst Fmt Host Memory Float Cpu Syscall.

(** ** Pure parts: the value each arithmetic arm computes.
    [None] is the arm that returns [IllegalInstruction]. *)

Definition b2z (b : bool) : Z := if b then 1 else 0.

Definition branch_taken (funct3 src1 src2 : Z) : option bool :=
  if funct3 =? 0 then Some (src1 =? src2)
  else if funct3 =? 1 then Some (negb (src1 =? src2))
  else if funct3 =? 4 then Some (i32 src1 <? i32 src2)
  else if funct3 =? 5 then Some (i32 src2 <=? i32 src1)
  else if funct3 =? 6 then Some (src1 <? src2)
  else if funct3 =? 7 then Some (src2 <=? src1)
  else None.

Definition alu_imm (funct3 funct7 src1 imm shamt : Z) : option Z :=
  if funct3 =? 0 then Some (wrapping_add src1 (u32 imm))
  else if funct3 =? 2 then Some (b2z (i32 src1 <? imm))
  else if funct3 =? 3 then Some (b2z (src1 <? u32 imm))
  else if funct3 =? 4 then Some (src1 .^ u32 imm)
  else if funct3 =? 6 then Some (src1 .| u32 imm)
  else if funct3 =? 7 then Some (src1 .& u32 imm)
  else if funct3 =? 1 then Some (u32 (src1 .<< shamt))
  else if funct3 =? 5 then
    Some (if funct7 =? 0x20 then u32 (i32 src1 .>> shamt) else src1 .>> shamt)
  else None.

Definition alu_op (funct7 funct3 src1 src2 : Z) : option Z :=
  if (funct7 =? 0x00) && (funct3 =? 0) then Some (wrapping_add src1 src2)
  else if (funct7 =? 0x20) && (funct3 =? 0) then Some (u32 (src1 - src2))
  else if (funct7 =? 0x00) && (funct3 =? 1) then Some (u32 (src1 .<< (src2 .& 0x1F)))
  else if (funct7 =? 0x00) && (funct3 =? 2) then Some (b2z (i32 src1 <? i32 src2))
  else if (funct7 =? 0x00) && (funct3 =? 3) then Some (b2z (src1 <? src2))
  else if (funct7 =? 0x00) && (funct3 =? 4) then Some (src1 .^ src2)
  else if (funct7 =? 0x00) && (funct3 =? 5) then Some (src1 .>> (src2 .& 0x1F))
  else if (funct7 =? 0x20) && (funct3 =? 5) then Some (u32 (i32 src1 .>> (src2 .& 0x1F)))
  else if (funct7 =? 0x00) && (funct3 =? 6) then Some (src1 .| src2)
  else if (funct7 =? 0x00) && (funct3 =? 7) then Some (src1 .& src2)
  else None.

(** [i32::wrapping_div], [i32::wrapping_rem] (truncating; divisor not zero). *)
Definition wrapping_div (a b : Z) : Z := i32 (Z.quot a b).
Definition wrapping_rem (a b : Z) : Z := i32 (Z.rem a b).

Definition mul_op (funct3 src1 src2 : Z) : option Z :=
  if funct3 =? 0 then Some (u32 (src1 * src2))
  else if funct3 =? 1 then
    Some (u32 ((i64 (i64 (i32 src1) * i64 (i32 src2)) .>> 32) .& 0xFFFFFFFF))
  else if funct3 =? 2 then
    Some (u32 ((i64 (i64 (i32 src1) * i64 (u64 src2)) .>> 32) .& 0xFFFFFFFF))
  else if funct3 =? 3 then
    Some (u32 ((u64 (u64 src1 * u64 src2) .>> 32) .& 0xFFFFFFFF))
  else if funct3 =? 4 then
    Some (if src2 =? 0 then 0xFFFFFFFF else u32 (wrapping_div (i32 src1) (i32 src2)))
  else if funct3 =? 5 then
    Some (if src2 =? 0 then 0xFFFFFFFF else src1 / src2)
  else if funct3 =? 6 then
    Some (if src2 =? 0 then src1 else u32 (wrapping_rem (i32 src1) (i32 src2)))
  else if funct3 =? 7 then
    Some (if src2 =? 0 then src1 else src1 mod src2)
  else None.

(** The new memory value and the value for [rd]. *)
Definition amo_op (funct5 old_val src2 : Z) : option (Z * Z) :=
  if funct5 =? 0x02 then Some (old_val, old_val)
  else if funct5 =? 0x03 then Some (src2, 0)
  else if funct5 =? 0x01 then Some (src2, old_val)
  else if funct5 =? 0x00 then Some (wrapping_add old_val src2, old_val)
  else if funct5 =? 0x04 then Some (old_val .^ src2, old_val)
  else if funct5 =? 0x0C then Some (old_val .& src2, old_val)
  else if funct5 =? 0x08 then Some (old_val .| src2, old_val)
  else if funct5 =? 0x10 then Some (u32 (Z.min (i32 old_val) (i32 src2)), old_val)
  else if funct5 =? 0x14 then Some (u32 (Z.max (i32 old_val) (i32 src2)), old_val)
  else if funct5 =? 0x18 then Some (Z.min old_val src2, old_val)
  else if funct5 =? 0x1C then Some (Z.max old_val src2, old_val)
  else None.

(** Sign injection: [mag] masks the magnitude, [sgn] the sign bit of a [w]-bit
    pattern. *)
Definition sgnj_bits (w mag sgn funct3 b1 b2 : Z) : option Z :=
  if funct3 =? 0 then Some ((b1 .& mag) .| (b2 .& sgn))
  else if funct3 =? 1 then Some ((b1 .& mag) .| (not_u w b2 .& sgn))
  else if funct3 =? 2 then Some ((b1 .& mag) .| ((b1 .^ b2) .& sgn))
  else None.

(** The mask of [FCLASS], from the classification of the operand. *)
Definition fclass_mask (infinite nan zero subnormal is_neg quiet : bool) : Z :=
  if infinite then if is_neg then 1 .<< 0 else 1 .<< 7
  else if nan then if quiet then 1 .<< 9 else 1 .<< 8
  else if zero then if is_neg then 1 .<< 3 else 1 .<< 4
  else if subnormal then if is_neg then 1 .<< 2 else 1 .<< 5
  else if is_neg then 1 .<< 1
  else 1 .<< 6.

Definition fclass_s (bits : Z) : Z :=
  fclass_mask (f32_is_infinite bits) (f32_is_nan bits) (f32_eq bits 0) (f32_is_subnormal bits)
    (negb ((bits .& 0x80000000) =? 0)) (negb ((bits .& 0x00400000) =? 0)).
Definition fclass_d (bits : Z) : Z :=
  fclass_mask (f64_is_infinite bits) (f64_is_nan bits) (f64_eq bits 0) (f64_is_subnormal bits)
    (negb ((bits .& 0x8000000000000000) =? 0)) (negb ((bits .& 0x0008000000000000) =? 0)).

(** The value a CSR instruction stores. *)
Definition csr_new_val (funct3 old_val src1_val rs1 : Z) : Z :=
  if funct3 =? 1 then src1_val
  else if funct3 =? 2 then old_val .| src1_val
  else if funct3 =? 3 then old_val .& not_u 32 src1_val
  else if funct3 =? 5 then u32 rs1
  else if funct3 =? 6 then old_val .| u32 rs1
  else if funct3 =? 7 then old_val .& not_u 32 (u32 rs1)
  else old_val.

Section Exec.
Context {H Mem : Type} `{HostOps H} `{MemoryOps H Mem} `{BuildProfile} `{FloatEnv}.
Abbreviation M := (EM (Machine H Mem) CpuError).

(** [return Err(CpuError::IllegalInstruction { pc: self.pc, raw })]. *)
Definition illegal {A} (raw : Z) : M A :=
  c ← get_cpu; em_throw (IllegalInstruction (pc c) raw).
Definition or_illegal {A} (raw : Z) (o : option A) : M A :=
  match o with Some a => mret a | None => illegal raw end.

(** [OP_LOAD]: the value loaded. *)
Definition load_value (inst : DecodedInst32) (addr : Z) : M Z :=
  if funct3 inst =? 0 then v ← mread (fun m => read_u8 m addr); mret (u32 (i8 v))
  else if funct3 inst =? 1 then v ← mread (fun m => read_u16 m addr); mret (u32 (i16 v))
  else if funct3 inst =? 2 then mread (fun m => read_u32 m addr)
  else if funct3 inst =? 4 then mread (fun m => read_u8 m addr)
  else if funct3 inst =? 5 then mread (fun m => read_u16 m addr)
  else illegal (raw inst).

(** [OP_STORE]. *)
Definition store_value (inst : DecodedInst32) (addr val : Z) : M unit :=
  if funct3 inst =? 0 then mwrite (fun m => write_u8 m addr (u8 val))
  else if funct3 inst =? 1 then mwrite (fun m => write_u16 m addr (u16 val))
  else if funct3 inst =? 2 then mwrite (fun m => write_u32 m addr val)
  else illegal (raw inst).

Definition exec_rv32i (inst : DecodedInst32) (next_pc : Z) : M Z :=
  let op := opcode inst in
  if op =? OP_LUI then
    write_reg (rd inst) (u_imm inst);; mret next_pc
  else if op =? OP_AUIPC then
    c ← get_cpu;
    write_reg (rd inst) (wrapping_add (pc c) (u_imm inst));; mret next_pc
  else if op =? OP_JAL then
    write_reg (rd inst) next_pc;;
    c ← get_cpu;
    mret (wrapping_add (pc c) (u32 (j_imm inst)))
  else if op =? OP_JALR then
    a ← read_reg (rs1 inst);
    let target := wrapping_add a (u32 (i_imm inst)) .& not_u 32 1 in
    write_reg (rd inst) next_pc;;
    mret target
  else if op =? OP_BRANCH then
    src1 ← read_reg (rs1 inst);
    src2 ← read_reg (rs2 inst);
    take ← or_illegal (raw inst) (branch_taken (funct3 inst) src1 src2);
    if (take : bool) then c ← get_cpu; mret (wrapping_add (pc c) (u32 (b_imm inst)))
    else mret next_pc
  else if op =? OP_LOAD then
    a ← read_reg (rs1 inst);
    let addr := wrapping_add a (u32 (i_imm inst)) in
    val ← load_value inst addr;
    write_reg (rd inst) val;; mret next_pc
  else if op =? OP_STORE then
    a ← read_reg (rs1 inst);
    let addr := wrapping_add a (u32 (s_imm inst)) in
    val ← read_reg (rs2 inst);
    store_value inst addr val;; mret next_pc
  else if op =? OP_IMM then
    src1 ← read_reg (rs1 inst);
    let imm := i_imm inst in
    let shamt := rs2 inst .& 0x1F in
    val ← or_illegal (raw inst) (alu_imm (funct3 inst) (funct7 inst) src1 imm shamt);
    write_reg (rd inst) val;; mret next_pc
  else if op =? OP_OP then
    src1 ← read_reg (rs1 inst);
    src2 ← read_reg (rs2 inst);
    val ← or_illegal (raw inst) (alu_op (funct7 inst) (funct3 inst) src1 src2);
    write_reg (rd inst) val;; mret next_pc
  else if op =? OP_MISC_MEM then mret next_pc
  else illegal (raw inst).

Definition exec_rv32m (inst : DecodedInst32) : M unit :=
  src1 ← read_reg (rs1 inst);
  src2 ← read_reg (rs2 inst);
  val ← or_illegal (raw inst) (mul_op (funct3 inst) src1 src2);
  write_reg (rd inst) val.

Definition exec_rv32a (inst : DecodedInst32) : M unit :=
  let funct5 := funct7 inst .>> 2 in
  addr ← read_reg (rs1 inst);
  src2 ← read_reg (rs2 inst);
  old_val ← mread (fun m => read_u32 m addr);
  '(new_val, rd_val) ← or_illegal (raw inst) (amo_op funct5 old_val src2);
  (if negb (funct5 =? 0x02) then mwrite (fun m => write_u32 m addr new_val) else mret tt);;
  write_reg (rd inst) rd_val.

(** ** [exec_rv32fd] *)

Definition exec_load_fp (inst : DecodedInst32) : M unit :=
  a ← read_reg (rs1 inst);
  let addr := wrapping_add a (u32 (i_imm inst)) in
  if funct3 inst =? 2 then
    raw ← mread (fun m => read_u32 m addr);
    set_freg (rd inst) (0xFFFFFFFF00000000 .| raw)
  else if funct3 inst =? 3 then
    low ← mread (fun m => read_u32 m addr);
    addr4 ← checked_add 32 addr 4;
    high ← mread (fun m => read_u32 m addr4);
    write_f64 (rd inst) (u64 (high .<< 32) .| low)
  else illegal (raw inst).

Definition exec_store_fp (inst : DecodedInst32) : M unit :=
  a ← read_reg (rs1 inst);
  let addr := wrapping_add a (u32 (s_imm inst)) in
  if funct3 inst =? 2 then
    b ← freg_bits (rs2 inst);
    let bits := u32 (b .& 0xFFFFFFFF) in
    mwrite (fun m => write_u32 m addr bits)
  else if funct3 inst =? 3 then
    bits ← read_f64 (rs2 inst);
    mwrite (fun m => write_u32 m addr (u32 bits));;
    addr4 ← checked_add 32 addr 4;
    mwrite (fun m => write_u32 m addr4 (u32 (bits .>> 32)))
  else illegal (raw inst).

(** A binary operation on the two source registers. *)
Definition f32_binop (inst : DecodedInst32) (f : Z -> Z -> Z) : M unit :=
  s1 ← read_f32 (rs1 inst);
  s2 ← read_f32 (rs2 inst);
  write_f32 (rd inst) (f s1 s2).
Definition f64_binop (inst : DecodedInst32) (f : Z -> Z -> Z) : M unit :=
  d1 ← read_f64 (rs1 inst);
  d2 ← read_f64 (rs2 inst);
  write_f64 (rd inst) (f d1 d2).

(** The [min]/[max] arms. *)
Definition fminmax (is_nan : Z -> bool) (fmin fmax : Z -> Z -> Z) (funct3 s1 s2 : Z) : option Z :=
  if funct3 =? 0 then
    Some (if is_nan s1 then s2 else if is_nan s2 then s1 else fmin s1 s2)
  else if funct3 =? 1 then
    Some (if is_nan s1 then s2 else if is_nan s2 then s1 else fmax s1 s2)
  else None.

(** The comparison arms. *)
Definition fcompare (le lt eq : Z -> Z -> bool) (funct3 s1 s2 : Z) : option Z :=
  if funct3 =? 0 then Some (b2z (le s1 s2))
  else if funct3 =? 1 then Some (b2z (lt s1 s2))
  else if funct3 =? 2 then Some (b2z (eq s1 s2))
  else None.

Definition op_fp_single (inst : DecodedInst32) (funct5 : Z) : M unit :=
  if funct5 =? 0x00 then f32_binop inst f32_add
  else if funct5 =? 0x01 then f32_binop inst f32_sub
  else if funct5 =? 0x02 then f32_binop inst f32_mul
  else if funct5 =? 0x03 then f32_binop inst f32_div
  else if funct5 =? 0x0B then s ← read_f32 (rs1 inst); write_f32 (rd inst) (f32_sqrt s)
  else if funct5 =? 0x04 then
    b1 ← read_f32 (rs1 inst);
    b2 ← read_f32 (rs2 inst);
    res_bits ← or_illegal (raw inst) (sgnj_bits 32 0x7FFFFFFF 0x80000000 (funct3 inst) b1 b2);
    set_freg (rd inst) (0xFFFFFFFF00000000 .| res_bits)
  else if funct5 =? 0x05 then
    s1 ← read_f32 (rs1 inst);
    s2 ← read_f32 (rs2 inst);
    res ← or_illegal (raw inst) (fminmax f32_is_nan f32_min f32_max (funct3 inst) s1 s2);
    write_f32 (rd inst) res
  else if funct5 =? 0x18 then
    s ← read_f32 (rs1 inst);
    write_reg (rd inst) (if rs2 inst =? 0 then u32 (f32_to_i32 s) else f32_to_u32 s)
  else if funct5 =? 0x1A then
    val ← read_reg (rs1 inst);
    write_f32 (rd inst) (if rs2 inst =? 0 then f32_of_int (i32 val) else f32_of_int val)
  else if funct5 =? 0x1C then
    if funct3 inst =? 0 then
      b ← freg_bits (rs1 inst);
      write_reg (rd inst) (u32 (b .& 0xFFFFFFFF))
    else if funct3 inst =? 1 then
      s ← read_f32 (rs1 inst);
      write_reg (rd inst) (fclass_s s)
    else mret tt
  else if funct5 =? 0x1E then
    val ← read_reg (rs1 inst);
    set_freg (rd inst) (0xFFFFFFFF00000000 .| val)
  else if funct5 =? 0x14 then
    s1 ← read_f32 (rs1 inst);
    s2 ← read_f32 (rs2 inst);
    res ← or_illegal (raw inst) (fcompare f32_le f32_lt f32_eq (funct3 inst) s1 s2);
    write_reg (rd inst) res
  else if funct5 =? 0x08 then
    d ← read_f64 (rs1 inst);
    write_f32 (rd inst) (f32_of_f64 d)
  else illegal (raw inst).

Definition op_fp_double (inst : DecodedInst32) (funct5 : Z) : M unit :=
  if funct5 =? 0x00 then f64_binop inst f64_add
  else if funct5 =? 0x01 then f64_binop inst f64_sub
  else if funct5 =? 0x02 then f64_binop inst f64_mul
  else if funct5 =? 0x03 then f64_binop inst f64_div
  else if funct5 =? 0x0B then d ← read_f64 (rs1 inst); write_f64 (rd inst) (f64_sqrt d)
  else if funct5 =? 0x04 then
    b1 ← freg_bits (rs1 inst);
    b2 ← freg_bits (rs2 inst);
    res_bits ← or_illegal (raw inst)
      (sgnj_bits 64 0x7FFFFFFFFFFFFFFF 0x8000000000000000 (funct3 inst) b1 b2);
    set_freg (rd inst) res_bits
  else if funct5 =? 0x05 then
    d1 ← read_f64 (rs1 inst);
    d2 ← read_f64 (rs2 inst);
    res ← or_illegal (raw inst) (fminmax f64_is_nan f64_min f64_max (funct3 inst) d1 d2);
    write_f64 (rd inst) res
  else if funct5 =? 0x08 then
    s ← read_f32 (rs1 inst);
    write_f64 (rd inst) (f64_of_f32 s)
  else if funct5 =? 0x18 then
    d ← read_f64 (rs1 inst);
    write_reg (rd inst) (if rs2 inst =? 0 then u32 (f64_to_i32 d) else f64_to_u32 d)
  else if funct5 =? 0x1A then
    val ← read_reg (rs1 inst);
    write_f64 (rd inst) (if rs2 inst =? 0 then f64_of_int (i32 val) else f64_of_int val)
  else if funct5 =? 0x1C then
    if funct3 inst =? 1 then
      d ← read_f64 (rs1 inst);
      write_reg (rd inst) (fclass_d d)
    else mret tt
  else if funct5 =? 0x14 then
    d1 ← read_f64 (rs1 inst);
    d2 ← read_f64 (rs2 inst);
    res ← or_illegal (raw inst) (fcompare f64_le f64_lt f64_eq (funct3 inst) d1 d2);
    write_reg (rd inst) res
  else illegal (raw inst).

Definition exec_op_fp (inst : DecodedInst32) : M unit :=
  let fmt := funct7 inst .& 0x3 in
  let funct5 := funct7 inst .>> 2 in
  if fmt =? 0 then op_fp_single inst funct5
  else if fmt =? 1 then op_fp_double inst funct5
  else illegal (raw inst).

(** The multiply-add family: a rounded product, then a rounded sum. *)
Definition madd_value (op : Z) (mul add sub : Z -> Z -> Z) (neg : Z -> Z) (a b c : Z)
  : option Z :=
  if op =? OP_MADD then Some (add (mul a b) c)
  else if op =? OP_MSUB then Some (sub (mul a b) c)
  else if op =? OP_NMSUB then Some (neg (sub (mul a b) c))
  else if op =? OP_NMADD then Some (neg (add (mul a b) c))
  else None.

Definition exec_madd (inst : DecodedInst32) : M unit :=
  let fmt := u8 (shift_then_mask (raw inst) 25 3) in
  if fmt =? 0 then
    s1 ← read_f32 (rs1 inst);
    s2 ← read_f32 (rs2 inst);
    s3 ← read_f32 (rs3 inst);
    res ← or_illegal (raw inst)
      (madd_value (opcode inst) f32_mul f32_add f32_sub f32_neg s1 s2 s3);
    write_f32 (rd inst) res
  else if fmt =? 1 then
    d1 ← read_f64 (rs1 inst);
    d2 ← read_f64 (rs2 inst);
    d3 ← read_f64 (rs3 inst);
    res ← or_illegal (raw inst)
      (madd_value (opcode inst) f64_mul f64_add f64_sub f64_neg d1 d2 d3);
    write_f64 (rd inst) res
  else illegal (raw inst).

Definition is_madd (op : Z) : bool :=
  (op =? OP_MADD) || (op =? OP_MSUB) || (op =? OP_NMSUB) || (op =? OP_NMADD).

Definition exec_rv32fd (inst : DecodedInst32) : M unit :=
  let op := opcode inst in
  if op =? OP_LOAD_FP then exec_load_fp inst
  else if op =? OP_STORE_FP then exec_store_fp inst
  else if op =? OP_OP_FP then exec_op_fp inst
  else if is_madd op then exec_madd inst
  else illegal (raw inst).

(** ** System instructions *)

Definition exec_mret (next_pc : Z) : M Z :=
  c ← get_cpu;
  let mepc := csr_get (csrs c) MEPC in
  let next_pc := if negb (mepc =? 0) then mepc else next_pc in
  let mstatus := csr_get (csrs c) MSTATUS in
  let new_mstatus := (mstatus .& not_u 32 MSTATUS_MIE) .| MSTATUS_MPIE in
  let new_mstatus :=
    if negb ((mstatus .& MSTATUS_MPIE) =? 0) then new_mstatus .| MSTATUS_MIE else new_mstatus in
  modify_cpu (fun c => with_csrs (csr_set (csrs c) MSTATUS new_mstatus) c);;
  mret next_pc.

Definition exec_csr (inst : DecodedInst32) (next_pc : Z) : M Z :=
  if funct3 inst =? 0 then
    let imm12 := raw inst .>> 20 in
    if imm12 =? 0 then em_map_err UnknownSyscallError handle_ecall;; mret next_pc
    else if imm12 =? 1 then modify_cpu (with_halted true);; mret next_pc
    else if imm12 =? 0x302 then exec_mret next_pc
    else mret next_pc
  else
    let csr_num := u16 ((raw inst .>> 20) .& 0xFFF) in
    c ← get_cpu;
    let old_val := csr_get (csrs c) csr_num in
    src1_val ← read_reg (rs1 inst);
    let new_val := csr_new_val (funct3 inst) old_val src1_val (rs1 inst) in
    modify_cpu (fun c => with_csrs (csr_set (csrs c) csr_num new_val) c);;
    write_reg (rd inst) old_val;;
    mret next_pc.

Definition is_rv32i_opcode (op : Z) : bool :=
  (op =? OP_LUI) || (op =? OP_AUIPC) || (op =? OP_JAL) || (op =? OP_JALR) || (op =? OP_BRANCH)
  || (op =? OP_LOAD) || (op =? OP_STORE) || (op =? OP_IMM) || (op =? OP_MISC_MEM).

Definition is_rv32fd_opcode (op : Z) : bool :=
  (op =? OP_LOAD_FP) || (op =? OP_STORE_FP) || (op =? OP_MADD) || (op =? OP_MSUB)
  || (op =? OP_NMSUB) || (op =? OP_NMADD) || (op =? OP_OP_FP).

(** The [match inst.opcode] of [execute_inst32]; returns [next_pc]. *)
Definition dispatch32 (inst : DecodedInst32) (next_pc : Z) : M Z :=
  let op := opcode inst in
  if op =? OP_OP then
    if funct7 inst =? 0x01 then exec_rv32m inst;; mret next_pc
    else exec_rv32i inst next_pc
  else if is_rv32i_opcode op then exec_rv32i inst next_pc
  else if op =? OP_AMO then exec_rv32a inst;; mret next_pc
  else if is_rv32fd_opcode op then exec_rv32fd inst;; mret next_pc
  else if op =? OP_SYSTEM then exec_csr inst next_pc
  else c ← get_cpu; em_throw (UnknownOpcode (pc c) op).

Definition execute_inst32 (raw : Z) : M unit :=
  let inst := decode32 raw in
  c ← get_cpu;
  let next_pc := wrapping_add (pc c) 4 in
  next_pc ← dispatch32 inst next_pc;
  modify_cpu (with_pc next_pc).
End Exec.
