(* ===== verification/Rvc.v ===== *)
(** Execution of compressed instructions: [execute_inst16] of [src/src/cpu.rs].
    Each quadrant returns the next program counter; the common tail stores it. *)

From S2P Require Import Prelude Bits Inst Host Memory Float Cpu Exec.

(** ** Immediates of the compressed formats (16-bit arithmetic) *)

Definition addi4spn_imm (inst : Z) : Z :=
  shift_then_mask inst 7 0x30 .| shift_then_mask inst 1 0x3C0
  .| shift_then_mask inst 4 0x4 .| shift_then_mask inst 2 0x8.

Definition c_imm6 (inst : Z) : Z :=
  u16 (shift_then_mask inst 12 1 .<< 5) .| shift_then_mask inst 2 0x1F.
(** [((imm6 as i16) << 10) >> 10]. *)
Definition c_sign_ext6 (imm6 : Z) : Z := i16 (i16 imm6 .<< 10) .>> 10.

Definition cj_imm (inst : Z) : Z :=
  u16 (shift_then_mask inst 12 1 .<< 11) .| u16 (shift_then_mask inst 8 1 .<< 10)
  .| u16 (shift_then_mask inst 9 3 .<< 8) .| u16 (shift_then_mask inst 6 1 .<< 7)
  .| u16 (shift_then_mask inst 7 1 .<< 6) .| u16 (shift_then_mask inst 2 1 .<< 5)
  .| u16 (shift_then_mask inst 11 1 .<< 4) .| u16 (shift_then_mask inst 3 7 .<< 1).
Definition cj_offset (inst : Z) : Z := i16 (i16 (cj_imm inst) .<< 4) .>> 4.

Definition addi16sp_imm (inst : Z) : Z :=
  u16 (shift_then_mask inst 12 1 .<< 9) .| u16 (shift_then_mask inst 3 3 .<< 7)
  .| u16 (shift_then_mask inst 5 1 .<< 6) .| u16 (shift_then_mask inst 2 1 .<< 5)
  .| u16 (shift_then_mask inst 6 1 .<< 4).
Definition addi16sp_offset (imm : Z) : Z := i16 (i16 imm .<< 6) .>> 6.

Definition cb_imm (inst : Z) : Z :=
  u16 (shift_then_mask inst 12 1 .<< 8) .| u16 (shift_then_mask inst 5 3 .<< 6)
  .| u16 (shift_then_mask inst 2 1 .<< 5) .| u16 (shift_then_mask inst 10 3 .<< 3)
  .| u16 (shift_then_mask inst 3 3 .<< 1).
Definition cb_offset (inst : Z) : Z := i16 (i16 (cb_imm inst) .<< 7) .>> 7.

(** [C.SUB], [C.XOR], [C.OR], [C.AND]. *)
Definition ca_value (sel src1 src2 : Z) : Z :=
  if sel =? 0 then u32 (src1 - src2)
  else if sel =? 1 then src1 .^ src2
  else if sel =? 2 then src1 .| src2
  else src1 .& src2.

Section Rvc.
Context {H Mem : Type} `{HostOps H} `{MemoryOps H Mem}.
Abbreviation M := (EM (Machine H Mem) CpuError).

(** A doubleword access: two words. *)
Definition load_double (reg addr : Z) : M unit :=
  low ← mread (fun m => read_u32 m addr);
  high ← mread (fun m => read_u32 m (wrapping_add addr 4));
  write_f64 reg (u64 (high .<< 32) .| low).
Definition store_double (reg addr : Z) : M unit :=
  bits ← read_f64 reg;
  mwrite (fun m => write_u32 m addr (u32 bits));;
  mwrite (fun m => write_u32 m (wrapping_add addr 4) (u32 (bits .>> 32))).
Definition load_single (reg addr : Z) : M unit :=
  raw ← mread (fun m => read_u32 m addr);
  set_freg reg (0xFFFFFFFF00000000 .| raw).
Definition store_single (reg addr : Z) : M unit :=
  b ← freg_bits reg;
  let bits := u32 (b .& 0xFFFFFFFF) in
  mwrite (fun m => write_u32 m addr bits).

Definition exec_q0 (inst funct3 next_pc : Z) : M Z :=
  if funct3 =? 0 then
    let rdc := creg inst 2 in
    let imm := addi4spn_imm inst in
    if imm =? 0 then illegal inst
    else sp ← read_reg 2; write_reg rdc (wrapping_add sp imm);; mret next_pc
  else if funct3 =? 1 then
    let rdc := creg inst 2 in
    a ← read_reg (creg inst 7);
    let addr := wrapping_add a (cl_double_offset inst) in
    load_double rdc addr;; mret next_pc
  else if funct3 =? 2 then
    let rdc := creg inst 2 in
    a ← read_reg (creg inst 7);
    let addr := wrapping_add a (cl_word_offset inst) in
    v ← mread (fun m => read_u32 m addr);
    write_reg rdc v;; mret next_pc
  else if funct3 =? 3 then
    let rdc := creg inst 2 in
    a ← read_reg (creg inst 7);
    let addr := wrapping_add a (cl_word_offset inst) in
    load_single rdc addr;; mret next_pc
  else if funct3 =? 5 then
    let rs2c := creg inst 2 in
    a ← read_reg (creg inst 7);
    let addr := wrapping_add a (cl_double_offset inst) in
    store_double rs2c addr;; mret next_pc
  else if funct3 =? 6 then
    let rs2c := creg inst 2 in
    a ← read_reg (creg inst 7);
    let addr := wrapping_add a (cl_word_offset inst) in
    v ← read_reg rs2c;
    mwrite (fun m => write_u32 m addr v);; mret next_pc
  else if funct3 =? 7 then
    let rs2c := creg inst 2 in
    a ← read_reg (creg inst 7);
    let addr := wrapping_add a (cl_word_offset inst) in
    store_single rs2c addr;; mret next_pc
  else illegal inst.

(** [C.ADDI16SP] / [C.LUI]. *)
Definition exec_c_lui (inst : Z) : M unit :=
  let rd := shift_then_mask inst 7 0x1F in
  if rd =? 2 then
    let imm := addi16sp_imm inst in
    if imm =? 0 then illegal inst
    else sp ← read_reg 2; write_reg 2 (wrapping_add sp (u32 (addi16sp_offset imm)))
  else if negb (rd =? 0) then
    let imm6 := c_imm6 inst in
    if imm6 =? 0 then illegal inst
    else write_reg rd (u32 (u32 (c_sign_ext6 imm6) .<< 12))
  else illegal inst.

(** The [(1, 4)] group. *)
Definition exec_c_alu (inst : Z) : M unit :=
  let rdc := creg inst 7 in
  let bit12 := shift_then_mask inst 12 1 in
  let sel := shift_then_mask inst 10 0x3 in
  if (sel =? 0) || (sel =? 1) then
    if negb (bit12 =? 0) then illegal inst
    else
      let shamt := shift_then_mask inst 2 0x1F in
      if negb (shamt =? 0) then
        src ← read_reg rdc;
        write_reg rdc (if sel =? 0 then src .>> shamt else u32 (i32 src .>> shamt))
      else mret tt
  else if sel =? 2 then
    let sign_ext := c_sign_ext6 (c_imm6 inst) in
    v ← read_reg rdc;
    write_reg rdc (v .& u32 sign_ext)
  else if negb (bit12 =? 0) then illegal inst
  else
    let rs2c := creg inst 2 in
    src1 ← read_reg rdc;
    src2 ← read_reg rs2c;
    write_reg rdc (ca_value (shift_then_mask inst 5 0x3) src1 src2).

Definition exec_q1 (inst funct3 next_pc : Z) : M Z :=
  if funct3 =? 0 then
    let rd := shift_then_mask inst 7 0x1F in
    let sign_ext := c_sign_ext6 (c_imm6 inst) in
    (if negb (rd =? 0) && negb (sign_ext =? 0) then
       v ← read_reg rd; write_reg rd (wrapping_add v (u32 sign_ext))
     else mret tt);;
    mret next_pc
  else if funct3 =? 1 then
    write_reg 1 next_pc;;
    c ← get_cpu;
    mret (wrapping_add (pc c) (u32 (cj_offset inst)))
  else if funct3 =? 2 then
    let rd := shift_then_mask inst 7 0x1F in
    write_reg rd (u32 (c_sign_ext6 (c_imm6 inst)));; mret next_pc
  else if funct3 =? 3 then exec_c_lui inst;; mret next_pc
  else if funct3 =? 4 then exec_c_alu inst;; mret next_pc
  else if funct3 =? 5 then
    c ← get_cpu; mret (wrapping_add (pc c) (u32 (cj_offset inst)))
  else if funct3 =? 6 then
    v ← read_reg (creg inst 7);
    c ← get_cpu;
    mret (if v =? 0 then wrapping_add (pc c) (u32 (cb_offset inst)) else next_pc)
  else if funct3 =? 7 then
    v ← read_reg (creg inst 7);
    c ← get_cpu;
    mret (if negb (v =? 0) then wrapping_add (pc c) (u32 (cb_offset inst)) else next_pc)
  else illegal inst.

(** The [(2, 4)] group: [C.JR], [C.MV], [C.EBREAK], [C.JALR], [C.ADD]. *)
Definition exec_c_jr_mv_add (inst next_pc : Z) : M Z :=
  let rd := shift_then_mask inst 7 0x1F in
  let rs2 := shift_then_mask inst 2 0x1F in
  let bit12 := shift_then_mask inst 12 1 in
  if (bit12 =? 0) && (rs2 =? 0) then
    if rd =? 0 then illegal inst
    else v ← read_reg rd; mret (v .& not_u 32 1)
  else if (bit12 =? 0) && negb (rs2 =? 0) then
    (if negb (rd =? 0) then v ← read_reg rs2; write_reg rd v else mret tt);;
    mret next_pc
  else if (rd =? 0) && (rs2 =? 0) then modify_cpu (with_halted true);; mret next_pc
  else if rs2 =? 0 then
    v ← read_reg rd;
    let target := v .& not_u 32 1 in
    write_reg 1 next_pc;;
    mret target
  else
    (if negb (rd =? 0) then
       v1 ← read_reg rd; v2 ← read_reg rs2; write_reg rd (wrapping_add v1 v2)
     else mret tt);;
    mret next_pc.

Definition exec_q2 (inst funct3 next_pc : Z) : M Z :=
  if funct3 =? 0 then
    let rd := shift_then_mask inst 7 0x1F in
    if negb (shift_then_mask inst 12 1 =? 0) then illegal inst
    else
      let shamt := shift_then_mask inst 2 0x1F in
      (if negb (rd =? 0) && negb (shamt =? 0) then
         v ← read_reg rd; write_reg rd (u32 (v .<< shamt))
       else mret tt);;
      mret next_pc
  else if funct3 =? 1 then
    let rd := shift_then_mask inst 7 0x1F in
    sp ← read_reg 2;
    let addr := wrapping_add sp (ci_double_sp_offset inst) in
    load_double rd addr;; mret next_pc
  else if funct3 =? 2 then
    let rd := shift_then_mask inst 7 0x1F in
    if rd =? 0 then illegal inst
    else
      sp ← read_reg 2;
      let addr := wrapping_add sp (ci_word_sp_offset inst) in
      v ← mread (fun m => read_u32 m addr);
      write_reg rd v;; mret next_pc
  else if funct3 =? 3 then
    let rd := shift_then_mask inst 7 0x1F in
    sp ← read_reg 2;
    let addr := wrapping_add sp (ci_word_sp_offset inst) in
    load_single rd addr;; mret next_pc
  else if funct3 =? 4 then exec_c_jr_mv_add inst next_pc
  else if funct3 =? 5 then
    let rs2 := shift_then_mask inst 2 0x1F in
    sp ← read_reg 2;
    let addr := wrapping_add sp (css_double_sp_offset inst) in
    store_double rs2 addr;; mret next_pc
  else if funct3 =? 6 then
    let rs2 := shift_then_mask inst 2 0x1F in
    sp ← read_reg 2;
    let addr := wrapping_add sp (css_word_sp_offset inst) in
    v ← read_reg rs2;
    mwrite (fun m => write_u32 m addr v);; mret next_pc
  else if funct3 =? 7 then
    let rs2 := shift_then_mask inst 2 0x1F in
    sp ← read_reg 2;
    let addr := wrapping_add sp (css_word_sp_offset inst) in
    store_single rs2 addr;; mret next_pc
  else illegal inst.

Definition dispatch16 (inst next_pc : Z) : M Z :=
  let decoded := decode16 inst in
  if op16 decoded =? 0 then exec_q0 inst (funct3_16 decoded) next_pc
  else if op16 decoded =? 1 then exec_q1 inst (funct3_16 decoded) next_pc
  else if op16 decoded =? 2 then exec_q2 inst (funct3_16 decoded) next_pc
  else illegal inst.

Definition execute_inst16 (inst : Z) : M unit :=
  c ← get_cpu;
  let next_pc := wrapping_add (pc c) 2 in
  next_pc ← dispatch16 inst next_pc;
  modify_cpu (with_pc next_pc).
End Rvc.
