(* ===== verification/Run.v ===== *)
(** The run loops: [step_instruction], [run_slice] and [run] of [src/src/cpu.rs],
    with [SliceStatus] and [SliceOutcome] of [src/src/lib.rs].

    [run_slice] is two nested loops.  The inner one stops after [chunk]
    instructions and the outer one makes progress by at least one instruction, so
    [chunk + 1] and [budget + 1] iterations are enough.  [run] need not terminate:
    it takes the number of slices to try and returns [None] if the program is still
    running after them. *)

From S2P Require Import Prelude Bits Inst Fmt Host Memory Float Cpu Syscall Exec Rvc.

Inductive SliceStatus := Running | Halted | Trapped | Breakpoint.
#[global] Instance SliceStatus_eq_dec : EqDecision SliceStatus.
Proof. solve_decision. Defined.

Record SliceOutcome := {
  status : SliceStatus;
  steps : Z;
  out_pc : Z;
  out_exit_code : Z
}.

(** No error escapes from the run loops. *)
Abbreviation Infallible := Empty_set.

Definition newline : string := String (Ascii.ascii_of_nat 10) EmptyString.

Definition u32_MAX : Z := 0xFFFFFFFF.

Section Run.
Context {H Mem : Type} `{HostOps H} `{MemoryOps H Mem} `{BuildProfile} `{FloatEnv}.
Abbreviation M := (EM (Machine H Mem) Infallible).

(** [Some(pc) == opt]. *)
Definition opt_is (o : option Z) (x : Z) : bool := bool_decide (o = Some x).

(** Fetch and execute the instruction at [pc]: whether it was compressed, and the
    [Result] of executing it. *)
Definition fetch_execute (pc : Z) : M (bool * (CpuError + unit)) :=
  '(window, wide) ← mread (fun m => fetch_window m pc);
  let inst16 := u16 window in
  if negb ((inst16 .& 0x3) =? 0x3) then
    r ← em_result (execute_inst16 inst16);
    mret (true, r)
  else
    inst32 ← (if wide : bool then mret window else mread (fun m => read_u32 m pc));
    r ← em_result (execute_inst32 inst32);
    mret (false, r).

Definition count_step : M unit :=
  c ← get_cpu;
  n ← checked_add 64 (step_counter c) 1;
  modify_cpu (with_step_counter n).

Definition set_trapped : M unit :=
  modify_cpu (with_trapped true);;
  modify_cpu (with_exit_code TRAP_EXIT_CODE);;
  modify_cpu (with_halted true).

Definition notify_syscall (e : UnknownSyscall) : M unit :=
  hnotify (notify_unknown_syscall (sys_num e) (sys_a0 e) (sys_a1 e) (sys_a2 e) (sys_a3 e)).

Definition step_instruction : M StepResult :=
  c ← get_cpu;
  if debug_enabled c && bool_decide (pc c ∈ breakpoints c)
     && negb (opt_is (resume_past_breakpoint c) (pc c)) then
    modify_cpu (with_resume (Some (pc c)));;
    mret (BreakpointHit (pc c))
  else
    modify_cpu (with_resume None);;
    if is_halted c then mret (StepHalted (exit_code c))
    else
      let pc0 := pc c in
      '(_, instruction_result) ← fetch_execute pc0;
      count_step;;
      match instruction_result with
      | inl err =>
        hnotify (js_print_err (cpu_error_to_string err));;
        match err with
        | UnknownSyscallError sys_err =>
          hnotify (js_print_err (cpu_error_to_string err));;
          notify_syscall sys_err
        | _ => mret tt
        end;;
        set_trapped;;
        mret (StepTrap pc0)
      | inr _ =>
        c ← get_cpu;
        mret (if is_halted c then StepHalted (exit_code c) else StepOk)
      end.

(** What [run_slice] prints for a trap. *)
Definition slice_error_message (compressed : bool) (pc : Z) (e : CpuError) : string :=
  match e with
  | UnknownSyscallError s =>
    "Unknown Syscall: " +:+ fmt_dec (sys_num s) +:+ " (a0: " +:+ fmt_hex_alt (sys_a0 s)
      +:+ ", a1: " +:+ fmt_hex_alt (sys_a1 s) +:+ ", a2: " +:+ fmt_hex_alt (sys_a2 s)
      +:+ ", a3: " +:+ fmt_hex_alt (sys_a3 s) +:+ ")" +:+ newline
  | _ =>
    (if compressed then "CPU Exec Error (Compressed) at PC " else "CPU Exec Error at PC ")
      +:+ fmt_hex_alt_pad 10 pc +:+ ": " +:+ cpu_error_to_string e +:+ newline
  end.

Definition report_trap (compressed : bool) (pc : Z) (e : CpuError) : M unit :=
  hnotify (js_print_err (slice_error_message compressed pc e));;
  match e with UnknownSyscallError s => notify_syscall s | _ => mret tt end;;
  set_trapped.

(** One iteration of the inner loop.  The loop variables are [done] and
    [skip_breakpoint]; the result is [stopped] with their final values.  [done]
    and [executed] never exceed the 32-bit budget, so their 64-bit additions
    cannot overflow. *)
Definition inner_step (watch : bool) (chunk : Z) (v : Z * option Z)
  : M ((Z * option Z) + (option SliceStatus * Z * option Z)) :=
  let '(done, skip) := v in
  if chunk <=? done then mret (inr (None, done, skip))
  else
    c ← get_cpu;
    if is_halted c then mret (inr (Some Halted, done, skip))
    else if watch && bool_decide (pc c ∈ breakpoints c) && negb (opt_is skip (pc c)) then
      modify_cpu (with_resume (Some (pc c)));;
      mret (inr (Some Breakpoint, done, skip))
    else
      let skip := if watch then None else skip in
      let pc0 := pc c in
      '(compressed, result) ← fetch_execute pc0;
      match result with
      | inl e =>
        report_trap compressed pc0 e;;
        mret (inr (Some Trapped, done, skip))
      | inr _ =>
        count_step;;
        mret (inl (done + 1, skip))
      end.

Definition inner_loop (watch : bool) (chunk : Z) (skip : option Z)
  : M (option SliceStatus * Z * option Z) :=
  em_loop (inner_step watch chunk) (Z.to_pos (chunk + 1)) (0, skip).

Definition poll_interrupt : M unit :=
  en ← hcall js_interrupt_enabled;
  c ← get_cpu;
  if negb (en =? 0) && interrupts_enabled c then
    irq ← hcall js_external_interrupt;
    if negb (irq =? 0) then modify_cpu (handle_interrupt irq) else mret tt
  else mret tt.

(** One iteration of the outer loop over [executed] and [skip_breakpoint]; the
    result is the status and [executed]. *)
Definition outer_step (watch : bool) (budget : Z) (v : Z * option Z)
  : M ((Z * option Z) + (SliceStatus * Z)) :=
  let '(executed, skip) := v in
  c ← get_cpu;
  if is_halted c then mret (inr (Halted, executed))
  else if budget <=? executed then mret (inr (Running, executed))
  else
    delay ← hcall js_get_int_inst_delay;
    let interrupt_delay := u64 delay in
    let interrupt_delay := if interrupt_delay =? 0 then 1000 else interrupt_delay in
    poll_interrupt;;
    let chunk := Z.min interrupt_delay (budget - executed) in
    '(stopped, done, skip) ← inner_loop watch chunk skip;
    let executed := executed + done in
    match stopped with
    | Some status => mret (inr (status, executed))
    | None => mret (inl (executed, skip))
    end.

Definition run_slice (budget : Z) : M SliceOutcome :=
  c ← get_cpu;
  let watch_breakpoints := debug_enabled c && negb (bool_decide (breakpoints c = ∅)) in
  let skip_breakpoint := resume_past_breakpoint c in
  modify_cpu (with_resume None);;
  '(status, executed) ←
    em_loop (outer_step watch_breakpoints budget) (Z.to_pos (budget + 1)) (0, skip_breakpoint);
  c ← get_cpu;
  mret {| status := status; steps := executed; out_pc := pc c; out_exit_code := exit_code c |}.

Fixpoint run (slices : nat) : M (option Z) :=
  match slices with
  | O => mret None
  | S slices =>
    outcome ← run_slice u32_MAX;
    match status outcome with
    | Running | Breakpoint => run slices
    | Halted | Trapped =>
      modify_cpu (with_halted true);;
      c ← get_cpu;
      mret (Some (exit_code c))
    end
  end.
End Run.
