(* ===== verification/Safe.v ===== *)
(** Safety of instruction execution.

    [cpu_ok] is the type invariant of the CPU: 32 integer registers of 32 bits with
    [x0] zero, 32 floating-point registers of 64 bits, every CSR 32 bits wide, and
    so on.  [same_control] is what an instruction may not touch.  [safe m Q] says
    that a computation started in a good state does not panic, leaves a good state
    on both the [Ok] and the [Err] path, and returns a value satisfying [Q].

    The proofs are against the interface [MemoryLaws], for the release profile. *)

From S2P Require Import Prelude Bits Inst Fmt Host Memory MemoryProps Float Cpu Syscall Exec Rvc.

Record cpu_ok (c : Cpu) : Prop := {
  ok_regs_len : length (regs c) = 32%nat;
  ok_regs : Forall (is_u 32) (regs c);
  ok_x0 : regs c !! 0%nat = Some 0;
  ok_fregs_len : length (fregs c) = 32%nat;
  ok_fregs : Forall (is_u 64) (fregs c);
  ok_pc : is_u 32 (pc c);
  ok_csrs : map_Forall (fun k v => is_u 12 k /\ is_u 32 v) (csr_values (csrs c));
  ok_exit : is_i 32 (exit_code c);
  ok_steps : is_u 64 (step_counter c);
  ok_fcsr : is_u 32 (fcsr c)
}.

(** What executing an instruction leaves alone; it can stop the machine but not
    restart it. *)
Record same_control (c c' : Cpu) : Prop := {
  same_debug : debug_enabled c' = debug_enabled c;
  same_breakpoints : breakpoints c' = breakpoints c;
  same_steps : step_counter c' = step_counter c;
  same_custom : has_custom_syscalls c' = has_custom_syscalls c;
  same_trapped : trapped c' = trapped c;
  same_resume : resume_past_breakpoint c' = resume_past_breakpoint c;
  same_fcsr : fcsr c' = fcsr c;
  halted_stays : is_halted c = true -> is_halted c' = true
}.

Lemma same_control_refl c : same_control c c.
Proof. by split. Qed.

Lemma same_control_trans a b c : same_control a b -> same_control b c -> same_control a c.
Proof. intros [] []. split; [congruence..|auto]. Qed.

(** ** Register accesses of a good CPU *)

Lemma is_u5_nat r : is_u 5 r -> (Z.to_nat r < 32)%nat.
Proof. unfold is_u. lia. Qed.

Lemma idx_ok (l : list Z) w r :
  length l = 32%nat -> Forall (is_u w) l -> is_u 5 r -> exists v, idx l r = Some v /\ is_u w v.
Proof.
  intros Hl Hf Hr. unfold idx. apply is_u5_nat in Hr. rewrite <- Hl in Hr.
  destruct (lookup_lt_is_Some_2 l _ Hr) as [v Hv]. exists v. split; [done|].
  by apply (Forall_lookup_1 _ _ _ _ Hf Hv).
Qed.

Lemma upd_ok (l : list Z) r v :
  length l = 32%nat -> is_u 5 r -> upd l r v = Some (<[Z.to_nat r := v]> l).
Proof. unfold is_u, upd. intros -> ?. by destruct (Z.ltb_spec r (Z.of_nat 32)); [|lia]. Qed.

Lemma Cpu_read_reg_ok c r : cpu_ok c -> is_u 5 r -> exists v, Cpu_read_reg c r = Some v /\ is_u 32 v.
Proof.
  intros Hc Hr. unfold Cpu_read_reg. destruct (r =? 0); [by exists 0|].
  apply idx_ok; [apply Hc..|done].
Qed.

Lemma Cpu_write_reg_ok c r v :
  cpu_ok c -> is_u 5 r -> is_u 32 v ->
  exists c', Cpu_write_reg c r v = Some c' /\ cpu_ok c' /\ same_control c c' /\ pc c' = pc c.
Proof.
  intros Hc Hr Hv. unfold Cpu_write_reg. destruct (Z.eqb_spec r 0) as [|Hr0]; simpl.
  { exists c. split_and!; [done..|apply same_control_refl|done]. }
  rewrite upd_ok by (apply Hc || done). simpl. eexists. split_and!; [done|..]; [|by split|done].
  destruct Hc. split; simpl; try done.
  - by rewrite length_insert.
  - by apply Forall_insert.
  - rewrite list_lookup_insert_ne; [done|]. unfold is_u in Hr. lia.
Qed.

Lemma Cpu_set_freg_ok c r v :
  cpu_ok c -> is_u 5 r -> is_u 64 v ->
  exists c', Cpu_set_freg c r v = Some c' /\ cpu_ok c' /\ same_control c c' /\ pc c' = pc c.
Proof.
  intros Hc Hr Hv. unfold Cpu_set_freg. rewrite upd_ok by (apply Hc || done). simpl.
  eexists. split_and!; [done|..]; [|by split|done].
  destruct Hc. split; simpl; try done; [by rewrite length_insert|by apply Forall_insert].
Qed.

Lemma csr_get_ok f k :
  map_Forall (fun k v => is_u 12 k /\ is_u 32 v) (csr_values f) -> is_u 32 (csr_get f k).
Proof.
  intros Hf. unfold csr_get. destruct (csr_values f !! (k .& CSR_MASK)) as [v|] eqn:E; simpl; [|done].
  by apply (Hf _ _ E).
Qed.

Lemma csr_mask_ok k : is_u 12 (k .& CSR_MASK).
Proof.
  change CSR_MASK with (Z.ones 12). rewrite Z.land_ones by lia. by apply wrap_is_u.
Qed.

Lemma csr_set_ok f k v :
  map_Forall (fun k v => is_u 12 k /\ is_u 32 v) (csr_values f) -> is_u 32 v ->
  map_Forall (fun k v => is_u 12 k /\ is_u 32 v) (csr_values (csr_set f k v)).
Proof.
  intros Hf Hv. apply map_Forall_insert_2; [split; [apply csr_mask_ok|done]|done].
Qed.

Lemma with_csrs_ok c f :
  cpu_ok c -> map_Forall (fun k v => is_u 12 k /\ is_u 32 v) (csr_values f) ->
  cpu_ok (with_csrs f c).
Proof. intros [] ?. by split. Qed.

Lemma with_pc_ok c p : cpu_ok c -> is_u 32 p -> cpu_ok (with_pc p c).
Proof. intros [] ?. by split. Qed.

Lemma Cpu_new_ok : cpu_ok Cpu_new.
Proof.
  split; try done; try apply map_Forall_empty; cbn; by repeat constructor.
Qed.

(** ** Ranges of computed values *)

Lemma u32_range x : is_u 32 (u32 x).
Proof. by apply wrap_is_u. Qed.
Lemma u64_range x : is_u 64 (u64 x).
Proof. by apply wrap_is_u. Qed.
Lemma b2z_range b : is_u 32 (b2z b).
Proof. by destruct b. Qed.
Lemma u8_32 x : is_u 8 x -> is_u 32 x.
Proof. apply is_u_mono. lia. Qed.
Lemma u16_32 x : is_u 16 x -> is_u 32 x.
Proof. apply is_u_mono. lia. Qed.
Lemma u5_32 x : is_u 5 x -> is_u 32 x.
Proof. apply is_u_mono. lia. Qed.

Lemma shiftr_range w x n : is_u w x -> 0 <= n -> is_u w (x .>> n).
Proof.
  unfold is_u. intros Hx Hn. rewrite Z.shiftr_div_pow2 by done. split; [apply Z.div_pos; lia|].
  apply Z.le_lt_trans with x; [|lia]. apply Z.div_le_upper_bound; [lia|]. nia.
Qed.

Lemma land_31 x : 0 <= x .& 0x1F.
Proof. apply Z.land_nonneg. lia. Qed.

Lemma not_u_range w x : is_u w x -> is_u w (not_u w x).
Proof. unfold is_u, not_u. lia. Qed.

Create HintDb range.
#[export] Hint Resolve u32_range u64_range b2z_range shiftr_range land_31 u8_32 u16_32 u5_32
  wrapping_add_u32 not_u_range : range.

Lemma alu_op_range f7 f3 a b v :
  alu_op f7 f3 a b = Some v -> is_u 32 a -> is_u 32 b -> is_u 32 v.
Proof.
  intros E Ha Hb. revert E. unfold alu_op.
  repeat match goal with |- context [if ?c then _ else _] => destruct c end;
    intros [= <-]; auto with range; bits_range.
Qed.

Lemma alu_imm_range f3 f7 a imm sh v :
  alu_imm f3 f7 a imm sh = Some v -> is_u 32 a -> 0 <= sh -> is_u 32 v.
Proof.
  intros E Ha Hs. revert E. unfold alu_imm. pose proof (u32_range imm) as Hi.
  set (i := u32 imm) in *. clearbody i.
  repeat match goal with |- context [if ?c then _ else _] => destruct c end;
    intros [= <-]; auto with range; bits_range.
Qed.

Lemma mul_op_range f3 a b v :
  mul_op f3 a b = Some v -> is_u 32 a -> is_u 32 b -> is_u 32 v.
Proof.
  intros E Ha Hb. revert E. unfold mul_op.
  repeat match goal with |- context [if ?c =? ?d then _ else _] => destruct (Z.eqb_spec c d) end;
    intros [= <-]; auto with range; unfold is_u in *; try lia.
  - split; [apply Z.div_pos; lia|]. apply Z.div_lt_upper_bound; nia.
  - pose proof (Z.mod_pos_bound a b). lia.
Qed.

Lemma amo_op_range f5 a b v r :
  is_u 32 a -> is_u 32 b -> amo_op f5 a b = Some (v, r) -> is_u 32 v /\ is_u 32 r.
Proof.
  intros Ha Hb. unfold amo_op.
  repeat match goal with |- context [if ?c then _ else _] => destruct c end;
    intros [= <- <-]; split; auto with range; try bits_range; unfold is_u in *; lia.
Qed.

Lemma csr_new_val_range f3 o a r :
  is_u 32 o -> is_u 32 a -> is_u 5 r -> is_u 32 (csr_new_val f3 o a r).
Proof.
  intros Ho Ha Hr. unfold csr_new_val. rewrite (wrap_small 32 r) by auto with range.
  pose proof (not_u_range 32 a Ha) as Hna. pose proof (not_u_range 32 r ltac:(auto with range)) as Hnr.
  set (na := not_u 32 a) in *. set (nr := not_u 32 r) in *. clearbody na nr.
  repeat match goal with |- context [if ?c then _ else _] => destruct c end;
    auto with range; bits_range.
Qed.

(** ** Safe computations *)

Section Safety.
Context {H Mem : Type} `{HostOps H} `{!MemoryOps H Mem} `{!MemoryLaws H Mem}.
Context `{BuildProfile} `{FloatEnv}.

(** A good state, reached from a state with CPU [c0] within one instruction. *)
Record good (c0 : Cpu) (s : Machine H Mem) : Prop := {
  good_cpu : cpu_ok (cpu s);
  good_control : same_control c0 (cpu s);
  good_pc : pc (cpu s) = pc c0;
  good_mem : mem_inv (mem s)
}.

Definition safe {E A} (c0 : Cpu) (m : EM (Machine H Mem) E A) (Q : A -> Prop) : Prop :=
  triple (good c0) m (fun a s => Q a /\ good c0 s) (fun _ s => good c0 s).

Section Rules.
Context {E : Type} (c0 : Cpu).
Abbreviation M := (EM (Machine H Mem) E).

Lemma safe_ret {A} (a : A) (Q : A -> Prop) : Q a -> safe (E:=E) c0 (mret a) Q.
Proof. intros HQ. apply triple_ret. auto. Qed.

Lemma safe_bind {A B} (m : M A) (f : A -> M B) (Q' : A -> Prop) Q :
  safe c0 m Q' -> (forall a, Q' a -> safe c0 (f a) Q) -> safe c0 (m ≫= f) Q.
Proof.
  intros Hm Hf. eapply triple_bind; [exact Hm|]. intros a. apply triple_pure, Hf.
Qed.

Lemma safe_weaken {A} (m : M A) (Q' Q : A -> Prop) :
  safe c0 m Q' -> (forall a, Q' a -> Q a) -> safe c0 m Q.
Proof.
  intros Hm HQ. eapply triple_consequence; [exact Hm|done| |done]. intros a s []. auto.
Qed.

Lemma safe_throw {A} (e : E) (Q : A -> Prop) : safe c0 (em_throw e) Q.
Proof. by apply triple_throw. Qed.

Lemma safe_get_cpu :
  safe (E:=E) c0 get_cpu (fun c => cpu_ok c /\ same_control c0 c /\ pc c = pc c0).
Proof. apply triple_gets. intros s Hs. split; [|done]. by destruct Hs. Qed.

Lemma safe_get_mem : safe (E:=E) c0 get_mem mem_inv.
Proof. apply triple_gets. intros s Hs. split; [|done]. by destruct Hs. Qed.

Lemma safe_modify_cpu f :
  (forall c, cpu_ok c -> same_control c0 c -> cpu_ok (f c) /\ same_control c (f c) /\ pc (f c) = pc c) ->
  safe (E:=E) c0 (modify_cpu f) (fun _ => True).
Proof.
  intros Hf. apply triple_modify. intros s [Hc Hs Hp Hm]. split; [done|].
  destruct (Hf _ Hc Hs) as (? & ? & Hpc).
  split; simpl; [done|by eapply same_control_trans|congruence|done].
Qed.

Lemma safe_try_cpu f :
  (forall c, cpu_ok c -> exists c', f c = Some c' /\ cpu_ok c' /\ same_control c c' /\ pc c' = pc c) ->
  safe (E:=E) c0 (try_cpu f) (fun _ => True).
Proof.
  intros Hf s [Hc Hs Hp Hm]. unfold try_cpu. destruct (Hf _ Hc) as (c' & -> & ? & ? & Hpc).
  split; [done|]. split; simpl; [done|by eapply same_control_trans|congruence|done].
Qed.

Lemma safe_try_gets {A} (f : Cpu -> option A) (Q : A -> Prop) :
  (forall c, cpu_ok c -> exists a, f c = Some a /\ Q a) -> safe (E:=E) c0 (try_gets f) Q.
Proof.
  intros Hf s Hs. unfold try_gets. destruct (Hf _ (good_cpu _ _ Hs)) as (a & -> & ?). done.
Qed.

Lemma safe_mread {A} (f : Mem -> HM H A) (Q : A -> Prop) :
  (forall m h, mem_inv m -> exists a h', f m h = Some (a, h') /\ Q a) ->
  safe (E:=E) c0 (mread f) Q.
Proof.
  intros Hf s [Hc Hs Hp Hm]. unfold mread. destruct (Hf _ (host s) Hm) as (a & h' & -> & ?).
  done.
Qed.

Lemma safe_mwrite (f : Mem -> HM H Mem) :
  (forall m h, mem_inv m -> exists m' h', f m h = Some (m', h') /\ mem_inv m') ->
  safe (E:=E) c0 (mwrite f) (fun _ => True).
Proof.
  intros Hf s [Hc Hs Hp Hm]. unfold mwrite. destruct (Hf _ (host s) Hm) as (m' & h' & -> & ?).
  done.
Qed.

Lemma safe_hnotify f : safe (E:=E) c0 (hnotify f) (fun _ => True).
Proof. apply triple_modify. intros s []. done. Qed.

Lemma safe_hcall {A} (f : H -> A * H) (Q : A -> Prop) :
  (forall h, Q (f h).1) -> safe (E:=E) c0 (hcall f) Q.
Proof.
  intros Hf s []. unfold hcall. specialize (Hf (host s)). by destruct (f (host s)) as [a h'].
Qed.

Lemma safe_read_reg r : is_u 5 r -> safe (E:=E) c0 (read_reg r) (is_u 32).
Proof. intros. apply safe_try_gets. intros. by apply Cpu_read_reg_ok. Qed.

Lemma safe_write_reg r v :
  is_u 5 r -> is_u 32 v -> safe (E:=E) c0 (write_reg r v) (fun _ => True).
Proof. intros. apply safe_try_cpu. intros. by apply Cpu_write_reg_ok. Qed.

Lemma safe_freg_bits r : is_u 5 r -> safe (E:=E) c0 (freg_bits r) (is_u 64).
Proof. intros. apply safe_try_gets. intros c []. by apply idx_ok. Qed.

Lemma safe_read_f64 r : is_u 5 r -> safe (E:=E) c0 (read_f64 r) (is_u 64).
Proof. apply safe_freg_bits. Qed.

Lemma safe_read_f32 r : is_u 5 r -> safe (E:=E) c0 (read_f32 r) (is_u 32).
Proof.
  intros. apply safe_try_gets. intros c []. unfold Cpu_read_f32.
  destruct (idx_ok (fregs c) 64 r) as (v & -> & ?); [done..|].
  cbn [mbind option_bind]. eexists. split; [reflexivity|].
  case_match; [apply u32_range|by unfold is_u, NAN_F32].
Qed.

Lemma safe_set_freg r v :
  is_u 5 r -> is_u 64 v -> safe (E:=E) c0 (set_freg r v) (fun _ => True).
Proof. intros. apply safe_try_cpu. intros. by apply Cpu_set_freg_ok. Qed.

Lemma nan_box_range v : is_u 32 v -> is_u 64 (0xFFFFFFFF00000000 .| v).
Proof. intros. bits_range. Qed.

Lemma safe_write_f32 r v :
  is_u 5 r -> is_u 32 v -> safe (E:=E) c0 (write_f32 r v) (fun _ => True).
Proof.
  intros. apply safe_try_cpu. intros. apply Cpu_set_freg_ok; [done..|].
  case_match; [by unfold is_u, NAN_F64|]. by apply nan_box_range.
Qed.

Lemma safe_write_f64 r v :
  is_u 5 r -> is_u 64 v -> safe (E:=E) c0 (write_f64 r v) (fun _ => True).
Proof.
  intros. apply safe_try_cpu. intros. apply Cpu_set_freg_ok; [done..|]. by case_match.
Qed.

Lemma safe_read_u8 a : is_u 32 a -> safe (E:=E) c0 (mread (fun m => read_u8 m a)) (is_u 8).
Proof. intros. apply safe_mread. intros. by apply read_u8_law. Qed.
Lemma safe_read_u16 a : is_u 32 a -> safe (E:=E) c0 (mread (fun m => read_u16 m a)) (is_u 16).
Proof. intros. apply safe_mread. intros. by apply read_u16_law. Qed.
Lemma safe_read_u32 a : is_u 32 a -> safe (E:=E) c0 (mread (fun m => read_u32 m a)) (is_u 32).
Proof. intros. apply safe_mread. intros. by apply read_u32_law. Qed.
Lemma safe_write_u8 a v :
  is_u 32 a -> is_u 8 v -> safe (E:=E) c0 (mwrite (fun m => write_u8 m a v)) (fun _ => True).
Proof. intros. apply safe_mwrite. intros. by apply write_u8_law. Qed.
Lemma safe_write_u16 a v :
  is_u 32 a -> is_u 16 v -> safe (E:=E) c0 (mwrite (fun m => write_u16 m a v)) (fun _ => True).
Proof. intros. apply safe_mwrite. intros. by apply write_u16_law. Qed.
Lemma safe_write_u32 a v :
  is_u 32 a -> is_u 32 v -> safe (E:=E) c0 (mwrite (fun m => write_u32 m a v)) (fun _ => True).
Proof. intros. apply safe_mwrite. intros. by apply write_u32_law. Qed.

Lemma safe_checked_add w a b :
  overflow_checks = false -> 0 <= w -> safe (E:=E) c0 (checked_add w a b) (is_u w).
Proof.
  intros Hr Hw. unfold checked_add. rewrite Hr. cbn [andb]. apply safe_ret. by apply wrap_is_u.
Qed.
End Rules.

Section IllegalRules.
Context (c0 : Cpu).
Lemma safe_illegal {A} r (Q : A -> Prop) : safe c0 (illegal r) Q.
Proof. eapply safe_bind; [apply safe_get_cpu|]. intros. apply safe_throw. Qed.

Lemma safe_or_illegal_bool r (o : option bool) : safe c0 (or_illegal r o) (fun _ => True).
Proof. destruct o; [by apply safe_ret|apply safe_illegal]. Qed.

Lemma safe_or_illegal {A} r (o : option A) (Q : A -> Prop) :
  (forall a, o = Some a -> Q a) -> safe c0 (or_illegal r o) Q.
Proof.
  intros Ho. destruct o; simpl; [by apply safe_ret, Ho|apply safe_illegal].
Qed.
End IllegalRules.
End Safety.

Lemma u8_range x : is_u 8 (u8 x).
Proof. by apply wrap_is_u. Qed.
Lemma u16_range x : is_u 16 (u16 x).
Proof. by apply wrap_is_u. Qed.
#[export] Hint Resolve u8_range u16_range nan_box_range : range.

Create HintDb safe.
#[export] Hint Resolve safe_read_reg safe_write_reg safe_freg_bits safe_read_f64 safe_read_f32
  safe_set_freg safe_write_f32 safe_write_f64 safe_read_u8 safe_read_u16 safe_read_u32
  safe_write_u8 safe_write_u16 safe_write_u32 safe_illegal safe_or_illegal safe_or_illegal_bool safe_throw
  safe_get_cpu safe_get_mem safe_hnotify : safe.

(** One step through a computation: binds, conditionals, pairs and leaves.  The
    side conditions on ranges go to the [range] hints. *)
Ltac safe_step :=
  match goal with
  | |- safe _ (mret _) _ => apply safe_ret
  | |- safe _ (_ ≫= _) _ => eapply safe_bind; [|let H := fresh "Hv" in intros ? H; cbn beta in H]
  | |- safe _ (if ?b then _ else _) _ => destruct b eqn:?
  | |- safe _ (match ?x with (_, _) => _ end) _ => destruct x
  | |- safe _ (let _ := _ in _) _ => cbv zeta
  | |- safe _ _ _ => first [solve [eauto 6 with safe range nocore] | eapply safe_weaken; [solve [eauto 6 with safe range nocore]|]]
  end.
(** The second pass meets the postconditions that the first one determined. *)
Ltac safe_go := repeat safe_step; repeat safe_step; auto with range.
