(* ===== verification/SafeExec.v ===== *)
(** Every instruction is safe: the system calls, the 32-bit and the 16-bit
    instructions neither panic nor leave the type invariant, whatever the
    instruction word. *)

From S2P Require Import Prelude Bits Inst Fmt Host Memory MemoryProps Float Cpu Syscall Exec Rvc Safe.

(** Fields of a decoded instruction are in range. *)
Record inst_ok (i : DecodedInst32) : Prop := {
  iok_rd : is_u 5 (rd i);
  iok_rs1 : is_u 5 (rs1 i);
  iok_rs2 : is_u 5 (rs2 i);
  iok_rs3 : is_u 5 (rs3 i);
  iok_raw : is_u 32 (raw i)
}.

Lemma decode32_ok x : is_u 32 x -> inst_ok (decode32 x).
Proof. intros Hx. by destruct (decode32_bounds x Hx) as (? & ? & ? & ? & ? & ? & ? & ?). Qed.

#[export] Hint Resolve iok_rd iok_rs1 iok_rs2 iok_rs3 : range.
#[export] Hint Resolve alu_op_range alu_imm_range mul_op_range csr_new_val_range : range.

Lemma u_imm_range i : inst_ok i -> is_u 32 (u_imm i).
Proof. intros [_ _ _ _ Hr]. unfold u_imm. bits_range. Qed.

Lemma target_range x : is_u 32 x -> is_u 32 (x .& not_u 32 1).
Proof. intros. unfold not_u. change (2 ^ 32 - 1 - 1) with 0xFFFFFFFE. bits_range. Qed.

#[export] Hint Resolve u_imm_range target_range ok_pc : range.

Lemma double_bits_range high low : is_u 32 low -> is_u 64 (u64 (high .<< 32) .| low).
Proof.
  intros. pose proof (u64_range (high .<< 32)) as Hh. set (x := u64 _) in *. clearbody x. bits_range.
Qed.
#[export] Hint Resolve double_bits_range : range.

Section SafeEcall.
Context {H Mem : Type} `{HostOps H} `{!HostReads H} `{!MemoryOps H Mem} `{!MemoryLaws H Mem}.
Context (c0 : Cpu).

Lemma reg_const_ok : is_u 5 A7 /\ is_u 5 A0 /\ is_u 5 A1 /\ is_u 5 A2 /\ is_u 5 A3.
Proof. by unfold is_u, A7, A0, A1, A2, A3. Qed.

Lemma safe_sys_exit a0 : safe (E:=UnknownSyscall) c0 (sys_exit a0) (fun _ => True).
Proof.
  unfold sys_exit. eapply safe_bind; [|intros _ _]; apply safe_modify_cpu; intros c [] _;
    split_and!; try done; split; try done. cbn. by apply sext_is_i.
Qed.

Lemma IO_LIMIT_range a : is_u 32 a -> 0 <= Z.min a IO_LIMIT < 2 ^ 31.
Proof. unfold is_u, IO_LIMIT. lia. Qed.

Lemma safe_sys_write a0 a1 a2 :
  is_u 32 a1 -> is_u 32 a2 -> safe c0 (sys_write a0 a1 a2) (fun _ => True).
Proof.
  intros H1 H2. unfold sys_write. cbv zeta.
  apply safe_bind with (fun bs => Forall (is_u 8) bs).
  { apply safe_mread. intros m h Hm.
    destruct (read_bytes_law m a1 (Z.min a2 IO_LIMIT) h Hm H1) as (bs & h' & ? & ? & ?);
      [apply IO_LIMIT_range, H2|]. eauto. }
  intros bs _. apply safe_bind with (fun _ => True).
  { safe_go. }
  intros _ _. by apply safe_write_reg.
Qed.

Lemma fill_buffer_ok n bs :
  Forall (is_u 8) bs -> length (fill_buffer (replicate n 0) bs) = n
  /\ Forall (is_u 8) (fill_buffer (replicate n 0) bs).
Proof.
  intros Hb. unfold fill_buffer. rewrite length_replicate, drop_replicate. split.
  - rewrite length_app, length_take, length_replicate. lia.
  - apply Forall_app. split; [by apply Forall_take|by apply Forall_replicate].
Qed.

(** What a read returns: a count within the request and bytes. *)
Lemma read_from_stdin_ok count (h : H) :
  0 <= count ->
  (read_from_stdin count h).1.1 <= count /\ Forall (is_u 8) (read_from_stdin count h).1.2.
Proof.
  intros Hc. split; [by apply host_read_count|]. unfold read_from_stdin.
  destruct (ffi_read_from_stdin count h) as [[n bs] h']. cbn.
  apply Forall_map, Forall_true. intros. apply u8_range.
Qed.

Lemma safe_sys_read a1 a2 :
  is_u 32 a1 -> is_u 32 a2 -> safe c0 (sys_read a1 a2) (fun _ => True).
Proof.
  intros H1 H2. unfold sys_read. cbv zeta. pose proof (IO_LIMIT_range a2 H2) as Hc.
  set (count := Z.min a2 IO_LIMIT) in *.
  eapply safe_bind.
  { apply safe_hcall with (Q := fun r => r.1 <= count /\ Forall (is_u 8) r.2). intros h.
    rewrite wrap_small by (unfold is_u; lia). apply read_from_stdin_ok. lia. }
  intros [n bs] [Hn Hb]. cbn [fst snd] in *.
  destruct (fill_buffer_ok (Z.to_nat count) bs Hb) as [Hl Hf].
  destruct (0 <? n) eqn:Hn0; [|by apply safe_write_reg].
  unfold slice_to. rewrite Hl, Z2Nat.id by lia. destruct (Z.leb_spec n count); [|lia].
  cbn [em_index]. eapply safe_bind; [apply safe_ret with (Q := Forall (is_u 8)), Forall_take, Hf|].
  intros bytes Hbs. eapply safe_bind; [apply safe_mwrite|].
  { intros m h Hm. by apply write_bytes_law. }
  intros _ _. apply safe_write_reg; [done|apply u32_range].
Qed.

Lemma safe_sys_brk a0 : is_u 32 a0 -> safe (E:=UnknownSyscall) c0 (sys_brk a0) (fun _ => True).
Proof.
  intros Ha. unfold sys_brk. apply safe_bind with (fun _ => True).
  - destruct (negb (a0 =? 0)); [|by apply safe_ret].
    apply triple_modify. intros s []. split; [done|]. split; try done. by apply set_brk_law.
  - intros _ _. eapply safe_bind; [apply safe_get_mem|]. intros m Hm.
    apply safe_write_reg; [done|by apply get_brk_law].
Qed.

Lemma safe_handle_ecall_builtin a7 a0 a1 a2 a3 :
  is_u 32 a0 -> is_u 32 a1 -> is_u 32 a2 ->
  safe c0 (handle_ecall_builtin a7 a0 a1 a2 a3) (fun _ => True).
Proof.
  intros. unfold handle_ecall_builtin.
  repeat match goal with |- safe _ (if ?b then _ else _) _ => destruct b end;
    [apply safe_sys_exit|by apply safe_sys_write|by apply safe_sys_read|by apply safe_sys_brk
    |by apply safe_write_reg|apply safe_throw].
Qed.

Lemma safe_handle_ecall : safe c0 handle_ecall (fun _ => True).
Proof.
  destruct reg_const_ok as (? & ? & ? & ? & ?).
  unfold handle_ecall. do 5 (eapply safe_bind; [by apply safe_read_reg|intros ? ?]).
  eapply safe_bind; [apply safe_get_cpu|]. intros c _.
  destruct (has_custom_syscalls c); [|by apply safe_handle_ecall_builtin].
  eapply safe_bind; [by apply safe_hcall with (Q := fun _ => True)|]. intros res _.
  destruct (negb (res =? 0)); [|by apply safe_handle_ecall_builtin].
  apply safe_write_reg; [done|apply u32_range].
Qed.
End SafeEcall.

Section SafeExec32.
Context {H Mem : Type} `{HostOps H} `{!HostReads H} `{!MemoryOps H Mem} `{!MemoryLaws H Mem}.
Context `{BuildProfile} `{FloatEnv} (Hrelease : overflow_checks = false).
Context (c0 : Cpu).
Context (inst : DecodedInst32) (Hinst : inst_ok inst).

Lemma safe_load_value addr : is_u 32 addr -> safe c0 (load_value inst addr) (is_u 32).
Proof. intros. unfold load_value. safe_go. Qed.

Lemma safe_store_value addr v :
  is_u 32 addr -> is_u 32 v -> safe c0 (store_value inst addr v) (fun _ => True).
Proof. intros. unfold store_value. safe_go. Qed.

Hint Resolve safe_load_value safe_store_value : safe.

Lemma safe_exec_rv32i next_pc : is_u 32 next_pc -> safe c0 (exec_rv32i inst next_pc) (is_u 32).
Proof.
  intros. unfold exec_rv32i. cbv zeta. safe_go.
Qed.

Lemma safe_exec_rv32m : safe c0 (exec_rv32m inst) (fun _ => True).
Proof. unfold exec_rv32m. safe_go. Qed.

Lemma safe_exec_rv32a : safe c0 (exec_rv32a inst) (fun _ => True).
Proof.
  unfold exec_rv32a. cbv zeta.
  eapply safe_bind; [safe_step|intros a Hv].
  eapply safe_bind; [safe_step|intros b Hv0].
  eapply safe_bind; [safe_step|intros old Hv1].
  apply safe_bind with (fun r => is_u 32 r.1 /\ is_u 32 r.2).
  { apply safe_or_illegal. intros [v r] E. by apply (amo_op_range _ _ _ _ _ Hv1 Hv0 E). }
  intros [v r] [? ?]. cbn [fst snd] in *. apply safe_bind with (fun _ => True); [|intros _ _]; safe_go.
Qed.

(** *** Floating point *)

Hint Extern 1 (safe _ (checked_add _ _ _) _) => (apply safe_checked_add; [exact Hrelease|lia]) : safe.

Lemma safe_exec_load_fp : safe c0 (exec_load_fp inst) (fun _ => True).
Proof. unfold exec_load_fp. safe_go. Qed.

Lemma safe_exec_store_fp : safe c0 (exec_store_fp inst) (fun _ => True).
Proof. unfold exec_store_fp. safe_go. Qed.

Lemma safe_f32_binop f :
  (forall a b, is_u 32 (f a b)) -> safe c0 (f32_binop inst f) (fun _ => True).
Proof. intros. unfold f32_binop. safe_go. Qed.

Lemma safe_f64_binop f :
  (forall a b, is_u 64 (f a b)) -> safe c0 (f64_binop inst f) (fun _ => True).
Proof. intros. unfold f64_binop. safe_go. Qed.

Lemma f32_op_ranges :
  (forall a b, is_u 32 (f32_add a b)) /\ (forall a b, is_u 32 (f32_sub a b))
  /\ (forall a b, is_u 32 (f32_mul a b)) /\ (forall a b, is_u 32 (f32_div a b))
  /\ (forall a, is_u 32 (f32_sqrt a)) /\ (forall z, is_u 32 (f32_of_int z))
  /\ (forall d, is_u 32 (f32_of_f64 d)).
Proof. split_and!; intros; apply f32_bits_range || apply f32_of_sf_range. Qed.

Lemma f64_op_ranges :
  (forall a b, is_u 64 (f64_add a b)) /\ (forall a b, is_u 64 (f64_sub a b))
  /\ (forall a b, is_u 64 (f64_mul a b)) /\ (forall a b, is_u 64 (f64_div a b))
  /\ (forall a, is_u 64 (f64_sqrt a)) /\ (forall z, is_u 64 (f64_of_int z))
  /\ (forall d, is_u 64 (f64_of_f32 d)).
Proof. split_and!; intros; apply f64_bits_range || apply f64_of_sf_range. Qed.

Lemma f32_to_u32_range x : is_u 32 (f32_to_u32 x).
Proof. pose proof (f_to_int_range 23 8 0 (2 ^ 32 - 1) x). unfold f32_to_u32, is_u. lia. Qed.
Lemma f64_to_u32_range x : is_u 32 (f64_to_u32 x).
Proof. pose proof (f_to_int_range 52 11 0 (2 ^ 32 - 1) x). unfold f64_to_u32, is_u. lia. Qed.

Lemma fclass_range a b c d e f : is_u 32 (fclass_mask a b c d e f).
Proof. destruct a, b, c, d, e, f; done. Qed.

Lemma sgnj32_range f3 a b v :
  sgnj_bits 32 0x7FFFFFFF 0x80000000 f3 a b = Some v -> is_u 32 a -> is_u 32 b -> is_u 32 v.
Proof.
  intros E Ha Hb. pose proof (not_u_range 32 b Hb) as Hn. revert E. unfold sgnj_bits.
  set (nb := not_u 32 b) in *. clearbody nb.
  repeat case_match; intros [= <-]; bits_range.
Qed.

Lemma sgnj64_range f3 a b v :
  sgnj_bits 64 0x7FFFFFFFFFFFFFFF 0x8000000000000000 f3 a b = Some v ->
  is_u 64 a -> is_u 64 b -> is_u 64 v.
Proof.
  intros E Ha Hb. pose proof (not_u_range 64 b Hb) as Hn. revert E. unfold sgnj_bits.
  set (nb := not_u 64 b) in *. clearbody nb.
  repeat case_match; intros [= <-]; bits_range.
Qed.

Lemma fminmax_range w mb eb f3 a b v :
  fminmax (f_is_nan mb eb) (f_min mb eb) (f_max mb eb) f3 a b = Some v ->
  is_u w a -> is_u w b -> is_u w v.
Proof.
  intros E Ha Hb. destruct (f_minmax_range mb eb w a b Ha Hb) as [Hmin Hmax]. revert E.
  unfold fminmax. repeat case_match; intros [= <-]; done.
Qed.

Lemma fminmax32_range f3 a b v :
  fminmax f32_is_nan f32_min f32_max f3 a b = Some v -> is_u 32 a -> is_u 32 b -> is_u 32 v.
Proof. apply (fminmax_range 32 23 8). Qed.
Lemma fminmax64_range f3 a b v :
  fminmax f64_is_nan f64_min f64_max f3 a b = Some v -> is_u 64 a -> is_u 64 b -> is_u 64 v.
Proof. apply (fminmax_range 64 52 11). Qed.

Lemma fcompare_range le lt eq f3 a b v : fcompare le lt eq f3 a b = Some v -> is_u 32 v.
Proof. unfold fcompare. repeat case_match; intros [= <-]; apply b2z_range. Qed.

Lemma madd_range w op mul add sub neg a b c v :
  madd_value op mul add sub neg a b c = Some v ->
  (forall x y, is_u w (add x y)) -> (forall x y, is_u w (sub x y)) ->
  (forall x, is_u w x -> is_u w (neg x)) -> is_u w v.
Proof. intros E ? ? ?. revert E. unfold madd_value. repeat case_match; intros [= <-]; auto. Qed.

Hint Resolve safe_f32_binop safe_f64_binop : safe.
Hint Resolve sgnj32_range sgnj64_range fminmax32_range fminmax64_range fcompare_range
  fclass_range f32_to_u32_range f64_to_u32_range : range.

Lemma safe_op_fp_single f5 : safe c0 (op_fp_single inst f5) (fun _ => True).
Proof.
  destruct f32_op_ranges as (? & ? & ? & ? & ? & ? & ?).
  unfold op_fp_single. safe_go.
  all: case_match; safe_go.
Qed.

Lemma safe_op_fp_double f5 : safe c0 (op_fp_double inst f5) (fun _ => True).
Proof.
  destruct f64_op_ranges as (? & ? & ? & ? & ? & ? & ?).
  unfold op_fp_double. safe_go.
  all: case_match; safe_go.
Qed.

Lemma safe_exec_madd : safe c0 (exec_madd inst) (fun _ => True).
Proof.
  destruct f32_op_ranges as (? & ? & _). destruct f64_op_ranges as (? & ? & _).
  unfold exec_madd. cbv zeta. repeat safe_step.
  - apply safe_or_illegal. intros v E. apply (madd_range 32 _ _ _ _ _ _ _ _ _ E); [done..|].
    intros. by apply (f_neg_range 23 8).
  - apply safe_or_illegal. intros v E. apply (madd_range 64 _ _ _ _ _ _ _ _ _ E); [done..|].
    intros. by apply (f_neg_range 52 11).
Qed.

Lemma safe_exec_rv32fd : safe c0 (exec_rv32fd inst) (fun _ => True).
Proof.
  unfold exec_rv32fd, exec_op_fp.
  repeat match goal with |- context [if ?b then _ else _] => destruct b end;
    auto using safe_exec_load_fp, safe_exec_store_fp, safe_op_fp_single, safe_op_fp_double,
      safe_exec_madd, safe_illegal.
Qed.

(** *** System instructions and dispatch *)

Lemma safe_map_err {E E' A} (f : E -> E') (m : EM (Machine H Mem) E A) Q :
  safe c0 m Q -> safe c0 (em_map_err f m) Q.
Proof. intros Hm s Hs. specialize (Hm s Hs). unfold em_map_err. by destruct (m s). Qed.

Lemma safe_with_csrs f :
  (forall c, cpu_ok c -> map_Forall (fun k v => is_u 12 k /\ is_u 32 v) (csr_values (f c))) ->
  safe (E:=CpuError) c0 (modify_cpu (fun c => with_csrs (f c) c)) (fun _ => True).
Proof.
  intros Hf. apply safe_modify_cpu. intros c Hc _.
  split_and!; [apply with_csrs_ok; auto|by split|done].
Qed.

Lemma mret_mstatus_range x :
  is_u 32 x ->
  is_u 32 (if negb ((x .& MSTATUS_MPIE) =? 0)
           then ((x .& not_u 32 MSTATUS_MIE) .| MSTATUS_MPIE) .| MSTATUS_MIE
           else (x .& not_u 32 MSTATUS_MIE) .| MSTATUS_MPIE).
Proof.
  intros. unfold MSTATUS_MIE, MSTATUS_MPIE, not_u.
  change (2 ^ 32 - 1 - (1 .<< 3)) with 0xFFFFFFF7. case_match; bits_range.
Qed.

Lemma safe_exec_mret next_pc : is_u 32 next_pc -> safe c0 (exec_mret next_pc) (is_u 32).
Proof.
  intros. unfold exec_mret. eapply safe_bind; [apply safe_get_cpu|]. intros c (Hc & _ & _).
  cbv zeta. eapply safe_bind; [apply safe_with_csrs|].
  - intros c' Hc'. apply csr_set_ok; [apply Hc'|]. apply mret_mstatus_range, csr_get_ok, Hc.
  - intros _ _. apply safe_ret. case_match; [apply csr_get_ok, Hc|done].
Qed.

Lemma safe_halt : safe (E:=CpuError) c0 (modify_cpu (with_halted true)) (fun _ => True).
Proof. apply safe_modify_cpu. intros c [] _. split_and!; by split. Qed.

Lemma safe_exec_csr next_pc : is_u 32 next_pc -> safe c0 (exec_csr inst next_pc) (is_u 32).
Proof.
  intros. unfold exec_csr. cbv zeta. destruct (funct3 inst =? 0).
  - repeat match goal with |- safe _ (if ?b then _ else _) _ => destruct b end.
    + eapply safe_bind; [apply safe_map_err, safe_handle_ecall|]. intros. by apply safe_ret.
    + eapply safe_bind; [apply safe_halt|]. intros. by apply safe_ret.
    + by apply safe_exec_mret.
    + by apply safe_ret.
  - eapply safe_bind; [apply safe_get_cpu|]. intros c (Hc & _ & _).
    pose proof (csr_get_ok (csrs c) (u16 ((raw inst .>> 20) .& 0xFFF)) (ok_csrs _ Hc)) as Ho.
    eapply safe_bind; [apply safe_read_reg, Hinst|]. intros v Hv.
    eapply safe_bind; [apply safe_with_csrs|].
    { intros c' Hc'. apply csr_set_ok; [apply Hc'|]. apply csr_new_val_range; [done..|apply Hinst]. }
    intros _ _. eapply safe_bind; [apply safe_write_reg; [apply Hinst|done]|].
    intros _ _. by apply safe_ret.
Qed.

Lemma safe_then_ret (m : EM (Machine H Mem) CpuError unit) next_pc :
  safe c0 m (fun _ => True) -> is_u 32 next_pc -> safe c0 (m;; mret next_pc) (is_u 32).
Proof. intros Hm ?. eapply safe_bind; [exact Hm|]. intros. by apply safe_ret. Qed.

Lemma safe_dispatch32 next_pc : is_u 32 next_pc -> safe c0 (dispatch32 inst next_pc) (is_u 32).
Proof.
  intros. unfold dispatch32. cbv zeta.
  repeat match goal with |- safe _ (if ?b then _ else _) _ => destruct b end;
    auto using safe_then_ret, safe_exec_rv32i, safe_exec_rv32m, safe_exec_rv32a,
      safe_exec_rv32fd, safe_exec_csr.
  eapply safe_bind; [apply safe_get_cpu|]. intros. apply safe_throw.
Qed.
End SafeExec32.

Section SafeExec16.
Context {H Mem : Type} `{HostOps H} `{!MemoryOps H Mem} `{!MemoryLaws H Mem}.
Context (c0 : Cpu).
Context (inst : Z) (Hinst : is_u 16 inst).

Lemma creg_range k : is_u 5 (creg inst k).
Proof. pose proof (creg_bounds inst k Hinst). unfold is_u. lia. Qed.
Lemma cfield_range k : is_u 5 (shift_then_mask inst k 0x1F).
Proof.
  unfold shift_then_mask. change 0x1F with (Z.ones 5). rewrite Z.land_ones by lia. by apply wrap_is_u.
Qed.
Lemma is_u5_1 : is_u 5 1. Proof. done. Qed.
Lemma is_u5_2 : is_u 5 2. Proof. done. Qed.
Lemma ca_value_range sel a b : is_u 32 a -> is_u 32 b -> is_u 32 (ca_value sel a b).
Proof. intros. unfold ca_value. repeat case_match; auto with range; bits_range. Qed.
Lemma land_range a b : is_u 32 a -> is_u 32 b -> is_u 32 (a .& b).
Proof. intros. bits_range. Qed.
Lemma shamt_range k : 0 <= shift_then_mask inst k 0x1F.
Proof. pose proof (cfield_range k). unfold is_u in *. lia. Qed.

Hint Resolve creg_range cfield_range is_u5_1 is_u5_2 ca_value_range land_range shamt_range : range.

Lemma safe_load_double r a :
  is_u 5 r -> is_u 32 a -> safe (E:=CpuError) c0 (load_double r a) (fun _ => True).
Proof. intros. unfold load_double. safe_go. Qed.
Lemma safe_store_double r a :
  is_u 5 r -> is_u 32 a -> safe (E:=CpuError) c0 (store_double r a) (fun _ => True).
Proof. intros. unfold store_double. safe_go. Qed.
Lemma safe_load_single r a :
  is_u 5 r -> is_u 32 a -> safe (E:=CpuError) c0 (load_single r a) (fun _ => True).
Proof. intros. unfold load_single. safe_go. Qed.
Lemma safe_store_single r a :
  is_u 5 r -> is_u 32 a -> safe (E:=CpuError) c0 (store_single r a) (fun _ => True).
Proof. intros. unfold store_single. safe_go. Qed.
Hint Resolve safe_load_double safe_store_double safe_load_single safe_store_single safe_halt : safe.

Context (next_pc : Z) (Hnext : is_u 32 next_pc).

Lemma safe_exec_q0 f3 : safe c0 (exec_q0 inst f3 next_pc) (is_u 32).
Proof. unfold exec_q0. cbv zeta. safe_go. Qed.

Lemma safe_exec_c_lui : safe c0 (exec_c_lui inst) (fun _ => True).
Proof. unfold exec_c_lui. cbv zeta. safe_go. Qed.

Lemma safe_exec_c_alu : safe c0 (exec_c_alu inst) (fun _ => True).
Proof. unfold exec_c_alu. cbv zeta. safe_go. all: case_match; safe_go. Qed.

Hint Resolve safe_exec_c_lui safe_exec_c_alu : safe.

Lemma safe_exec_q1 f3 : safe c0 (exec_q1 inst f3 next_pc) (is_u 32).
Proof.
  unfold exec_q1. cbv zeta. safe_go.
  all: try case_match; auto with range.
Qed.

Lemma safe_exec_q2 f3 : safe c0 (exec_q2 inst f3 next_pc) (is_u 32).
Proof. unfold exec_q2, exec_c_jr_mv_add. cbv zeta. safe_go. Qed.

Lemma safe_dispatch16 : safe c0 (dispatch16 inst next_pc) (is_u 32).
Proof.
  unfold dispatch16. cbv zeta.
  repeat match goal with |- safe _ (if ?b then _ else _) _ => destruct b end;
    auto using safe_exec_q0, safe_exec_q1, safe_exec_q2, safe_illegal.
Qed.
End SafeExec16.
