(* ===== verification/RunProps.v ===== *)
(** The run loops are total and keep their promises.

    Against the interfaces [MemoryLaws] and [HostReads], in the release profile:
    every step and every slice finishes without a panic, preserves the type
    invariant, respects its budget, and reports a status that tells what happened. *)

From S2P Require Import Prelude Bits Inst Fmt Host Memory MemoryProps Float Cpu Syscall Exec Rvc Run Safe SafeExec.

Section Execute.
Context {H Mem : Type} `{HostOps H} `{!HostReads H} `{!MemoryOps H Mem} `{!MemoryLaws H Mem}.
Context `{BuildProfile} `{FloatEnv}.

Record machine_ok (s : Machine H Mem) : Prop := {
  mok_cpu : cpu_ok (cpu s);
  mok_mem : mem_inv (mem s)
}.

(** The state after an instruction that completed. *)
Definition stepped (c0 : Cpu) (s : Machine H Mem) : Prop :=
  machine_ok s /\ same_control c0 (cpu s).

Lemma good_self s : machine_ok s -> good (cpu s) s.
Proof. intros []. by split; [|apply same_control_refl|..]. Qed.

Lemma set_next_pc_stepped c0 (m : EM (Machine H Mem) CpuError Z) :
  safe c0 m (is_u 32) ->
  triple (good c0) (next_pc ← m; modify_cpu (with_pc next_pc))
    (fun _ s => stepped c0 s) (fun _ s => good c0 s).
Proof.
  intros Hm. eapply triple_bind; [exact Hm|]. intros p. apply triple_pure. intros Hp.
  apply triple_modify. intros s []. split; [split; [by apply with_pc_ok|done]|].
  eapply same_control_trans; [done|]. by split.
Qed.

Lemma execute_inst32_triple w c0 :
  overflow_checks = false -> is_u 32 w ->
  triple (good c0) (execute_inst32 w) (fun _ s => stepped c0 s) (fun _ s => good c0 s).
Proof.
  intros Hr Hw. unfold execute_inst32. cbv zeta. eapply triple_bind; [apply safe_get_cpu|].
  intros c. apply triple_pure. intros (Hc & Hs & Hp). apply set_next_pc_stepped.
  apply safe_dispatch32; [done|by apply decode32_ok|apply wrapping_add_u32].
Qed.

Lemma execute_inst16_triple w c0 :
  is_u 16 w ->
  triple (good c0) (execute_inst16 w) (fun _ s => stepped c0 s) (fun _ s => good c0 s).
Proof.
  intros Hw. unfold execute_inst16. cbv zeta. eapply triple_bind; [apply safe_get_cpu|].
  intros c. apply triple_pure. intros (Hc & Hs & Hp). apply set_next_pc_stepped.
  apply safe_dispatch16; [done|apply wrapping_add_u32].
Qed.

Lemma triple_result {E E' A} (m : EM (Machine H Mem) E A) P Q R R' :
  triple P m Q R ->
  triple (E:=E') P (em_result m) (fun r s => match r with inl e => R e s | inr a => Q a s end) R'.
Proof. intros Hm s Hs. specialize (Hm s Hs). unfold em_result. by destruct (m s). Qed.

(** The outcome of fetching and executing: complete, or an error with the program
    counter where it was. *)
Definition fetched (c0 : Cpu) (r : bool * (CpuError + unit)) (s : Machine H Mem) : Prop :=
  match r.2 with inl _ => good c0 s | inr _ => stepped c0 s end.

Lemma triple_pair_result c0 b (m : EM (Machine H Mem) CpuError unit) (R' : Infallible -> _ -> Prop) :
  triple (good c0) m (fun _ s => stepped c0 s) (fun _ s => good c0 s) ->
  triple (good c0) (r ← em_result m; mret (b, r)) (fetched c0) R'.
Proof.
  intros Hm. eapply triple_bind; [apply triple_result, Hm|]. intros r. apply triple_ret.
  by destruct r.
Qed.

Lemma fetch_execute_triple c0 pc0 :
  overflow_checks = false -> is_u 32 pc0 ->
  triple (good c0) (fetch_execute pc0) (fetched c0) (fun _ _ => False).
Proof.
  intros Hr Hp. unfold fetch_execute.
  apply triple_bind with (fun r s => is_u 32 r.1 /\ good c0 s).
  { intros s Hs. destruct (fetch_window_law (mem s) pc0 (host s) (good_mem _ _ Hs) Hp)
      as (w & wide & h' & E & Hw). unfold mread. rewrite E. split; [done|]. by destruct Hs. }
  intros [w wide]. apply triple_pure. cbn [fst]. intros Hw.
  destruct (negb _).
  - apply triple_pair_result, execute_inst16_triple, u16_range.
  - apply triple_bind with (fun x s => is_u 32 x /\ good c0 s).
    + destruct wide; [by apply triple_ret|].
      intros s Hs. destruct (read_u32_law (mem s) pc0 (host s) (good_mem _ _ Hs) Hp)
        as (v & h' & E & Hv). unfold mread. rewrite E. split; [done|]. by destruct Hs.
    + intros x. apply triple_pure. intros Hx.
      by apply triple_pair_result, execute_inst32_triple.
Qed.
End Execute.

(** ** Slices *)

Section Slices.
Context {H Mem : Type} `{HostOps H} `{!HostReads H} `{!MemoryOps H Mem} `{!MemoryLaws H Mem}.
Context `{BuildProfile} `{FloatEnv} (Hrelease : overflow_checks = false).
Implicit Types (s : Machine H Mem) (c : Cpu).

(** What holds [n] instructions into a slice that started with CPU [c0]. *)
Record in_slice (c0 : Cpu) (n : Z) (s : Machine H Mem) : Prop := {
  in_ok : machine_ok s;
  in_debug : debug_enabled (cpu s) = debug_enabled c0;
  in_breakpoints : breakpoints (cpu s) = breakpoints c0;
  in_custom : has_custom_syscalls (cpu s) = has_custom_syscalls c0;
  in_steps : step_counter (cpu s) = u64 (step_counter c0 + n)
}.

Definition running c0 (n : Z) s : Prop :=
  in_slice c0 n s /\ trapped (cpu s) = trapped c0 /\ resume_past_breakpoint (cpu s) = None.

(** What a status says about the CPU. *)
Definition status_post (c0 : Cpu) (st : SliceStatus) (c : Cpu) : Prop :=
  match st with
  | Running => is_halted c = false /\ trapped c = trapped c0 /\ resume_past_breakpoint c = None
  | Halted => is_halted c = true /\ trapped c = trapped c0 /\ resume_past_breakpoint c = None
  | Trapped => is_halted c = true /\ trapped c = true /\ exit_code c = TRAP_EXIT_CODE
               /\ resume_past_breakpoint c = None
  | Breakpoint => is_halted c = false /\ trapped c = trapped c0 /\ debug_enabled c0 = true
                  /\ pc c ∈ breakpoints c0 /\ resume_past_breakpoint c = Some (pc c)
  end.

(** The breakpoint a slice may pass through: the one it resumes from, and only
    before its first instruction. *)
Definition skip_ok c0 (watch : bool) (n : Z) (skip : option Z) : Prop :=
  n = 0 /\ skip = resume_past_breakpoint c0 \/ 0 < n /\ (watch = true -> skip = None).

Definition stop_post c0 (st : SliceStatus) (n : Z) s : Prop :=
  in_slice c0 n s /\ status_post c0 st (cpu s)
  /\ (st = Breakpoint -> n = 0 -> resume_past_breakpoint c0 <> Some (pc (cpu s))).

Lemma u64_succ a n : u64 (u64 (a + n) + 1) = u64 (a + (n + 1)).
Proof. unfold wrap. rewrite Zplus_mod_idemp_l. f_equal. lia. Qed.

Lemma count_step_run s :
  count_step s =
    Ok tt (Build_Machine (with_step_counter (u64 (step_counter (cpu s) + 1)) (cpu s)) (mem s) (host s)).
Proof.
  unfold count_step, get_cpu, em_gets, mbind, EM_bind, checked_add. rewrite Hrelease. done.
Qed.

Lemma stepped_running c0 n s s' :
  running c0 n s -> stepped (cpu s) s' ->
  running c0 (n + 1)
    (Build_Machine (with_step_counter (u64 (step_counter (cpu s') + 1)) (cpu s')) (mem s') (host s')).
Proof.
  intros [Hin [Ht Hr]] [[Hc Hm] Hs].
  destruct Hs as [Sd Sb Ss Sc St Sr _ _], Hin as [_ Id Ib Ic Is].
  split; [|by split; cbn; congruence].
  split; cbn; try congruence.
  - split; [|done]. destruct Hc. split; cbn; try done. apply u64_range.
  - rewrite Ss, Is. apply u64_succ.
Qed.

Lemma halt_trap_ok c :
  cpu_ok c -> cpu_ok (with_halted true (with_exit_code TRAP_EXIT_CODE (with_trapped true c))).
Proof. intros []. by split. Qed.

Lemma report_trap_run compressed pc0 e s :
  exists h, report_trap compressed pc0 e s =
    Ok tt (Build_Machine (with_halted true (with_exit_code TRAP_EXIT_CODE (with_trapped true (cpu s))))
             (mem s) h).
Proof. destruct e; eexists; reflexivity. Qed.

Lemma trapped_stop c0 n s s' h :
  running c0 n s -> good (cpu s) s' ->
  stop_post c0 Trapped n
    (Build_Machine (with_halted true (with_exit_code TRAP_EXIT_CODE (with_trapped true (cpu s'))))
       (mem s') h).
Proof.
  intros [[] [Ht Hr]] [Hc [] Hp Hm]. split; [|split; [|done]].
  - split; cbn; try congruence. split; [by apply halt_trap_ok|done].
  - split_and!; cbn; try done. congruence.
Qed.

Lemma opt_is_spec o x : opt_is o x = true <-> o = Some x.
Proof. apply bool_decide_eq_true. Qed.

Lemma inner_step_triple c0 watch base chunk v :
  (watch = true -> debug_enabled c0 = true) -> 0 <= base ->
  triple (fun s => 0 <= v.1 <= chunk /\ running c0 (base + v.1) s /\ skip_ok c0 watch (base + v.1) v.2)
    (inner_step watch chunk v)
    (fun r s =>
       match r with
       | inl v' => (0 <= v'.1 <= chunk /\ running c0 (base + v'.1) s /\ skip_ok c0 watch (base + v'.1) v'.2)
                   /\ 0 <= chunk - v'.1 < chunk - v.1
       | inr (None, n, skip) => n = chunk /\ running c0 (base + n) s /\ skip_ok c0 watch (base + n) skip
       | inr (Some st, n, _) => st <> Running /\ 0 <= n < chunk /\ stop_post c0 st (base + n) s
       end)
    (fun _ _ => False).
Proof.
  intros Hw Hb. destruct v as [n skip]. cbn [fst snd]. intros s (Hn & Hrun & Hskip).
  pose proof Hrun as [Hin [Ht Hr]]. unfold inner_step.
  destruct (Z.leb_spec chunk n) as [|Hlt]; [split_and!; [lia|done..]|].
  unfold get_cpu, em_gets. unfold mbind at 1, EM_bind at 1.
  destruct (is_halted (cpu s)) eqn:Hh; [split_and!; done || lia|].
  destruct (watch && bool_decide (pc (cpu s) ∈ breakpoints (cpu s)) && negb (opt_is skip (pc (cpu s))))
    eqn:Hbp.
  { apply andb_prop in Hbp as [Hbp Hs]. apply andb_prop in Hbp as [-> Hbp].
    apply bool_decide_eq_true in Hbp. apply negb_true_iff in Hs. destruct Hin as [[Hc Hm] Hd Hbr Hcu Hst].
    split; [done|]. split; [lia|]. split; [|split].
    - split; cbn; try done. split; [|done]. cbn. destruct Hc. by split.
    - cbn. rewrite <- Hbr. split_and!; auto.
    - cbn. intros _ Hz. destruct Hskip as [[_ <-]|[? _]]; [|lia].
      intros Heq. apply opt_is_spec in Heq. congruence. }
  pose proof (fetch_execute_triple (cpu s) (pc (cpu s)) Hrelease (ok_pc _ (mok_cpu _ (in_ok _ _ _ Hin))) s
    (good_self s (in_ok _ _ _ Hin))) as Hf.
  unfold mbind at 1, EM_bind at 1.
  destruct (fetch_execute (pc (cpu s)) s) as [[compressed [e|[]]] s'|e s'|]; [| |done..].
  - unfold mbind, EM_bind. destruct (report_trap_run compressed (pc (cpu s)) e s') as [h ->].
    cbn in Hf |- *. split_and!; [done|lia..|]. by eapply trapped_stop.
  - unfold mbind, EM_bind. rewrite count_step_run. cbn [mret EM_ret fst snd] in *.
    split; [|lia]. split; [lia|]. rewrite Z.add_assoc. split; [by eapply stepped_running|].
    right. split; [lia|]. by intros ->.
Qed.

Lemma inner_loop_triple c0 watch base chunk skip :
  (watch = true -> debug_enabled c0 = true) -> 0 <= base -> 0 <= chunk ->
  triple (fun s => running c0 base s /\ skip_ok c0 watch base skip)
    (inner_loop watch chunk skip)
    (fun r s =>
       match r with
       | (None, n, skip) => n = chunk /\ running c0 (base + n) s /\ skip_ok c0 watch (base + n) skip
       | (Some st, n, _) => st <> Running /\ 0 <= n < chunk /\ stop_post c0 st (base + n) s
       end)
    (fun _ _ => False).
Proof.
  intros Hw Hb Hc. unfold inner_loop.
  eapply triple_consequence;
    [eapply (triple_em_loop _ (fun v s => 0 <= v.1 <= chunk /\ running c0 (base + v.1) s
                                          /\ skip_ok c0 watch (base + v.1) v.2)
               (fun v => chunk - v.1)) | | |].
  - intros v. by apply inner_step_triple.
  - cbn [fst]. lia.
  - intros s [? ?]. cbn [fst snd]. rewrite Z.add_0_r. by split; [lia|].
  - intros r s Hr. exact Hr.
  - done.
Qed.

Lemma handle_interrupt_ok irq c :
  cpu_ok c -> cpu_ok (handle_interrupt irq c) /\ same_control c (handle_interrupt irq c).
Proof.
  intros Hc. unfold handle_interrupt. cbv zeta.
  set (f := csr_set (csr_set (csrs c) MEPC (pc c)) MCAUSE (0x80000000 .| u32 irq)).
  assert (Hf : map_Forall (fun k v => is_u 12 k /\ is_u 32 v) (csr_values f)).
  { pose proof (u32_range irq) as Hi. apply csr_set_ok; [apply csr_set_ok; apply Hc|].
    set (x := u32 irq) in *. clearbody x. bits_range. }
  match goal with |- context [csr_set f MSTATUS ?x] => set (ms := x) end.
  assert (Hms : is_u 32 ms).
  { pose proof (csr_get_ok f MSTATUS Hf) as Hm. subst ms. set (x := csr_get f MSTATUS) in *. clearbody x.
    unfold MSTATUS_MIE, MSTATUS_MPIE, not_u. change (2 ^ 32 - 1 - _) with 0xFFFFFF77.
    case_match; bits_range. }
  pose proof (csr_set_ok f MSTATUS ms Hf Hms) as Hf'.
  pose proof (with_csrs_ok c _ Hc Hf') as Hc'.
  case_match; (split; [|by split]); [|done]. by apply with_pc_ok, csr_get_ok.
Qed.

Lemma handle_interrupt_running c0 n irq s :
  running c0 n s -> running c0 n (Build_Machine (handle_interrupt irq (cpu s)) (mem s) (host s)).
Proof.
  intros [Hin [Ht Hr]]. destruct Hin as [[Hc Hm] Id Ib Ic Is].
  destruct (handle_interrupt_ok irq (cpu s) Hc) as [Hok [Sd Sb Ss Sc St Sr _ _]].
  split; [|by split; cbn; congruence]. split; cbn; try congruence. by split.
Qed.

Lemma running_host c0 n s h :
  running c0 n s -> running c0 n (Build_Machine (cpu s) (mem s) h).
Proof. intros [[[? ?] ? ? ? ?] [? ?]]. by split; [split; [split|..]|]. Qed.

Lemma poll_interrupt_triple c0 n :
  triple (running c0 n) poll_interrupt (fun _ s => running c0 n s) (fun _ _ => False).
Proof.
  intros s Hs. unfold poll_interrupt, hcall, get_cpu, em_gets, mbind, EM_bind.
  destruct (js_interrupt_enabled (host s)) as [en h]. apply (running_host _ _ _ h) in Hs.
  cbn [cpu host mem]. destruct (negb (en =? 0) && interrupts_enabled (cpu s)); [|exact Hs].
  cbn [cpu host mem]. destruct (js_external_interrupt h) as [irq h']. apply (running_host _ _ _ h') in Hs.
  destruct (negb (irq =? 0)); [exact (handle_interrupt_running _ _ irq _ Hs)|exact Hs].
Qed.

Definition slice_post (c0 : Cpu) (budget : Z) (r : SliceStatus * Z) s : Prop :=
  0 <= r.2 <= budget /\ stop_post c0 r.1 r.2 s
  /\ match r.1 with
     | Running => r.2 = budget
     | Halted => True
     | Trapped | Breakpoint => r.2 < budget
     end.

Lemma outer_step_triple c0 watch budget v :
  (watch = true -> debug_enabled c0 = true) ->
  triple (fun s => 0 <= v.1 <= budget /\ running c0 v.1 s /\ skip_ok c0 watch v.1 v.2)
    (outer_step watch budget v)
    (fun r s =>
       match r with
       | inl v' => (0 <= v'.1 <= budget /\ running c0 v'.1 s /\ skip_ok c0 watch v'.1 v'.2)
                   /\ 0 <= budget - v'.1 < budget - v.1
       | inr r => slice_post c0 budget r s
       end)
    (fun _ _ => False).
Proof.
  intros Hw. destruct v as [n skip]. cbn [fst snd]. intros s (Hn & Hrun & Hskip).
  pose proof Hrun as [Hin [Ht Hr]]. unfold outer_step, get_cpu, em_gets.
  unfold mbind at 1, EM_bind at 1.
  destruct (is_halted (cpu s)) eqn:Hh; [by split_and!; cbn; try lia|].
  destruct (Z.leb_spec budget n) as [|Hlt].
  { split_and!; cbn; try done; try lia. }
  unfold mbind at 1, EM_bind at 1, hcall.
  destruct (js_get_int_inst_delay (host s)) as [delay h]. apply (running_host _ _ _ h) in Hrun.
  pose proof (poll_interrupt_triple c0 n _ Hrun) as Hp. unfold mbind at 1, EM_bind at 1.
  destruct (poll_interrupt _) as [[] s'|e s'|]; [|done..].
  set (d := if u64 delay =? 0 then 1000 else u64 delay).
  assert (Hd : 0 < d).
  { subst d. pose proof (u64_range delay). unfold is_u in *. destruct (Z.eqb_spec (u64 delay) 0); lia. }
  pose proof (inner_loop_triple c0 watch n (Z.min d (budget - n)) skip Hw ltac:(lia) ltac:(lia) s'
    (conj Hp Hskip)) as Hi.
  unfold mbind, EM_bind. destruct (inner_loop _ _ _ s') as [[[stopped done'] skip'] s2|e s2|]; [|done..].
  destruct stopped as [st|]; cbn.
  - destruct Hi as (Hst & Hd' & Hpost). split_and!; cbn; try lia; [done|]. destruct st; done || lia.
  - destruct Hi as (-> & Hrun' & Hskip'). split; [|lia]. split; [lia|done].
Qed.

Lemma run_slice_triple c0 budget :
  0 <= budget ->
  triple (fun s => machine_ok s /\ cpu s = c0) (run_slice budget)
    (fun o s => slice_post c0 budget (status o, steps o) s
                /\ out_pc o = pc (cpu s) /\ out_exit_code o = exit_code (cpu s))
    (fun _ _ => False).
Proof.
  intros Hb s [Hok Hc0]. subst c0. unfold run_slice, get_cpu, em_gets.
  unfold mbind at 1, EM_bind at 1. unfold mbind at 1, EM_bind at 1. cbn [modify_cpu em_modify].
  set (watch := debug_enabled (cpu s) && _).
  assert (Hw : watch = true -> debug_enabled (cpu s) = true) by (subst watch; by intros [? _]%andb_prop).
  clearbody watch.
  set (s0 := Build_Machine (with_resume None (cpu s)) (mem s) (host s)).
  assert (Hrun : running (cpu s) 0 s0).
  { destruct Hok as [Hc Hm]. pose proof (ok_steps _ Hc). split; [|done].
    split; try done; [split; [|done]; destruct Hc; by split|].
    cbn. by rewrite Z.add_0_r, wrap_small. }
  assert (Hloop : triple (fun s' => 0 <= 0 <= budget /\ running (cpu s) 0 s'
                            /\ skip_ok (cpu s) watch 0 (resume_past_breakpoint (cpu s)))
    (em_loop (outer_step watch budget) (Z.to_pos (budget + 1)) (0, resume_past_breakpoint (cpu s)))
    (slice_post (cpu s) budget) (fun _ _ => False)).
  { apply (triple_em_loop (outer_step watch budget)
      (fun v s' => 0 <= v.1 <= budget /\ running (cpu s) v.1 s' /\ skip_ok (cpu s) watch v.1 v.2)
      (fun v => budget - v.1) (slice_post (cpu s) budget) (fun _ _ => False)
      (Z.to_pos (budget + 1)) (0, resume_past_breakpoint (cpu s))).
    - intros v. by apply outer_step_triple.
    - cbn [fst]. lia. }
  specialize (Hloop s0 (conj (conj (Z.le_refl 0) Hb) (conj Hrun (or_introl (conj eq_refl eq_refl))))).
  unfold mbind, EM_bind. destruct (em_loop _ _ _ s0) as [[st n] s'|e s'|]; done.
Qed.
End Slices.

(** ** A concrete machine

    [li a0, 5; li a7, 93; ecall] at [0x1000], on the native host. *)

Definition word_bytes (w : Z) : list Z := [le_byte w 0; le_byte w 1; le_byte w 2; le_byte w 3].
Definition demo_program : list Z :=
  flat_map word_bytes [encode_i OP_IMM A0 0 0 5; encode_i OP_IMM A7 0 0 93; encode_i OP_SYSTEM 0 0 0 0].
Definition demo_machine : Machine (MockHost unit) Memory :=
  Build_Machine (with_pc 0x1000 Cpu_new) (set_bytes Memory_new 0x1000 demo_program) mock_host0.

Lemma demo_ok : machine_ok demo_machine.
Proof.
  split; cbn [demo_machine cpu mem].
  - apply with_pc_ok; [apply Cpu_new_ok|concrete].
  - apply set_bytes_ok; [concrete|vm_compute; done| |apply Memory_new_ok].
    unfold demo_program. repeat constructor; apply le_byte_u8.
Qed.

(** * Properties *)

Section Theorems.
Context {H Mem : Type} `{HostOps H} `{!HostReads H} `{!MemoryOps H Mem} `{!MemoryLaws H Mem}.
Context `{BuildProfile} `{FloatEnv}.

(** What executing one instruction may do: it completes, or it fails with the
    program counter where it was; never a panic, and the type invariant and the
    run-control state are kept. *)
Definition instruction_ok (s : Machine H Mem) (o : outcome (Machine H Mem) CpuError unit) : Prop :=
  match o with
  | Ok _ s' => machine_ok s' /\ same_control (cpu s) (cpu s')
  | Err _ s' => machine_ok s' /\ same_control (cpu s) (cpu s') /\ pc (cpu s') = pc (cpu s)
  | Panic => False
  end.

(** C4: Instruction execution is memory- and type-safe.  From a well-formed
    machine, over any memory that satisfies [MemoryLaws] and any host whose reads
    are bounded, executing an arbitrary 32-bit word or an arbitrary halfword never
    panics (no index out of bounds, no oversized shift, no bad slice): the result
    is a well-formed machine again (32 registers of 32 bits with [x0 = 0], 32
    floating-point registers, CSRs in range), on an error the program counter has
    not moved, and breakpoints, debug flags, step counter and trap flag are
    untouched. *)
Theorem execute_safe (s : Machine H Mem) w :
  overflow_checks = false -> machine_ok s -> is_u 32 w ->
  instruction_ok s (execute_inst32 w s) /\ instruction_ok s (execute_inst16 (u16 w) s).
Proof.
  intros Hr Hok Hw. pose proof (good_self s Hok) as Hg. split.
  - pose proof (execute_inst32_triple w (cpu s) Hr Hw s Hg) as Ht.
    destruct (execute_inst32 w s); [done| |done]. by destruct Ht.
  - pose proof (execute_inst16_triple (u16 w) (cpu s) (u16_range w) s Hg) as Ht.
    destruct (execute_inst16 (u16 w) s); [done| |done]. by destruct Ht.
Qed.

(** C6: A slice always returns, within its budget, with an accurate status.  For
    every budget the two nested loops terminate without a panic; at most [budget]
    instructions are executed and the step counter grows by exactly the number
    reported; breakpoints and debug flags are unchanged.  [Running] means the whole
    budget was used and the guest is not halted; [Halted] that it is halted;
    [Trapped] that it is halted with the trap flag and exit code 134 and that the
    faulting instruction was not counted; [Breakpoint] that the program counter is
    at an enabled breakpoint, remembered for the next slice. *)
Theorem run_slice_total (s : Machine H Mem) budget :
  overflow_checks = false -> machine_ok s -> is_u 32 budget ->
  exists o s', run_slice budget s = Ok o s' /\ machine_ok s'
    /\ 0 <= steps o <= budget
    /\ step_counter (cpu s') = u64 (step_counter (cpu s) + steps o)
    /\ out_pc o = pc (cpu s') /\ out_exit_code o = exit_code (cpu s')
    /\ debug_enabled (cpu s') = debug_enabled (cpu s)
    /\ breakpoints (cpu s') = breakpoints (cpu s)
    /\ status_post (cpu s) (status o) (cpu s')
    /\ match status o with
       | Running => steps o = budget
       | Halted => True
       | Trapped | Breakpoint => steps o < budget
       end.
Proof.
  intros Hr Hok [Hb _]. pose proof (run_slice_triple Hr (cpu s) budget Hb s (conj Hok eq_refl)) as Ht.
  destruct (run_slice budget s) as [o s'|e s'|]; [|done..].
  destruct Ht as [(Hn & ([Hin Hd Hbr Hc Hst] & Hpost & _) & Hm) [Hp He]]. cbn [fst snd] in *.
  exists o, s'. split_and!; done || lia.
Qed.

(** C31: A breakpoint cannot stall a run.  After a slice that stopped at a
    breakpoint, the next slice never reports the same address again without having
    executed an instruction, so a host (or [run]) that resumes always leaves the
    breakpoint. *)
Theorem breakpoint_progress (s s1 s2 : Machine H Mem) b1 b2 o1 o2 :
  overflow_checks = false -> machine_ok s -> is_u 32 b1 -> is_u 32 b2 ->
  run_slice b1 s = Ok o1 s1 -> status o1 = Breakpoint ->
  run_slice b2 s1 = Ok o2 s2 -> status o2 = Breakpoint -> out_pc o2 = out_pc o1 ->
  0 < steps o2.
Proof.
  intros Hr Hok [Hb1 _] [Hb2 _] E1 S1 E2 S2 Hpc.
  pose proof (run_slice_triple Hr (cpu s) b1 Hb1 s (conj Hok eq_refl)) as T1. rewrite E1 in T1.
  destruct T1 as [(_ & (Hin1 & P1 & _) & _) [Hp1 _]]. cbn [fst snd] in *. rewrite S1 in P1.
  destruct P1 as (_ & _ & _ & _ & Hres).
  pose proof (run_slice_triple Hr (cpu s1) b2 Hb2 s1 (conj (in_ok _ _ _ Hin1) eq_refl)) as T2. rewrite E2 in T2.
  destruct T2 as [(Hn & (_ & _ & Hz) & _) [Hp2 _]]. cbn [fst snd] in *.
  destruct (decide (steps o2 = 0)) as [E0|]; [|lia].
  destruct (Hz S2 E0). congruence.
Qed.
End Theorems.

(** ** The hypotheses hold on the concrete machine *)

#[local] Existing Instance release_profile.
#[local] Existing Instance default_float_env.

Lemma release_ok : @overflow_checks release_profile = false.
Proof. reflexivity. Qed.

Lemma execute_safe_witness :
  instruction_ok demo_machine (execute_inst32 0x00500513 demo_machine).
Proof. exact (proj1 (execute_safe demo_machine 0x00500513 release_ok demo_ok ltac:(concrete))). Defined.

Lemma run_slice_total_witness :
  exists o s', run_slice 100 demo_machine = Ok o s' /\ status o = Halted /\ steps o = 3
    /\ 0 <= steps o <= 100.
Proof.
  destruct (run_slice_total demo_machine 100 release_ok demo_ok ltac:(concrete)) as (o & s' & E & _ & Hn & _).
  exists o, s'. split; [exact E|].
  assert (Hv : match run_slice 100 demo_machine with
               | Ok o' _ => status o' = Halted /\ steps o' = 3 | _ => False end)
    by (vm_compute; split; reflexivity).
  rewrite E in Hv. destruct Hv as [Hs Ht]. split; [exact Hs|]. split; [exact Ht|exact Hn].
Defined.

(** The same program with a breakpoint on a one-instruction loop. *)
Definition loop_machine : Machine (MockHost unit) Memory :=
  Build_Machine (with_breakpoints {[0x1000]} (with_debug true (with_pc 0x1000 Cpu_new)))
    (set_bytes Memory_new 0x1000 (word_bytes (encode_j OP_JAL 0 0))) mock_host0.

Lemma loop_ok : machine_ok loop_machine.
Proof.
  split; cbn [loop_machine cpu mem].
  - pose proof (with_pc_ok Cpu_new 0x1000 Cpu_new_ok ltac:(concrete)) as Hc. destruct Hc. by split.
  - apply set_bytes_ok; [concrete|vm_compute; done| |apply Memory_new_ok].
    repeat constructor; apply le_byte_u8.
Qed.

Lemma breakpoint_progress_witness :
  match run_slice 10 loop_machine with
  | Ok o1 s1 =>
    status o1 = Breakpoint /\
    match run_slice 10 s1 with Ok o2 _ => status o2 = Breakpoint /\ 0 < steps o2 | _ => False end
  | _ => False
  end.
Proof.
  destruct (run_slice 10 loop_machine) as [o1 s1|[]|] eqn:E1; [|vm_compute in E1; discriminate E1].
  assert (S1 : status o1 = Breakpoint) by (vm_compute in E1; injection E1 as <- _; reflexivity).
  assert (V : match run_slice 10 loop_machine with
      | Ok o1 s1 => match run_slice 10 s1 with
                    | Ok o2 _ => status o2 = Breakpoint /\ out_pc o2 = out_pc o1 | _ => False end
      | _ => False end) by (vm_compute; split; reflexivity).
  rewrite E1 in V. split; [exact S1|].
  destruct (run_slice 10 s1) as [o2 s2|[]|] eqn:E2; [|destruct V]. destruct V as [S2 Hp].
  split; [exact S2|].
  exact (breakpoint_progress loop_machine s1 s2 10 10 o1 o2 release_ok loop_ok ltac:(concrete)
    ltac:(concrete) E1 S1 E2 S2 Hp).
Defined.
