(* ===== verification/IsaSpec.v ===== *)
(** The RV32IM integer instructions as the manual describes them, and the theorem
    that decoding and executing their encodings does that.

    [instr] is an assembly-level instruction, [assemble] its encoding, [isa_exec] its
    effect on the registers and the program counter, written with mathematical
    integers: two's-complement values are [i32], products and quotients are those of
    [Z], results are taken modulo [2^32]. *)

From S2P Require Import Prelude Bits Inst Fmt Host Memory MemoryProps Float Cpu Syscall Exec Safe SafeExec.

Inductive alu := ADD | SUB | SLL | SLT | SLTU | XOR | SRL | SRA | OR | AND
               | MUL | MULH | MULHSU | MULHU | DIV | DIVU | REM | REMU.
Inductive alui := ADDI | SLTI | SLTIU | XORI | ORI | ANDI.
Inductive shifti := SLLI | SRLI | SRAI.
Inductive branch := BEQ | BNE | BLT | BGE | BLTU | BGEU.

(** [funct7] and [funct3]. *)
Definition alu_code (op : alu) : Z * Z :=
  match op with
  | ADD => (0, 0) | SUB => (0x20, 0) | SLL => (0, 1) | SLT => (0, 2) | SLTU => (0, 3)
  | XOR => (0, 4) | SRL => (0, 5) | SRA => (0x20, 5) | OR => (0, 6) | AND => (0, 7)
  | MUL => (1, 0) | MULH => (1, 1) | MULHSU => (1, 2) | MULHU => (1, 3)
  | DIV => (1, 4) | DIVU => (1, 5) | REM => (1, 6) | REMU => (1, 7)
  end.
Definition alui_code (op : alui) : Z :=
  match op with ADDI => 0 | SLTI => 2 | SLTIU => 3 | XORI => 4 | ORI => 6 | ANDI => 7 end.
Definition shifti_code (op : shifti) : Z * Z :=
  match op with SLLI => (0, 1) | SRLI => (0, 5) | SRAI => (0x20, 5) end.
Definition branch_code (op : branch) : Z :=
  match op with BEQ => 0 | BNE => 1 | BLT => 4 | BGE => 5 | BLTU => 6 | BGEU => 7 end.

Definition alu_sem (op : alu) (a b : Z) : Z :=
  let sa := i32 a in
  let sb := i32 b in
  match op with
  | ADD => (a + b) mod 2 ^ 32
  | SUB => (a - b) mod 2 ^ 32
  | SLL => (a * 2 ^ (b mod 32)) mod 2 ^ 32
  | SLT => if sa <? sb then 1 else 0
  | SLTU => if a <? b then 1 else 0
  | XOR => Z.lxor a b
  | SRL => a / 2 ^ (b mod 32)
  | SRA => (sa / 2 ^ (b mod 32)) mod 2 ^ 32
  | OR => Z.lor a b
  | AND => Z.land a b
  | MUL => (a * b) mod 2 ^ 32
  | MULH => (sa * sb / 2 ^ 32) mod 2 ^ 32
  | MULHSU => (sa * b / 2 ^ 32) mod 2 ^ 32
  | MULHU => a * b / 2 ^ 32
  | DIV => if b =? 0 then 2 ^ 32 - 1 else Z.quot sa sb mod 2 ^ 32
  | DIVU => if b =? 0 then 2 ^ 32 - 1 else a / b
  | REM => if b =? 0 then a else Z.rem sa sb mod 2 ^ 32
  | REMU => if b =? 0 then a else a mod b
  end.

(** An immediate instruction is its register form on the sign-extended immediate. *)
Definition alui_op (op : alui) : alu :=
  match op with
  | ADDI => ADD | SLTI => SLT | SLTIU => SLTU | XORI => XOR | ORI => OR | ANDI => AND
  end.
Definition shifti_op (op : shifti) : alu :=
  match op with SLLI => SLL | SRLI => SRL | SRAI => SRA end.

Definition branch_sem (op : branch) (a b : Z) : bool :=
  match op with
  | BEQ => a =? b
  | BNE => negb (a =? b)
  | BLT => i32 a <? i32 b
  | BGE => negb (i32 a <? i32 b)
  | BLTU => a <? b
  | BGEU => negb (a <? b)
  end.

Inductive instr :=
| Lui (rd imm : Z)
| Auipc (rd imm : Z)
| Jal (rd off : Z)
| Jalr (rd rs1 off : Z)
| Branch (op : branch) (rs1 rs2 off : Z)
| OpImm (op : alui) (rd rs1 imm : Z)
| ShiftImm (op : shifti) (rd rs1 shamt : Z)
| Op (op : alu) (rd rs1 rs2 : Z)
| Fence.

Definition to_asm (i : instr) : asm32 :=
  match i with
  | Lui rd imm => FmtU OP_LUI rd imm
  | Auipc rd imm => FmtU OP_AUIPC rd imm
  | Jal rd off => FmtJ OP_JAL rd off
  | Jalr rd rs1 off => FmtI OP_JALR rd 0 rs1 off
  | Branch op rs1 rs2 off => FmtB OP_BRANCH (branch_code op) rs1 rs2 off
  | OpImm op rd rs1 imm => FmtI OP_IMM rd (alui_code op) rs1 imm
  | ShiftImm op rd rs1 shamt =>
    FmtR OP_IMM rd (shifti_code op).2 rs1 shamt (shifti_code op).1
  | Op op rd rs1 rs2 => FmtR OP_OP rd (alu_code op).2 rs1 rs2 (alu_code op).1
  | Fence => FmtI OP_MISC_MEM 0 0 0 0
  end.
Definition assemble (i : instr) : Z := encode32 (to_asm i).

(** Register [r] of a CPU, and its update; [x0] is constant. *)
Definition X (c : Cpu) (r : Z) : Z := nth (Z.to_nat r) (regs c) 0.
Definition set_X (r v : Z) (c : Cpu) : Cpu :=
  if r =? 0 then c else with_regs (<[Z.to_nat r := v]> (regs c)) c.

Definition isa_exec (i : instr) (c : Cpu) : Cpu :=
  let next := (pc c + 4) mod 2 ^ 32 in
  match i with
  | Lui rd imm => with_pc next (set_X rd imm c)
  | Auipc rd imm => with_pc next (set_X rd ((pc c + imm) mod 2 ^ 32) c)
  | Jal rd off => with_pc ((pc c + off) mod 2 ^ 32) (set_X rd next c)
  | Jalr rd rs1 off =>
    let t := (X c rs1 + off) mod 2 ^ 32 in
    with_pc (t - t mod 2) (set_X rd next c)
  | Branch op rs1 rs2 off =>
    with_pc (if branch_sem op (X c rs1) (X c rs2) then (pc c + off) mod 2 ^ 32 else next) c
  | OpImm op rd rs1 imm =>
    with_pc next (set_X rd (alu_sem (alui_op op) (X c rs1) (imm mod 2 ^ 32)) c)
  | ShiftImm op rd rs1 shamt =>
    with_pc next (set_X rd (alu_sem (shifti_op op) (X c rs1) shamt) c)
  | Op op rd rs1 rs2 => with_pc next (set_X rd (alu_sem op (X c rs1) (X c rs2)) c)
  | Fence => with_pc next c
  end.

(** ** The code's arithmetic is the manual's *)

Lemma u32_i32 x : u32 (i32 x) = u32 x.
Proof.
  unfold wrap, sext. rewrite <- Zminus_mod_idemp_l, Zmod_mod, Zminus_mod_idemp_l. f_equal. lia.
Qed.

Lemma i32_u32 x : i32 (u32 x) = i32 x.
Proof. unfold wrap, sext. by rewrite Zplus_mod_idemp_l. Qed.

Lemma i32_small x : is_i 32 x -> i32 x = x.
Proof. unfold is_i, sext. intros. rewrite Z.mod_small; lia. Qed.

Lemma i64_small x : - 2 ^ 63 <= x < 2 ^ 63 -> i64 x = x.
Proof. unfold sext. intros. rewrite Z.mod_small; lia. Qed.

Lemma i32_is_i x : is_i 32 (i32 x).
Proof. by apply sext_is_i. Qed.

Lemma wrapping_add_mod a b : wrapping_add a (u32 b) = (a + b) mod 2 ^ 32.
Proof. unfold wrapping_add, wrap. by rewrite Zplus_mod_idemp_r. Qed.

Lemma land31_mod b : b .& 0x1F = b mod 32.
Proof. change 0x1F with (Z.ones 5). by rewrite Z.land_ones. Qed.

Lemma u32_land x : u32 (x .& 0xFFFFFFFF) = x mod 2 ^ 32.
Proof. change 0xFFFFFFFF with (Z.ones 32). rewrite Z.land_ones by lia. apply Zmod_mod. Qed.

Lemma alu_op_sem op a b :
  is_u 32 a -> is_u 32 b -> (alu_code op).1 <> 1 ->
  alu_op (alu_code op).1 (alu_code op).2 a b = Some (alu_sem op a b).
Proof.
  intros Ha Hb Hop. pose proof (Z.mod_pos_bound b 32).
  destruct op; try done; unfold alu_op, alu_sem; cbn [alu_code fst snd Z.eqb andb];
    rewrite ?land31_mod, ?Z.shiftl_mul_pow2, ?Z.shiftr_div_pow2 by lia; done.
Qed.

Lemma alu_mul_sem op a b :
  is_u 32 a -> is_u 32 b -> (alu_code op).1 = 1 ->
  mul_op (alu_code op).2 a b = Some (alu_sem op a b).
Proof.
  intros Ha Hb Hop. pose proof (i32_is_i a) as Hsa. pose proof (i32_is_i b) as Hsb.
  unfold is_u, is_i in *.
  assert (Hu : forall x, is_u 32 x -> u64 x = x).
  { intros x Hx. apply wrap_small. revert Hx. apply is_u_mono. lia. }
  destruct op; try done; unfold mul_op, alu_sem; cbn [alu_code snd Z.eqb]; f_equal.
  - rewrite !(i64_small (i32 _)), i64_small by nia. by rewrite u32_land, Z.shiftr_div_pow2.
  - rewrite Hu by done. rewrite !(i64_small (i32 a)), !(i64_small b), i64_small by nia.
    by rewrite u32_land, Z.shiftr_div_pow2.
  - rewrite (Hu a), (Hu b) by done. rewrite (wrap_small 64 (a * b)) by (unfold is_u; nia).
    rewrite u32_land, Z.shiftr_div_pow2 by lia. apply Z.mod_small.
    split; [apply Z.div_pos; nia|]. apply Z.div_lt_upper_bound; nia.
  - destruct (b =? 0); [done|]. unfold wrapping_div. apply u32_i32.
  - destruct (b =? 0); [done|]. unfold wrapping_rem. apply u32_i32.
Qed.

Lemma alu_imm_sem op f7 sh a imm :
  is_i 12 imm ->
  alu_imm (alui_code op) f7 a imm sh = Some (alu_sem (alui_op op) a (imm mod 2 ^ 32)).
Proof.
  intros Hi. assert (Hs : i32 (imm mod 2 ^ 32) = imm).
  { change (i32 (u32 imm) = imm). rewrite i32_u32. apply i32_small. unfold is_i in *. lia. }
  destruct op; unfold alu_imm, alu_sem; cbn [alui_code alui_op Z.eqb]; rewrite ?Hs; done.
Qed.

Lemma alu_shift_sem op a imm sh :
  is_u 5 sh ->
  alu_imm (shifti_code op).2 (shifti_code op).1 a imm sh = Some (alu_sem (shifti_op op) a sh).
Proof.
  unfold is_u. intros Hs. assert (Hm : sh mod 32 = sh) by (apply Z.mod_small; lia).
  destruct op; unfold alu_imm, alu_sem; cbn [shifti_code shifti_op fst snd Z.eqb];
    rewrite Hm, ?Z.shiftl_mul_pow2, ?Z.shiftr_div_pow2 by lia; done.
Qed.

Lemma branch_taken_sem op a b : branch_taken (branch_code op) a b = Some (branch_sem op a b).
Proof.
  destruct op; unfold branch_taken, branch_sem; cbn [branch_code Z.eqb]; try done;
    f_equal; apply Z.leb_antisym.
Qed.

(** ** Execution *)

Definition instr_ok (i : instr) : Prop := asm32_ok (to_asm i).

Lemma X_ok c r : cpu_ok c -> is_u 5 r -> is_u 32 (X c r).
Proof.
  intros Hc Hr. destruct (idx_ok (regs c) 32 r) as (v & Hv & Hu); [apply Hc..|done|].
  unfold X, idx in *. by rewrite (nth_lookup_Some _ _ _ _ Hv).
Qed.

Lemma Cpu_read_reg_X c r : cpu_ok c -> is_u 5 r -> Cpu_read_reg c r = Some (X c r).
Proof.
  intros Hc Hr. unfold Cpu_read_reg, X. destruct (Z.eqb_spec r 0) as [->|].
  - by rewrite (nth_lookup_Some _ _ _ _ (ok_x0 _ Hc)).
  - destruct (idx_ok (regs c) 32 r) as (v & Hv & _); [apply Hc..|done|].
    rewrite Hv. unfold idx in Hv. by rewrite (nth_lookup_Some _ _ _ _ Hv).
Qed.

Lemma Cpu_write_reg_X c r v : cpu_ok c -> is_u 5 r -> Cpu_write_reg c r v = Some (set_X r v c).
Proof.
  intros Hc Hr. unfold Cpu_write_reg, set_X. destruct (r =? 0); [done|]. cbn [negb].
  by rewrite upd_ok by (apply Hc || done).
Qed.

Lemma set_X_ok r v c : cpu_ok c -> is_u 5 r -> is_u 32 v -> cpu_ok (set_X r v c).
Proof.
  intros Hc Hr Hv. destruct (Cpu_write_reg_ok c r v Hc Hr Hv) as (c' & E & Hc' & _).
  rewrite Cpu_write_reg_X in E by done. by injection E as <-.
Qed.

Lemma set_X_pc r v c : pc (set_X r v c) = pc c.
Proof. unfold set_X. by destruct (r =? 0). Qed.

Section RunInstr.
Context {H Mem : Type} `{HostOps H} `{!MemoryOps H Mem} `{BuildProfile} `{FloatEnv}.
Implicit Types s : Machine H Mem.

Definition on_cpu (f : Cpu -> Cpu) s : Machine H Mem := Build_Machine (f (cpu s)) (mem s) (host s).

Lemma read_reg_run {E A} r (f : Z -> EM (Machine H Mem) E A) s :
  cpu_ok (cpu s) -> is_u 5 r -> (read_reg r ≫= f) s = f (X (cpu s) r) s.
Proof.
  intros. unfold read_reg, try_gets, mbind, EM_bind. by rewrite Cpu_read_reg_X.
Qed.

Lemma write_reg_last {E} r v s :
  cpu_ok (cpu s) -> is_u 5 r -> write_reg (E:=E) r v s = Ok tt (on_cpu (set_X r v) s).
Proof. intros. unfold write_reg, try_cpu. by rewrite Cpu_write_reg_X. Qed.

Lemma write_reg_run {E A} r v (f : unit -> EM (Machine H Mem) E A) s :
  cpu_ok (cpu s) -> is_u 5 r -> (write_reg r v ≫= f) s = f tt (on_cpu (set_X r v) s).
Proof. intros. unfold mbind, EM_bind. by rewrite write_reg_last. Qed.

Lemma get_cpu_run {E A} (f : Cpu -> EM (Machine H Mem) E A) s : (get_cpu ≫= f) s = f (cpu s) s.
Proof. done. Qed.

Lemma em_bind_ok {E A B} (m : EM (Machine H Mem) E A) (f : A -> EM (Machine H Mem) E B) s a s' :
  m s = Ok a s' -> (m ≫= f) s = f a s'.
Proof. intros Hm. unfold mbind, EM_bind. by rewrite Hm. Qed.

Lemma execute_inst32_run w s p s' :
  dispatch32 (decode32 w) (wrapping_add (pc (cpu s)) 4) s = Ok p s' ->
  execute_inst32 w s = Ok tt (on_cpu (with_pc p) s').
Proof.
  intros Hd. unfold execute_inst32. cbv zeta. rewrite get_cpu_run. by rewrite (em_bind_ok _ _ _ _ _ Hd).
Qed.

(** Opcode tests on a decoded instruction whose opcode is known. *)
Lemma dispatch32_rv32i d npc :
  is_rv32i_opcode (opcode d) = true \/ opcode d = OP_OP /\ funct7 d <> 1 ->
  dispatch32 d npc = exec_rv32i d npc.
Proof.
  intros [Hop|[Hop H7]]; unfold dispatch32; cbv zeta.
  - destruct (Z.eqb_spec (opcode d) OP_OP) as [E|_]; [by rewrite E in Hop|]. by rewrite Hop.
  - rewrite Hop. cbn [Z.eqb Pos.eqb OP_OP]. by destruct (Z.eqb_spec (funct7 d) 1).
Qed.

Lemma dispatch32_rv32m d npc :
  opcode d = OP_OP -> funct7 d = 1 -> dispatch32 d npc = (exec_rv32m d;; mret npc).
Proof. intros Hop H7. unfold dispatch32. by rewrite Hop, H7. Qed.

(** The result of dispatching, from the CPU it leaves and the next [pc]. *)
Lemma execute_by_dispatch w s p f :
  dispatch32 (decode32 w) (wrapping_add (pc (cpu s)) 4) s = Ok p (on_cpu f s) ->
  execute_inst32 w s = Ok tt (on_cpu (fun c => with_pc p (f c)) s).
Proof. intros Hd. by rewrite (execute_inst32_run _ _ _ _ Hd). Qed.

Lemma on_cpu_id s : on_cpu (fun c => c) s = s.
Proof. by destruct s. Qed.
End RunInstr.

Ltac is_pos_lit p :=
  lazymatch p with xH => idtac | xO ?q => is_pos_lit q | xI ?q => is_pos_lit q end.
Ltac is_Z_lit z :=
  lazymatch z with Z0 => idtac | Zpos ?p => is_pos_lit p | Zneg ?p => is_pos_lit p end.

(** Evaluates comparisons of literals and opcodes. *)
Ltac decide_consts :=
  repeat match goal with
  | |- context [?a =? ?b] =>
    let a' := eval cbv [OP_LUI OP_AUIPC OP_JAL OP_JALR OP_BRANCH OP_LOAD OP_STORE OP_IMM OP_OP
      OP_MISC_MEM OP_SYSTEM OP_AMO OP_LOAD_FP OP_STORE_FP OP_MADD OP_MSUB OP_NMSUB OP_NMADD OP_OP_FP] in a in
    let b' := eval cbv [OP_LUI OP_AUIPC OP_JAL OP_JALR OP_BRANCH OP_LOAD OP_STORE OP_IMM OP_OP
      OP_MISC_MEM OP_SYSTEM OP_AMO OP_LOAD_FP OP_STORE_FP OP_MADD OP_MSUB OP_NMSUB OP_NMADD OP_OP_FP] in b in
    is_Z_lit a'; is_Z_lit b';
    let v := eval vm_compute in (a' =? b') in change (a =? b) with v
  end; cbv iota.

(** Runs the register accesses at the head of a computation. *)
Ltac run_regs :=
  repeat first
    [ rewrite read_reg_run by eauto with range
    | rewrite write_reg_run by eauto with range
    | rewrite get_cpu_run ]; cbv zeta.

Section Refine.
Context {H Mem : Type} `{HostOps H} `{!MemoryOps H Mem} `{BuildProfile} `{FloatEnv}.
Implicit Types s : Machine H Mem.

Lemma exec_lui d npc s imm :
  cpu_ok (cpu s) -> is_u 5 (rd d) -> opcode d = OP_LUI -> u_imm d = imm ->
  dispatch32 d npc s = Ok npc (on_cpu (set_X (rd d) imm) s).
Proof.
  intros Hc Hd Hop <-. rewrite dispatch32_rv32i by (left; by rewrite Hop).
  unfold exec_rv32i. rewrite Hop. decide_consts. by run_regs.
Qed.

Lemma exec_auipc d npc s imm :
  cpu_ok (cpu s) -> is_u 5 (rd d) -> opcode d = OP_AUIPC -> u_imm d = imm ->
  dispatch32 d npc s = Ok npc (on_cpu (fun c => set_X (rd d) ((pc c + imm) mod 2 ^ 32) c) s).
Proof.
  intros Hc Hd Hop <-. rewrite dispatch32_rv32i by (left; by rewrite Hop).
  unfold exec_rv32i. rewrite Hop. decide_consts. by run_regs.
Qed.

Lemma exec_jal d npc s :
  cpu_ok (cpu s) -> is_u 5 (rd d) -> opcode d = OP_JAL ->
  dispatch32 d npc s = Ok ((pc (cpu s) + j_imm d) mod 2 ^ 32) (on_cpu (set_X (rd d) npc) s).
Proof.
  intros Hc Hd Hop. rewrite dispatch32_rv32i by (left; by rewrite Hop).
  unfold exec_rv32i. rewrite Hop. decide_consts. run_regs.
  cbn [cpu on_cpu mret EM_ret]. by rewrite set_X_pc, wrapping_add_mod.
Qed.

Lemma land_not1 t : is_u 32 t -> t .& not_u 32 1 = t - t mod 2.
Proof.
  intros Ht. unfold not_u. change (2 ^ 32 - 1 - 1) with 0xFFFFFFFE.
  assert (E : t .& 0xFFFFFFFE = (t .>> 1) .<< 1) by bits.
  rewrite E, Z.shiftl_mul_pow2, Z.shiftr_div_pow2 by lia.
  pose proof (Z.div_mod t 2). change (2 ^ 1) with 2. lia.
Qed.

Lemma exec_jalr d npc s :
  cpu_ok (cpu s) -> is_u 5 (rd d) -> is_u 5 (rs1 d) -> opcode d = OP_JALR ->
  let t := (X (cpu s) (rs1 d) + i_imm d) mod 2 ^ 32 in
  dispatch32 d npc s = Ok (t - t mod 2) (on_cpu (set_X (rd d) npc) s).
Proof.
  intros Hc Hd Hs1 Hop t. rewrite dispatch32_rv32i by (left; by rewrite Hop).
  unfold exec_rv32i. rewrite Hop. decide_consts. run_regs.
  rewrite wrapping_add_mod, land_not1 by (apply wrap_is_u; lia). done.
Qed.

Lemma exec_branch d npc s op :
  cpu_ok (cpu s) -> is_u 5 (rs1 d) -> is_u 5 (rs2 d) -> opcode d = OP_BRANCH ->
  funct3 d = branch_code op ->
  dispatch32 d npc s =
    Ok (if branch_sem op (X (cpu s) (rs1 d)) (X (cpu s) (rs2 d))
        then (pc (cpu s) + b_imm d) mod 2 ^ 32 else npc) s.
Proof.
  intros Hc Hs1 Hs2 Hop Hf3. rewrite dispatch32_rv32i by (left; by rewrite Hop).
  unfold exec_rv32i. rewrite Hop. decide_consts. run_regs.
  rewrite Hf3, branch_taken_sem. unfold mbind, EM_bind. cbn [or_illegal mret EM_ret].
  destruct (branch_sem op _ _); [|done]. by rewrite <- wrapping_add_mod.
Qed.

Lemma exec_op_imm d npc s v :
  cpu_ok (cpu s) -> is_u 5 (rd d) -> is_u 5 (rs1 d) -> opcode d = OP_IMM ->
  alu_imm (funct3 d) (funct7 d) (X (cpu s) (rs1 d)) (i_imm d) (rs2 d .& 0x1F) = Some v ->
  dispatch32 d npc s = Ok npc (on_cpu (set_X (rd d) v) s).
Proof.
  intros Hc Hd Hs1 Hop Hv. rewrite dispatch32_rv32i by (left; by rewrite Hop).
  unfold exec_rv32i. rewrite Hop. decide_consts. run_regs. rewrite Hv.
  cbn [or_illegal]. rewrite (em_bind_ok _ _ _ v s) by done. by run_regs.
Qed.

Lemma exec_op d npc s op :
  cpu_ok (cpu s) -> is_u 5 (rd d) -> is_u 5 (rs1 d) -> is_u 5 (rs2 d) -> opcode d = OP_OP ->
  funct7 d = (alu_code op).1 -> funct3 d = (alu_code op).2 ->
  dispatch32 d npc s =
    Ok npc (on_cpu (set_X (rd d) (alu_sem op (X (cpu s) (rs1 d)) (X (cpu s) (rs2 d)))) s).
Proof.
  intros Hc Hd Hs1 Hs2 Hop Hf7 Hf3. destruct (decide (funct7 d = 1)) as [E|E].
  - rewrite dispatch32_rv32m by done. unfold exec_rv32m. rewrite Hf7 in E.
    unfold mbind at 1, EM_bind at 1. run_regs.
    rewrite Hf3, alu_mul_sem by (done || by apply X_ok). cbn [or_illegal].
    rewrite (em_bind_ok _ _ _ _ s) by done. rewrite write_reg_last by done. done.
  - rewrite dispatch32_rv32i by (right; done). unfold exec_rv32i. rewrite Hop. decide_consts. run_regs.
    rewrite Hf7 in E |- *. rewrite Hf3, alu_op_sem by (done || by apply X_ok). cbn [or_illegal].
    rewrite (em_bind_ok _ _ _ _ s) by done. by run_regs.
Qed.

Lemma exec_fence d npc s : opcode d = OP_MISC_MEM -> dispatch32 d npc s = Ok npc s.
Proof.
  intros Hop. rewrite dispatch32_rv32i by (left; by rewrite Hop).
  unfold exec_rv32i. rewrite Hop. by decide_consts.
Qed.
End Refine.

Lemma assemble_is_u32 i : instr_ok i -> is_u 32 (assemble i).
Proof.
  unfold instr_ok, assemble. destruct (to_asm i); cbn [asm32_ok encode32].
  all: unfold encode_r, encode_i, encode_s, encode_b, encode_u, encode_j, encode_r4.
  all: intros; destruct_and?.
  all: try (pose proof (u32_range imm) as Hi; set (x := u32 imm) in *; clearbody x).
  all: bits_range.
Qed.

(** Decoding an encoded instruction: the fields, with register numbers in range. *)
Ltac decoded Hok :=
  match goal with
  | |- context [decode32 (encode32 ?a)] =>
    let Hd := fresh "Hd" in
    pose proof (decode_encode_lemma a Hok) as Hd; revert Hd; generalize (decode32 (encode32 a));
    let d := fresh "d" in intros d Hd; cbn [decodes_to] in Hd; cbn [asm32_ok] in Hok;
    destruct_and! Hd; destruct_and! Hok; subst
  end.

Section Asm.
Context {H Mem : Type} `{HostOps H} `{!MemoryOps H Mem} `{BuildProfile} `{FloatEnv}.
Context (s : Machine H Mem) (Hc : cpu_ok (cpu s)) (npc : Z).
Abbreviation run a := (dispatch32 (decode32 (encode32 a)) npc s).

Lemma asm_lui r imm :
  asm32_ok (FmtU OP_LUI r imm) -> run (FmtU OP_LUI r imm) = Ok npc (on_cpu (set_X r imm) s).
Proof. intros Hok. decoded Hok. by apply exec_lui. Qed.

Lemma asm_auipc r imm :
  asm32_ok (FmtU OP_AUIPC r imm) ->
  run (FmtU OP_AUIPC r imm) = Ok npc (on_cpu (fun c => set_X r ((pc c + imm) mod 2 ^ 32) c) s).
Proof. intros Hok. decoded Hok. by apply exec_auipc. Qed.

Lemma asm_jal r off :
  asm32_ok (FmtJ OP_JAL r off) ->
  run (FmtJ OP_JAL r off) = Ok ((pc (cpu s) + off) mod 2 ^ 32) (on_cpu (set_X r npc) s).
Proof. intros Hok. decoded Hok. by apply exec_jal. Qed.

Lemma asm_jalr r r1 off :
  asm32_ok (FmtI OP_JALR r 0 r1 off) ->
  let t := (X (cpu s) r1 + off) mod 2 ^ 32 in
  run (FmtI OP_JALR r 0 r1 off) = Ok (t - t mod 2) (on_cpu (set_X r npc) s).
Proof. intros Hok. decoded Hok. by apply exec_jalr. Qed.

Lemma asm_branch op r1 r2 off :
  asm32_ok (FmtB OP_BRANCH (branch_code op) r1 r2 off) ->
  run (FmtB OP_BRANCH (branch_code op) r1 r2 off) =
    Ok (if branch_sem op (X (cpu s) r1) (X (cpu s) r2) then (pc (cpu s) + off) mod 2 ^ 32 else npc) s.
Proof. intros Hok. decoded Hok. by apply exec_branch. Qed.

Lemma asm_op_imm op r r1 imm :
  asm32_ok (FmtI OP_IMM r (alui_code op) r1 imm) ->
  run (FmtI OP_IMM r (alui_code op) r1 imm) =
    Ok npc (on_cpu (set_X r (alu_sem (alui_op op) (X (cpu s) r1) (imm mod 2 ^ 32))) s).
Proof.
  intros Hok. decoded Hok. apply exec_op_imm; try done.
  match goal with E : funct3 _ = _ |- _ => rewrite E end. by apply alu_imm_sem.
Qed.

Lemma asm_shift op r r1 sh :
  asm32_ok (FmtR OP_IMM r (shifti_code op).2 r1 sh (shifti_code op).1) ->
  run (FmtR OP_IMM r (shifti_code op).2 r1 sh (shifti_code op).1) =
    Ok npc (on_cpu (set_X r (alu_sem (shifti_op op) (X (cpu s) r1) sh)) s).
Proof.
  intros Hok. decoded Hok. apply exec_op_imm; try done.
  match goal with E3 : funct3 _ = _, E7 : funct7 _ = _ |- _ => rewrite E3, E7 end.
  rewrite land31_mod, Z.mod_small by done. by apply alu_shift_sem.
Qed.

Lemma asm_op op r r1 r2 :
  asm32_ok (FmtR OP_OP r (alu_code op).2 r1 r2 (alu_code op).1) ->
  run (FmtR OP_OP r (alu_code op).2 r1 r2 (alu_code op).1) =
    Ok npc (on_cpu (set_X r (alu_sem op (X (cpu s) r1) (X (cpu s) r2))) s).
Proof. intros Hok. decoded Hok. by apply exec_op. Qed.

Lemma asm_fence :
  run (FmtI OP_MISC_MEM 0 0 0 0) = Ok npc s.
Proof. by apply exec_fence. Qed.
End Asm.

Section RefineAll.
Context {H Mem : Type} `{HostOps H} `{!MemoryOps H Mem} `{BuildProfile} `{FloatEnv}.

(** C1: Decoding and executing an integer instruction does what the manual says.
    For every RV32IM register, immediate, jump and branch instruction with
    encodable operands, and any memory and host, [execute_inst32] on its encoding
    succeeds, changes only the destination register and the program counter, and
    gives them the values of [isa_exec]: sums and shifts modulo [2^32], signed
    and unsigned comparisons, high halves of 64-bit products, quotients and
    remainders rounded towards zero with the manual's results for division by zero
    and overflow, link registers, and targets modulo [2^32]. *)
Theorem isa_refines (s : Machine H Mem) i :
  cpu_ok (cpu s) -> instr_ok i ->
  execute_inst32 (assemble i) s = Ok tt (Build_Machine (isa_exec i (cpu s)) (mem s) (host s)).
Proof.
  intros Hc Hi. change (Build_Machine (isa_exec i (cpu s)) (mem s) (host s)) with (on_cpu (isa_exec i) s).
  assert (Hex : forall p f,
    dispatch32 (decode32 (assemble i)) (wrapping_add (pc (cpu s)) 4) s = Ok p (on_cpu f s) ->
    with_pc p (f (cpu s)) = isa_exec i (cpu s) -> execute_inst32 (assemble i) s = Ok tt (on_cpu (isa_exec i) s)).
  { intros p f E Hf. rewrite (execute_by_dispatch _ _ _ _ E). unfold on_cpu. by rewrite Hf. }
  unfold assemble, instr_ok in *.
  destruct i; cbn [to_asm] in *.
  - eapply Hex; [by apply asm_lui|done].
  - eapply Hex; [by apply asm_auipc|done].
  - eapply Hex; [by apply asm_jal|done].
  - eapply Hex; [by apply asm_jalr|done].
  - eapply Hex with (f := fun c => c); [rewrite on_cpu_id; by apply asm_branch|done].
  - eapply Hex; [by apply asm_op_imm|done].
  - eapply Hex; [by apply asm_shift|done].
  - eapply Hex; [by apply asm_op|done].
  - eapply Hex with (f := fun c => c); [rewrite on_cpu_id; by apply asm_fence|done].
Qed.
End RefineAll.

(** ** The hypotheses hold: division overflow on a fresh machine *)

#[local] Existing Instance release_profile.
#[local] Existing Instance default_float_env.

Definition fresh_machine : Machine (MockHost unit) Memory :=
  Build_Machine Cpu_new Memory_new mock_host0.

Lemma isa_refines_witness :
  instr_ok (Op DIV 5 2 6) /\
  execute_inst32 (assemble (Op DIV 5 2 6)) fresh_machine
  = Ok tt (Build_Machine (isa_exec (Op DIV 5 2 6) Cpu_new) Memory_new mock_host0).
Proof.
  assert (Hi : instr_ok (Op DIV 5 2 6)) by (cbn; unfold is_u, OP_OP; lia).
  split; [exact Hi|]. exact (isa_refines fresh_machine (Op DIV 5 2 6) Cpu_new_ok Hi).
Defined.
