(* ===== verification/RvcProps.v ===== *)
(** Compressed instructions are abbreviations.

    [expand] is an expansion table: which 32-bit instruction a 16-bit one stands for,
    and which encodings stand for none.  It is the table of the manual, but for one
    group of code points: [c.lui] with destination [x0] and a non-zero immediate is a
    hint (no operation) there, and has no entry here, because the emulator, like its
    tests, treats it as reserved.  [execute_inst16] is shown to agree with the table
    on all code points. *)

From S2P Require Import Prelude Bits Inst Fmt Host Memory MemoryProps Float Cpu Syscall Exec Rvc Safe SafeExec IsaSpec.

(** Three-bit register fields name x8..x15. *)
Definition creg' (x lo : Z) : Z := 8 + slice x lo 3.

Definition c_imm (x : Z) : Z := sext 6 (slice x 12 1 .<< 5 + slice x 2 5).
Definition c_lw_uimm (x : Z) : Z := slice x 5 1 .<< 6 + slice x 10 3 .<< 3 + slice x 6 1 .<< 2.
Definition c_ld_uimm (x : Z) : Z := slice x 5 2 .<< 6 + slice x 10 3 .<< 3.
Definition c_lwsp_uimm (x : Z) : Z := slice x 2 2 .<< 6 + slice x 12 1 .<< 5 + slice x 4 3 .<< 2.
Definition c_ldsp_uimm (x : Z) : Z := slice x 2 3 .<< 6 + slice x 12 1 .<< 5 + slice x 5 2 .<< 3.
Definition c_swsp_uimm (x : Z) : Z := slice x 7 2 .<< 6 + slice x 9 4 .<< 2.
Definition c_sdsp_uimm (x : Z) : Z := slice x 7 3 .<< 6 + slice x 10 3 .<< 3.
Definition c_addi4spn_uimm (x : Z) : Z :=
  slice x 7 4 .<< 6 + slice x 11 2 .<< 4 + slice x 5 1 .<< 3 + slice x 6 1 .<< 2.
Definition c_addi16sp_imm (x : Z) : Z :=
  sext 10 (slice x 12 1 .<< 9 + slice x 3 2 .<< 7 + slice x 5 1 .<< 6 + slice x 2 1 .<< 5
           + slice x 6 1 .<< 4).
Definition c_j_imm (x : Z) : Z :=
  sext 12 (slice x 12 1 .<< 11 + slice x 8 1 .<< 10 + slice x 9 2 .<< 8 + slice x 6 1 .<< 7
           + slice x 7 1 .<< 6 + slice x 2 1 .<< 5 + slice x 11 1 .<< 4 + slice x 3 3 .<< 1).
Definition c_b_imm (x : Z) : Z :=
  sext 9 (slice x 12 1 .<< 8 + slice x 5 2 .<< 6 + slice x 2 1 .<< 5 + slice x 10 2 .<< 3
          + slice x 3 2 .<< 1).

Definition expand_q0 (x f3 : Z) : option asm32 :=
  let rd' := creg' x 2 in
  let rs1' := creg' x 7 in
  if f3 =? 0 then
    if c_addi4spn_uimm x =? 0 then None else Some (FmtI OP_IMM rd' 0 2 (c_addi4spn_uimm x))
  else if f3 =? 1 then Some (FmtI OP_LOAD_FP rd' 3 rs1' (c_ld_uimm x))
  else if f3 =? 2 then Some (FmtI OP_LOAD rd' 2 rs1' (c_lw_uimm x))
  else if f3 =? 3 then Some (FmtI OP_LOAD_FP rd' 2 rs1' (c_lw_uimm x))
  else if f3 =? 4 then None
  else if f3 =? 5 then Some (FmtS OP_STORE_FP 3 rs1' rd' (c_ld_uimm x))
  else if f3 =? 6 then Some (FmtS OP_STORE 2 rs1' rd' (c_lw_uimm x))
  else Some (FmtS OP_STORE_FP 2 rs1' rd' (c_lw_uimm x)).

Definition expand_alu (x : Z) : option asm32 :=
  let rd' := creg' x 7 in
  let rs2' := creg' x 2 in
  let sel := slice x 10 2 in
  if sel =? 2 then Some (FmtI OP_IMM rd' 7 rd' (c_imm x))
  else if slice x 12 1 =? 1 then None
  else if sel =? 0 then Some (FmtR OP_IMM rd' 5 rd' (slice x 2 5) 0)
  else if sel =? 1 then Some (FmtR OP_IMM rd' 5 rd' (slice x 2 5) 0x20)
  else if slice x 5 2 =? 0 then Some (FmtR OP_OP rd' 0 rd' rs2' 0x20)
  else if slice x 5 2 =? 1 then Some (FmtR OP_OP rd' 4 rd' rs2' 0)
  else if slice x 5 2 =? 2 then Some (FmtR OP_OP rd' 6 rd' rs2' 0)
  else Some (FmtR OP_OP rd' 7 rd' rs2' 0).

Definition expand_q1 (x f3 : Z) : option asm32 :=
  let rd := slice x 7 5 in
  let rs1' := creg' x 7 in
  if f3 =? 0 then Some (FmtI OP_IMM rd 0 rd (c_imm x))
  else if f3 =? 1 then Some (FmtJ OP_JAL 1 (c_j_imm x))
  else if f3 =? 2 then Some (FmtI OP_IMM rd 0 0 (c_imm x))
  else if f3 =? 3 then
    if rd =? 2 then
      if c_addi16sp_imm x =? 0 then None else Some (FmtI OP_IMM 2 0 2 (c_addi16sp_imm x))
    else if rd =? 0 then None
    else if c_imm x =? 0 then None
    else Some (FmtU OP_LUI rd (u32 (c_imm x .<< 12)))
  else if f3 =? 4 then expand_alu x
  else if f3 =? 5 then Some (FmtJ OP_JAL 0 (c_j_imm x))
  else if f3 =? 6 then Some (FmtB OP_BRANCH 0 rs1' 0 (c_b_imm x))
  else Some (FmtB OP_BRANCH 1 rs1' 0 (c_b_imm x)).

Definition expand_q2 (x f3 : Z) : option asm32 :=
  let rd := slice x 7 5 in
  let rs2 := slice x 2 5 in
  let bit12 := slice x 12 1 in
  if f3 =? 0 then if bit12 =? 1 then None else Some (FmtR OP_IMM rd 1 rd rs2 0)
  else if f3 =? 1 then Some (FmtI OP_LOAD_FP rd 3 2 (c_ldsp_uimm x))
  else if f3 =? 2 then if rd =? 0 then None else Some (FmtI OP_LOAD rd 2 2 (c_lwsp_uimm x))
  else if f3 =? 3 then Some (FmtI OP_LOAD_FP rd 2 2 (c_lwsp_uimm x))
  else if f3 =? 4 then
    if bit12 =? 0 then
      if rs2 =? 0 then if rd =? 0 then None else Some (FmtI OP_JALR 0 0 rd 0)
      else Some (FmtR OP_OP rd 0 0 rs2 0)
    else if rs2 =? 0 then
      if rd =? 0 then Some (FmtI OP_SYSTEM 0 0 0 1) else Some (FmtI OP_JALR 1 0 rd 0)
    else Some (FmtR OP_OP rd 0 rd rs2 0)
  else if f3 =? 5 then Some (FmtS OP_STORE_FP 3 2 rs2 (c_sdsp_uimm x))
  else if f3 =? 6 then Some (FmtS OP_STORE 2 2 rs2 (c_swsp_uimm x))
  else Some (FmtS OP_STORE_FP 2 2 rs2 (c_swsp_uimm x)).

Definition expand (x : Z) : option asm32 :=
  let f3 := slice x 13 3 in
  if slice x 0 2 =? 0 then expand_q0 x f3
  else if slice x 0 2 =? 1 then expand_q1 x f3
  else if slice x 0 2 =? 2 then expand_q2 x f3
  else None.

(** ** The fields the code extracts are those of the table *)

Ltac rvc_unfold :=
  unfold c_imm, c_lw_uimm, c_ld_uimm, c_lwsp_uimm, c_ldsp_uimm, c_swsp_uimm, c_sdsp_uimm,
    c_addi4spn_uimm, c_addi16sp_imm, c_j_imm, c_b_imm, creg', addi4spn_imm, c_sign_ext6, c_imm6,
    cj_offset, cj_imm, addi16sp_offset, addi16sp_imm, cb_offset, cb_imm in *;
  rewrite ?slice_bits by lia; eval_ones; unfold_inst.

Section Fields.
Context (x : Z) (Hx : is_u 16 x).

Lemma creg_field k : (k = 2 \/ k = 7) -> creg x k = creg' x k.
Proof. intros [-> | ->]; rvc_unfold; bits. Qed.
Lemma field5 k : (k = 2 \/ k = 7) -> shift_then_mask x k 0x1F = slice x k 5.
Proof. intros [-> | ->]; rvc_unfold; bits. Qed.
Lemma field_bit12 : shift_then_mask x 12 1 = slice x 12 1.
Proof. rvc_unfold; bits. Qed.
Lemma field_sel : shift_then_mask x 10 3 = slice x 10 2 /\ shift_then_mask x 5 3 = slice x 5 2.
Proof. split; rvc_unfold; bits. Qed.
Lemma field_op : op16 (decode16 x) = slice x 0 2 /\ funct3_16 (decode16 x) = slice x 13 3.
Proof. split; rvc_unfold; bits. Qed.

Lemma off_lw : cl_word_offset x = c_lw_uimm x.
Proof. rvc_unfold; bits. Qed.
Lemma off_ld : cl_double_offset x = c_ld_uimm x.
Proof. rvc_unfold; bits. Qed.
Lemma off_lwsp : ci_word_sp_offset x = c_lwsp_uimm x.
Proof. rvc_unfold; bits. Qed.
Lemma off_ldsp : ci_double_sp_offset x = c_ldsp_uimm x.
Proof. rvc_unfold; bits. Qed.
Lemma off_swsp : css_word_sp_offset x = c_swsp_uimm x.
Proof. rvc_unfold; bits. Qed.
Lemma off_sdsp : css_double_sp_offset x = c_sdsp_uimm x.
Proof. rvc_unfold; bits. Qed.
Lemma off_4spn : addi4spn_imm x = c_addi4spn_uimm x.
Proof. rvc_unfold; bits. Qed.
Lemma off_imm6 : c_sign_ext6 (c_imm6 x) = c_imm x.
Proof. rvc_unfold; bits. Qed.
Lemma off_16sp : addi16sp_offset (addi16sp_imm x) = c_addi16sp_imm x.
Proof. rvc_unfold; bits. Qed.
Lemma off_j : cj_offset x = c_j_imm x.
Proof. rvc_unfold; bits. Qed.
Lemma off_b : cb_offset x = c_b_imm x.
Proof. rvc_unfold; bits. Qed.
End Fields.

(** ** Expansions have encodable operands *)

Lemma is_i_mono w w' x : 0 < w <= w' -> is_i w x -> is_i w' x.
Proof.
  unfold is_i. intros Hw Hx. pose proof (Z.pow_le_mono_r 2 (w - 1) (w' - 1)). lia.
Qed.

Lemma is_u_is_i w w' x : 0 <= w < w' -> is_u w x -> is_i w' x.
Proof. unfold is_i, is_u. intros Hw Hx. pose proof (Z.pow_le_mono_r 2 w (w' - 1)). lia. Qed.

Lemma land1_mod x : x .& 1 = 0 -> x mod 2 = 0.
Proof. change 1 with (Z.ones 1). by rewrite Z.land_ones. Qed.

Lemma sext_eq_0 w y : 0 < w -> is_u w y -> sext w y = 0 <-> y = 0.
Proof.
  intros Hw Hy. rewrite sext_wrap, wrap_small by done. unfold is_u in *.
  split; [|intros ->; by rewrite Z.bits_0]. destruct (Z.testbit y (w - 1)); lia.
Qed.

Section Ranges.
Context (x : Z) (Hx : is_u 16 x).

Lemma slice_range lo len : 0 <= len -> is_u len (slice x lo len).
Proof. intros. unfold slice. by apply wrap_is_u. Qed.
Lemma slice5_range lo : is_u 5 (slice x lo 5).
Proof. by apply slice_range. Qed.
Lemma creg'_range k : is_u 5 (creg' x k).
Proof. unfold creg'. pose proof (slice_range k 3). unfold is_u in *. lia. Qed.
Lemma c_imm_range : is_i 12 (c_imm x).
Proof. apply is_i_mono with 6; [lia|]. by apply sext_is_i. Qed.
Lemma uimm_ranges :
  is_i 12 (c_lw_uimm x) /\ is_i 12 (c_ld_uimm x) /\ is_i 12 (c_lwsp_uimm x)
  /\ is_i 12 (c_ldsp_uimm x) /\ is_i 12 (c_swsp_uimm x) /\ is_i 12 (c_sdsp_uimm x)
  /\ is_i 12 (c_addi4spn_uimm x).
Proof. split_and!; apply is_u_is_i with 10; try lia; rvc_unfold; bits_range. Qed.
Lemma c_addi16sp_range : is_i 12 (c_addi16sp_imm x).
Proof. apply is_i_mono with 10; [lia|]. by apply sext_is_i. Qed.
Lemma c_j_range : is_i 21 (c_j_imm x) /\ c_j_imm x mod 2 = 0.
Proof.
  split; [apply is_i_mono with 12; [lia|]; by apply sext_is_i|]. apply land1_mod. rvc_unfold. bits.
Qed.
Lemma c_b_range : is_i 13 (c_b_imm x) /\ c_b_imm x mod 2 = 0.
Proof.
  split; [apply is_i_mono with 9; [lia|]; by apply sext_is_i|]. apply land1_mod. rvc_unfold. bits.
Qed.
Lemma c_lui_range : is_u 32 (u32 (c_imm x .<< 12)) /\ u32 (c_imm x .<< 12) mod 2 ^ 12 = 0.
Proof.
  split; [apply u32_range|]. rewrite <- Z.land_ones by lia. change (Z.ones 12) with 0xFFF.
  rvc_unfold. bits.
Qed.

Lemma expand_ok a : expand x = Some a -> asm32_ok a.
Proof.
  pose proof slice5_range. pose proof creg'_range. pose proof c_imm_range. destruct uimm_ranges as (?&?&?&?&?&?&?).
  pose proof c_addi16sp_range. destruct c_j_range. destruct c_b_range. destruct c_lui_range.
  unfold expand, expand_q0, expand_q1, expand_q2, expand_alu. cbv zeta.
  repeat match goal with |- (if ?b then _ else _) = _ -> _ => destruct b end;
    intros [= <-]; cbn [asm32_ok]; split_and!; auto; done.
Qed.

Lemma zero_16sp : (addi16sp_imm x =? 0) = (c_addi16sp_imm x =? 0).
Proof.
  assert (Hu : is_u 10 (addi16sp_imm x)) by (rvc_unfold; bits_range).
  assert (E : c_addi16sp_imm x = sext 10 (addi16sp_imm x)) by (rvc_unfold; bits).
  pose proof (sext_eq_0 10 _ ltac:(lia) Hu) as Hz. rewrite E.
  destruct (Z.eqb_spec (addi16sp_imm x) 0), (Z.eqb_spec (sext 10 (addi16sp_imm x)) 0); tauto.
Qed.

Lemma zero_imm6 : (c_imm6 x =? 0) = (c_imm x =? 0).
Proof.
  assert (Hu : is_u 6 (c_imm6 x)) by (rvc_unfold; bits_range).
  assert (E : c_imm x = sext 6 (c_imm6 x)) by (rvc_unfold; bits).
  pose proof (sext_eq_0 6 _ ltac:(lia) Hu) as Hz. rewrite E.
  destruct (Z.eqb_spec (c_imm6 x) 0), (Z.eqb_spec (sext 6 (c_imm6 x)) 0); tauto.
Qed.
End Ranges.

(** ** Execution of the memory instructions of the expansion *)

Lemma set_X_same c r : cpu_ok c -> is_u 5 r -> set_X r (X c r) c = c.
Proof.
  intros Hc Hr. unfold set_X. destruct (r =? 0); [done|].
  destruct (idx_ok (regs c) 32 r) as (v & Hv & _); [apply Hc..|done|].
  unfold X, idx in *. rewrite (nth_lookup_Some _ _ _ _ Hv), list_insert_id by done. by destruct c.
Qed.

Lemma X_0 c : cpu_ok c -> X c 0 = 0.
Proof. intros Hc. unfold X. by rewrite (nth_lookup_Some _ _ _ _ (ok_x0 _ Hc)). Qed.

Section MemInstr.
Context {H Mem : Type} `{HostOps H} `{!MemoryOps H Mem} `{BuildProfile} `{FloatEnv}.
Context (Hrelease : overflow_checks = false) (s : Machine H Mem) (Hc : cpu_ok (cpu s)).
Context (d : DecodedInst32) (npc : Z).

Ltac dispatch_op Hop Hf3 :=
  unfold dispatch32, is_rv32i_opcode, is_rv32fd_opcode; rewrite Hop; decide_consts; cbn [orb];
  unfold exec_rv32i, exec_rv32fd, load_value, store_value, exec_load_fp, exec_store_fp;
  rewrite Hop, ?Hf3; decide_consts; run_regs.

(** Reassociates a bind at the head. *)
Lemma em_assoc {E A B C} (m : EM (Machine H Mem) E A) (f : A -> EM (Machine H Mem) E B)
    (g : B -> EM (Machine H Mem) E C) : ((m ≫= f) ≫= g) s = (m ≫= (fun a => f a ≫= g)) s.
Proof. unfold mbind, EM_bind. by destruct (m s). Qed.

Lemma exec_lw :
  opcode d = OP_LOAD -> funct3 d = 2 -> is_u 5 (rs1 d) ->
  dispatch32 d npc s =
  (v ← mread (fun m => read_u32 m (wrapping_add (X (cpu s) (rs1 d)) (u32 (i_imm d))));
   write_reg (rd d) v;; mret npc) s.
Proof. intros Hop Hf3 ?. by dispatch_op Hop Hf3. Qed.

Lemma exec_sw :
  opcode d = OP_STORE -> funct3 d = 2 -> is_u 5 (rs1 d) -> is_u 5 (rs2 d) ->
  dispatch32 d npc s =
  (mwrite (fun m => write_u32 m (wrapping_add (X (cpu s) (rs1 d)) (u32 (s_imm d))) (X (cpu s) (rs2 d)));;
   mret npc) s.
Proof. intros Hop Hf3 ? ?. by dispatch_op Hop Hf3. Qed.

Lemma exec_flw :
  opcode d = OP_LOAD_FP -> funct3 d = 2 -> is_u 5 (rs1 d) ->
  dispatch32 d npc s =
  (load_single (rd d) (wrapping_add (X (cpu s) (rs1 d)) (u32 (i_imm d)));; mret npc) s.
Proof. intros Hop Hf3 ?. dispatch_op Hop Hf3. rewrite em_assoc. by run_regs. Qed.

Lemma exec_fsw :
  opcode d = OP_STORE_FP -> funct3 d = 2 -> is_u 5 (rs1 d) ->
  dispatch32 d npc s =
  (store_single (rs2 d) (wrapping_add (X (cpu s) (rs1 d)) (u32 (s_imm d)));; mret npc) s.
Proof. intros Hop Hf3 ?. dispatch_op Hop Hf3. rewrite em_assoc. by run_regs. Qed.

Lemma exec_fld :
  opcode d = OP_LOAD_FP -> funct3 d = 3 -> is_u 5 (rs1 d) ->
  dispatch32 d npc s =
  (load_double (rd d) (wrapping_add (X (cpu s) (rs1 d)) (u32 (i_imm d)));; mret npc) s.
Proof.
  intros Hop Hf3 ?. dispatch_op Hop Hf3. rewrite em_assoc. run_regs. unfold checked_add.
  by rewrite Hrelease.
Qed.

Lemma exec_fsd :
  opcode d = OP_STORE_FP -> funct3 d = 3 -> is_u 5 (rs1 d) ->
  dispatch32 d npc s =
  (store_double (rs2 d) (wrapping_add (X (cpu s) (rs1 d)) (u32 (s_imm d)));; mret npc) s.
Proof.
  intros Hop Hf3 ?. dispatch_op Hop Hf3. rewrite em_assoc. run_regs. unfold checked_add.
  by rewrite Hrelease.
Qed.
End MemInstr.

Section AsmMem.
Context {H Mem : Type} `{HostOps H} `{!MemoryOps H Mem} `{BuildProfile} `{FloatEnv}.
Context (Hrelease : overflow_checks = false) (s : Machine H Mem) (Hc : cpu_ok (cpu s)) (npc : Z).
Abbreviation run a := (dispatch32 (decode32 (encode32 a)) npc s).
Abbreviation address r off := (wrapping_add (X (cpu s) r) (u32 off)).

Lemma asm_lw r r1 off :
  asm32_ok (FmtI OP_LOAD r 2 r1 off) ->
  run (FmtI OP_LOAD r 2 r1 off) =
  (v ← mread (fun m => read_u32 m (address r1 off)); write_reg r v;; mret npc) s.
Proof. intros Hok. decoded Hok. by apply exec_lw. Qed.
Lemma asm_sw r1 r2 off :
  asm32_ok (FmtS OP_STORE 2 r1 r2 off) ->
  run (FmtS OP_STORE 2 r1 r2 off) =
  (mwrite (fun m => write_u32 m (address r1 off) (X (cpu s) r2));; mret npc) s.
Proof. intros Hok. decoded Hok. by apply exec_sw. Qed.
Lemma asm_flw r r1 off :
  asm32_ok (FmtI OP_LOAD_FP r 2 r1 off) ->
  run (FmtI OP_LOAD_FP r 2 r1 off) = (load_single r (address r1 off);; mret npc) s.
Proof. intros Hok. decoded Hok. by apply exec_flw. Qed.
Lemma asm_fsw r1 r2 off :
  asm32_ok (FmtS OP_STORE_FP 2 r1 r2 off) ->
  run (FmtS OP_STORE_FP 2 r1 r2 off) = (store_single r2 (address r1 off);; mret npc) s.
Proof. intros Hok. decoded Hok. by apply exec_fsw. Qed.
Lemma asm_fld r r1 off :
  asm32_ok (FmtI OP_LOAD_FP r 3 r1 off) ->
  run (FmtI OP_LOAD_FP r 3 r1 off) = (load_double r (address r1 off);; mret npc) s.
Proof. intros Hok. decoded Hok. by apply exec_fld. Qed.
Lemma asm_fsd r1 r2 off :
  asm32_ok (FmtS OP_STORE_FP 3 r1 r2 off) ->
  run (FmtS OP_STORE_FP 3 r1 r2 off) = (store_double r2 (address r1 off);; mret npc) s.
Proof. intros Hok. decoded Hok. by apply exec_fsd. Qed.
End AsmMem.

(** ** The expansion theorem, quadrant by quadrant *)

Section Expand.
Context {H Mem : Type} `{HostOps H} `{!MemoryOps H Mem} `{BuildProfile} `{FloatEnv}.
Context (Hrelease : overflow_checks = false) (s : Machine H Mem) (Hc : cpu_ok (cpu s)).
Context (x npc : Z) (Hx : is_u 16 x).
Abbreviation M := (EM (Machine H Mem) CpuError).

(** The compressed computation is that of the expansion, or an illegal
    instruction when there is none. *)
Definition agrees (o : option asm32) (m : M Z) : Prop :=
  match o with
  | Some a => asm32_ok a -> m s = dispatch32 (decode32 (encode32 a)) npc s
  | None => m s = Err (IllegalInstruction (pc (cpu s)) x) s
  end.

(** Turns the fields the code extracts into those of the table. *)
Ltac fields :=
  rewrite ?(creg_field x Hx) by auto; rewrite ?(field5 x Hx) by auto;
  rewrite ?(field_bit12 x Hx), ?(off_lw x Hx), ?(off_ld x Hx), ?(off_lwsp x Hx), ?(off_ldsp x Hx),
    ?(off_swsp x Hx), ?(off_sdsp x Hx), ?(off_4spn x Hx), ?(off_imm6 x Hx), ?(off_16sp x Hx),
    ?(off_j x Hx), ?(off_b x Hx).

Lemma uimm_u32 :
  u32 (c_lw_uimm x) = c_lw_uimm x /\ u32 (c_ld_uimm x) = c_ld_uimm x
  /\ u32 (c_lwsp_uimm x) = c_lwsp_uimm x /\ u32 (c_ldsp_uimm x) = c_ldsp_uimm x
  /\ u32 (c_swsp_uimm x) = c_swsp_uimm x /\ u32 (c_sdsp_uimm x) = c_sdsp_uimm x.
Proof. split_and!; rvc_unfold; bits. Qed.

Lemma agrees_q0 f3 : is_u 3 f3 -> agrees (expand_q0 x f3) (exec_q0 x f3 npc).
Proof.
  intros Hf. destruct uimm_u32 as (U1 & U2 & _ & _ & _ & _).
  pose proof (creg'_range x) as Hcr. pose proof is_u5_2. pose proof (is_u_3_cases f3 Hf) as Hcases.
  destruct_or! Hcases; subst f3; unfold expand_q0, exec_q0; decide_consts; fields.
  - destruct (Z.eqb_spec (c_addi4spn_uimm x) 0); [done|]. intros Hok.
    rewrite (asm_op_imm s Hc npc ADDI) by done. run_regs. cbn [alui_op alu_sem].
    by rewrite Zplus_mod_idemp_r.
  - intros Hok. rewrite asm_fld, U2 by done. by run_regs.
  - intros Hok. rewrite asm_lw, U1 by done. by run_regs.
  - intros Hok. rewrite asm_flw, U1 by done. by run_regs.
  - done.
  - intros Hok. rewrite asm_fsd, U2 by done. by run_regs.
  - intros Hok. rewrite asm_sw, U1 by done. by run_regs.
  - intros Hok. rewrite asm_fsw, U1 by done. by run_regs.
Qed.

Lemma agrees_c_lui :
  agrees (expand_q1 x 3) (exec_c_lui x;; mret npc).
Proof.
  pose proof (slice5_range x 7) as H7. pose proof is_u5_2.
  unfold expand_q1, exec_c_lui. decide_consts. fields. rewrite zero_16sp, zero_imm6 by done.
  destruct (Z.eqb_spec (slice x 7 5) 2) as [E2|E2].
  { destruct (Z.eqb_spec (c_addi16sp_imm x) 0); [done|]. intros Hok.
    rewrite (asm_op_imm s Hc npc ADDI) by done. rewrite em_assoc. run_regs.
    cbn [alui_op alu_sem]. by rewrite Zplus_mod_idemp_r, wrapping_add_mod. }
  destruct (Z.eqb_spec (slice x 7 5) 0); [done|]. cbn [negb].
  destruct (Z.eqb_spec (c_imm x) 0); [done|]. intros Hok. rewrite asm_lui by done. run_regs.
  do 3 f_equal. rvc_unfold. bits.
Qed.

(** Writing a register back is no change. *)
Lemma on_cpu_same r : is_u 5 r -> on_cpu (set_X r (X (cpu s) r)) s = s.
Proof. intros. unfold on_cpu. rewrite set_X_same by done. by destruct s. Qed.

Lemma on_cpu_x0 v : on_cpu (set_X 0 v) s = s.
Proof. by destruct s. Qed.

Lemma agrees_shift op :
  agrees (Some (FmtR OP_IMM (creg' x 7) (shifti_code op).2 (creg' x 7) (slice x 2 5) (shifti_code op).1))
    ((if negb (slice x 2 5 =? 0) then
        src ← read_reg (creg' x 7);
        write_reg (creg' x 7) (alu_sem (shifti_op op) src (slice x 2 5))
      else mret tt);; mret npc).
Proof.
  intros Hok. pose proof (creg'_range x 7) as Hr. pose proof (X_ok _ _ Hc Hr) as HX.
  rewrite asm_shift by done. destruct (Z.eqb_spec (slice x 2 5) 0) as [E|E]; cbn [negb].
  - rewrite E. replace (alu_sem _ _ 0) with (X (cpu s) (creg' x 7)); [by rewrite on_cpu_same|].
    unfold is_u in HX. destruct op; cbn [shifti_op alu_sem]; rewrite ?Z.mul_1_r, ?Z.div_1_r;
      [by rewrite Z.mod_small|done|].
    symmetry. etrans; [apply (u32_i32 (X (cpu s) (creg' x 7)))|by apply wrap_small].
  - rewrite em_assoc. by run_regs.
Qed.

Lemma agrees_c_alu : agrees (expand_alu x) (exec_c_alu x;; mret npc).
Proof.
  pose proof (creg'_range x) as Hcr. pose proof (slice5_range x 2) as Hsh.
  destruct (field_sel x Hx) as [Fs Fv].
  unfold expand_alu, exec_c_alu. rewrite Fs. fields.
  assert (Hsel : is_u 2 (slice x 10 2)) by by apply slice_range.
  assert (Hb : slice x 12 1 = 0 \/ slice x 12 1 = 1).
  { pose proof (slice_range x 12 1 ltac:(lia)) as Hu. unfold is_u in Hu. lia. }
  destruct (is_u_2_cases _ Hsel) as [E|[E|[E|E]]]; rewrite E; decide_consts; cbn [orb].
  - destruct Hb as [Eb|Eb]; rewrite Eb; decide_consts; cbn [negb]; [|done].
    pose proof (agrees_shift SRLI) as Ha. cbn [shifti_op shifti_code fst snd] in Ha.
    intros Hok. rewrite <- (Ha Hok). unfold mbind, EM_bind. destruct (negb _); [|done].
    destruct (read_reg _ s); try done. cbn [alu_sem].
    by rewrite (Z.mod_small (slice x 2 5)), <- Z.shiftr_div_pow2 by (apply Hsh).
  - destruct Hb as [Eb|Eb]; rewrite Eb; decide_consts; cbn [negb]; [|done].
    pose proof (agrees_shift SRAI) as Ha. cbn [shifti_op shifti_code fst snd] in Ha.
    intros Hok. rewrite <- (Ha Hok). unfold mbind, EM_bind. destruct (negb _); [|done].
    destruct (read_reg _ s); try done. cbn [alu_sem].
    by rewrite (Z.mod_small (slice x 2 5)), <- Z.shiftr_div_pow2 by (apply Hsh).
  - intros Hok. rewrite (asm_op_imm s Hc npc ANDI) by done. rewrite em_assoc. by run_regs.
  - destruct Hb as [Eb|Eb]; rewrite Eb; decide_consts; cbn [negb]; [|done].
    unfold ca_value. rewrite Fv. assert (Hv : is_u 2 (slice x 5 2)) by by apply slice_range.
    destruct (is_u_2_cases _ Hv) as [E2|[E2|[E2|E2]]]; rewrite E2; decide_consts; intros Hok.
    + rewrite (asm_op s Hc npc SUB) by done. rewrite em_assoc. run_regs. rewrite em_assoc. by run_regs.
    + rewrite (asm_op s Hc npc XOR) by done. rewrite em_assoc. run_regs. rewrite em_assoc. by run_regs.
    + rewrite (asm_op s Hc npc OR) by done. rewrite em_assoc. run_regs. rewrite em_assoc. by run_regs.
    + rewrite (asm_op s Hc npc AND) by done. rewrite em_assoc. run_regs. rewrite em_assoc. by run_regs.
Qed.

Lemma agrees_branch op :
  agrees (Some (FmtB OP_BRANCH (branch_code op) (creg' x 7) 0 (c_b_imm x)))
    (v ← read_reg (creg' x 7);
     c ← get_cpu;
     mret (if branch_sem op v 0 then wrapping_add (pc c) (u32 (c_b_imm x)) else npc)).
Proof.
  intros Hok. rewrite asm_branch by done. pose proof (creg'_range x 7). run_regs.
  by rewrite X_0, wrapping_add_mod by done.
Qed.

Lemma agrees_q1 f3 : is_u 3 f3 -> agrees (expand_q1 x f3) (exec_q1 x f3 npc).
Proof.
  intros Hf. pose proof (slice5_range x 7) as H7. pose proof is_u5_1.
  pose proof (is_u_3_cases f3 Hf) as Hcases.
  destruct_or! Hcases; subst f3; try exact agrees_c_lui.
  all: unfold expand_q1, exec_q1; decide_consts; fields.
  - intros Hok. rewrite (asm_op_imm s Hc npc ADDI) by done. cbn [alui_op alu_sem].
    rewrite Zplus_mod_idemp_r. destruct (Z.eqb_spec (slice x 7 5) 0) as [E|E]; cbn [negb andb].
    { rewrite E. by rewrite on_cpu_x0. }
    destruct (Z.eqb_spec (c_imm x) 0) as [E0|E0]; cbn [negb].
    { rewrite E0, Z.add_0_r, Z.mod_small, on_cpu_same by (done || by apply X_ok). done. }
    rewrite em_assoc. run_regs. by rewrite wrapping_add_mod.
  - intros Hok. rewrite asm_jal by done. run_regs. cbn [cpu on_cpu].
    by rewrite set_X_pc, wrapping_add_mod.
  - intros Hok. rewrite (asm_op_imm s Hc npc ADDI) by done. run_regs. cbn [alui_op alu_sem].
    rewrite X_0, Zplus_mod_idemp_r, Z.add_0_l by done. done.
  - exact agrees_c_alu.
  - intros Hok. rewrite asm_jal, on_cpu_x0 by done. run_regs. by rewrite wrapping_add_mod.
  - exact (agrees_branch BEQ).
  - exact (agrees_branch BNE).
Qed.

Lemma asm_ebreak :
  dispatch32 (decode32 (encode32 (FmtI OP_SYSTEM 0 0 0 1))) npc s
  = (modify_cpu (with_halted true);; mret npc) s.
Proof.
  assert (E : decode32 (encode32 (FmtI OP_SYSTEM 0 0 0 1))
    = {| raw := 0x100073; opcode := OP_SYSTEM; rd := 0; rs1 := 0; rs2 := 1; rs3 := 0; funct3 := 0; funct7 := 0 |})
    by (vm_compute; reflexivity).
  rewrite E. reflexivity.
Qed.

(** A jump to a register: the offset is zero. *)
Lemma jump_target r :
  is_u 5 r -> let t := (X (cpu s) r + 0) mod 2 ^ 32 in t - t mod 2 = X (cpu s) r .& not_u 32 1.
Proof.
  intros Hr. cbv zeta. pose proof (X_ok _ _ Hc Hr) as HX.
  rewrite Z.add_0_r, Z.mod_small by apply HX. by rewrite land_not1.
Qed.

Lemma agrees_jr_mv_add : agrees (expand_q2 x 4) (exec_c_jr_mv_add x npc).
Proof.
  pose proof (slice5_range x 7) as H7. pose proof (slice5_range x 2) as H2'. pose proof is_u5_1.
  assert (Hb : slice x 12 1 = 0 \/ slice x 12 1 = 1).
  { pose proof (slice_range x 12 1 ltac:(lia)) as Hu. unfold is_u in Hu. lia. }
  unfold expand_q2, exec_c_jr_mv_add. decide_consts. fields.
  destruct Hb as [Eb|Eb]; rewrite Eb; decide_consts; cbn [andb];
    destruct (Z.eqb_spec (slice x 2 5) 0) as [E2|E2]; cbn [negb andb].
  - destruct (Z.eqb_spec (slice x 7 5) 0) as [E7|E7]; [done|]. intros Hok.
    rewrite asm_jalr, jump_target, on_cpu_x0 by done. by run_regs.
  - intros Hok. rewrite (asm_op s Hc npc ADD) by done. cbn [alu_sem].
    destruct (Z.eqb_spec (slice x 7 5) 0) as [E7|E7]; cbn [negb]; [by rewrite E7, on_cpu_x0|].
    rewrite em_assoc. run_regs. rewrite X_0, Z.add_0_l, Z.mod_small by (done || by apply X_ok). done.
  - rewrite andb_true_r. destruct (Z.eqb_spec (slice x 7 5) 0) as [E7|E7]; intros Hok.
    + by rewrite asm_ebreak.
    + rewrite asm_jalr, jump_target by done. by run_regs.
  - rewrite andb_false_r. intros Hok. rewrite (asm_op s Hc npc ADD) by done. cbn [alu_sem].
    destruct (Z.eqb_spec (slice x 7 5) 0) as [E7|E7]; cbn [negb]; [by rewrite E7, on_cpu_x0|].
    rewrite em_assoc. run_regs. rewrite em_assoc. by run_regs.
Qed.

Lemma agrees_q2 f3 : is_u 3 f3 -> agrees (expand_q2 x f3) (exec_q2 x f3 npc).
Proof.
  intros Hf. destruct uimm_u32 as (_ & _ & U3 & U4 & U5 & U6).
  pose proof (slice5_range x 7) as H7. pose proof (slice5_range x 2) as H2'. pose proof is_u5_2.
  pose proof (is_u_3_cases f3 Hf) as Hcases.
  destruct_or! Hcases; subst f3; try exact agrees_jr_mv_add.
  all: unfold expand_q2, exec_q2; decide_consts; fields.
  - assert (Hb : slice x 12 1 = 0 \/ slice x 12 1 = 1).
    { pose proof (slice_range x 12 1 ltac:(lia)) as Hu. unfold is_u in Hu. lia. }
    destruct Hb as [Eb|Eb]; rewrite Eb; decide_consts; cbn [negb]; [|done].
    intros Hok. rewrite (asm_shift s Hc npc SLLI) by done. cbn [shifti_op alu_sem].
    destruct (Z.eqb_spec (slice x 7 5) 0) as [E7|E7]; cbn [negb andb]; [by rewrite E7, on_cpu_x0|].
    destruct (Z.eqb_spec (slice x 2 5) 0) as [E2|E2]; cbn [negb].
    { rewrite E2. change (2 ^ (0 mod 32)) with 1.
      rewrite Z.mul_1_r, Z.mod_small, on_cpu_same by (done || by apply X_ok). done. }
    rewrite em_assoc. run_regs. rewrite Z.shiftl_mul_pow2 by apply H2'.
    by rewrite (Z.mod_small (slice x 2 5)) by apply H2'.
  - intros Hok. rewrite asm_fld, U4 by done. by run_regs.
  - destruct (Z.eqb_spec (slice x 7 5) 0) as [E7|E7]; [done|].
    intros Hok. rewrite asm_lw, U3 by done. by run_regs.
  - intros Hok. rewrite asm_flw, U3 by done. by run_regs.
  - intros Hok. rewrite asm_fsd, U6 by done. by run_regs.
  - intros Hok. rewrite asm_sw, U5 by done. by run_regs.
  - intros Hok. rewrite asm_fsw, U5 by done. by run_regs.
Qed.

Lemma agrees_all : slice x 0 2 <> 3 -> agrees (expand x) (dispatch16 x npc).
Proof.
  intros Hop. destruct (field_op x Hx) as [Fo Ff]. unfold expand, dispatch16. cbv zeta.
  rewrite Fo, Ff. assert (Hf3 : is_u 3 (slice x 13 3)) by by apply slice_range.
  pose proof (slice_range x 0 2 ltac:(lia)) as Ho.
  destruct (is_u_2_cases _ Ho) as [E|[E|[E|E]]]; rewrite E in *; decide_consts; [..|done].
  - by apply agrees_q0.
  - by apply agrees_q1.
  - by apply agrees_q2.
Qed.
End Expand.

Section RvcTheorems.
Context {H Mem : Type} `{HostOps H} `{!MemoryOps H Mem} `{BuildProfile} `{FloatEnv}.

Lemma compressed_expands (s : Machine H Mem) x :
  overflow_checks = false -> cpu_ok (cpu s) -> is_u 16 x -> slice x 0 2 <> 3 ->
  match expand x with
  | Some a => forall npc, dispatch16 x npc s = dispatch32 (decode32 (encode32 a)) npc s
  | None => execute_inst16 x s = Err (IllegalInstruction (pc (cpu s)) x) s
  end.
Proof.
  intros Hr Hc Hx Hop.
  assert (Ha : forall npc, agrees s x npc (expand x) (dispatch16 x npc)).
  { intros npc. by apply agrees_all. }
  destruct (expand x) as [a|] eqn:E.
  - intros npc. apply Ha. by apply (expand_ok x Hx).
  - unfold execute_inst16. rewrite get_cpu_run. cbv zeta. unfold mbind, EM_bind. by rewrite Ha.
Qed.

(** C2: A compressed instruction is its expansion.  For every 16-bit code point that
    the table [expand] (the manual's, without the [c.lui x0] hints) expands to a
    32-bit instruction, executing the compressed form has exactly the effect of
    executing the 32-bit form (registers, floating-point registers, memory, host,
    halting, jump target), with the same next-instruction address passed to both.
    Every other code point of the three quadrants is the error [IllegalInstruction]
    with the state untouched.  (Release profile: [c.fld]/[c.fsd] wrap the address of
    their second word.) *)
Theorem rvc_expansion (s : Machine H Mem) x :
  overflow_checks = false -> cpu_ok (cpu s) -> is_u 16 x -> slice x 0 2 <> 3 ->
  match expand x with
  | Some a => forall npc, dispatch16 x npc s = dispatch32 (decode32 (encode32 a)) npc s
  | None => execute_inst16 x s = Err (IllegalInstruction (pc (cpu s)) x) s
  end.
Proof. apply compressed_expands. Qed.
End RvcTheorems.

#[local] Existing Instance release_profile.
#[local] Existing Instance default_float_env.

(** [c.addi16sp sp, -16] and the all-zero halfword. *)
Lemma rvc_expansion_witness :
  (forall npc, dispatch16 0x717D npc fresh_machine
     = dispatch32 (decode32 (encode32 (FmtI OP_IMM 2 0 2 (-16)))) npc fresh_machine)
  /\ execute_inst16 0 fresh_machine = Err (IllegalInstruction 0 0) fresh_machine.
Proof.
  assert (Hr : @overflow_checks release_profile = false) by reflexivity. split.
  - exact (rvc_expansion fresh_machine 0x717D Hr Cpu_new_ok ltac:(unfold is_u; lia) ltac:(vm_compute; discriminate)).
  - exact (rvc_expansion fresh_machine 0 Hr Cpu_new_ok ltac:(unfold is_u; lia) ltac:(vm_compute; discriminate)).
Defined.
