(* ===== verification/RunRef.v ===== *)
(** Reference semantics of a slice.

    [run_ref] executes one instruction at a time, with no interrupt polling and no
    chunks.  When the host's interrupt controller is idle the two nested loops of
    [run_slice] compute exactly that, slices compose, and [step_instruction] is a
    slice of one instruction. *)

From S2P Require Import Prelude Bits Inst Fmt Host Memory MemoryProps Float Cpu Syscall Exec Rvc Run Safe SafeExec RunProps IsaSpec.

Section Reference.
Context {H Mem : Type} `{HostOps H} `{!MemoryOps H Mem} `{BuildProfile} `{FloatEnv}.
Abbreviation M := (EM (Machine H Mem) Infallible).

(** At most [r] instructions; the status and how many completed. *)
Fixpoint run_ref (watch : bool) (r : nat) (skip : option Z) : M (SliceStatus * Z) :=
  c ← get_cpu;
  if is_halted c then mret (Halted, 0)
  else
    match r with
    | O => mret (Running, 0)
    | S r =>
      if watch && bool_decide (pc c ∈ breakpoints c) && negb (opt_is skip (pc c)) then
        modify_cpu (with_resume (Some (pc c)));;
        mret (Breakpoint, 0)
      else
        '(compressed, result) ← fetch_execute (pc c);
        match result with
        | inl e => report_trap compressed (pc c) e;; mret (Trapped, 0)
        | inr _ =>
          count_step;;
          '(st, n) ← run_ref watch r (if watch then None else skip);
          mret (st, n + 1)
        end
    end.

Definition watches (c : Cpu) : bool := debug_enabled c && negb (bool_decide (breakpoints c = ∅)).

Definition run_slice_ref (budget : Z) : M SliceOutcome :=
  c ← get_cpu;
  modify_cpu (with_resume None);;
  '(st, n) ← run_ref (watches c) (Z.to_nat budget) (resume_past_breakpoint c);
  c ← get_cpu;
  mret {| status := st; steps := n; out_pc := pc c; out_exit_code := exit_code c |}.

(** The reference result, with the instructions executed before. *)
Definition after (n : Z) (o : outcome (Machine H Mem) Infallible (SliceStatus * Z)) :=
  match o with
  | Ok (st, k) s => Ok (st, n + k) s
  | Err e s => Err e s
  | Panic => Panic
  end.

Lemma after_after a b o : after a (after b o) = after (a + b) o.
Proof. destruct o as [[st k] s| |]; cbn; [|done..]. by rewrite Z.add_assoc. Qed.

Lemma run_ref_S watch r skip s c :
  cpu s = c ->
  run_ref watch (S r) skip s =
  if is_halted c then Ok (Halted, 0) s
  else if watch && bool_decide (pc c ∈ breakpoints c) && negb (opt_is skip (pc c)) then
    Ok (Breakpoint, 0) (Build_Machine (with_resume (Some (pc c)) c) (mem s) (host s))
  else
    match fetch_execute (pc c) s with
    | Ok (compressed, inl e) s' => (report_trap compressed (pc c) e;; mret (Trapped, 0)) s'
    | Ok (_, inr _) s' =>
      match count_step s' with
      | Ok _ s2 => after 1 (run_ref watch r (if watch then None else skip) s2)
      | Err e s => Err e s
      | Panic => Panic
      end
    | Err e s => Err e s
    | Panic => Panic
    end.
Proof.
  intros <-. cbn [run_ref]. unfold get_cpu, em_gets, mbind, EM_bind.
  destruct (is_halted (cpu s)); [done|]. destruct (_ && negb (opt_is skip (pc (cpu s)))); [done|].
  destruct (fetch_execute (pc (cpu s)) s) as [[compressed [e|u]] s'| |]; [done| |done..].
  destruct (count_step s') as [u' s2| |]; [|done..].
  destruct (run_ref watch r _ s2) as [[st n] s3| |]; cbn; [|done..]. by rewrite Z.add_comm.
Qed.

(** The inner loop from [done] on, followed by whatever the outer loop does. *)
Definition finish (base : Z) (next : Z -> option Z -> Machine H Mem -> outcome (Machine H Mem) Infallible (SliceStatus * Z))
  (x : (Z * option Z * Machine H Mem) + outcome (Machine H Mem) Infallible (option SliceStatus * Z * option Z)) :=
  match x with
  | inl _ => Panic
  | inr (Ok (Some st, k, _) s) => Ok (st, base + k) s
  | inr (Ok (None, k, skip) s) => next (base + k) skip s
  | inr (Err e s) => Err e s
  | inr Panic => Panic
  end.

Lemma inner_ref watch chunk base next j r done skip s :
  chunk = done + Z.of_nat j -> (j <= r)%nat ->
  (forall skip s, next (base + chunk) skip s = after (base + chunk) (run_ref watch (r - j) skip s)) ->
  finish base next (loop_nat (em_loop_body (inner_step watch chunk)) (S j) (done, skip, s)) =
  after (base + done) (run_ref watch r skip s).
Proof.
  intros Hj Hr Hnext. revert r done skip s Hj Hr Hnext.
  induction j as [|j IH]; intros r done skip s Hj Hr Hnext; cbn [loop_nat].
  all: unfold em_loop_body at 1, inner_step; cbn [fst snd].
  { destruct (Z.leb_spec chunk done); [|lia]. cbn [mret EM_ret finish].
    replace done with chunk by lia. by rewrite Hnext, Nat.sub_0_r. }
  destruct (Z.leb_spec chunk done); [lia|]. destruct r as [|r]; [lia|].
  rewrite (run_ref_S _ _ _ _ _ eq_refl). unfold get_cpu, em_gets. unfold mbind at 1, EM_bind at 1.
  destruct (is_halted (cpu s)); [cbn; by rewrite Z.add_0_r|].
  destruct (_ && negb (opt_is skip (pc (cpu s)))); [cbn; by rewrite Z.add_0_r|].
  unfold mbind at 1, EM_bind at 1.
  destruct (fetch_execute (pc (cpu s)) s) as [[compressed [e|u]] s'|[]|]; [| |done].
  - unfold mbind, EM_bind. destruct (report_trap compressed _ e s') as [u s2|[]|]; [|done].
    cbn. by rewrite Z.add_0_r.
  - unfold mbind, EM_bind. destruct (count_step s') as [u' s2|[]|]; [|done].
    cbn [mret EM_ret]. rewrite after_after, <- Z.add_assoc. apply IH; [lia..|].
    intros. by rewrite Hnext.
Qed.
End Reference.

Section Quiet.
Context {H Mem : Type} `{HostOps H} `{!QuietHost H} `{!MemoryOps H Mem} `{BuildProfile} `{FloatEnv}.
Implicit Types s : Machine H Mem.

Lemma machine_eta s : Build_Machine (cpu s) (mem s) (host s) = s.
Proof. by destruct s. Qed.

Lemma poll_quiet s : poll_interrupt s = Ok tt s.
Proof.
  unfold poll_interrupt, hcall, get_cpu, em_gets, mbind, EM_bind. rewrite quiet_enabled.
  cbn. by rewrite machine_eta.
Qed.

Lemma delay_quiet s : hcall (E:=Infallible) js_get_int_inst_delay s = Ok (js_get_int_inst_delay (host s)).1 s.
Proof.
  unfold hcall. pose proof (quiet_delay (host s)) as Hq.
  destruct (js_get_int_inst_delay (host s)) as [d h]. cbn in *. subst. by rewrite machine_eta.
Qed.

Definition outer_result (x : (Z * option Z * Machine H Mem) + outcome (Machine H Mem) Infallible (SliceStatus * Z)) :=
  match x with inl _ => Panic | inr o => o end.

Lemma outer_ref watch budget k r n skip s :
  budget = n + Z.of_nat r -> (r < k)%nat ->
  outer_result (loop_nat (em_loop_body (outer_step watch budget)) k (n, skip, s)) =
  after n (run_ref watch r skip s).
Proof.
  revert k n skip s. induction (lt_wf r) as [r _ IH]. intros k n skip s Hb Hk.
  destruct k as [|k]; [lia|]. cbn [loop_nat]. unfold em_loop_body at 1, outer_step. cbn [fst snd].
  unfold mbind at 1, EM_bind at 1, get_cpu at 1, em_gets at 1.
  destruct (is_halted (cpu s)) eqn:Hh.
  { destruct r; cbn [run_ref]; unfold get_cpu, em_gets, mbind, EM_bind; rewrite Hh; cbn;
      by rewrite Z.add_0_r. }
  destruct (Z.leb_spec budget n).
  { destruct r; [|lia]. cbn [run_ref]. unfold get_cpu, em_gets, mbind, EM_bind. rewrite Hh. cbn.
    by rewrite Z.add_0_r. }
  unfold mbind at 1, EM_bind at 1. rewrite delay_quiet. set (delay := (js_get_int_inst_delay _).1).
  set (d := if u64 delay =? 0 then 1000 else u64 delay).
  assert (Hd : 0 < d).
  { subst d. pose proof (u64_range delay). unfold is_u in *. destruct (Z.eqb_spec (u64 delay) 0); lia. }
  clearbody d. set (chunk := Z.min d (budget - n)). assert (Hc : 0 < chunk <= Z.of_nat r) by lia.
  unfold mbind at 1, EM_bind at 1. rewrite poll_quiet. unfold inner_loop, em_loop.
  unfold mbind, EM_bind. cbv beta. rewrite loop_spec.
  pose proof (inner_ref watch chunk n (fun n skip s =>
      outer_result (loop_nat (em_loop_body (outer_step watch budget)) k (n, skip, s)))
    (Z.to_nat chunk) r 0 skip s ltac:(lia) ltac:(lia)) as Hi.
  rewrite Z.add_0_r in Hi. rewrite <- Hi.
  - replace (Pos.to_nat (Z.to_pos (chunk + 1))) with (S (Z.to_nat chunk)) by lia.
    destruct (loop_nat _ (S (Z.to_nat chunk)) (0, skip, s)) as [x|[[[[st|] m] sk] s'|[]|]]; done.
  - intros. apply IH; lia.
Qed.

Lemma run_slice_ref_eq budget s : 0 <= budget -> run_slice budget s = run_slice_ref budget s.
Proof.
  intros Hb. unfold run_slice, run_slice_ref, get_cpu, em_gets.
  unfold mbind at 1, EM_bind at 1. unfold mbind at 1, EM_bind at 1.
  unfold mbind at 3, EM_bind at 3. unfold mbind at 3, EM_bind at 3.
  cbn [modify_cpu em_modify]. fold (watches (cpu s)). set (s0 := Build_Machine _ _ _).
  pose proof (outer_ref (watches (cpu s)) budget (Pos.to_nat (Z.to_pos (budget + 1))) (Z.to_nat budget) 0
    (resume_past_breakpoint (cpu s)) s0 ltac:(lia) ltac:(lia)) as Ho.
  unfold em_loop. unfold mbind, EM_bind. rewrite loop_spec.
  fold (outer_result (loop_nat (em_loop_body (outer_step (watches (cpu s)) budget))
    (Pos.to_nat (Z.to_pos (budget + 1))) (0, resume_past_breakpoint (cpu s), s0))).
  rewrite Ho. by destruct (run_ref _ _ _ s0) as [[st n] s'| |].
Qed.
End Quiet.

Section Compose.
Context {H Mem : Type} `{HostOps H} `{!MemoryOps H Mem} `{BuildProfile} `{FloatEnv}.
Implicit Types s : Machine H Mem.

Lemma after_0 (o : outcome (Machine H Mem) Infallible (SliceStatus * Z)) : after 0 o = o.
Proof. by destruct o as [[st n] s| |]. Qed.

Lemma run_ref_halted watch r skip s :
  is_halted (cpu s) = true -> run_ref watch r skip s = Ok (Halted, 0) s.
Proof. intros Hh. destruct r; cbn [run_ref]; unfold get_cpu, em_gets, mbind, EM_bind; by rewrite Hh. Qed.

Lemma run_ref_0 watch skip s :
  is_halted (cpu s) = false -> run_ref watch 0 skip s = Ok (Running, 0) s.
Proof. intros Hh. cbn [run_ref]. unfold get_cpu, em_gets, mbind, EM_bind. by rewrite Hh. Qed.

Lemma run_ref_add watch a b skip s :
  run_ref watch (a + b) skip s =
  match run_ref watch a skip s with
  | Ok (Running, n) s' => after n (run_ref watch b (if watch && (0 <? a)%nat then None else skip) s')
  | o => o
  end.
Proof.
  revert skip s. induction a as [|a IH]; intros skip s.
  - rewrite andb_false_r. cbn [Nat.add]. destruct (is_halted (cpu s)) eqn:Hh.
    + by rewrite !run_ref_halted by done.
    + rewrite run_ref_0 by done. by rewrite after_0.
  - cbn [Nat.add]. rewrite !(run_ref_S _ _ _ _ _ eq_refl).
    destruct (is_halted (cpu s)); [done|]. destruct (_ && negb (opt_is skip _)); [done|].
    destruct (fetch_execute _ s) as [[compressed [e|u]] s'| |]; [| |done..].
    + unfold mbind, EM_bind. by destruct (report_trap _ _ e s').
    + destruct (count_step s') as [u' s2| |]; [|done..]. rewrite IH.
      replace (if watch && (0 <? a)%nat then None else if watch then None else skip)
        with (if watch && (0 <? S a)%nat then None else skip)
        by (by destruct watch, a).
      destruct (run_ref watch a _ s2) as [[[] n] s3| |]; cbn [after]; try done.
      by rewrite after_after.
Qed.

Lemma run_ref_unwatched r skip skip' s : run_ref false r skip s = run_ref false r skip' s.
Proof.
  revert skip skip' s. induction r as [|r IH]; intros skip skip' s; [done|].
  rewrite !(run_ref_S _ _ _ _ _ eq_refl). destruct (is_halted (cpu s)); [done|]. cbn [andb].
  destruct (fetch_execute _ s) as [[compressed [e|u]] s'| |]; [done| |done..].
  destruct (count_step s'); [|done..]. by rewrite (IH skip skip').
Qed.

Lemma with_resume_same c : resume_past_breakpoint c = None -> with_resume None c = c.
Proof. intros Hr. destruct c. cbn in *. by subst. Qed.

(** [run_slice_ref] evaluated. *)
Lemma run_slice_ref_unfold budget s :
  run_slice_ref budget s =
  match run_ref (watches (cpu s)) (Z.to_nat budget) (resume_past_breakpoint (cpu s))
          (Build_Machine (with_resume None (cpu s)) (mem s) (host s)) with
  | Ok (st, n) s' =>
    Ok {| status := st; steps := n; out_pc := pc (cpu s'); out_exit_code := exit_code (cpu s') |} s'
  | Err e s' => Err e s'
  | Panic => Panic
  end.
Proof.
  unfold run_slice_ref, get_cpu, em_gets, mbind, EM_bind. cbn [modify_cpu em_modify].
  by destruct (run_ref _ _ _ _) as [[st n] s2| |].
Qed.

Lemma run_slice_ref_run budget s o s' :
  run_slice_ref budget s = Ok o s' <->
  run_ref (watches (cpu s)) (Z.to_nat budget) (resume_past_breakpoint (cpu s))
    (Build_Machine (with_resume None (cpu s)) (mem s) (host s)) = Ok (status o, steps o) s'
  /\ out_pc o = pc (cpu s') /\ out_exit_code o = exit_code (cpu s').
Proof.
  rewrite run_slice_ref_unfold. destruct (run_ref _ _ _ _) as [[st n] s2| |].
  - split; [by intros [= <- <-]|]. intros [[= -> -> ->] [Hp He]]. destruct o. cbn in *. by subst.
  - split; [done|by intros [? _]].
  - split; [done|by intros [? _]].
Qed.
End Compose.

Section Slicing.
Context {H Mem : Type} `{HostOps H} `{!HostReads H} `{!QuietHost H} `{!MemoryOps H Mem} `{!MemoryLaws H Mem}.
Context `{BuildProfile} `{FloatEnv}.
Implicit Types s : Machine H Mem.

Lemma run_slice_add a b s o1 s1 :
  overflow_checks = false -> machine_ok s -> 0 < a -> 0 <= b ->
  run_slice a s = Ok o1 s1 ->
  run_slice (a + b) s =
    match status o1 with
    | Running =>
      match run_slice b s1 with
      | Ok o2 s2 => Ok {| status := status o2; steps := steps o1 + steps o2;
                          out_pc := out_pc o2; out_exit_code := out_exit_code o2 |} s2
      | Err e s' => Err e s'
      | Panic => Panic
      end
    | _ => Ok o1 s1
    end.
Proof.
  intros Hr Hok Ha Hb E1.
  pose proof (run_slice_triple Hr (cpu s) a ltac:(lia) s (conj Hok eq_refl)) as Hpost.
  rewrite E1 in Hpost. destruct Hpost as [(_ & (Hin & Hst & _) & _) _]. cbn [fst snd] in *.
  rewrite run_slice_ref_eq in E1 by lia. rewrite !run_slice_ref_eq by lia.
  apply run_slice_ref_run in E1 as (E1 & Hp & He).
  pose proof (run_ref_add (watches (cpu s)) (Z.to_nat a) (Z.to_nat b) (resume_past_breakpoint (cpu s))
    (Build_Machine (with_resume None (cpu s)) (mem s) (host s))) as Hadd.
  rewrite E1, <- Z2Nat.inj_add in Hadd by lia.
  destruct (status o1) eqn:Es; try (apply run_slice_ref_run; rewrite Es; done).
  destruct Hst as (Hh & Ht & Hres).
  assert (Hw : watches (cpu s1) = watches (cpu s)).
  { unfold watches. by rewrite (in_debug _ _ _ Hin), (in_breakpoints _ _ _ Hin). }
  assert (Hs1 : run_ref (watches (cpu s)) (Z.to_nat b)
      (if watches (cpu s) && (0 <? Z.to_nat a)%nat then None else resume_past_breakpoint (cpu s)) s1
    = run_ref (watches (cpu s1)) (Z.to_nat b) (resume_past_breakpoint (cpu s1))
        (Build_Machine (with_resume None (cpu s1)) (mem s1) (host s1))).
  { rewrite with_resume_same, machine_eta, Hres, Hw by done.
    destruct (watches (cpu s)); [|apply run_ref_unwatched].
    by destruct (Nat.ltb_spec 0 (Z.to_nat a)); [|lia]. }
  rewrite Hs1 in Hadd.
  destruct (run_slice_ref b s1) as [o2 s2|[]|] eqn:E2.
  - apply run_slice_ref_run in E2 as (E2 & Hp2 & He2). rewrite E2 in Hadd.
    by apply run_slice_ref_run.
  - rewrite run_slice_ref_unfold in E2 |- *. cbn [status steps] in *.
    destruct (run_ref (watches (cpu s1)) _ _ _) as [[st n] s'|[]|]; [done|].
    cbn [after] in Hadd. by rewrite Hadd.
Qed.

(** Stepping is a slice of one instruction, as long as it does not trap. *)
Lemma step_slice_1 s o s' :
  is_halted (cpu s) = false ->
  run_slice 1 s = Ok o s' -> status o <> Trapped ->
  step_instruction s =
    Ok (match status o with
        | Breakpoint => BreakpointHit (pc (cpu s))
        | Halted => StepHalted (exit_code (cpu s'))
        | _ => StepOk
        end) s'.
Proof.
  intros Hh E Hst. rewrite run_slice_ref_eq in E by lia. apply run_slice_ref_run in E as (E & _ & _).
  change (Z.to_nat 1) with 1%nat in E. rewrite (run_ref_S _ _ _ _ _ eq_refl) in E.
  unfold step_instruction, get_cpu, em_gets. cbn [cpu mem host with_resume] in E.
  unfold mbind at 1, EM_bind at 1. cbn [is_halted pc breakpoints with_resume] in E. rewrite Hh in E |- *.
  assert (Hbp : watches (cpu s) && bool_decide (pc (cpu s) ∈ breakpoints (cpu s))
    = debug_enabled (cpu s) && bool_decide (pc (cpu s) ∈ breakpoints (cpu s))).
  { unfold watches. destruct (debug_enabled (cpu s)); [|done]. cbn [andb].
    repeat case_bool_decide; try done. set_solver. }
  rewrite Hbp in E.
  destruct (_ && negb (opt_is (resume_past_breakpoint (cpu s)) (pc (cpu s)))).
  { injection E as <- _ <-. unfold mbind, EM_bind. cbn. by destruct s as [[] ? ?]. }
  unfold mbind at 1, EM_bind at 1. cbn [modify_cpu em_modify].
  unfold mbind at 1, EM_bind at 1.
  destruct (fetch_execute _ _) as [[compressed [e|u]] s1|[]|]; [| |done].
  { unfold mbind, EM_bind in E. destruct (report_trap _ _ e s1) as [? s2|[]|]; [|done].
    cbn in E. injection E as Es _ _. by rewrite <- Es in Hst. }
  unfold mbind, EM_bind. destruct (count_step s1) as [u' s2|[]|]; [|done].
  cbn [mret EM_ret].
  destruct (is_halted (cpu s2)) eqn:Hh2;
    [rewrite run_ref_halted in E by done|rewrite run_ref_0 in E by done];
    cbn in E; injection E as <- _ <-; done.
Qed.
End Slicing.

(** ** Single steps and whole runs *)

Section StepRun.
Context {H Mem : Type} `{HostOps H} `{!HostReads H} `{!MemoryOps H Mem} `{!MemoryLaws H Mem}.
Context `{BuildProfile} `{FloatEnv}.
Implicit Types s : Machine H Mem.

(** What the result of a step says about the machine before and after. *)
Definition step_post s (r : StepResult) s' : Prop :=
  match r with
  | BreakpointHit a =>
    a = pc (cpu s) /\ a ∈ breakpoints (cpu s) /\ debug_enabled (cpu s) = true
    /\ s' = on_cpu (with_resume (Some a)) s
  | StepHalted code =>
    code = exit_code (cpu s') /\ is_halted (cpu s') = true
    /\ trapped (cpu s') = trapped (cpu s) /\ resume_past_breakpoint (cpu s') = None
  | StepTrap p =>
    p = pc (cpu s) /\ pc (cpu s') = p /\ is_halted (cpu s') = true /\ trapped (cpu s') = true
    /\ exit_code (cpu s') = TRAP_EXIT_CODE
    /\ step_counter (cpu s') = u64 (step_counter (cpu s) + 1)
  | StepOk =>
    is_halted (cpu s') = false /\ trapped (cpu s') = trapped (cpu s)
    /\ step_counter (cpu s') = u64 (step_counter (cpu s) + 1)
    /\ resume_past_breakpoint (cpu s') = None
  end.

(** The debugger's settings. *)
Definition same_watch s s' : Prop :=
  breakpoints (cpu s') = breakpoints (cpu s) /\ debug_enabled (cpu s') = debug_enabled (cpu s).

Lemma with_resume_ok r c : cpu_ok c -> cpu_ok (with_resume r c).
Proof. intros []. by split. Qed.

Lemma with_steps_ok n c : cpu_ok c -> is_u 64 n -> cpu_ok (with_step_counter n c).
Proof. intros [] ?. by split. Qed.

Lemma trap_tail_run err s1 p0 :
  exists h,
    (hnotify (js_print_err (cpu_error_to_string err));;
     match err with
     | UnknownSyscallError sys_err =>
       hnotify (js_print_err (cpu_error_to_string err));; notify_syscall sys_err
     | _ => mret tt
     end;;
     set_trapped;;
     mret (StepTrap p0)) s1
    = Ok (StepTrap p0)
        (Build_Machine (with_halted true (with_exit_code TRAP_EXIT_CODE (with_trapped true (cpu s1))))
           (mem s1) h).
Proof. destruct err; eexists; reflexivity. Qed.

Lemma step_instruction_ok s :
  overflow_checks = false -> machine_ok s ->
  exists r s', step_instruction s = Ok r s' /\ machine_ok s' /\ step_post s r s' /\ same_watch s s'.
Proof.
  intros Hr Hok. destruct Hok as [Hc Hm]. unfold step_instruction. rewrite get_cpu_run.
  destruct (debug_enabled (cpu s) && bool_decide (pc (cpu s) ∈ breakpoints (cpu s))
    && negb (opt_is (resume_past_breakpoint (cpu s)) (pc (cpu s)))) eqn:Hbp.
  { apply andb_prop in Hbp as [[Hd Hin]%andb_prop _]. apply bool_decide_eq_true in Hin.
    do 2 eexists. split; [reflexivity|]. split; [split; [by apply with_resume_ok|done]|]. by split. }
  set (s0 := on_cpu (with_resume None) s).
  assert (Hok0 : machine_ok s0) by (split; [by apply with_resume_ok|done]).
  rewrite (em_bind_ok (modify_cpu (with_resume None)) _ s tt s0) by reflexivity.
  destruct (is_halted (cpu s)) eqn:Hh.
  { do 2 eexists. split; [reflexivity|]. by split_and!. }
  pose proof (fetch_execute_triple (cpu s0) (pc (cpu s)) Hr (ok_pc _ Hc) s0 (good_self s0 Hok0)) as Hf.
  unfold mbind at 1, EM_bind at 1.
  destruct (fetch_execute (pc (cpu s)) s0) as [[compressed [e|[]]] s1|[]|]; [| |done].
  - destruct Hf as [Hc1 Hs1 Hp1 Hm1].
    rewrite (em_bind_ok _ _ _ _ _ (count_step_run Hr s1)).
    destruct (trap_tail_run e (on_cpu (with_step_counter (u64 (step_counter (cpu s1) + 1))) s1) (pc (cpu s))) as [h Ht].
    unfold on_cpu in Ht. rewrite Ht. do 2 eexists. split; [reflexivity|]. split.
    + split; [apply halt_trap_ok, with_steps_ok; [done|apply u64_range]|done].
    + split; [cbn; rewrite (same_steps _ _ Hs1); by split_and!|].
      split; [apply (same_breakpoints _ _ Hs1)|apply (same_debug _ _ Hs1)].
  - destruct Hf as [[Hc1 Hm1] Hs1]. rewrite (em_bind_ok _ _ _ _ _ (count_step_run Hr s1)).
    rewrite get_cpu_run. cbn [cpu is_halted with_step_counter exit_code].
    do 2 eexists. split; [reflexivity|].
    split; [split; [apply with_steps_ok; [done|apply u64_range]|done]|].
    split; [|split; [apply (same_breakpoints _ _ Hs1)|apply (same_debug _ _ Hs1)]].
    pose proof (same_trapped _ _ Hs1). pose proof (same_resume _ _ Hs1). pose proof (same_steps _ _ Hs1) as Hst.
    destruct (is_halted (cpu s1)) eqn:Hh1; cbn; [by split_and!|]. rewrite Hst. by split_and!.
Qed.

(** C32: Single-stepping is total and its result is accurate.  A step from a
    well-formed machine never panics and gives a well-formed machine; a breakpoint
    hit changes nothing but the remembered address; a trap reports the faulting
    address, leaves the program counter there, and halts with the trap flag and exit
    code 134 (and, unlike a slice, counts the faulting instruction); otherwise
    exactly one instruction was counted, or the machine was or became halted.  The
    breakpoints and the debug flag are unchanged. *)
Theorem step_total s :
  overflow_checks = false -> machine_ok s ->
  exists r s', step_instruction s = Ok r s' /\ machine_ok s' /\ step_post s r s' /\ same_watch s s'.
Proof. apply step_instruction_ok. Qed.

Lemma run_ok k s :
  overflow_checks = false -> machine_ok s ->
  exists r s', run k s = Ok r s' /\ machine_ok s' /\
    match r with
    | Some code => is_halted (cpu s') = true /\ code = exit_code (cpu s')
                   /\ forall j, run (k + j) s = Ok r s'
    | None => True
    end.
Proof.
  intros Hr. revert s. induction k as [|k IH]; intros s Hok.
  { exists None, s. done. }
  pose proof (run_slice_triple Hr (cpu s) u32_MAX ltac:(by unfold u32_MAX) s (conj Hok eq_refl)) as Ht.
  destruct (run_slice u32_MAX s) as [o s1|[]|] eqn:E; [|done].
  destruct Ht as [(_ & ([Hok1 _ _ _ _] & Hpost & _) & _) _]. cbn [fst snd] in *.
  assert (Hrun : forall n, run (S n) s =
    match status o with
    | Running | Breakpoint => run n s1
    | Halted | Trapped => Ok (Some (exit_code (cpu s1))) (on_cpu (with_halted true) s1)
    end).
  { intros n. cbn [run]. rewrite (em_bind_ok _ _ _ _ _ E). by destruct (status o). }
  assert (Hhalt : machine_ok (on_cpu (with_halted true) s1)).
  { destruct Hok1 as [[] ?]. by split; [split|]. }
  assert (Hcont : run (S k) s = run k s1 -> (forall n, run (S n) s = run n s1) ->
    exists r s', run (S k) s = Ok r s' /\ machine_ok s' /\
      match r with
      | Some code => is_halted (cpu s') = true /\ code = exit_code (cpu s')
                     /\ forall j, run (S k + j) s = Ok r s'
      | None => True
      end).
  { intros Hk Hn. destruct (IH s1 Hok1) as (r & s' & E' & Hok' & Hr'). exists r, s'.
    rewrite Hk. split_and!; [done..|]. destruct r; [|done]. destruct Hr' as (? & ? & Hj).
    split_and!; [done..|]. intros j. cbn [Nat.add]. by rewrite Hn. }
  specialize (Hrun k) as Hk. destruct (status o); try by apply Hcont.
  all: do 2 eexists; split; [exact Hk|]; split_and!; try done.
  all: intros j; apply Hrun.
Qed.
End StepRun.

Section Complete.
Context {H Mem : Type} `{HostOps H} `{!HostReads H} `{!QuietHost H} `{!MemoryOps H Mem} `{!MemoryLaws H Mem}.
Context `{BuildProfile} `{FloatEnv} (Hrelease : overflow_checks = false).
Implicit Types s : Machine H Mem.

Definition stops (o : SliceOutcome) : Prop := status o = Halted \/ status o = Trapped.

Lemma run_stop s o s1 k :
  run_slice u32_MAX s = Ok o s1 -> stops o ->
  run (S k) s = Ok (Some (exit_code (cpu s1))) (on_cpu (with_halted true) s1).
Proof.
  intros E Hs. cbn [run]. rewrite (em_bind_ok _ _ _ _ _ E). by destruct Hs as [-> | ->].
Qed.

Lemma run_more s o s1 k :
  run_slice u32_MAX s = Ok o s1 -> status o = Running -> run (S k) s = run k s1.
Proof. intros E Hs. cbn [run]. rewrite (em_bind_ok _ _ _ _ _ E). by rewrite Hs. Qed.

Lemma run_reaches k s n o s1 :
  machine_ok s -> debug_enabled (cpu s) = false -> 0 < n <= Z.of_nat k * u32_MAX ->
  run_slice n s = Ok o s1 -> stops o ->
  run k s = Ok (Some (exit_code (cpu s1))) (on_cpu (with_halted true) s1).
Proof.
  assert (Hmax : 0 < u32_MAX) by done.
  revert s n o s1. induction k as [|k IH]; intros s n o s1 Hok Hdbg Hn E Hs; [lia|].
  destruct (Z.le_gt_cases n u32_MAX).
  { apply run_stop with o; [|done].
    pose proof (run_slice_add n (u32_MAX - n) s o s1 Hrelease Hok ltac:(lia) ltac:(lia) E) as Hadd.
    replace (n + (u32_MAX - n)) with u32_MAX in Hadd by lia. rewrite Hadd.
    by destruct Hs as [-> | ->]. }
  pose proof (run_slice_triple Hrelease (cpu s) u32_MAX ltac:(lia) s (conj Hok eq_refl)) as Ht.
  destruct (run_slice u32_MAX s) as [o2 s2|[]|] eqn:E2; [|done].
  destruct Ht as [(_ & (Hin & Hpost & _) & _) _]. cbn [fst snd] in *.
  pose proof (run_slice_add u32_MAX (n - u32_MAX) s o2 s2 Hrelease Hok ltac:(lia) ltac:(lia) E2) as Hadd.
  replace (u32_MAX + (n - u32_MAX)) with n in Hadd by lia. rewrite E in Hadd.
  destruct (status o2) eqn:S2.
  - rewrite (run_more _ _ _ _ E2 S2).
    destruct (run_slice (n - u32_MAX) s2) as [o3 s3|[]|] eqn:E3; [|done]. injection Hadd as -> ->.
    apply (IH s2 (n - u32_MAX) o3 s3 (in_ok _ _ _ Hin)); [by rewrite (in_debug _ _ _ Hin)|lia|exact E3|exact Hs].
  - injection Hadd as -> ->. apply run_stop with o2; [done|by left].
  - injection Hadd as -> ->. apply run_stop with o2; [done|by right].
  - destruct Hpost as (_ & _ & Hd & _). congruence.
Qed.
End Complete.

Section Finishing.
Context {H Mem : Type} `{HostOps H} `{!HostReads H} `{!MemoryOps H Mem} `{!MemoryLaws H Mem}.
Context `{BuildProfile} `{FloatEnv}.
Implicit Types s : Machine H Mem.

(** C14: [run] never panics and reaches the end of every program that ends.  In the
    release build, when [run] returns a code, the machine is halted, the code is its
    exit code, and trying more slices changes nothing.  Out of debug mode and on a
    host whose interrupt controller is idle, if the guest stops (exits or traps)
    within [n] instructions, then [run] does return, after at most [n / (2^32 - 1)]
    slices, rounded up, with the exit code and the machine of that single long
    slice, marked halted.  (In debug mode a breakpoint ends a slice early, and
    polling the controller more often can change when an interrupt is taken.) *)
Theorem run_complete s k :
  overflow_checks = false -> machine_ok s ->
  (exists r s', run k s = Ok r s' /\ machine_ok s' /\
    match r with
    | Some code => is_halted (cpu s') = true /\ code = exit_code (cpu s')
                   /\ forall j, run (k + j) s = Ok r s'
    | None => True
    end)
  /\ (QuietHost H -> forall n o s1, debug_enabled (cpu s) = false -> 0 < n <= Z.of_nat k * u32_MAX ->
      run_slice n s = Ok o s1 -> stops o ->
      run k s = Ok (Some (exit_code (cpu s1))) (on_cpu (with_halted true) s1)).
Proof. intros Hr Hok. split; [by apply run_ok|]. intros. by eapply run_reaches. Qed.
End Finishing.

Section SliceTheorems.
Context {H Mem : Type} `{HostOps H} `{!HostReads H} `{!QuietHost H} `{!MemoryOps H Mem} `{!MemoryLaws H Mem}.
Context `{BuildProfile} `{FloatEnv}.
Implicit Types s : Machine H Mem.

(** C12: The chunked slice loop is the instruction-at-a-time loop.  When the host's
    interrupt controller is idle, polling it every [delay] instructions (for any
    delays it reports) makes no difference: [run_slice] gives the outcome and the
    machine of the reference loop that tests for halt, budget and breakpoint
    before each instruction. *)
Theorem run_slice_unchunked s budget :
  0 <= budget -> run_slice budget s = run_slice_ref budget s.
Proof. apply run_slice_ref_eq. Qed.

(** C13: Slices compose.  In the release build and on a host whose interrupt
    controller is idle (each slice polls it when it starts), cutting a run into
    slices does not change it: for every [a > 0], a slice of [a + b] instructions is
    a slice of [a] followed, if that one was still running, by a slice of [b], with
    the executed counts added, breakpoints included.  (An empty first slice would
    forget the breakpoint to resume from.) *)
Theorem slices_compose s a b o1 s1 :
  overflow_checks = false -> machine_ok s -> 0 < a -> 0 <= b ->
  run_slice a s = Ok o1 s1 ->
  run_slice (a + b) s =
    match status o1 with
    | Running =>
      match run_slice b s1 with
      | Ok o2 s2 => Ok {| status := status o2; steps := steps o1 + steps o2;
                          out_pc := out_pc o2; out_exit_code := out_exit_code o2 |} s2
      | Err e s' => Err e s'
      | Panic => Panic
      end
    | _ => Ok o1 s1
    end.
Proof. apply run_slice_add. Qed.

(** C33: Stepping and slicing agree.  On a host whose interrupt controller is idle
    (a slice polls it, a step does not), for a machine that is not halted and unless
    the instruction traps, stepping leaves exactly the machine a slice of one
    instruction leaves, and reports the same event. *)
Theorem step_is_slice s o s' :
  is_halted (cpu s) = false -> run_slice 1 s = Ok o s' -> status o <> Trapped ->
  step_instruction s =
    Ok (match status o with
        | Breakpoint => BreakpointHit (pc (cpu s))
        | Halted => StepHalted (exit_code (cpu s'))
        | _ => StepOk
        end) s'.
Proof. apply step_slice_1. Qed.
End SliceTheorems.

(** ** The hypotheses hold on the concrete machine *)

#[local] Existing Instance release_profile.
#[local] Existing Instance default_float_env.

Lemma step_total_witness :
  exists r s', step_instruction demo_machine = Ok r s' /\ step_post demo_machine r s'.
Proof.
  destruct (step_total demo_machine release_ok demo_ok) as (r & s' & E & _ & Hp & _).
  exists r, s'. split; [exact E|exact Hp].
Defined.

Lemma run_complete_witness :
  exists o s1, run_slice 100 demo_machine = Ok o s1 /\
    run 1 demo_machine = Ok (Some (exit_code (cpu s1))) (on_cpu (with_halted true) s1).
Proof.
  destruct (run_slice 100 demo_machine) as [o s1|[]|] eqn:E; [|vm_compute in E; discriminate E].
  exists o, s1. split; [reflexivity|].
  apply (proj2 (run_complete demo_machine 1 release_ok demo_ok) _ 100 o s1 eq_refl); [unfold u32_MAX; lia|exact E|].
  left. vm_compute in E. injection E as <- _. reflexivity.
Defined.

Lemma run_slice_unchunked_witness : run_slice 2 demo_machine = run_slice_ref 2 demo_machine.
Proof. exact (run_slice_unchunked demo_machine 2 ltac:(lia)). Defined.

Lemma slices_compose_witness :
  exists o1 s1, run_slice 2 demo_machine = Ok o1 s1 /\ status o1 = Running /\
    run_slice (2 + 5) demo_machine =
      match run_slice 5 s1 with
      | Ok o2 s2 => Ok {| status := status o2; steps := steps o1 + steps o2;
                          out_pc := out_pc o2; out_exit_code := out_exit_code o2 |} s2
      | Err e s' => Err e s'
      | Panic => Panic
      end.
Proof.
  destruct (run_slice 2 demo_machine) as [o1 s1|[]|] eqn:E; [|vm_compute in E; discriminate E].
  assert (S1 : status o1 = Running) by (vm_compute in E; injection E as <- _; reflexivity).
  exists o1, s1. split; [reflexivity|]. split; [exact S1|].
  pose proof (slices_compose demo_machine 2 5 o1 s1 release_ok demo_ok ltac:(lia) ltac:(lia) E) as Hc.
  rewrite S1 in Hc. exact Hc.
Defined.

Lemma step_is_slice_witness :
  exists o s', run_slice 1 demo_machine = Ok o s' /\ step_instruction demo_machine = Ok StepOk s'.
Proof.
  destruct (run_slice 1 demo_machine) as [o s'|[]|] eqn:E; [|vm_compute in E; discriminate E].
  assert (S1 : status o = Running) by (vm_compute in E; injection E as <- _; reflexivity).
  exists o, s'. split; [reflexivity|].
  assert (Ht : status o <> Trapped) by (rewrite S1; discriminate).
  pose proof (step_is_slice demo_machine o s' eq_refl E Ht) as Hs. rewrite S1 in Hs. exact Hs.
Defined.
