(* ===== verification/IsaMem.v ===== *)
(** Loads, stores and atomic operations on the paged memory, as the manual
    describes them: little-endian accesses to a byte-addressed memory ([byte_at],
    [set_bytes]) below the MMIO window, and device accesses above it. *)

From S2P Require Import Prelude Bits Inst Fmt Host Memory MemoryProps Float Cpu Syscall Exec Rvc Safe SafeExec IsaSpec RvcProps.

Inductive load_op := LB | LH | LW | LBU | LHU.
Inductive store_op := SB | SH | SW.
Inductive amo := LR | SC | AMOSWAP | AMOADD | AMOXOR | AMOAND | AMOOR | AMOMIN | AMOMAX
               | AMOMINU | AMOMAXU.

Definition load_code (op : load_op) : Z :=
  match op with LB => 0 | LH => 1 | LW => 2 | LBU => 4 | LHU => 5 end.
Definition store_code (op : store_op) : Z := match op with SB => 0 | SH => 1 | SW => 2 end.
Definition amo_code (op : amo) : Z :=
  match op with
  | LR => 0x02 | SC => 0x03 | AMOSWAP => 0x01 | AMOADD => 0x00 | AMOXOR => 0x04 | AMOAND => 0x0C
  | AMOOR => 0x08 | AMOMIN => 0x10 | AMOMAX => 0x14 | AMOMINU => 0x18 | AMOMAXU => 0x1C
  end.

Definition load_size (op : load_op) : Z := match op with LB | LBU => 1 | LH | LHU => 2 | LW => 4 end.
Definition store_size (op : store_op) : Z := match op with SB => 1 | SH => 2 | SW => 4 end.

(** The [n]-byte little-endian number at [a], and the bytes of a number. *)
Fixpoint le_value (m : Memory) (a : Z) (n : nat) : Z :=
  match n with O => 0 | S n => byte_at m a + (le_value m (a + 1) n .<< 8) end.
Definition le_bytes (n v : Z) : list Z := map (le_byte v) (seqZ 0 n).

(** Sign or zero extension to 32 bits. *)
Definition load_extend (op : load_op) (v : Z) : Z :=
  match op with
  | LB => sext 8 v mod 2 ^ 32
  | LH => sext 16 v mod 2 ^ 32
  | LW | LBU | LHU => v
  end.

Definition amo_sem (op : amo) (old src : Z) : Z :=
  match op with
  | LR => old
  | SC | AMOSWAP => src
  | AMOADD => (old + src) mod 2 ^ 32
  | AMOXOR => Z.lxor old src
  | AMOAND => Z.land old src
  | AMOOR => Z.lor old src
  | AMOMIN => if i32 old <=? i32 src then old else src
  | AMOMAX => if i32 src <=? i32 old then old else src
  | AMOMINU => Z.min old src
  | AMOMAXU => Z.max old src
  end.

(** ** The accesses *)

Section Access.
Context {H : Type} `{HostOps H}.
Implicit Types (m : Memory) (h : H).

Lemma le_value_1 m a : le_value m a 1 = byte_at m a.
Proof. cbn [le_value]. rewrite Z.shiftl_0_l. lia. Qed.

Lemma read_u16_ram m a h :
  mem_ok m -> ram a -> a + 2 <= MMIO_BASE -> Memory_read_u16 m a h = Some (le_value m a 2, h).
Proof.
  intros Hm Ha Hl. rewrite read_u16_default by done. unfold default_read_u16.
  assert (Hr1 : ram (a + 1)) by (unfold ram in *; lia).
  erewrite hm_bind_some by by apply read_u8_ram.
  change (wrapping_add a 1) with (wrapping_add a (u32 1)). rewrite wrapping_add_ram by (done || lia).
  erewrite hm_bind_some by by apply read_u8_ram.
  pose proof (byte_at_is_u8 m a Hm). pose proof (byte_at_is_u8 m (a + 1) Hm).
  unfold mret, HM_ret. cbn [le_value]. do 2 f_equal.
  set (b0 := byte_at m a) in *. set (b1 := byte_at m (a + 1)) in *. clearbody b0 b1. bits.
Qed.

Lemma read_u32_ram m a h :
  mem_ok m -> ram a -> a + 4 <= MMIO_BASE -> Memory_read_u32 m a h = Some (le_value m a 4, h).
Proof.
  intros Hm Ha Hl. rewrite read_u32_default, read_u32_each by done. do 2 f_equal.
  pose proof (byte_at_is_u8 m a Hm). pose proof (byte_at_is_u8 m (a + 1) Hm).
  pose proof (byte_at_is_u8 m (a + 2) Hm). pose proof (byte_at_is_u8 m (a + 3) Hm).
  cbn [le_value]. replace (a + 1 + 1) with (a + 2) by lia. replace (a + 2 + 1) with (a + 3) by lia.
  set (b0 := byte_at m a) in *. set (b1 := byte_at m (a + 1)) in *.
  set (b2 := byte_at m (a + 2)) in *. set (b3 := byte_at m (a + 3)) in *. clearbody b0 b1 b2 b3. bits.
Qed.

Lemma le_value_4_range m a : mem_ok m -> is_u 32 (le_value m a 4).
Proof.
  intros Hm. cbn [le_value].
  pose proof (byte_at_is_u8 m a Hm). pose proof (byte_at_is_u8 m (a + 1) Hm).
  pose proof (byte_at_is_u8 m (a + 1 + 1) Hm). pose proof (byte_at_is_u8 m (a + 1 + 1 + 1) Hm).
  set (b0 := byte_at m a) in *. set (b1 := byte_at m (a + 1)) in *.
  set (b2 := byte_at m (a + 1 + 1)) in *. set (b3 := byte_at m (a + 1 + 1 + 1)) in *.
  clearbody b0 b1 b2 b3. bits_range.
Qed.

Lemma write_u16_ram m a v h :
  ram a -> a + 2 <= MMIO_BASE -> Memory_write_u16 m a v h = Some (set_bytes m a (le_bytes 2 v), h).
Proof.
  intros Ha Hl. assert (is_u 32 a) by (unfold ram, is_u, MMIO_BASE in *; lia).
  rewrite write_u16_default, default_write_u16_each, write_each_ram by (done || cbn; lia).
  by rewrite Z.add_0_r.
Qed.

Lemma write_u32_ram m a v h :
  ram a -> a + 4 <= MMIO_BASE -> Memory_write_u32 m a v h = Some (set_bytes m a (le_bytes 4 v), h).
Proof.
  intros Ha Hl. assert (is_u 32 a) by (unfold ram, is_u, MMIO_BASE in *; lia).
  rewrite write_u32_default, default_write_u32_each, write_each_ram by (done || cbn; lia).
  by rewrite Z.add_0_r.
Qed.

Lemma le_bytes_trunc8 v : is_u 32 v -> [u8 v] = le_bytes 1 v.
Proof.
  intros Hv. change (le_bytes 1 v) with [le_byte v 0]. f_equal. unfold le_byte.
  change (8 * 0) with 0. bits.
Qed.
Lemma le_bytes_trunc16 v : is_u 32 v -> le_bytes 2 (u16 v) = le_bytes 2 v.
Proof.
  intros Hv. change (le_bytes 2 v) with [le_byte v 0; le_byte v 1].
  change (le_bytes 2 (u16 v)) with [le_byte (u16 v) 0; le_byte (u16 v) 1].
  unfold le_byte. change (8 * 0) with 0. change (8 * 1) with 8. f_equal; [|f_equal]; bits.
Qed.
End Access.

(** ** Executing them *)

Section MemRefine.
Context {H : Type} `{HostOps H} `{BuildProfile} `{FloatEnv}.
Implicit Types s : Machine H Memory.

(** The effective address. *)
Definition eff_addr s (r off : Z) : Z := (X (cpu s) r + off) mod 2 ^ 32.
Definition next_pc s : Z := (pc (cpu s) + 4) mod 2 ^ 32.

Lemma eff_addr_range s r off : is_u 32 (eff_addr s r off).
Proof. by apply wrap_is_u. Qed.

Lemma load_dispatch s op r r1 off v h' :
  cpu_ok (cpu s) -> asm32_ok (FmtI OP_LOAD r (load_code op) r1 off) ->
  match op with
  | LB | LBU => Memory_read_u8 (mem s) (eff_addr s r1 off) (host s)
  | LH | LHU => Memory_read_u16 (mem s) (eff_addr s r1 off) (host s)
  | LW => Memory_read_u32 (mem s) (eff_addr s r1 off) (host s)
  end = Some (v, h') ->
  execute_inst32 (encode32 (FmtI OP_LOAD r (load_code op) r1 off)) s =
  Ok tt (Build_Machine (with_pc (next_pc s) (set_X r (load_extend op v) (cpu s))) (mem s) h').
Proof.
  intros Hc Hok Hv.
  rewrite (execute_inst32_run _ _ (next_pc s) (Build_Machine (set_X r (load_extend op v) (cpu s)) (mem s) h')); [done|].
  decoded Hok. change (wrapping_add (pc (cpu s)) 4) with (next_pc s).
  match goal with E : opcode _ = OP_LOAD, E' : funct3 _ = _ |- _ => rename E into Hop, E' into Hf3 end.
  rewrite dispatch32_rv32i by (left; by rewrite Hop).
  unfold exec_rv32i, load_value. rewrite Hop, Hf3. decide_consts. run_regs.
  rewrite !wrapping_add_mod. unfold eff_addr in Hv.
  destruct op; cbn [load_code load_extend] in *; decide_consts; unfold mread, mbind, EM_bind;
    cbn [read_u8 read_u16 read_u32 Memory_ops]; rewrite Hv; unfold mret, EM_ret;
    by rewrite write_reg_last.
Qed.

Lemma store_dispatch s op r1 r2 off m' h' :
  cpu_ok (cpu s) -> asm32_ok (FmtS OP_STORE (store_code op) r1 r2 off) ->
  match op with
  | SB => Memory_write_u8 (mem s) (eff_addr s r1 off) (u8 (X (cpu s) r2)) (host s)
  | SH => Memory_write_u16 (mem s) (eff_addr s r1 off) (u16 (X (cpu s) r2)) (host s)
  | SW => Memory_write_u32 (mem s) (eff_addr s r1 off) (X (cpu s) r2) (host s)
  end = Some (m', h') ->
  execute_inst32 (encode32 (FmtS OP_STORE (store_code op) r1 r2 off)) s =
  Ok tt (Build_Machine (with_pc (next_pc s) (cpu s)) m' h').
Proof.
  intros Hc Hok Hv. rewrite (execute_inst32_run _ _ (next_pc s) (Build_Machine (cpu s) m' h')); [done|].
  decoded Hok. change (wrapping_add (pc (cpu s)) 4) with (next_pc s).
  match goal with E : opcode _ = OP_STORE, E' : funct3 _ = _ |- _ => rename E into Hop, E' into Hf3 end.
  rewrite dispatch32_rv32i by (left; by rewrite Hop).
  unfold exec_rv32i, store_value. rewrite Hop, Hf3. decide_consts. run_regs.
  rewrite !wrapping_add_mod. unfold eff_addr in Hv.
  destruct op; cbn [store_code] in *; decide_consts; unfold mwrite, mbind, EM_bind;
    cbn [write_u8 write_u16 write_u32 Memory_ops]; by rewrite Hv.
Qed.

Lemma amo_op_sem op old src :
  is_u 32 old -> is_u 32 src ->
  amo_op (amo_code op) old src
  = Some (amo_sem op old src, match op with SC => 0 | _ => old end).
Proof.
  intros Ho Hs. unfold amo_op, amo_sem.
  destruct op; cbn [amo_code]; decide_consts; try done; do 2 f_equal.
  - destruct (Z.leb_spec (i32 old) (i32 src)).
    + rewrite Z.min_l, u32_i32 by lia. by apply wrap_small.
    + rewrite Z.min_r, u32_i32 by lia. by apply wrap_small.
  - destruct (Z.leb_spec (i32 src) (i32 old)).
    + rewrite Z.max_l, u32_i32 by lia. by apply wrap_small.
    + rewrite Z.max_r, u32_i32 by lia. by apply wrap_small.
Qed.

Lemma ram_intro s r off k : 0 < k -> eff_addr s r off + k <= MMIO_BASE -> ram (eff_addr s r off).
Proof. intros Hk Hl. pose proof (eff_addr_range s r off). unfold ram, is_u in *. lia. Qed.

Lemma amo_dispatch s op r f3 r1 r2 aqrl :
  cpu_ok (cpu s) -> mem_ok (mem s) -> is_u 2 aqrl ->
  asm32_ok (FmtR OP_AMO r f3 r1 r2 (4 * amo_code op + aqrl)) ->
  ram (X (cpu s) r1) -> X (cpu s) r1 + 4 <= MMIO_BASE ->
  let old := le_value (mem s) (X (cpu s) r1) 4 in
  dispatch32 (decode32 (encode32 (FmtR OP_AMO r f3 r1 r2 (4 * amo_code op + aqrl)))) (next_pc s) s =
  Ok (next_pc s) (Build_Machine (set_X r (match op with SC => 0 | _ => old end) (cpu s))
    (match op with
     | LR => mem s
     | _ => set_bytes (mem s) (X (cpu s) r1) (le_bytes 4 (amo_sem op old (X (cpu s) r2)))
     end) (host s)).
Proof.
  intros Hc Hm Hq Hok Hr Hl old. decoded Hok.
  match goal with E : opcode _ = OP_AMO, E' : funct7 _ = _ |- _ => rename E into Hop, E' into Hf7 end.
  unfold dispatch32, is_rv32i_opcode. rewrite Hop. decide_consts. cbn [orb]. unfold exec_rv32a.
  assert (H5 : funct7 d .>> 2 = amo_code op).
  { rewrite Hf7, Z.shiftr_div_pow2 by lia. change (2 ^ 2) with 4. unfold is_u in Hq.
    rewrite Z.mul_comm, Z.div_add_l, (Z.div_small aqrl) by lia. lia. }
  rewrite H5. cbv zeta. rewrite em_assoc. run_regs. rewrite em_assoc. run_regs.
  unfold mread at 1, mbind, EM_bind. cbn [read_u32 Memory_ops].
  rewrite read_u32_ram by done. fold old.
  rewrite amo_op_sem by (by apply le_value_4_range || by apply X_ok).
  cbn [or_illegal mret EM_ret].
  destruct op; cbn [amo_code]; decide_consts; cbn [negb]; unfold mwrite, mret, EM_ret;
    cbn [write_u32 Memory_ops mem host]; rewrite ?write_u32_ram by done;
    rewrite write_reg_last by done; unfold on_cpu; cbn [cpu mem host]; by destruct s.
Qed.

(** C9: A load from RAM delivers the little-endian bytes at the effective
    address.  For [lb], [lh], [lw], [lbu] and [lhu], aligned or not, at any address
    whose bytes lie below the MMIO window: the destination register gets the value
    sign- or zero-extended to 32 bits, memory and host are untouched, and the program
    counter advances by four.  Unmapped memory reads as zero. *)
Theorem load_ram s op r r1 off :
  cpu_ok (cpu s) -> mem_ok (mem s) -> asm32_ok (FmtI OP_LOAD r (load_code op) r1 off) ->
  eff_addr s r1 off + load_size op <= MMIO_BASE ->
  execute_inst32 (encode32 (FmtI OP_LOAD r (load_code op) r1 off)) s =
  Ok tt (Build_Machine
    (with_pc (next_pc s)
       (set_X r (load_extend op (le_value (mem s) (eff_addr s r1 off) (Z.to_nat (load_size op)))) (cpu s)))
    (mem s) (host s)).
Proof.
  intros Hc Hm Hok Hl.
  assert (Hr : ram (eff_addr s r1 off)) by (apply ram_intro with (load_size op); [by destruct op|done]).
  apply load_dispatch; [done..|].
  destruct op; cbn [load_size] in *.
  - rewrite read_u8_ram by done. by rewrite le_value_1.
  - by apply read_u16_ram.
  - by apply read_u32_ram.
  - rewrite read_u8_ram by done. by rewrite le_value_1.
  - by apply read_u16_ram.
Qed.

(** C10: A store to RAM writes the low bytes of the source register, little-endian,
    at the effective address, and nothing else: [sb], [sh] and [sw], aligned or not,
    at any address whose bytes lie below the MMIO window. *)
Theorem store_ram s op r1 r2 off :
  cpu_ok (cpu s) -> asm32_ok (FmtS OP_STORE (store_code op) r1 r2 off) ->
  eff_addr s r1 off + store_size op <= MMIO_BASE ->
  let m' := set_bytes (mem s) (eff_addr s r1 off) (le_bytes (store_size op) (X (cpu s) r2)) in
  execute_inst32 (encode32 (FmtS OP_STORE (store_code op) r1 r2 off)) s =
    Ok tt (Build_Machine (with_pc (next_pc s) (cpu s)) m' (host s))
  /\ (forall b, b < eff_addr s r1 off \/ eff_addr s r1 off + store_size op <= b ->
       byte_at m' b = byte_at (mem s) b).
Proof.
  intros Hc Hok Hl m'.
  assert (Hr : ram (eff_addr s r1 off)) by (apply ram_intro with (store_size op); [by destruct op|done]).
  assert (HX : is_u 32 (X (cpu s) r2)) by (apply X_ok; [done|apply Hok]).
  split.
  - apply store_dispatch; [done..|]. subst m'.
    destruct op; cbn [store_size] in *.
    + rewrite write_u8_ram by done. by rewrite <- le_bytes_trunc8.
    + rewrite write_u16_ram by done. by rewrite le_bytes_trunc16.
    + by apply write_u32_ram.
  - intros b Hb. apply byte_at_set_bytes_frame. by destruct op.
Qed.

(** C26: An access at or above [0xFFFF0000] is exactly one device access.  A load
    asks the host once, with the address and the size in bytes, and extends the low
    bytes of the answer; a store hands the host the address, the size and the
    truncated register.  RAM is untouched. *)
Theorem device_access s lop sop r r1 r2 off :
  cpu_ok (cpu s) ->
  asm32_ok (FmtI OP_LOAD r (load_code lop) r1 off) ->
  asm32_ok (FmtS OP_STORE (store_code sop) r1 r2 off) ->
  MMIO_BASE <= eff_addr s r1 off ->
  let (v, h') := js_read_mmio (eff_addr s r1 off) (load_size lop) (host s) in
  execute_inst32 (encode32 (FmtI OP_LOAD r (load_code lop) r1 off)) s =
    Ok tt (Build_Machine
      (with_pc (next_pc s) (set_X r (load_extend lop (v mod 2 ^ (8 * load_size lop))) (cpu s)))
      (mem s) h')
  /\ execute_inst32 (encode32 (FmtS OP_STORE (store_code sop) r1 r2 off)) s =
    Ok tt (Build_Machine (with_pc (next_pc s) (cpu s)) (mem s)
      (js_write_mmio (eff_addr s r1 off) (store_size sop)
         (X (cpu s) r2 mod 2 ^ (8 * store_size sop)) (host s))).
Proof.
  intros Hc Hl Hs Ha. pose proof (js_read_mmio_u32 (eff_addr s r1 off) (load_size lop) (host s)) as Hv.
  destruct (js_read_mmio _ _ (host s)) as [v h'] eqn:E. cbn [fst] in Hv.
  assert (Hm : (MMIO_BASE <=? eff_addr s r1 off) = true) by by apply Z.leb_le.
  assert (HX : is_u 32 (X (cpu s) r2)) by (apply X_ok; [done|apply Hs]).
  split.
  - apply load_dispatch; [done..|].
    destruct lop; cbn [load_size] in *; unfold Memory_read_u8, Memory_read_u16, Memory_read_u32, mmio_read;
      rewrite Hm; unfold mbind, HM_bind, mret, HM_ret; rewrite E; do 2 f_equal; change (8 * 1) with 8;
      change (8 * 2) with 16; change (8 * 4) with 32; change (v mod 2 ^ ?w) with (wrap w v);
      try (by rewrite wrap_small); bits.
  - apply store_dispatch; [done..|].
    destruct sop; cbn [store_size] in *; unfold Memory_write_u8, Memory_write_u16, Memory_write_u32, mmio_write;
      rewrite Hm; try done. by rewrite Z.mod_small by apply HX.
Qed.

(** C25: Atomic memory operations.  For each of the eleven A-extension operations
    on a word of RAM, for every ordering annotation: [rd] gets the old word (zero,
    success, for [sc.w]), the word is replaced by the operation applied to the old
    word and [rs2] (signed and unsigned minimum and maximum included), and [lr.w]
    leaves memory alone. *)
Theorem amo_ram s op r r1 r2 aqrl :
  cpu_ok (cpu s) -> mem_ok (mem s) -> is_u 2 aqrl ->
  asm32_ok (FmtR OP_AMO r 2 r1 r2 (4 * amo_code op + aqrl)) -> X (cpu s) r1 + 4 <= MMIO_BASE ->
  let old := le_value (mem s) (X (cpu s) r1) 4 in
  execute_inst32 (encode32 (FmtR OP_AMO r 2 r1 r2 (4 * amo_code op + aqrl))) s =
  Ok tt (Build_Machine
    (with_pc (next_pc s) (set_X r (match op with SC => 0 | _ => old end) (cpu s)))
    (match op with
     | LR => mem s
     | _ => set_bytes (mem s) (X (cpu s) r1) (le_bytes 4 (amo_sem op old (X (cpu s) r2)))
     end) (host s)).
Proof.
  intros Hc Hm Hq Hok Hl old. pose proof (X_ok (cpu s) r1 Hc ltac:(apply Hok)) as HX.
  assert (Hr : ram (X (cpu s) r1)) by (unfold ram, is_u in *; lia).
  by rewrite (execute_inst32_run _ _ _ _ (amo_dispatch s op r 2 r1 r2 aqrl Hc Hm Hq Hok Hr Hl)).
Qed.
End MemRefine.

(** ** The hypotheses hold: a fresh machine with the stack pointer at [0x7FFFFFC] *)

#[local] Existing Instance release_profile.
#[local] Existing Instance default_float_env.

Ltac operands := cbn; unfold is_u, is_i, OP_LOAD, OP_STORE, OP_AMO; lia.

Lemma load_ram_witness :
  execute_inst32 (encode32 (FmtI OP_LOAD 5 2 2 (-3))) fresh_machine =
  Ok tt (Build_Machine
    (with_pc 4 (set_X 5 (le_value Memory_new (eff_addr fresh_machine 2 (-3)) 4) Cpu_new))
    Memory_new mock_host0).
Proof.
  exact (load_ram fresh_machine LW 5 2 (-3) Cpu_new_ok Memory_new_ok ltac:(operands)
    ltac:(vm_compute; discriminate)).
Defined.

Lemma store_ram_witness :
  execute_inst32 (encode32 (FmtS OP_STORE 1 2 2 1)) fresh_machine =
  Ok tt (Build_Machine (with_pc 4 Cpu_new)
    (set_bytes Memory_new (eff_addr fresh_machine 2 1) (le_bytes 2 (X Cpu_new 2))) mock_host0).
Proof.
  exact (proj1 (store_ram fresh_machine SH 2 2 1 Cpu_new_ok ltac:(operands)
    ltac:(vm_compute; discriminate))).
Defined.

Lemma device_access_witness :
  execute_inst32 (encode32 (FmtS OP_STORE 0 0 2 (-4))) fresh_machine =
  Ok tt (Build_Machine (with_pc 4 Cpu_new) Memory_new (js_write_mmio 0xFFFFFFFC 1 0xFC mock_host0)).
Proof.
  exact (proj2 (device_access fresh_machine LB SB 5 0 2 (-4) Cpu_new_ok ltac:(operands)
    ltac:(operands) ltac:(vm_compute; discriminate))).
Defined.

Lemma amo_ram_witness :
  execute_inst32 (encode32 (FmtR OP_AMO 5 2 2 2 (4 * 0 + 3))) fresh_machine =
  Ok tt (Build_Machine (with_pc 4 (set_X 5 (le_value Memory_new 0x7FFFFFC 4) Cpu_new))
    (set_bytes Memory_new 0x7FFFFFC
       (le_bytes 4 (amo_sem AMOADD (le_value Memory_new 0x7FFFFFC 4) 0x7FFFFFC))) mock_host0).
Proof.
  exact (amo_ram fresh_machine AMOADD 5 2 2 3 Cpu_new_ok Memory_new_ok ltac:(unfold is_u; lia)
    ltac:(operands) ltac:(vm_compute; discriminate)).
Defined.
