(* ===== verification/SysProps.v ===== *)
(** System calls, control and status registers, and interrupts. *)

From S2P Require Import Prelude Bits Inst Fmt Host Memory MemoryProps Float Cpu Syscall Exec Rvc Safe SafeExec IsaSpec RvcProps IsaMem.

(** The [ecall] and [mret] instructions. *)
Definition ECALL : Z := 0x00000073.
Definition MRET : Z := 0x30200073.

(** ** System calls *)

Section Ecall.
Context {H Mem : Type} `{HostOps H} `{!MemoryOps H Mem} `{BuildProfile} `{FloatEnv}.
Implicit Types s : Machine H Mem.

Definition step_pc s : Cpu -> Cpu := with_pc ((pc (cpu s) + 4) mod 2 ^ 32).

Lemma ecall_run s :
  execute_inst32 ECALL s =
  match handle_ecall s with
  | Ok _ s' => Ok tt (on_cpu (step_pc s) s')
  | Err e s' => Err (UnknownSyscallError e) s'
  | Panic => Panic
  end.
Proof.
  assert (E : decode32 ECALL = {| raw := 0x73; opcode := OP_SYSTEM; rd := 0; rs1 := 0; rs2 := 0; rs3 := 0;
    funct3 := 0; funct7 := 0 |}) by (vm_compute; reflexivity).
  unfold execute_inst32. rewrite E, get_cpu_run. cbv zeta.
  transitivity ((next_pc ← (em_map_err UnknownSyscallError handle_ecall;; mret (wrapping_add (pc (cpu s)) 4));
    modify_cpu (with_pc next_pc)) s); [reflexivity|].
  unfold mbind, EM_bind, em_map_err. by destruct (handle_ecall s).
Qed.

Lemma handle_ecall_run s :
  cpu_ok (cpu s) ->
  handle_ecall s =
  (if has_custom_syscalls (cpu s) then
     res ← hcall (custom_syscall (i32 (X (cpu s) A0)) (i32 (X (cpu s) A1)) (i32 (X (cpu s) A2))
                    (i32 (X (cpu s) A3)) (i32 (X (cpu s) A7)));
     if negb (res =? 0) then write_reg A0 (u32 res)
     else handle_ecall_builtin (X (cpu s) A7) (X (cpu s) A0) (X (cpu s) A1) (X (cpu s) A2) (X (cpu s) A3)
   else handle_ecall_builtin (X (cpu s) A7) (X (cpu s) A0) (X (cpu s) A1) (X (cpu s) A2) (X (cpu s) A3)) s.
Proof.
  intros Hc. destruct reg_const_ok as (? & ? & ? & ? & ?). unfold handle_ecall. by run_regs.
Qed.

(** What the numbers mean. *)
Inductive syscall := SysExit | SysWrite | SysRead | SysBrk | SysNop | SysUnknown.
Definition classify (a7 : Z) : syscall :=
  let is_one_of := existsb (Z.eqb a7) in
  if is_one_of [93; 10; 1] then SysExit
  else if is_one_of [64; 4] then SysWrite
  else if is_one_of [63; 3] then SysRead
  else if is_one_of [214; 45] then SysBrk
  else if is_one_of [57; 62; 80] then SysNop
  else SysUnknown.

Lemma builtin_classify a7 a0 a1 a2 a3 :
  handle_ecall_builtin (H:=H) (Mem:=Mem) a7 a0 a1 a2 a3 =
  match classify a7 with
  | SysExit => sys_exit a0
  | SysWrite => sys_write a0 a1 a2
  | SysRead => sys_read a1 a2
  | SysBrk => sys_brk a0
  | SysNop => write_reg 10 0
  | SysUnknown =>
    em_throw {| sys_num := a7; sys_a0 := a0; sys_a1 := a1; sys_a2 := a2; sys_a3 := a3 |}
  end.
Proof.
  unfold handle_ecall_builtin, classify. cbn [existsb]. rewrite !orb_false_r, !orb_assoc.
  repeat match goal with |- context [if ?b then _ else _] => destruct b; [reflexivity|] end. reflexivity.
Qed.

(** The machine an [ecall] leaves: [a0] set, next instruction. *)
Definition returned s (v : Z) (m : Mem) (h : H) : outcome (Machine H Mem) CpuError unit :=
  Ok tt (Build_Machine (step_pc s (set_X A0 v (cpu s))) m h).

Lemma A0_ok : is_u 5 10.
Proof. done. Qed.

Lemma write_a0 s v (m : Mem) (h : H) :
  cpu_ok (cpu s) ->
  write_reg (E:=UnknownSyscall) 10 v (Build_Machine (cpu s) m h)
  = Ok tt (Build_Machine (set_X A0 v (cpu s)) m h).
Proof. intros. by rewrite write_reg_last. Qed.

(** System calls that do not transfer data.  Without a host handler, [ecall]
    dispatches on [a7]: exit numbers halt the machine with [a0] as the signed exit
    code; break numbers move the program break when [a0] is not zero and return the
    current break; close, lseek and fstat return zero; any other number outside the
    read and write calls is the error [UnknownSyscall] carrying the number and the
    four arguments, with the machine exactly as it was. *)
Lemma ecall_builtin s :
  cpu_ok (cpu s) -> has_custom_syscalls (cpu s) = false ->
  let x := X (cpu s) in
  match classify (x A7) with
  | SysExit =>
    execute_inst32 ECALL s =
      Ok tt (on_cpu (fun c => step_pc s (with_exit_code (i32 (x A0)) (with_halted true c))) s)
  | SysBrk =>
    let m := if x A0 =? 0 then mem s else set_brk (mem s) (x A0) in
    execute_inst32 ECALL s = returned s (get_brk m) m (host s)
  | SysNop => execute_inst32 ECALL s = returned s 0 (mem s) (host s)
  | SysUnknown =>
    execute_inst32 ECALL s =
      Err (UnknownSyscallError {| sys_num := x A7; sys_a0 := x A0; sys_a1 := x A1; sys_a2 := x A2;
                                  sys_a3 := x A3 |}) s
  | SysRead | SysWrite => True
  end.
Proof.
  intros Hc Hcust x. rewrite ecall_run, handle_ecall_run, Hcust, builtin_classify by done.
  subst x. destruct (classify (X (cpu s) A7)); try done.
  - unfold sys_brk, get_mem, em_gets, mbind, EM_bind. cbv zeta.
    destruct (X (cpu s) A0 =? 0); cbn [negb modify_mem em_modify mret EM_ret mem host cpu].
    + destruct s as [c m h]. cbn [mem cpu] in *. by rewrite (write_a0 (Build_Machine c m h)).
    + by rewrite write_a0.
  - destruct s as [c m h]. by rewrite (write_a0 (Build_Machine c m h)).
Qed.

(** A host handler for system calls is asked first.  With custom system calls
    enabled the host sees the five argument registers as signed integers; a non-zero
    answer is stored in [a0] and nothing else happens; a zero answer falls back to the
    built-in call, as if no handler were installed (with the host's new state). *)
Lemma ecall_asks_host s :
  cpu_ok (cpu s) -> has_custom_syscalls (cpu s) = true ->
  let x := X (cpu s) in
  let (r, h') := custom_syscall (i32 (x A0)) (i32 (x A1)) (i32 (x A2)) (i32 (x A3)) (i32 (x A7)) (host s) in
  execute_inst32 ECALL s =
  if r =? 0 then
    match handle_ecall_builtin (x A7) (x A0) (x A1) (x A2) (x A3) (Build_Machine (cpu s) (mem s) h') with
    | Ok _ s' => Ok tt (on_cpu (step_pc s) s')
    | Err e s' => Err (UnknownSyscallError e) s'
    | Panic => Panic
    end
  else returned s (r mod 2 ^ 32) (mem s) h'.
Proof.
  intros Hc Hcust x. rewrite ecall_run, handle_ecall_run, Hcust by done. subst x. unfold hcall, mbind, EM_bind.
  destruct (custom_syscall _ _ _ _ _ (host s)) as [r h']. destruct (r =? 0); [done|]. cbn [negb].
  by rewrite write_a0.
Qed.
End Ecall.

Section Control.
Context {H : Type} `{HostOps H} `{BuildProfile} `{FloatEnv}.
Implicit Types s : Machine H Memory.

(** The program break after [brk(a)]: [a] if it is at or above the initial break and
    below the MMIO window, otherwise as before; zero only asks for it. *)
Definition brk_after (m : Memory) (a : Z) : Z :=
  if decide (a <> 0 /\ initial_brk m <= a < MMIO_BASE) then a else brk_ptr m.

Lemma brk_after_spec (m : Memory) a :
  (if a =? 0 then m else Memory_set_brk m a)
  = {| pages := pages m; brk_ptr := brk_after m a; initial_brk := initial_brk m |}.
Proof.
  unfold brk_after, Memory_set_brk. destruct m as [p b i]. cbn [pages brk_ptr initial_brk].
  destruct (Z.eqb_spec a 0) as [->|Ha]; [by rewrite decide_False by tauto|].
  destruct (Z.leb_spec i a), (Z.ltb_spec a MMIO_BASE); cbn [andb];
    first [by rewrite decide_True by lia|by rewrite decide_False by lia].
Qed.

(** C28: System calls that do not transfer data, and the host's own.  Without a host
    handler, [ecall] dispatches on [a7]: exit numbers halt the machine with [a0] as
    the signed exit code; break numbers move the program break to [a0] exactly if
    [a0] is not zero, not below the initial break and below the MMIO window, and
    return the break, with the memory contents as they were; close, lseek and fstat
    return zero; any other number outside the read and write calls is the error
    [UnknownSyscall] carrying the number and the four arguments, with the machine
    exactly as it was.  With custom system calls enabled the host is asked first,
    with the five argument registers as signed integers: a non-zero answer is stored
    in [a0] and nothing else happens; a zero answer falls back to the built-in call,
    as if no handler were installed (with the host's new state). *)
Theorem ecall_control s :
  cpu_ok (cpu s) ->
  (has_custom_syscalls (cpu s) = false ->
      let x := X (cpu s) in
      match classify (x A7) with
      | SysExit =>
        execute_inst32 ECALL s =
          Ok tt (on_cpu (fun c => step_pc s (with_exit_code (i32 (x A0)) (with_halted true c))) s)
      | SysBrk =>
        let brk := brk_after (mem s) (x A0) in
        execute_inst32 ECALL s =
          returned s brk {| pages := pages (mem s); brk_ptr := brk; initial_brk := initial_brk (mem s) |} (host s)
      | SysNop => execute_inst32 ECALL s = returned s 0 (mem s) (host s)
      | SysUnknown =>
        execute_inst32 ECALL s =
          Err (UnknownSyscallError {| sys_num := x A7; sys_a0 := x A0; sys_a1 := x A1; sys_a2 := x A2;
                                      sys_a3 := x A3 |}) s
      | SysRead | SysWrite => True
      end)
  /\ (has_custom_syscalls (cpu s) = true ->
      let x := X (cpu s) in
      let (r, h') := custom_syscall (i32 (x A0)) (i32 (x A1)) (i32 (x A2)) (i32 (x A3)) (i32 (x A7)) (host s) in
      execute_inst32 ECALL s =
      if r =? 0 then
        match handle_ecall_builtin (x A7) (x A0) (x A1) (x A2) (x A3) (Build_Machine (cpu s) (mem s) h') with
        | Ok _ s' => Ok tt (on_cpu (step_pc s) s')
        | Err e s' => Err (UnknownSyscallError e) s'
        | Panic => Panic
        end
      else returned s (r mod 2 ^ 32) (mem s) h').
Proof.
  intros Hc. split; intros Hcust; [|by apply ecall_asks_host].
  pose proof (ecall_builtin s Hc Hcust) as Hb. cbv zeta in *.
  destruct (classify (X (cpu s) A7)); try exact Hb.
  rewrite Hb. cbn [get_brk set_brk Memory_ops]. by rewrite brk_after_spec.
Qed.
End Control.

Section Transfer.
Context {H : Type} `{HostOps H} `{BuildProfile} `{FloatEnv}.
Implicit Types s : Machine H Memory.

(** The bytes of a transfer: at most 16 MiB. *)
Definition io_count s : Z := Z.min (X (cpu s) A2) (16 * 1024 * 1024).

Lemma io_count_range s : cpu_ok (cpu s) -> 0 <= io_count s < 2 ^ 31.
Proof. intros Hc. apply (IO_LIMIT_range (X (cpu s) A2)). apply X_ok; [done|apply reg_const_ok]. Qed.

(** C18: The write call hands the guest's bytes to the host unchanged.  For a buffer
    in RAM, file descriptor 1 sends exactly the [min(a2, 16 MiB)] bytes at [a1] to
    standard output, 2 to standard error, any other descriptor nowhere; memory is
    unchanged and [a2] is returned (even when the transfer was capped). *)
Theorem ecall_write s :
  cpu_ok (cpu s) -> has_custom_syscalls (cpu s) = false ->
  classify (X (cpu s) A7) = SysWrite -> X (cpu s) A1 + io_count s <= MMIO_BASE ->
  let bytes := map (byte_at (mem s)) (seqZ (X (cpu s) A1) (io_count s)) in
  execute_inst32 ECALL s =
  returned s (X (cpu s) A2) (mem s)
    (if X (cpu s) A0 =? 1 then js_write_stdout bytes (host s)
     else if X (cpu s) A0 =? 2 then js_write_stderr bytes (host s)
     else host s).
Proof.
  intros Hc Hcust Hcl Hl bytes. rewrite ecall_run, handle_ecall_run, Hcust, builtin_classify, Hcl by done.
  pose proof (io_count_range s Hc) as Hn.
  assert (H1' : is_u 32 (X (cpu s) A1)) by (apply X_ok; [done|apply reg_const_ok]).
  assert (Hb : Memory_read_bytes (mem s) (X (cpu s) A1) (io_count s) (host s) = Some (bytes, host s)).
  { rewrite read_bytes_default by (done || lia). unfold default_read_bytes.
    destruct (decide (io_count s = 0)) as [E0|E0]; [subst bytes; by rewrite E0|].
    rewrite read_each_ram by (unfold ram, is_u in *; lia). rewrite Z.add_0_r, Z2Nat.id by lia. done. }
  unfold sys_write. cbv zeta. fold IO_LIMIT. change (Z.min (X (cpu s) A2) IO_LIMIT) with (io_count s).
  unfold mread, mbind, EM_bind. cbn [read_bytes Memory_ops]. rewrite Hb.
  destruct (X (cpu s) A0 =? 1); [|destruct (X (cpu s) A0 =? 2)];
    cbn [hnotify em_modify mret EM_ret cpu mem host]; by rewrite write_a0.
Qed.

(** C27: The read call stores what the host delivered.  The host is asked for
    [min(a2, 16 MiB)] bytes; when it delivers none (end of input or an error) [a0] is
    zero and memory is unchanged; when it delivers [n > 0] bytes they are written at
    [a1], nothing beyond them changes, and [a0] is [n].  It relies on the host not
    reporting more bytes than requested, which the native host guarantees. *)
Theorem ecall_read `{!HostReads H} s :
  cpu_ok (cpu s) -> has_custom_syscalls (cpu s) = false ->
  classify (X (cpu s) A7) = SysRead -> X (cpu s) A1 + io_count s <= MMIO_BASE ->
  let '((n, bs), h') := read_from_stdin (io_count s) (host s) in
  Z.of_nat (length bs) = Z.max 0 n ->
  execute_inst32 ECALL s =
  if 0 <? n then returned s n (set_bytes (mem s) (X (cpu s) A1) bs) h' else returned s 0 (mem s) h'.
Proof.
  intros Hc Hcust Hcl Hl. pose proof (io_count_range s Hc) as Hn.
  destruct (read_from_stdin_ok (io_count s) (host s) ltac:(lia)) as [Hcnt _].
  destruct (read_from_stdin (io_count s) (host s)) as [[n bs] h'] eqn:E. cbn [fst snd] in Hcnt.
  intros Hlen. rewrite ecall_run, handle_ecall_run, Hcust, builtin_classify, Hcl by done.
  unfold sys_read. cbv zeta. fold IO_LIMIT. change (Z.min (X (cpu s) A2) IO_LIMIT) with (io_count s).
  assert (H1' : is_u 32 (X (cpu s) A1)) by (apply X_ok; [done|apply reg_const_ok]).
  unfold hcall, mbind, EM_bind. rewrite (wrap_small 32 (io_count s)) by (unfold is_u; lia). rewrite E.
  destruct (Z.ltb_spec 0 n) as [Hpos|Hneg]; [|by rewrite write_a0].
  assert (Hs : slice_to (fill_buffer (replicate (Z.to_nat (io_count s)) 0) bs) n = Some bs).
  { unfold slice_to, fill_buffer. rewrite length_replicate, take_ge by lia.
    rewrite drop_replicate, length_app, length_replicate.
    destruct (Z.leb_spec n (Z.of_nat (length bs + (Z.to_nat (io_count s) - length bs)))); [|lia].
    f_equal. apply take_app_length'. lia. }
  rewrite Hs. cbn [em_index mret EM_ret]. unfold mwrite. cbn [write_bytes Memory_ops cpu mem host].
  rewrite write_bytes_default by done. unfold default_write_bytes.
  rewrite write_each_ram by (unfold ram, is_u in *; lia). rewrite Z.add_0_r, write_a0 by done.
  by rewrite wrap_small by (unfold is_u; lia).
Qed.
End Transfer.

(** ** Control and status registers *)

Lemma csr_mask_id k : is_u 12 k -> k .& CSR_MASK = k.
Proof. intros Hk. change CSR_MASK with (Z.ones 12). rewrite Z.land_ones by lia. by apply Z.mod_small. Qed.

Lemma csr_get_set f k v : is_u 12 k -> csr_get (csr_set f k v) k = v.
Proof. intros. unfold csr_get, csr_set. cbn [csr_values]. by rewrite lookup_insert_eq. Qed.

Lemma csr_get_set_ne f k k' v :
  is_u 12 k -> is_u 12 k' -> k' <> k -> csr_get (csr_set f k v) k' = csr_get f k'.
Proof.
  intros. unfold csr_get, csr_set. cbn [csr_values]. by rewrite lookup_insert_ne by (rewrite !csr_mask_id by done; done).
Qed.

Inductive csr_op := CSRRW | CSRRS | CSRRC | CSRRWI | CSRRSI | CSRRCI.
Definition csr_code (op : csr_op) : Z :=
  match op with CSRRW => 1 | CSRRS => 2 | CSRRC => 3 | CSRRWI => 5 | CSRRSI => 6 | CSRRCI => 7 end.
(** The value written, from the old value, the source register and the 5-bit
    immediate. *)
Definition csr_sem (op : csr_op) (old x imm : Z) : Z :=
  match op with
  | CSRRW => x
  | CSRRS => Z.lor old x
  | CSRRC => Z.ldiff old x
  | CSRRWI => imm
  | CSRRSI => Z.lor old imm
  | CSRRCI => Z.ldiff old imm
  end.

Section Csr.
Context {H Mem : Type} `{HostOps H} `{!MemoryOps H Mem} `{BuildProfile} `{FloatEnv}.
Implicit Types s : Machine H Mem.

Definition csr_word (r f3 r1 num : Z) : Z := encode_i OP_SYSTEM r f3 r1 num.

Lemma csr_decode r f3 r1 num :
  is_u 5 r -> is_u 3 f3 -> is_u 5 r1 -> is_u 12 num ->
  let d := decode32 (csr_word r f3 r1 num) in
  opcode d = OP_SYSTEM /\ rd d = r /\ rs1 d = r1 /\ funct3 d = f3
  /\ u16 ((raw d .>> 20) .& 0xFFF) = num.
Proof. intros. subst d. unfold csr_word, OP_SYSTEM. unfold_inst. split_and!; bits. Qed.

Lemma csr_new_val_sem op old x imm :
  is_u 32 old -> is_u 32 x -> is_u 5 imm ->
  csr_new_val (csr_code op) old x imm = csr_sem op old x imm.
Proof.
  intros Ho Hx Hi. unfold csr_new_val, csr_sem. rewrite (wrap_small 32 imm) by auto with range.
  destruct op; cbn [csr_code]; decide_consts; try done; apply land_not_u; (done || auto with range).
Qed.

(** C24: CSR instructions are atomic read-modify-writes.  Each of the six
    instructions puts the old value of the named CSR in [rd] and stores the new value
    (the source, or the old value with the source's bits set or cleared), where the
    source is read before [rd] is written; every other CSR of the 4096 keeps its
    value. *)
Theorem csr_access s op r r1 num :
  cpu_ok (cpu s) -> is_u 5 r -> is_u 5 r1 -> is_u 12 num ->
  let old := csr_get (csrs (cpu s)) num in
  let new := csr_sem op old (X (cpu s) r1) r1 in
  let f := csr_set (csrs (cpu s)) num new in
  execute_inst32 (csr_word r (csr_code op) r1 num) s =
    Ok tt (on_cpu (fun c => step_pc s (set_X r old (with_csrs f c))) s)
  /\ csr_get f num = new
  /\ (forall k, is_u 12 k -> k <> num -> csr_get f k = csr_get (csrs (cpu s)) k).
Proof.
  intros Hc Hr Hr1 Hn old new f.
  assert (Ho : is_u 32 old) by (apply csr_get_ok, Hc).
  assert (HX : is_u 32 (X (cpu s) r1)) by by apply X_ok.
  split; [|split; [by apply csr_get_set|intros; by apply csr_get_set_ne]].
  assert (H3 : is_u 3 (csr_code op)) by by destruct op.
  destruct (csr_decode r (csr_code op) r1 num Hr H3 Hr1 Hn) as (Eop & Erd & Er1 & E3 & En).
  set (w := csr_word r (csr_code op) r1 num) in *. clearbody w.
  assert (Hok : cpu_ok (with_csrs f (cpu s))).
  { apply with_csrs_ok; [done|]. apply csr_set_ok; [apply Hc|]. subst new.
    rewrite <- csr_new_val_sem by done. by apply csr_new_val_range. }
  rewrite (execute_inst32_run w s ((pc (cpu s) + 4) mod 2 ^ 32) (on_cpu (fun c => set_X r old (with_csrs f c)) s)); [done|].
  unfold dispatch32, is_rv32i_opcode, is_rv32fd_opcode. rewrite Eop. decide_consts. cbn [orb]. unfold exec_csr.
  rewrite E3, Erd, Er1, En. assert (Hz : (csr_code op =? 0) = false) by by destruct op. rewrite Hz. cbv zeta.
  run_regs. rewrite csr_new_val_sem by done. fold old. fold new.
  rewrite (em_bind_ok _ _ _ tt (on_cpu (with_csrs f) s)) by done. by rewrite write_reg_run.
Qed.

(** ** Interrupts *)

Lemma lor_bit3 x : x .& MSTATUS_MIE <> 0 -> x .| MSTATUS_MIE = x.
Proof.
  intros Hx. assert (Hb : Z.testbit x 3 = true).
  { destruct (Z.testbit x 3) eqn:E; [done|]. destruct Hx. apply Z.bits_inj'. intros i Hi.
    rewrite Z.land_spec, Z.bits_0. unfold MSTATUS_MIE. rewrite Z.shiftl_1_l, Z.pow2_bits_eqb by lia.
    destruct (Z.eqb_spec 3 i) as [<-|]; [by rewrite E|by rewrite andb_false_r]. }
  apply Z.bits_inj'. intros i Hi. rewrite Z.lor_spec. unfold MSTATUS_MIE.
  rewrite Z.shiftl_1_l, Z.pow2_bits_eqb by lia.
  destruct (Z.eqb_spec 3 i) as [<-|]; [by rewrite Hb|by rewrite orb_false_r].
Qed.

Lemma csr_names_ok :
  is_u 12 MSTATUS /\ is_u 12 MEPC /\ is_u 12 MCAUSE /\ is_u 12 MTVEC.
Proof. by unfold is_u, MSTATUS, MEPC, MCAUSE, MTVEC. Qed.

Lemma mret_run s :
  let f := csrs (cpu s) in
  let mepc := csr_get f MEPC in
  let x := csr_get f MSTATUS in
  let base := (x .& not_u 32 MSTATUS_MIE) .| MSTATUS_MPIE in
  let new := if x .& MSTATUS_MPIE =? 0 then base else base .| MSTATUS_MIE in
  execute_inst32 MRET s =
  Ok tt (on_cpu (fun c => with_pc (if mepc =? 0 then (pc c + 4) mod 2 ^ 32 else mepc)
                            (with_csrs (csr_set f MSTATUS new) c)) s).
Proof.
  intros. assert (E : decode32 MRET = {| raw := 0x30200073; opcode := OP_SYSTEM; rd := 0; rs1 := 0; rs2 := 2;
    rs3 := 6; funct3 := 0; funct7 := 0x18 |}) by (vm_compute; reflexivity).
  unfold execute_inst32. rewrite E, get_cpu_run. cbv zeta.
  transitivity ((next_pc ← exec_mret (wrapping_add (pc (cpu s)) 4); modify_cpu (with_pc next_pc)) s);
    [reflexivity|].
  unfold exec_mret. rewrite em_assoc, get_cpu_run. cbv zeta. subst new base x mepc f.
  by destruct (csr_get (csrs (cpu s)) MEPC =? 0), (csr_get (csrs (cpu s)) MSTATUS .& MSTATUS_MPIE =? 0).
Qed.

(** The status word an interrupt leaves. *)
Definition irq_mstatus (x : Z) : Z :=
  let base := x .& not_u 32 (MSTATUS_MIE .| MSTATUS_MPIE) in
  if x .& MSTATUS_MIE =? 0 then base else base .| MSTATUS_MPIE.

Lemma handle_interrupt_run irq c :
  let f := csr_set (csr_set (csr_set (csrs c) MEPC (pc c)) MCAUSE (0x80000000 .| u32 irq))
             MSTATUS (irq_mstatus (csr_get (csrs c) MSTATUS)) in
  handle_interrupt irq c =
  if csr_get (csrs c) MTVEC =? 0 then with_csrs f c
  else with_pc (csr_get (csrs c) MTVEC) (with_csrs f c).
Proof.
  destruct csr_names_ok as (? & ? & ? & ?). intros f. unfold handle_interrupt. cbv zeta.
  rewrite !(csr_get_set_ne _ MCAUSE MSTATUS), !(csr_get_set_ne _ MEPC MSTATUS) by done.
  assert (Ef : csr_set (csr_set (csr_set (csrs c) MEPC (pc c)) MCAUSE (0x80000000 .| u32 irq)) MSTATUS
      (if negb (csr_get (csrs c) MSTATUS .& MSTATUS_MIE =? 0)
       then csr_get (csrs c) MSTATUS .& not_u 32 (MSTATUS_MIE .| MSTATUS_MPIE) .| MSTATUS_MPIE
       else csr_get (csrs c) MSTATUS .& not_u 32 (MSTATUS_MIE .| MSTATUS_MPIE)) = f).
  { subst f. unfold irq_mstatus. by destruct (_ =? 0). }
  rewrite Ef. assert (Et : csr_get f MTVEC = csr_get (csrs c) MTVEC).
  { subst f. by rewrite !csr_get_set_ne. }
  rewrite Et. by destruct (csr_get (csrs c) MTVEC =? 0).
Qed.

Lemma irq_bits x :
  is_u 32 x -> x .& MSTATUS_MIE <> 0 ->
  irq_mstatus x .& MSTATUS_MIE = 0 /\ irq_mstatus x .& MSTATUS_MPIE = MSTATUS_MPIE
  /\ ((irq_mstatus x .& not_u 32 MSTATUS_MIE) .| MSTATUS_MPIE) .| MSTATUS_MIE = x .| MSTATUS_MPIE.
Proof.
  intros Hx Hb. unfold irq_mstatus. destruct (Z.eqb_spec (x .& MSTATUS_MIE) 0); [done|].
  rewrite <- (lor_bit3 x Hb). unfold MSTATUS_MIE, MSTATUS_MPIE, not_u.
  change (2 ^ 32 - 1 - (1 .<< 3 .| 1 .<< 7)) with 0xFFFFFF77. change (2 ^ 32 - 1 - (1 .<< 3)) with 0xFFFFFFF7.
  change (1 .<< 3) with 8. change (1 .<< 7) with 0x80. split_and!; bits.
Qed.

(** C23: Interrupt entry and return.  Taking an interrupt while interrupts are
    enabled and a vector is installed saves the program counter in [mepc], records
    the cause with the interrupt bit, disables further interrupts (so that a second
    one cannot overwrite [mepc]) and jumps to [mtvec], touching no register.  An
    [mret] executed in that state has interrupts enabled again, [mstatus] as before
    except that the previous-enable bit is set, and returns to the interrupted
    instruction, unless that is at address zero: a zero [mepc] counts as never set,
    and [mret] falls through to the instruction after it. *)
Theorem interrupt_return s irq :
  cpu_ok (cpu s) -> interrupts_enabled (cpu s) = true ->
  csr_get (csrs (cpu s)) MTVEC <> 0 ->
  let c1 := handle_interrupt irq (cpu s) in
  (pc c1 = csr_get (csrs (cpu s)) MTVEC /\ regs c1 = regs (cpu s) /\ fregs c1 = fregs (cpu s)
   /\ csr_get (csrs c1) MEPC = pc (cpu s)
   /\ csr_get (csrs c1) MCAUSE = 0x80000000 .| u32 irq
   /\ interrupts_enabled c1 = false)
  /\ exists c2, execute_inst32 MRET (Build_Machine c1 (mem s) (host s)) = Ok tt (Build_Machine c2 (mem s) (host s))
     /\ pc c2 = (if pc (cpu s) =? 0 then (pc c1 + 4) mod 2 ^ 32 else pc (cpu s))
     /\ regs c2 = regs (cpu s) /\ fregs c2 = fregs (cpu s)
     /\ interrupts_enabled c2 = true
     /\ csr_get (csrs c2) MSTATUS = csr_get (csrs (cpu s)) MSTATUS .| MSTATUS_MPIE.
Proof.
  intros Hc Hie Hv c1. destruct csr_names_ok as (? & ? & ? & ?).
  set (x := csr_get (csrs (cpu s)) MSTATUS). assert (Hx : is_u 32 x) by (apply csr_get_ok, Hc).
  assert (Hb : x .& MSTATUS_MIE <> 0).
  { unfold interrupts_enabled in Hie. fold x in Hie. by destruct (Z.eqb_spec (x .& MSTATUS_MIE) 0). }
  destruct (irq_bits x Hx Hb) as (B1 & B2 & B3).
  assert (Ec : c1 = with_pc (csr_get (csrs (cpu s)) MTVEC)
    (with_csrs (csr_set (csr_set (csr_set (csrs (cpu s)) MEPC (pc (cpu s))) MCAUSE (0x80000000 .| u32 irq))
       MSTATUS (irq_mstatus x)) (cpu s))).
  { subst c1. rewrite handle_interrupt_run. by destruct (Z.eqb_spec (csr_get (csrs (cpu s)) MTVEC) 0). }
  clearbody c1. subst c1. split.
  - unfold interrupts_enabled. cbn [pc regs fregs csrs with_pc with_csrs].
    rewrite !csr_get_set, (csr_get_set_ne _ MSTATUS MCAUSE), (csr_get_set_ne _ MSTATUS MEPC),
      (csr_get_set_ne _ MCAUSE MEPC), !csr_get_set by done.
    by rewrite B1.
  - rewrite mret_run. cbn [cpu csrs with_pc with_csrs].
    rewrite csr_get_set, (csr_get_set_ne _ MSTATUS MEPC), (csr_get_set_ne _ MCAUSE MEPC), csr_get_set by done.
    rewrite B2. change (MSTATUS_MPIE =? 0) with false. cbv iota. rewrite B3.
    eexists. split; [reflexivity|]. unfold interrupts_enabled. cbn [on_cpu cpu pc regs fregs csrs with_pc with_csrs].
    rewrite csr_get_set by done. split_and!; try done.
    assert (E : (x .| MSTATUS_MPIE) .& MSTATUS_MIE = x .& MSTATUS_MIE).
    { unfold MSTATUS_MIE, MSTATUS_MPIE. change (1 .<< 3) with 8. change (1 .<< 7) with 0x80. bits. }
    rewrite E. by destruct (Z.eqb_spec (x .& MSTATUS_MIE) 0).
Qed.
End Csr.

(** ** The hypotheses hold on concrete machines *)

#[local] Existing Instance release_profile.
#[local] Existing Instance default_float_env.

(** A CPU about to make a system call. *)
Definition syscall_cpu (a7 a0 a1 a2 : Z) : Cpu :=
  set_X A7 a7 (set_X A0 a0 (set_X A1 a1 (set_X A2 a2 Cpu_new))).
Definition syscall_machine (c : Cpu) (input : list Z) : Machine (MockHost unit) Memory :=
  Build_Machine c Memory_new (set_mock_stdin input mock_host0).

Lemma syscall_cpu_ok a7 a0 a1 a2 :
  is_u 32 a7 -> is_u 32 a0 -> is_u 32 a1 -> is_u 32 a2 -> cpu_ok (syscall_cpu a7 a0 a1 a2).
Proof.
  intros. destruct reg_const_ok as (? & ? & ? & ? & ?).
  repeat (apply set_X_ok; [|done..]). apply Cpu_new_ok.
Qed.

Ltac ok_cpu := apply syscall_cpu_ok; unfold is_u; lia.

Definition custom_machine : Machine (MockHost unit) Memory :=
  Build_Machine (with_custom_syscalls true (syscall_cpu 500 1 2 3)) Memory_new
    (set_mock_custom_syscall (fun a0 a1 a2 _ _ d => (a0 + a1 + a2, d)) mock_host0).

Lemma ecall_control_witness :
  (let s := syscall_machine (syscall_cpu 93 0xFFFFFFFF 0 0) [] in
   execute_inst32 ECALL s
   = Ok tt (on_cpu (fun c => step_pc s (with_exit_code (-1) (with_halted true c))) s))
  /\ execute_inst32 ECALL custom_machine = returned custom_machine 6 Memory_new (host custom_machine).
Proof.
  assert (Hc : cpu_ok (syscall_cpu 93 0xFFFFFFFF 0 0)) by ok_cpu.
  assert (Hs : cpu_ok (cpu custom_machine)).
  { assert (Hs : cpu_ok (syscall_cpu 500 1 2 3)) by ok_cpu. destruct Hs. by split. }
  split.
  - exact (proj1 (ecall_control (syscall_machine (syscall_cpu 93 0xFFFFFFFF 0 0) []) Hc) eq_refl).
  - exact (proj2 (ecall_control custom_machine Hs) eq_refl).
Defined.

Lemma ecall_write_witness :
  let s := syscall_machine (syscall_cpu 64 1 0x1000 2) [] in
  execute_inst32 ECALL s
  = returned s 2 Memory_new (js_write_stdout (map (byte_at Memory_new) (seqZ 0x1000 2)) (host s)).
Proof.
  assert (Hc : cpu_ok (syscall_cpu 64 1 0x1000 2)) by ok_cpu.
  exact (ecall_write (syscall_machine (syscall_cpu 64 1 0x1000 2) []) Hc eq_refl eq_refl
    ltac:(vm_compute; discriminate)).
Defined.

Lemma ecall_read_witness :
  let s := syscall_machine (syscall_cpu 63 0 0x1000 5) [72; 105] in
  execute_inst32 ECALL s = returned s 2 (set_bytes Memory_new 0x1000 [72; 105]) mock_host0.
Proof.
  assert (Hc : cpu_ok (syscall_cpu 63 0 0x1000 5)) by ok_cpu.
  exact (ecall_read (syscall_machine (syscall_cpu 63 0 0x1000 5) [72; 105]) Hc eq_refl eq_refl
    ltac:(vm_compute; discriminate) eq_refl).
Defined.

Lemma csr_access_witness :
  execute_inst32 (csr_word 5 2 2 MSTATUS) fresh_machine =
  Ok tt (on_cpu (fun c => step_pc fresh_machine (set_X 5 0
    (with_csrs (csr_set CsrFile_new MSTATUS 0x7FFFFFC) c))) fresh_machine).
Proof.
  exact (proj1 (csr_access fresh_machine CSRRS 5 2 MSTATUS Cpu_new_ok ltac:(unfold is_u; lia)
    ltac:(unfold is_u; lia) ltac:(unfold is_u, MSTATUS; lia))).
Defined.

Definition irq_machine : Machine (MockHost unit) Memory :=
  Build_Machine
    (with_pc 0x1000 (with_csrs (csr_set (csr_set CsrFile_new MSTATUS 8) MTVEC 0x100) Cpu_new))
    Memory_new mock_host0.

Lemma irq_machine_ok : cpu_ok (cpu irq_machine).
Proof.
  apply with_pc_ok; [|unfold is_u; lia]. apply with_csrs_ok; [apply Cpu_new_ok|].
  do 2 (apply csr_set_ok; [|unfold is_u; lia]). apply map_Forall_empty.
Qed.

Lemma interrupt_return_witness :
  pc (handle_interrupt 7 (cpu irq_machine)) = 0x100 /\
  exists c2, execute_inst32 MRET (Build_Machine (handle_interrupt 7 (cpu irq_machine)) Memory_new mock_host0)
             = Ok tt (Build_Machine c2 Memory_new mock_host0) /\ pc c2 = 0x1000.
Proof.
  destruct (interrupt_return irq_machine 7 irq_machine_ok eq_refl ltac:(vm_compute; discriminate))
    as ((Hp & _) & c2 & E & Hp2 & _).
  split; [exact Hp|]. exists c2. split; [exact E|exact Hp2].
Defined.
