(* ===== verification/FloatProps.v ===== *)
(** Floating point: NaN boxing, independence of the platform's NaNs, classification,
    and what doubleword loads and stores preserve. *)

From S2P Require Import Prelude Bits Inst Fmt Host Memory MemoryProps Float Cpu Syscall Exec Rvc Safe SafeExec IsaSpec RvcProps IsaMem.
From Stdlib Require Import SpecFloat.

(** ** NaN boxing *)

Lemma boxed_high v : is_u 32 v -> (0xFFFFFFFF00000000 .| v) .>> 32 = 0xFFFFFFFF.
Proof. intros. bits. Qed.
Lemma boxed_low v : is_u 32 v -> u32 (0xFFFFFFFF00000000 .| v) = v.
Proof. intros. bits. Qed.

Lemma write_f32_run c r v :
  cpu_ok c -> is_u 5 r ->
  Cpu_write_f32 c r v
  = Some (with_fregs (<[Z.to_nat r := if f32_is_nan v then NAN_F64 else 0xFFFFFFFF00000000 .| v]> (fregs c)) c).
Proof. intros Hc Hr. unfold Cpu_write_f32. rewrite upd_ok by (apply Hc || done). by destruct (f32_is_nan v). Qed.

Lemma fregs_insert_lookup c r v :
  cpu_ok c -> is_u 5 r -> idx (<[Z.to_nat r := v]> (fregs c)) r = Some v.
Proof.
  intros Hc Hr. unfold idx. rewrite list_lookup_insert_eq; [done|].
  rewrite (ok_fregs_len _ Hc). by apply is_u5_nat.
Qed.

(** NaN boxing.  A single-precision result written to a register is read back
    unchanged, except that every NaN becomes the canonical one; the upper half of the
    register is all ones, and no other register changes.  A register whose upper half
    is not all ones (it holds a double) reads as the canonical single NaN. *)
Lemma nan_boxing c r v :
  cpu_ok c -> is_u 5 r -> is_u 32 v ->
  (exists c', Cpu_write_f32 c r v = Some c' /\ cpu_ok c'
     /\ Cpu_read_f32 c' r = Some (if f32_is_nan v then NAN_F32 else v)
     /\ (forall b, Cpu_read_f64 c' r = Some b -> b .>> 32 = 0xFFFFFFFF)
     /\ (forall r', is_u 5 r' -> r' <> r -> Cpu_read_f64 c' r' = Cpu_read_f64 c r'))
  /\ (forall b, Cpu_read_f64 c r = Some b -> b .>> 32 <> 0xFFFFFFFF -> Cpu_read_f32 c r = Some NAN_F32).
Proof.
  intros Hc Hr Hv. split.
  - rewrite write_f32_run by done. set (b := if f32_is_nan v then NAN_F64 else _).
    assert (Hb : is_u 64 b /\ b .>> 32 = 0xFFFFFFFF /\ u32 b = if f32_is_nan v then NAN_F32 else v).
    { subst b. destruct (f32_is_nan v); [by vm_compute|].
      split; [by apply nan_box_range|]. split; [by apply boxed_high|by apply boxed_low]. }
    destruct Hb as (Hu & Hh & Hl). eexists. split; [done|]. unfold Cpu_read_f32, Cpu_read_f64. cbn [fregs with_fregs].
    rewrite fregs_insert_lookup by done. split_and!.
    + destruct Hc. split; cbn; try done; [by rewrite length_insert|by apply Forall_insert].
    + cbn [mbind option_bind]. rewrite Hh, Z.eqb_refl. by rewrite Hl.
    + by intros b' [= <-].
    + intros r' Hr' Hne. unfold idx. rewrite list_lookup_insert_ne; [done|].
      unfold is_u in *. lia.
  - unfold Cpu_read_f64, Cpu_read_f32. intros b -> Hne. cbn [mbind option_bind].
    by destruct (Z.eqb_spec (b .>> 32) 0xFFFFFFFF).
Qed.

(** ** Independence of NaN payloads *)

Section SameNum.
Context (mb eb : Z) (Hmb : 2 <= mb) (Heb : 2 <= eb).

(** Equal, or both NaN. *)
Definition same_num (x y : Z) : Prop :=
  x = y \/ f_is_nan mb eb x = true /\ f_is_nan mb eb y = true.

Lemma same_num_refl x : same_num x x.
Proof. by left. Qed.

Lemma sf_of_bits_nan x : f_is_nan mb eb x = true -> sf_of_bits mb eb x = S754_nan.
Proof.
  unfold f_is_nan, sf_of_bits. intros [He Hm]%andb_prop. apply Z.eqb_eq in He.
  assert (2 ^ eb <> 1) by (pose proof (Z.pow_le_mono_r 2 2 eb); lia).
  destruct (Z.eqb_spec (f_exp mb eb x) 0); [lia|]. rewrite He, Z.eqb_refl.
  by destruct (f_man mb x =? 0).
Qed.

Lemma same_num_sf x y : same_num x y -> sf_of_bits mb eb x = sf_of_bits mb eb y.
Proof. intros [->|[Hx Hy]]; [done|]. by rewrite !sf_of_bits_nan. Qed.

Lemma same_num_bits n1 n2 f : same_num (bits_of_sf mb eb n1 f) (bits_of_sf mb eb n2 f).
Proof.
  destruct f; try by left. right. split; apply (mk_nan_ok mb eb); done.
Qed.

Lemma f_neg_nan x : f_is_nan mb eb (f_neg mb eb x) = f_is_nan mb eb x.
Proof.
  assert (He : f_exp mb eb (f_neg mb eb x) = f_exp mb eb x).
  { unfold f_exp, f_neg. rewrite <- !Z.shiftr_div_pow2, <- !Z.land_ones by lia.
    apply Z.bits_inj'. intros i Hi. rewrite !Z.land_spec, !Z.shiftr_spec, Z.lxor_spec, Z.pow2_bits_eqb, Z.testbit_ones_nonneg by lia.
    destruct (Z.eqb_spec (mb + eb) (i + mb)); [|by rewrite xorb_false_r].
    destruct (Z.ltb_spec i eb); [lia|]. by rewrite !andb_false_r. }
  assert (Hm : f_man mb (f_neg mb eb x) = f_man mb x).
  { unfold f_man, f_neg. rewrite <- !Z.land_ones by lia.
    apply Z.bits_inj'. intros i Hi. rewrite !Z.land_spec, Z.lxor_spec, Z.pow2_bits_eqb, Z.testbit_ones_nonneg by lia.
    destruct (Z.eqb_spec (mb + eb) i); [|by rewrite xorb_false_r].
    destruct (Z.ltb_spec i mb); [lia|]. by rewrite !andb_false_r. }
  unfold f_is_nan. by rewrite He, Hm.
Qed.

Lemma same_num_neg x y : same_num x y -> same_num (f_neg mb eb x) (f_neg mb eb y).
Proof. intros [->|[Hx Hy]]; [by left|]. right. by rewrite !f_neg_nan. Qed.

Section Ops.
Context (e1 e2 : FloatEnv).
Context (a b a' b' : Z) (Ha : same_num a a') (Hb : same_num b b').

Lemma same_num_add : same_num (@f_add mb eb e1 a b) (@f_add mb eb e2 a' b').
Proof. unfold f_add. rewrite (same_num_sf a a'), (same_num_sf b b') by done. apply same_num_bits. Qed.
Lemma same_num_sub : same_num (@f_sub mb eb e1 a b) (@f_sub mb eb e2 a' b').
Proof. unfold f_sub. rewrite (same_num_sf a a'), (same_num_sf b b') by done. apply same_num_bits. Qed.
Lemma same_num_mul : same_num (@f_mul mb eb e1 a b) (@f_mul mb eb e2 a' b').
Proof. unfold f_mul. rewrite (same_num_sf a a'), (same_num_sf b b') by done. apply same_num_bits. Qed.
Lemma same_num_div : same_num (@f_div mb eb e1 a b) (@f_div mb eb e2 a' b').
Proof. unfold f_div. rewrite (same_num_sf a a'), (same_num_sf b b') by done. apply same_num_bits. Qed.
Lemma same_num_sqrt : same_num (@f_sqrt mb eb e1 a) (@f_sqrt mb eb e2 a').
Proof. unfold f_sqrt. rewrite (same_num_sf a a') by done. apply same_num_bits. Qed.
Lemma same_num_of_sf op x f : same_num (@f_of_sf mb eb e1 op x f) (@f_of_sf mb eb e2 op x f).
Proof. destruct f; try by left. apply same_num_bits. Qed.
End Ops.

Lemma f_minmax_env (e1 e2 : FloatEnv) a b :
  @zero_choice e1 a b = @zero_choice e2 a b ->
  @f_min mb eb e1 a b = @f_min mb eb e2 a b /\ @f_max mb eb e1 a b = @f_max mb eb e2 a b.
Proof. intros Hz. unfold f_min, f_max. by rewrite Hz. Qed.
End SameNum.

(** Two platforms: they may return different NaNs, but agree on the sign of
    [min]/[max] of two zeros. *)
Section TwoPlatforms.
Context {H Mem : Type} `{HostOps H} `{!MemoryOps H Mem} `{BuildProfile}.
Context (e1 e2 : FloatEnv) (Hz : forall a b, @zero_choice e1 a b = @zero_choice e2 a b).
Abbreviation M := (EM (Machine H Mem) CpuError).

Abbreviation same32 := (same_num 23 8).
Abbreviation same64 := (same_num 52 11).

Lemma bind_ext {A B} (m m' : M A) (f g : A -> M B) :
  (forall s, m s = m' s) -> (forall a s, f a s = g a s) -> forall s, (m ≫= f) s = (m' ≫= g) s.
Proof. intros Hm Hf s. unfold mbind, EM_bind. rewrite Hm. by destruct (m' s). Qed.

Lemma if_ext {A} (b : bool) (m m' n n' : M A) s :
  m s = m' s -> n s = n' s -> (if b then m else n) s = (if b then m' else n') s.
Proof. by destruct b. Qed.

Lemma bind_ext_r {A B} (m : M A) (f g : A -> M B) :
  (forall a s, f a s = g a s) -> forall s, (m ≫= f) s = (m ≫= g) s.
Proof. intros. by apply bind_ext. Qed.

Lemma write_f32_same r x y s : same32 x y -> write_f32 (E:=CpuError) (H:=H) (Mem:=Mem) r x s = write_f32 r y s.
Proof.
  intros [->|[Hx Hy]]; [done|]. unfold write_f32, try_cpu, Cpu_write_f32, f32_is_nan. by rewrite Hx, Hy.
Qed.
Lemma write_f64_same r x y s : same64 x y -> write_f64 (E:=CpuError) (H:=H) (Mem:=Mem) r x s = write_f64 r y s.
Proof.
  intros [->|[Hx Hy]]; [done|]. unfold write_f64, try_cpu, Cpu_write_f64, f64_is_nan. by rewrite Hx, Hy.
Qed.

Lemma or_illegal_write32 w r (o1 o2 : option Z) s :
  match o1, o2 with Some x, Some y => same32 x y | None, None => True | _, _ => False end ->
  (or_illegal w o1 ≫= (fun res => write_f32 (H:=H) (Mem:=Mem) r res)) s
  = (or_illegal w o2 ≫= (fun res => write_f32 r res)) s.
Proof. destruct o1, o2; try done. intros Hs. by apply write_f32_same. Qed.
Lemma or_illegal_write64 w r (o1 o2 : option Z) s :
  match o1, o2 with Some x, Some y => same64 x y | None, None => True | _, _ => False end ->
  (or_illegal w o1 ≫= (fun res => write_f64 (H:=H) (Mem:=Mem) r res)) s
  = (or_illegal w o2 ≫= (fun res => write_f64 r res)) s.
Proof. destruct o1, o2; try done. intros Hs. by apply write_f64_same. Qed.

Lemma fminmax_env mb eb f3 a b :
  fminmax (f_is_nan mb eb) (@f_min mb eb e1) (@f_max mb eb e1) f3 a b
  = fminmax (f_is_nan mb eb) (@f_min mb eb e2) (@f_max mb eb e2) f3 a b.
Proof.
  destruct (f_minmax_env mb eb e1 e2 a b (Hz a b)) as [Hmin Hmax]. unfold fminmax. by rewrite Hmin, Hmax.
Qed.

Lemma op_fp_single_env inst f5 s :
  op_fp_single (H:=H) (Mem:=Mem) (H3:=e1) inst f5 s = op_fp_single (H3:=e2) inst f5 s.
Proof.
  unfold op_fp_single, f32_binop.
  repeat match goal with |- (if ?b then _ else _) _ = _ => destruct b end; try reflexivity.
  all: revert s; apply bind_ext_r; intros a s.
  - apply bind_ext_r. intros b ?. by apply write_f32_same, same_num_add; left || lia.
  - apply bind_ext_r. intros b ?. by apply write_f32_same, same_num_sub; left || lia.
  - apply bind_ext_r. intros b ?. by apply write_f32_same, same_num_mul; left || lia.
  - apply bind_ext_r. intros b ?. by apply write_f32_same, same_num_div; left || lia.
  - by apply write_f32_same, same_num_sqrt; left || lia.
  - apply bind_ext_r. intros b ?. unfold f32_is_nan, f32_min, f32_max. by rewrite fminmax_env.
  - apply write_f32_same, same_num_of_sf; lia.
Qed.

Lemma op_fp_double_env inst f5 s :
  op_fp_double (H:=H) (Mem:=Mem) (H3:=e1) inst f5 s = op_fp_double (H3:=e2) inst f5 s.
Proof.
  unfold op_fp_double, f64_binop.
  repeat match goal with |- (if ?b then _ else _) _ = _ => destruct b end; try reflexivity.
  all: revert s; apply bind_ext_r; intros a s.
  - apply bind_ext_r. intros b ?. by apply write_f64_same, same_num_add; left || lia.
  - apply bind_ext_r. intros b ?. by apply write_f64_same, same_num_sub; left || lia.
  - apply bind_ext_r. intros b ?. by apply write_f64_same, same_num_mul; left || lia.
  - apply bind_ext_r. intros b ?. by apply write_f64_same, same_num_div; left || lia.
  - by apply write_f64_same, same_num_sqrt; left || lia.
  - apply bind_ext_r. intros b ?. unfold f64_is_nan, f64_min, f64_max. by rewrite fminmax_env.
  - apply write_f64_same, same_num_of_sf; lia.
Qed.

(** Fused operations: the NaN of the product does not show either. *)
Lemma madd_env mb eb op a b c :
  2 <= mb -> 2 <= eb ->
  match madd_value op (@f_mul mb eb e1) (@f_add mb eb e1) (@f_sub mb eb e1) (f_neg mb eb) a b c,
        madd_value op (@f_mul mb eb e2) (@f_add mb eb e2) (@f_sub mb eb e2) (f_neg mb eb) a b c with
  | Some x, Some y => same_num mb eb x y
  | None, None => True
  | _, _ => False
  end.
Proof.
  intros Hmb Heb.
  assert (Hp : same_num mb eb (@f_mul mb eb e1 a b) (@f_mul mb eb e2 a b))
    by (apply same_num_mul; (done || by left)).
  assert (Hadd := same_num_add mb eb Hmb Heb e1 e2 _ c _ c Hp (same_num_refl mb eb c)).
  assert (Hsub := same_num_sub mb eb Hmb Heb e1 e2 _ c _ c Hp (same_num_refl mb eb c)).
  unfold madd_value. repeat case_match; simplify_eq; try done; by apply same_num_neg.
Qed.

Lemma exec_madd_env inst s :
  exec_madd (H:=H) (Mem:=Mem) (H3:=e1) inst s = exec_madd (H3:=e2) inst s.
Proof.
  unfold exec_madd. cbv zeta. apply if_ext; [|apply if_ext; [|done]].
  all: revert s; apply bind_ext_r; intros a; apply bind_ext_r; intros b; apply bind_ext_r; intros c s.
  - apply or_illegal_write32. by apply madd_env.
  - apply or_illegal_write64. by apply madd_env.
Qed.

Lemma exec_op_fp_env inst s :
  exec_op_fp (H:=H) (Mem:=Mem) (H3:=e1) inst s = exec_op_fp (H3:=e2) inst s.
Proof.
  unfold exec_op_fp. cbv zeta.
  apply if_ext; [apply op_fp_single_env|apply if_ext; [apply op_fp_double_env|done]].
Qed.

Lemma exec_rv32fd_env inst s :
  exec_rv32fd (H:=H) (Mem:=Mem) (H3:=e1) inst s = exec_rv32fd (H3:=e2) inst s.
Proof.
  unfold exec_rv32fd. cbv zeta. do 2 (apply if_ext; [done|]).
  apply if_ext; [apply exec_op_fp_env|apply if_ext; [apply exec_madd_env|done]].
Qed.

(** C21: Floating-point results do not depend on the platform's NaNs.  Which NaN an
    arithmetic operation returns is unspecified by the language and differs between
    hosts; on any two such platforms every instruction word executed in the same
    state has the same result, memory, registers and errors included: NaNs are
    canonicalised before they can be observed, also inside fused multiply-adds.
    (The platforms must agree on [min]/[max] of zeros of opposite sign.) *)
Theorem nan_independence w (s : Machine H Mem) :
  execute_inst32 (H3:=e1) w s = execute_inst32 (H3:=e2) w s.
Proof.
  unfold execute_inst32. revert s. apply bind_ext_r. intros c. cbv zeta. apply bind_ext; [|done].
  intros s. unfold dispatch32. cbv zeta. do 3 (apply if_ext; [done|]).
  apply if_ext; [|done]. apply bind_ext; [apply exec_rv32fd_env|done].
Qed.
End TwoPlatforms.

(** ** Doublewords in memory *)

Section Doubles.
Context {H : Type} `{HostOps H} `{BuildProfile} `{FloatEnv}.
Implicit Types s : Machine H Memory.

Lemma le_value_set_bytes m a v : is_u 32 v -> le_value (set_bytes m a (le_bytes 4 v)) a 4 = v.
Proof.
  intros Hv. pose proof (map_byte_at_set_bytes m a (le_bytes 4 v)) as Hm.
  change (Z.of_nat (length (le_bytes 4 v))) with 4 in Hm. revert Hm.
  generalize (set_bytes m a (le_bytes 4 v)). intros m' Hm.
  rewrite (seqZ_cons a 4), (seqZ_cons (Z.succ a)), (seqZ_cons (Z.succ (Z.succ a))),
    (seqZ_cons (Z.succ (Z.succ (Z.succ a)))) in Hm by lia.
  change (le_bytes 4 v) with [le_byte v 0; le_byte v 1; le_byte v 2; le_byte v 3] in Hm.
  cbn [map] in Hm. injection Hm as E0 E1 E2 E3.
  cbn [le_value]. rewrite <- !Z.add_1_r in *. rewrite E0, E1, E2, E3. unfold le_byte.
  change (8 * 0) with 0. change (8 * 1) with 8. change (8 * 2) with 16. change (8 * 3) with 24.
  bits.
Qed.

Lemma le_value_frame m a b bs :
  b + 4 <= a \/ a + Z.of_nat (length bs) <= b -> le_value (set_bytes m a bs) b 4 = le_value m b 4.
Proof. intros Hb. cbn [le_value]. by rewrite !byte_at_set_bytes_frame by lia. Qed.

Lemma le_bytes4_ok v : Forall (is_u 8) (le_bytes 4 v).
Proof. repeat constructor; apply le_byte_u8. Qed.

Lemma boxed_is_nan b : is_u 64 b -> b .>> 32 = 0xFFFFFFFF -> f64_is_nan b = true.
Proof.
  intros Hb Hh. rewrite Z.shiftr_div_pow2 in Hh by lia. unfold is_u in Hb.
  pose proof (Z.div_mod b (2 ^ 32)). pose proof (Z.mod_pos_bound b (2 ^ 32)).
  pose proof (Z.div_mod b (2 ^ 52)). pose proof (Z.mod_pos_bound b (2 ^ 52)).
  assert (E : b / 2 ^ 52 = 4095) by lia. unfold f64_is_nan, f_is_nan, f_exp, f_man. rewrite E.
  change (4095 mod 2 ^ 11 =? 2 ^ 11 - 1) with true. cbn [andb].
  destruct (Z.eqb_spec (b mod 2 ^ 52) 0); [lia|done].
Qed.

(** What [fsd] leaves in memory. *)
Definition double_stored m a b : Memory :=
  set_bytes (set_bytes m a (le_bytes 4 (u32 b))) (a + 4) (le_bytes 4 (u32 (b .>> 32))).

Lemma store_double_run s r a b :
  ram a -> a + 8 <= MMIO_BASE -> idx (fregs (cpu s)) r = Some b ->
  store_double (H:=H) (Mem:=Memory) r a s = Ok tt (Build_Machine (cpu s) (double_stored (mem s) a b) (host s)).
Proof.
  intros Ha Hl Hb. unfold store_double, read_f64, try_gets, mwrite, mbind, EM_bind, Cpu_read_f64.
  rewrite Hb. cbn [write_u32 Memory_ops]. rewrite write_u32_ram by (done || lia). cbn [cpu mem host].
  assert (Ha4 : ram (a + 4)) by (unfold ram in *; lia).
  change (wrapping_add a 4) with (wrapping_add a (u32 4)). rewrite wrapping_add_ram by (done || lia).
  by rewrite write_u32_ram by (done || lia).
Qed.

Lemma load_double_run s r a :
  cpu_ok (cpu s) -> mem_ok (mem s) -> is_u 5 r -> ram a -> a + 8 <= MMIO_BASE ->
  let b := u64 (le_value (mem s) (a + 4) 4 .<< 32) .| le_value (mem s) a 4 in
  load_double (H:=H) (Mem:=Memory) r a s
  = Ok tt (on_cpu (fun c => with_fregs
      (<[Z.to_nat r := if f64_is_nan b then 0x7FF8000000000000 else b]> (fregs c)) c) s).
Proof.
  intros Hc Hm Hr Ha Hl b. unfold load_double, write_f64, try_cpu, mread, mbind, EM_bind, Cpu_write_f64.
  cbn [read_u32 Memory_ops]. rewrite read_u32_ram by (done || lia). cbn [cpu mem host].
  assert (Ha4 : ram (a + 4)) by (unfold ram in *; lia).
  change (wrapping_add a 4) with (wrapping_add a (u32 4)). rewrite wrapping_add_ram by (done || lia).
  rewrite read_u32_ram by (done || lia). cbn [cpu mem host].
  rewrite upd_ok by (apply Hc || done). done.
Qed.

Lemma double_stored_value m a b :
  is_u 64 b -> u64 (le_value (double_stored m a b) (a + 4) 4 .<< 32) .| le_value (double_stored m a b) a 4 = b.
Proof.
  intros Hb. unfold double_stored. rewrite le_value_set_bytes by by apply wrap_is_u.
  rewrite le_value_frame by lia. rewrite le_value_set_bytes by by apply wrap_is_u. bits.
Qed.

Lemma fsd_run s r1 r2 off b :
  overflow_checks = false -> cpu_ok (cpu s) -> asm32_ok (FmtS OP_STORE_FP 3 r1 r2 off) ->
  eff_addr s r1 off + 8 <= MMIO_BASE -> idx (fregs (cpu s)) r2 = Some b ->
  execute_inst32 (encode32 (FmtS OP_STORE_FP 3 r1 r2 off)) s
  = Ok tt (Build_Machine (with_pc (next_pc s) (cpu s)) (double_stored (mem s) (eff_addr s r1 off) b) (host s)).
Proof.
  intros Hp Hc Hok Hl Hb. assert (Ha : ram (eff_addr s r1 off)) by (apply ram_intro with 8; [lia|done]).
  rewrite (execute_inst32_run _ s (next_pc s)
    (Build_Machine (cpu s) (double_stored (mem s) (eff_addr s r1 off) b) (host s))); [done|].
  rewrite asm_fsd, wrapping_add_mod by done.
  by rewrite (em_bind_ok _ _ _ _ _ (store_double_run s r2 (eff_addr s r1 off) b Ha Hl Hb)).
Qed.

Lemma fld_run s r r1 off :
  overflow_checks = false -> cpu_ok (cpu s) -> mem_ok (mem s) -> asm32_ok (FmtI OP_LOAD_FP r 3 r1 off) ->
  eff_addr s r1 off + 8 <= MMIO_BASE ->
  let a := eff_addr s r1 off in
  let b := u64 (le_value (mem s) (a + 4) 4 .<< 32) .| le_value (mem s) a 4 in
  execute_inst32 (encode32 (FmtI OP_LOAD_FP r 3 r1 off)) s
  = Ok tt (on_cpu (fun c => with_pc (next_pc s) (with_fregs
      (<[Z.to_nat r := if f64_is_nan b then 0x7FF8000000000000 else b]> (fregs c)) c)) s).
Proof.
  intros Hp Hc Hm Hok Hl a b. assert (Ha : ram a) by (apply ram_intro with 8; [lia|done]).
  rewrite (execute_inst32_run _ s (next_pc s) (on_cpu (fun c => with_fregs
      (<[Z.to_nat r := if f64_is_nan b then 0x7FF8000000000000 else b]> (fregs c)) c) s)); [done|].
  rewrite asm_fld, wrapping_add_mod by done.
  by rewrite (em_bind_ok _ _ _ _ _ (load_double_run s r a Hc Hm ltac:(apply Hok) Ha Hl)).
Qed.

Lemma double_stored_ok m a b :
  ram a -> a + 8 <= MMIO_BASE -> mem_ok m -> mem_ok (double_stored m a b).
Proof.
  intros Ha Hl Hm. assert (Ha4 : ram (a + 4)) by (unfold ram in *; lia).
  assert (Hlen : forall v, Z.of_nat (length (le_bytes 4 v)) = 4) by done.
  unfold double_stored. apply set_bytes_ok; [done|rewrite Hlen; lia|apply le_bytes4_ok|].
  apply set_bytes_ok; [done|rewrite Hlen; lia|apply le_bytes4_ok|done].
Qed.

(** C35: A double survives a store and a load, a NaN-boxed single does not.  [fsd]
    writes the sixteen hex digits of the register, little-endian, and [fld] from the
    same place (aligned or not) gives the register back if it is not a NaN as a
    double, and the canonical double NaN otherwise; integer registers are untouched.
    A register that holds a boxed single is such a NaN: after [fsd] and [fld] the
    destination reads as the canonical single NaN, whatever the single was. *)
Theorem double_round_trip s r r1 r2 off b :
  overflow_checks = false -> cpu_ok (cpu s) -> mem_ok (mem s) ->
  asm32_ok (FmtS OP_STORE_FP 3 r1 r2 off) -> asm32_ok (FmtI OP_LOAD_FP r 3 r1 off) ->
  eff_addr s r1 off + 8 <= MMIO_BASE -> Cpu_read_f64 (cpu s) r2 = Some b ->
  exists s',
    (execute_inst32 (encode32 (FmtS OP_STORE_FP 3 r1 r2 off));;
     execute_inst32 (encode32 (FmtI OP_LOAD_FP r 3 r1 off))) s = Ok tt s'
    /\ mem s' = double_stored (mem s) (eff_addr s r1 off) b
    /\ regs (cpu s') = regs (cpu s)
    /\ Cpu_read_f64 (cpu s') r = Some (if f64_is_nan b then 0x7FF8000000000000 else b)
    /\ (b .>> 32 = 0xFFFFFFFF -> Cpu_read_f32 (cpu s') r = Some NAN_F32).
Proof.
  intros Hp Hc Hm Hs Hl Ha Hb. unfold Cpu_read_f64 in Hb.
  assert (Hram : ram (eff_addr s r1 off)) by (apply ram_intro with 8; [lia|done]).
  assert (Hu : is_u 64 b).
  { unfold idx in Hb. by apply (proj1 (Forall_lookup _ _) (ok_fregs _ Hc) _ _ Hb). }
  rewrite (em_bind_ok _ _ _ _ _ (fsd_run s r1 r2 off b Hp Hc Hs Ha Hb)).
  set (s1 := Build_Machine (with_pc (next_pc s) (cpu s)) (double_stored (mem s) (eff_addr s r1 off) b) (host s)).
  assert (Hc1 : cpu_ok (cpu s1)) by (apply with_pc_ok; [done|by apply wrap_is_u]).
  pose proof (fld_run s1 r r1 off Hp Hc1 ltac:(by apply double_stored_ok) Hl Ha) as Hrun.
  cbv zeta in Hrun. change (eff_addr s1 r1 off) with (eff_addr s r1 off) in Hrun.
  cbn [mem s1] in Hrun. rewrite double_stored_value in Hrun by done.
  rewrite Hrun. eexists. split; [done|]. unfold on_cpu. cbn [cpu mem].
  split; [done|]. split; [done|]. unfold Cpu_read_f64, Cpu_read_f32.
  assert (Hr : is_u 5 r) by apply Hl. pose proof (fregs_insert_lookup (cpu s) r
    (if f64_is_nan b then 0x7FF8000000000000 else b) Hc Hr) as Hget.
  cbn [fregs with_pc with_fregs s1 cpu] in Hget |- *. rewrite Hget. split; [done|].
  intros Hh. rewrite boxed_is_nan by done. done.
Qed.
End Doubles.

(** ** Classification *)

(** The bit of the class mask, from the number a pattern denotes. *)
Definition fclass_bit (mb : Z) (f : spec_float) (quiet : bool) : Z :=
  match f with
  | S754_infinity s => if s then 0 else 7
  | S754_finite s m _ =>
    if Zpos m <? 2 ^ mb then if s then 2 else 5 else if s then 1 else 6
  | S754_zero s => if s then 3 else 4
  | S754_nan => if quiet then 9 else 8
  end.

Lemma land_bit x n : 0 <= n -> x .& 2 ^ n = if Z.testbit x n then 2 ^ n else 0.
Proof.
  intros Hn. apply Z.bits_inj'. intros i Hi. rewrite Z.land_spec, Z.pow2_bits_eqb by lia.
  destruct (Z.eqb_spec n i) as [->|Hne]; rewrite ?andb_true_r, ?andb_false_r.
  - destruct (Z.testbit x i) eqn:E; [|by rewrite Z.bits_0]. by rewrite Z.pow2_bits_true.
  - destruct (Z.testbit x n); [|by rewrite Z.bits_0]. by rewrite Z.pow2_bits_false.
Qed.

Lemma land_pow2 x n : 0 <= n -> negb ((x .& 2 ^ n) =? 0) = Z.testbit x n.
Proof.
  intros Hn. rewrite land_bit by done. destruct (Z.testbit x n); [|done].
  destruct (Z.eqb_spec (2 ^ n) 0); [lia|done].
Qed.

Section Fclass.
Context (mb eb : Z) (Hmb : 2 <= mb) (Heb : 2 <= eb).

Lemma sf_zero : sf_of_bits mb eb 0 = S754_zero false.
Proof. unfold sf_of_bits, f_exp, f_man, f_sign. by rewrite Z.div_0_l, !Z.mod_0_l, Z.testbit_0_l by lia. Qed.

Lemma SFeqb_zero f : SFeqb f (S754_zero false) = match f with S754_zero _ => true | _ => false end.
Proof. by destruct f as [|[]| |[]]. Qed.

(** The mask computed from the predicates is the bit of the class. *)
Lemma fclass_mask_bit x quiet :
  fclass_mask (f_is_infinite mb eb x) (f_is_nan mb eb x) (f_eq mb eb x 0) (f_is_subnormal mb eb x)
    (f_sign mb eb x) quiet
  = 2 ^ fclass_bit mb (sf_of_bits mb eb x) quiet.
Proof.
  unfold f_eq. rewrite sf_zero, SFeqb_zero.
  assert (He : 0 <= f_exp mb eb x < 2 ^ eb) by (apply Z.mod_pos_bound; lia).
  assert (Hm : 0 <= f_man mb x < 2 ^ mb) by (apply Z.mod_pos_bound; lia).
  assert (2 ^ eb <> 1) by (pose proof (Z.pow_le_mono_r 2 2 eb); lia).
  unfold f_is_infinite, f_is_nan, f_is_subnormal, sf_of_bits, fclass_mask.
  destruct (Z.eqb_spec (f_exp mb eb x) 0) as [E0|E0].
  - destruct (Z.eqb_spec (f_exp mb eb x) (2 ^ eb - 1)); [lia|]. cbn [andb].
    destruct (f_man mb x) as [|p|p] eqn:Ep; [by destruct (f_sign mb eb x)| |lia].
    cbn [fclass_bit]. destruct (Z.ltb_spec (Zpos p) (2 ^ mb)); [|lia]. by destruct (f_sign mb eb x).
  - destruct (Z.eqb_spec (f_exp mb eb x) (2 ^ eb - 1)); cbn [andb].
    + destruct (Z.eqb_spec (f_man mb x) 0); cbn [negb]; [by destruct (f_sign mb eb x)|by destruct quiet].
    + destruct (f_man mb x + 2 ^ mb) as [|p|p] eqn:Ep; [lia| |lia].
      cbn [fclass_bit]. destruct (Z.ltb_spec (Zpos p) (2 ^ mb)); [lia|]. by destruct (f_sign mb eb x).
Qed.
End Fclass.

(** [fclass] reports the class of its operand.  For every bit pattern, of
    either width, the result is the one-hot mask the manual assigns to the IEEE 754
    number the pattern denotes: negative or positive infinity, normal, subnormal and
    zero, signalling and quiet NaN. *)
Lemma fclass_spec x :
  fclass_s x = 2 ^ fclass_bit 23 (sf_of_bits 23 8 x) (Z.testbit x 22)
  /\ fclass_d x = 2 ^ fclass_bit 52 (sf_of_bits 52 11 x) (Z.testbit x 51).
Proof.
  unfold fclass_s, fclass_d. split.
  - change 0x80000000 with (2 ^ 31). change 0x00400000 with (2 ^ 22). rewrite !land_pow2 by lia.
    by apply (fclass_mask_bit 23 8).
  - change 0x8000000000000000 with (2 ^ 63). change 0x0008000000000000 with (2 ^ 51).
    rewrite !land_pow2 by lia. by apply (fclass_mask_bit 52 11).
Qed.

(** ** The multiply-add family is not fused *)

(** The correctly rounded [a * b + c] of finite numbers. *)
Definition fused_sf (mb eb : Z) (a b c : spec_float) : spec_float :=
  let val s m := if (s : bool) then Zneg m else Zpos m in
  match a, b, c with
  | S754_finite sa ma ea, S754_finite sb mb' ebx, S754_finite sc mc ec =>
    let e := Z.min (ea + ebx) ec in
    binary_normalize (mb + 1) (2 ^ (eb - 1))
      (val sa ma * val sb mb' * 2 ^ (ea + ebx - e) + val sc mc * 2 ^ (ec - e)) e false
  | _, _, _ => S754_nan
  end.

#[local] Existing Instance default_float_env.

(** With [a = 1 + 2^-12] and [c = -(1 + 2^-11)], [fmadd.s] of [a], [a], [c] gives
    zero: the product is rounded before the sum.  The fused result is [2^-24]. *)
Lemma fmadd_rounds_twice :
  madd_value OP_MADD f32_mul f32_add f32_sub f32_neg 0x3F800800 0x3F800800 0xBF801000 = Some 0
  /\ bits_of_sf 23 8 0 (fused_sf 23 8 (sf_of_bits 23 8 0x3F800800) (sf_of_bits 23 8 0x3F800800)
       (sf_of_bits 23 8 0xBF801000)) = 0x33800000.
Proof. by vm_compute. Qed.

(** [fnmsub.s] of [1], [1], [1] is [-(1 * 1) + 1], a positive zero; the arm
    negates the difference and gives a negative one. *)
Lemma fnmsub_negative_zero :
  madd_value OP_NMSUB f32_mul f32_add f32_sub f32_neg 0x3F800000 0x3F800000 0x3F800000 = Some 0x80000000
  /\ f32_add (f32_neg (f32_mul 0x3F800000 0x3F800000)) 0x3F800000 = 0.
Proof. by vm_compute. Qed.

(** ** Overflow checks *)

(** [fld] at [0xFFFFFFFC] adds [4] to the address with [+]: a build with overflow
    checks panics, where [c.fld] and a build without them wrap to address zero. *)
Lemma fld_overflow :
  let fld := encode32 (FmtI OP_LOAD_FP 4 3 0 (-4)) in
  @execute_inst32 _ _ _ _ debug_profile _ fld fresh_machine = Panic
  /\ exists s, @execute_inst32 _ _ _ _ release_profile _ fld fresh_machine = Ok tt s.
Proof. split; [by vm_compute|]. eexists. vm_compute. reflexivity. Qed.

(** ** The hypotheses hold *)

(** A platform that propagates the first operand's payload. *)
Definition propagating_env : FloatEnv := {| nan_choice := fun _ a _ => a; zero_choice := fun _ _ => true |}.

Lemma nan_independence_witness :
  @f_div 23 8 propagating_env 0x7F800001 0 <> @f_div 23 8 default_float_env 0x7F800001 0
  /\ @execute_inst32 _ _ _ _ release_profile propagating_env 0x18208053 fresh_machine
     = @execute_inst32 _ _ _ _ release_profile default_float_env 0x18208053 fresh_machine.
Proof.
  split; [vm_compute; discriminate|].
  exact (@nan_independence _ _ _ _ release_profile propagating_env default_float_env
    (fun _ _ => eq_refl) 0x18208053 fresh_machine).
Defined.

#[local] Existing Instance release_profile.

Lemma double_round_trip_witness :
  exists s', (execute_inst32 (encode32 (FmtS OP_STORE_FP 3 2 1 (-16)));;
     execute_inst32 (encode32 (FmtI OP_LOAD_FP 4 3 2 (-16)))) fresh_machine = Ok tt s'
    /\ Cpu_read_f64 (cpu s') 4 = Some 0.
Proof.
  destruct (double_round_trip fresh_machine 4 2 1 (-16) 0 eq_refl Cpu_new_ok Memory_new_ok
    ltac:(cbn; unfold is_u, is_i, OP_STORE_FP; lia) ltac:(cbn; unfold is_u, is_i, OP_LOAD_FP; lia)
    ltac:(vm_compute; discriminate) eq_refl) as (s' & E & _ & _ & Hr & _).
  exists s'. split; [exact E|exact Hr].
Defined.
