(* ===== verification/FloatSpec.v ===== *)
(** The F and D instructions on IEEE 754 numbers.

    A floating-point register holds a number: [F FS c r] is its value as a single
    (a NaN unless the register is NaN-boxed), [F FD c r] as a double.  [fresult] is
    what an instruction computes from such values, with the Standard Library's
    operations on numbers ([SFadd], ...), and [fexec] its effect on the CPU.

    [fresult] describes what the code does, which is what the manual asks for except
    in these points: the rounding mode of the instruction is ignored (always to
    nearest, ties to even; truncation in conversions to integers), the multiply-add
    family multiplies, rounds, adds and rounds again ([mul_then_add]), a NaN converts
    to the integer zero, and no flags are raised. *)

From S2P Require Import Prelude Bits Inst Fmt Host Memory MemoryProps Float FloatRound Cpu Syscall Exec Rvc Safe SafeExec IsaSpec RvcProps IsaMem FloatProps.
From Stdlib Require Import SpecFloat.

(** ** Numbers in registers *)

Inductive width := FS | FD.

Definition mbits (w : width) : Z := match w with FS => 23 | FD => 52 end.
Definition ebits (w : width) : Z := match w with FS => 8 | FD => 11 end.
Definition fprec (w : width) : Z := mbits w + 1.
Definition femax (w : width) : Z := 2 ^ (ebits w - 1).
Definition fsize (w : width) : Z := mbits w + ebits w + 1.
Definition fmt_code (w : width) : Z := match w with FS => 0 | FD => 1 end.
Definition other (w : width) : width := match w with FS => FD | FD => FS end.
Abbreviation valid_in w := (valid_binary (fprec w) (femax w)).

Definition canonical_nan (w : width) : Z := match w with FS => 0x7FC00000 | FD => 0x7FF8000000000000 end.
Definition box (w : width) (b : Z) : Z := match w with FS => 0xFFFFFFFF * 2 ^ 32 + b | FD => b end.

Definition freg (c : Cpu) (r : Z) : Z := nth (Z.to_nat r) (fregs c) 0.
Definition pattern (w : width) (c : Cpu) (r : Z) : Z :=
  match w with
  | FS => if freg c r / 2 ^ 32 =? 0xFFFFFFFF then freg c r mod 2 ^ 32 else canonical_nan FS
  | FD => freg c r
  end.
Definition number (w : width) (b : Z) : spec_float := sf_of_bits (mbits w) (ebits w) b.
Definition F (w : width) (c : Cpu) (r : Z) : spec_float := number w (pattern w c r).

(** The pattern of a number; a NaN is the canonical one. *)
Definition encode (w : width) (f : spec_float) : Z :=
  match f with S754_nan => canonical_nan w | _ => bits_of_sf (mbits w) (ebits w) 0 f end.
Definition set_pattern (w : width) (r b : Z) (c : Cpu) : Cpu :=
  with_fregs (<[Z.to_nat r := box w b]> (fregs c)) c.
Definition set_F (w : width) (r : Z) (f : spec_float) (c : Cpu) : Cpu := set_pattern w r (encode w f) c.

(** ** Instructions *)

Inductive farith := FADD | FSUB | FMUL | FDIV.
Inductive fsgn := FSGNJ | FSGNJN | FSGNJX.
Inductive fcmp := FLE | FLT | FEQ.
Inductive ffma := FMADD | FMSUB | FNMSUB | FNMADD.

Inductive finstr :=
| FArith (w : width) (op : farith) (rd rs1 rs2 rm : Z)
| FSqrt (w : width) (rd rs1 rm : Z)
| FSgnj (w : width) (op : fsgn) (rd rs1 rs2 : Z)
| FMinMax (w : width) (max : bool) (rd rs1 rs2 : Z)
| FCmp (w : width) (op : fcmp) (rd rs1 rs2 : Z)
| FClass (w : width) (rd rs1 : Z)
| FToInt (w : width) (signed : bool) (rd rs1 rm : Z)
| FFromInt (w : width) (signed : bool) (rd rs1 rm : Z)
| FConv (w : width) (rd rs1 rm : Z)
| FMvXW (rd rs1 : Z)
| FMvWX (rd rs1 : Z)
| FFma (w : width) (op : ffma) (rd rs1 rs2 rs3 rm : Z).

Definition farith_code (op : farith) : Z := match op with FADD => 0 | FSUB => 1 | FMUL => 2 | FDIV => 3 end.
Definition fsgn_code (op : fsgn) : Z := match op with FSGNJ => 0 | FSGNJN => 1 | FSGNJX => 2 end.
Definition fcmp_code (op : fcmp) : Z := match op with FLE => 0 | FLT => 1 | FEQ => 2 end.
Definition ffma_code (op : ffma) : Z :=
  match op with FMADD => OP_MADD | FMSUB => OP_MSUB | FNMSUB => OP_NMSUB | FNMADD => OP_NMADD end.

Definition op_fp (w : width) (f5 rd f3 rs1 rs2 : Z) : asm32 :=
  FmtR OP_OP_FP rd f3 rs1 rs2 (4 * f5 + fmt_code w).

Definition fto_asm (i : finstr) : asm32 :=
  match i with
  | FArith w op rd rs1 rs2 rm => op_fp w (farith_code op) rd rm rs1 rs2
  | FSqrt w rd rs1 rm => op_fp w 0x0B rd rm rs1 0
  | FSgnj w op rd rs1 rs2 => op_fp w 0x04 rd (fsgn_code op) rs1 rs2
  | FMinMax w max rd rs1 rs2 => op_fp w 0x05 rd (b2z max) rs1 rs2
  | FCmp w op rd rs1 rs2 => op_fp w 0x14 rd (fcmp_code op) rs1 rs2
  | FClass w rd rs1 => op_fp w 0x1C rd 1 rs1 0
  | FToInt w signed rd rs1 rm => op_fp w 0x18 rd rm rs1 (b2z (negb signed))
  | FFromInt w signed rd rs1 rm => op_fp w 0x1A rd rm rs1 (b2z (negb signed))
  | FConv w rd rs1 rm => op_fp w 0x08 rd rm rs1 (fmt_code (other w))
  | FMvXW rd rs1 => op_fp FS 0x1C rd 0 rs1 0
  | FMvWX rd rs1 => op_fp FS 0x1E rd 0 rs1 0
  | FFma w op rd rs1 rs2 rs3 rm => FmtR4 (ffma_code op) rd rm rs1 rs2 rs3 (fmt_code w)
  end.
Definition fassemble (i : finstr) : Z := encode32 (fto_asm i).
Definition finstr_ok (i : finstr) : Prop := asm32_ok (fto_asm i).

(** ** What they compute *)

Definition farith_sem (w : width) (op : farith) : spec_float -> spec_float -> spec_float :=
  match op with
  | FADD => SFadd (fprec w) (femax w)
  | FSUB => SFsub (fprec w) (femax w)
  | FMUL => SFmul (fprec w) (femax w)
  | FDIV => SFdiv (fprec w) (femax w)
  end.

(** The magnitude of the first operand with a sign. *)
Definition fsgn_sem (w : width) (op : fsgn) (a b : Z) : Z :=
  let n := fsize w - 1 in
  let s := match op with
           | FSGNJ => Z.testbit b n
           | FSGNJN => negb (Z.testbit b n)
           | FSGNJX => xorb (Z.testbit a n) (Z.testbit b n)
           end in
  a mod 2 ^ n + (if s then 2 ^ n else 0).

Definition fcmp_sem (op : fcmp) : spec_float -> spec_float -> bool :=
  match op with FLE => SFleb | FLT => SFltb | FEQ => SFeqb end.

(** Rounding towards zero, saturating. *)
Definition ftoint (lo hi : Z) (f : spec_float) : Z :=
  match f with
  | S754_zero _ | S754_nan => 0
  | S754_infinity s => if s then lo else hi
  | S754_finite s m e =>
    Z.max lo (Z.min hi (Z.quot ((if s then Zneg m else Zpos m) * 2 ^ Z.max 0 e) (2 ^ Z.max 0 (- e))))
  end.

Definition fconv (w : width) (f : spec_float) : spec_float :=
  match f with
  | S754_finite s m e => binary_normalize (fprec w) (femax w) (if s then Zneg m else Zpos m) e s
  | f => f
  end.

(** The multiply-add family as the code computes it: the product is rounded, then the
    sum.  (The fused operation of the manual rounds once; [fmadd_rounds_twice] is an
    input where the two differ.) *)
Definition mul_then_add (w : width) (op : ffma) (a b c : spec_float) : spec_float :=
  let p := SFmul (fprec w) (femax w) a b in
  match op with
  | FMADD => SFadd (fprec w) (femax w) p c
  | FMSUB => SFsub (fprec w) (femax w) p c
  | FNMSUB => SFopp (SFsub (fprec w) (femax w) p c)
  | FNMADD => SFopp (SFadd (fprec w) (femax w) p c)
  end.

(** Where a result goes. *)
Inductive fres :=
| ToF (w : width) (rd : Z) (f : spec_float)
| ToPattern (w : width) (rd b : Z)
| ToX (rd v : Z).

Section Spec.
Context `{FloatEnv}.

(** A NaN operand is ignored; for operands that compare equal ([-0] and [+0]) the
    platform chooses. *)
Definition fminmax_sem (w : width) (max : bool) (a b : Z) : spec_float :=
  let x := number w a in
  let y := number w b in
  match x, y with
  | S754_nan, _ => y
  | _, S754_nan => x
  | _, _ =>
    let before u v := if max then SFltb v u else SFltb u v in
    if before x y then x else if before y x then y
    else if zero_choice a b then x else y
  end.

Definition fresult (i : finstr) (c : Cpu) : fres :=
  match i with
  | FArith w op rd rs1 rs2 _ => ToF w rd (farith_sem w op (F w c rs1) (F w c rs2))
  | FSqrt w rd rs1 _ => ToF w rd (SFsqrt (fprec w) (femax w) (F w c rs1))
  | FSgnj w op rd rs1 rs2 => ToPattern w rd (fsgn_sem w op (pattern w c rs1) (pattern w c rs2))
  | FMinMax w max rd rs1 rs2 => ToF w rd (fminmax_sem w max (pattern w c rs1) (pattern w c rs2))
  | FCmp w op rd rs1 rs2 => ToX rd (if fcmp_sem op (F w c rs1) (F w c rs2) then 1 else 0)
  | FClass w rd rs1 =>
    ToX rd (2 ^ fclass_bit (mbits w) (F w c rs1) (Z.testbit (pattern w c rs1) (mbits w - 1)))
  | FToInt w signed rd rs1 _ =>
    ToX rd (if signed then ftoint (- 2 ^ 31) (2 ^ 31 - 1) (F w c rs1) mod 2 ^ 32
            else ftoint 0 (2 ^ 32 - 1) (F w c rs1))
  | FFromInt w signed rd rs1 _ =>
    ToF w rd (binary_normalize (fprec w) (femax w) (if signed then i32 (X c rs1) else X c rs1) 0 false)
  | FConv w rd rs1 _ => ToF w rd (fconv w (F (other w) c rs1))
  | FMvXW rd rs1 => ToX rd (freg c rs1 mod 2 ^ 32)
  | FMvWX rd rs1 => ToPattern FS rd (X c rs1)
  | FFma w op rd rs1 rs2 rs3 _ => ToF w rd (mul_then_add w op (F w c rs1) (F w c rs2) (F w c rs3))
  end.

Definition put (r : fres) (c : Cpu) : Cpu :=
  match r with
  | ToF w rd f => set_F w rd f c
  | ToPattern w rd b => set_pattern w rd b c
  | ToX rd v => set_X rd v c
  end.

Definition fexec (i : finstr) (c : Cpu) : Cpu :=
  with_pc ((pc c + 4) mod 2 ^ 32) (put (fresult i c) c).
End Spec.

(** ** Numbers and patterns *)

Lemma width_fits w : 2 <= mbits w /\ 2 <= ebits w /\ mbits w + 1 < 2 ^ (ebits w - 1).
Proof. by destruct w. Qed.

Lemma number_valid w b : valid_in w (number w b) = true.
Proof. destruct (width_fits w) as (? & ? & ?). by apply sf_of_bits_valid. Qed.

Lemma number_bits w nan f : valid_in w f = true -> number w (bits_of_sf (mbits w) (ebits w) nan f) = f.
Proof. destruct (width_fits w) as (? & ? & ?). by apply sf_bits_roundtrip. Qed.

Lemma number_encode w f : valid_in w f = true -> number w (encode w f) = f.
Proof. intros Hv. destruct f; try by apply number_bits. by destruct w. Qed.

Lemma encode_number w b :
  is_u (fsize w) b ->
  encode w (number w b) = if f_is_nan (mbits w) (ebits w) b then canonical_nan w else b.
Proof.
  intros Hb. destruct (width_fits w) as (? & ? & ?).
  pose proof (sf_nan_iff (mbits w) (ebits w) ltac:(done) ltac:(done) b) as Hn.
  pose proof (bits_sf_roundtrip (mbits w) (ebits w) ltac:(done) ltac:(done) 0 b Hb) as Hr.
  unfold encode, number in *. rewrite Hn in *. by destruct (sf_of_bits (mbits w) (ebits w) b); [apply Hr..| |apply Hr].
Qed.

Lemma encode_range w f : is_u (fsize w) (encode w f).
Proof. destruct f; try (by destruct w); destruct w; (apply f32_bits_range || apply f64_bits_range). Qed.

Lemma box_single v : is_u 32 v -> 0xFFFFFFFF00000000 .| v = box FS v.
Proof.
  intros Hv. pose proof (boxed_high v Hv) as Hh. pose proof (boxed_low v Hv) as Hl.
  rewrite Z.shiftr_div_pow2 in Hh by lia. unfold wrap in Hl. unfold box.
  pose proof (Z.div_mod (0xFFFFFFFF00000000 .| v) (2 ^ 32)). lia.
Qed.

Lemma box_range w b : is_u (fsize w) b -> is_u 64 (box w b).
Proof.
  destruct w; [|done]. intros Hb. change (is_u 32 b) in Hb. unfold is_u in *. cbn [box]. lia.
Qed.

Section Registers.
Context (c : Cpu) (Hc : cpu_ok c) (r : Z) (Hr : is_u 5 r).

Lemma freg_idx : idx (fregs c) r = Some (freg c r) /\ is_u 64 (freg c r).
Proof.
  destruct (idx_ok (fregs c) 64 r) as (v & Hv & Hu); [apply Hc..|done|].
  assert (freg c r = v) as ->; [|done]. unfold freg, idx in *. by rewrite (nth_lookup_Some _ _ _ _ Hv).
Qed.

Lemma pattern_range w : is_u (fsize w) (pattern w c r).
Proof.
  destruct w; cbn [pattern]; [|apply freg_idx].
  destruct (_ =? _); [by apply (u32_range (freg c r))|done].
Qed.

Lemma pattern_set w b : is_u (fsize w) b -> pattern w (set_pattern w r b c) r = b.
Proof.
  intros Hb. assert (E : freg (set_pattern w r b c) r = box w b).
  { unfold freg. apply nth_lookup_Some. cbn [fregs set_pattern with_fregs].
    apply (fregs_insert_lookup c r _ Hc Hr). }
  destruct w; cbn [pattern]; rewrite E; [|done].
  change (is_u 32 b) in Hb. unfold is_u in Hb. cbn [box].
  rewrite Z.div_add_l, Z.div_small, Z.add_0_r by lia. change (0xFFFFFFFF =? 0xFFFFFFFF) with true.
  cbv iota. rewrite Z.add_comm, Z.mod_add by lia. apply Z.mod_small. lia.
Qed.

Lemma F_set_F w f : valid_in w f = true -> F w (set_F w r f c) r = f.
Proof.
  intros Hv. unfold F, set_F. rewrite pattern_set by apply encode_range. by apply number_encode.
Qed.

Lemma read_f32_pattern : Cpu_read_f32 c r = Some (pattern FS c r).
Proof.
  unfold Cpu_read_f32, pattern. destruct freg_idx as [-> _]. cbn [mbind option_bind].
  rewrite Z.shiftr_div_pow2 by lia. by destruct (_ =? _).
Qed.
Lemma read_f64_pattern : Cpu_read_f64 c r = Some (pattern FD c r).
Proof. apply freg_idx. Qed.

Lemma write_f32_F v : is_u 32 v -> Cpu_write_f32 c r v = Some (set_F FS r (number FS v) c).
Proof.
  intros Hv. rewrite write_f32_run by done. unfold set_F, set_pattern. rewrite encode_number by done.
  change (f_is_nan (mbits FS) (ebits FS) v) with (f32_is_nan v).
  rewrite box_single by done. by destruct (f32_is_nan v).
Qed.
Lemma write_f64_F v : is_u 64 v -> Cpu_write_f64 c r v = Some (set_F FD r (number FD v) c).
Proof.
  intros Hv. unfold Cpu_write_f64. rewrite upd_ok by (apply Hc || done).
  unfold set_F, set_pattern. rewrite encode_number by done.
  change (f_is_nan (mbits FD) (ebits FD) v) with (f64_is_nan v). by destruct (f64_is_nan v).
Qed.
Lemma set_freg_pattern w b : Cpu_set_freg c r (box w b) = Some (set_pattern w r b c).
Proof. unfold Cpu_set_freg. by rewrite upd_ok by (apply Hc || done). Qed.
End Registers.

(** ** The operations on patterns are those on numbers *)

Section Operations.
Context `{FloatEnv} (w : width).
Abbreviation mb := (mbits w).
Abbreviation eb := (ebits w).

Lemma number_add a b : number w (f_add mb eb a b) = SFadd (fprec w) (femax w) (number w a) (number w b).
Proof.
  apply number_bits. destruct (width_fits w) as (? & ? & ?). unfold fprec, femax.
  apply SFadd_valid; (lia || apply number_valid).
Qed.
Lemma number_sub a b : number w (f_sub mb eb a b) = SFsub (fprec w) (femax w) (number w a) (number w b).
Proof.
  apply number_bits. destruct (width_fits w) as (? & ? & ?). unfold fprec, femax.
  apply SFsub_valid; (lia || apply number_valid).
Qed.
Lemma number_mul a b : number w (f_mul mb eb a b) = SFmul (fprec w) (femax w) (number w a) (number w b).
Proof.
  apply number_bits. destruct (width_fits w) as (? & ? & ?). unfold fprec, femax.
  apply SFmul_valid; (lia || apply number_valid).
Qed.
Lemma number_div a b : number w (f_div mb eb a b) = SFdiv (fprec w) (femax w) (number w a) (number w b).
Proof.
  apply number_bits. destruct (width_fits w) as (? & ? & ?). unfold fprec, femax.
  apply SFdiv_valid; (lia || apply number_valid).
Qed.
Lemma number_sqrt a : number w (f_sqrt mb eb a) = SFsqrt (fprec w) (femax w) (number w a).
Proof.
  apply number_bits. destruct (width_fits w) as (? & ? & ?). unfold fprec, femax.
  apply SFsqrt_valid; (lia || apply number_valid).
Qed.
Lemma number_of_int z : number w (f_of_int mb eb z) = binary_normalize (fprec w) (femax w) z 0 false.
Proof.
  apply number_bits. destruct (width_fits w) as (? & ? & ?). unfold fprec, femax.
  apply normalize_valid; lia.
Qed.
Lemma number_neg a : is_u (fsize w) a -> number w (f_neg mb eb a) = SFopp (number w a).
Proof. destruct (width_fits w) as (? & ? & ?). by apply f_neg_sf. Qed.

Lemma fconv_valid f : valid_in w (fconv w f) = true.
Proof.
  destruct (width_fits w) as (? & ? & ?). destruct f as [| | |s m e]; try done.
  apply normalize_valid; unfold fprec; lia.
Qed.
Lemma number_conv op x : number w (f_of_sf mb eb op x (number (other w) x)) = fconv w (number (other w) x).
Proof.
  pose proof (fconv_valid (number (other w) x)) as Hv.
  destruct (number (other w) x) as [s|s| |s m e]; by apply number_bits.
Qed.

Lemma number_minmax a b (max : bool) :
  number w ((if max then f_max mb eb else f_min mb eb) a b) = fminmax_sem w max a b.
Proof.
  destruct (width_fits w) as (? & ? & ?). unfold fminmax_sem.
  pose proof (sf_nan_iff mb eb ltac:(done) ltac:(done) a) as Ha.
  pose proof (sf_nan_iff mb eb ltac:(done) ltac:(done) b) as Hb.
  unfold f_max, f_min, f_lt, number in *.
  destruct max; cbv iota; rewrite Ha, Hb;
    destruct (sf_of_bits mb eb a) eqn:Ea, (sf_of_bits mb eb b) eqn:Eb; try done;
    repeat case_match; congruence.
Qed.

Lemma to_int_sem lo hi a : f_to_int mb eb lo hi a = ftoint lo hi (number w a).
Proof.
  unfold f_to_int, ftoint, number. destruct (sf_of_bits mb eb a) as [| | |s m e]; try done.
  unfold clamp. do 2 f_equal. destruct (Z.leb_spec 0 e) as [He|He].
  - rewrite Z.max_r, (Z.max_l 0 (- e)) by lia. change (2 ^ 0) with 1. rewrite Z.quot_1_r.
    destruct s; [|done]. change (Zneg m) with (- Zpos m). by rewrite Z.mul_opp_l.
  - rewrite (Z.max_l 0 e), Z.max_r by lia. change (2 ^ 0) with 1. rewrite Z.mul_1_r.
    destruct s; [|by rewrite Z.quot_div_nonneg by lia].
    change (Zneg m) with (- Zpos m). rewrite Z.quot_opp_l by lia. by rewrite Z.quot_div_nonneg by lia.
Qed.
End Operations.

(** Sign injection. *)
Lemma lor_sign a n (s : bool) :
  0 <= n -> (a mod 2 ^ n) .| (if s then 2 ^ n else 0) = a mod 2 ^ n + (if s then 2 ^ n else 0).
Proof.
  intros Hn. rewrite <- Z.add_lor_land. assert (E : (a mod 2 ^ n) .& (if s then 2 ^ n else 0) = 0); [|lia].
  destruct s; [|apply Z.land_0_r]. by rewrite land_bit, Z.mod_pow2_bits_high by lia.
Qed.

Lemma sgnj_sem w op a b :
  is_u (fsize w) a -> is_u (fsize w) b ->
  sgnj_bits (fsize w) (2 ^ (fsize w - 1) - 1) (2 ^ (fsize w - 1)) (fsgn_code op) a b
  = Some (fsgn_sem w op a b).
Proof.
  intros Ha Hb. unfold sgnj_bits, fsgn_sem. set (n := fsize w - 1).
  assert (Hn : 0 <= n < fsize w) by (subst n; destruct w; by vm_compute).
  replace (2 ^ n - 1) with (Z.ones n) by (rewrite Z.ones_equiv; lia).
  destruct op; cbn [fsgn_code]; decide_consts; f_equal;
    rewrite Z.land_ones, land_bit, ?not_u_testbit, ?Z.lxor_spec by (done || lia);
    rewrite ?(proj2 (Z.ltb_lt n (fsize w))) by lia; cbn [andb]; by rewrite lor_sign by lia.
Qed.

Lemma class_sem w b :
  (match w with FS => fclass_s | FD => fclass_d end) b
  = 2 ^ fclass_bit (mbits w) (number w b) (Z.testbit b (mbits w - 1)).
Proof. destruct w; apply fclass_spec. Qed.

(** ** Execution *)

Section RunFloat.
Context {H Mem : Type} `{HostOps H} `{!MemoryOps H Mem} `{BuildProfile} `{FloatEnv}.
Abbreviation M := (EM (Machine H Mem) CpuError).
Context (s : Machine H Mem) (Hc : cpu_ok (cpu s)).

Lemma read_f32_run {A} r (f : Z -> M A) : is_u 5 r -> (read_f32 r ≫= f) s = f (pattern FS (cpu s) r) s.
Proof. intros Hr. unfold read_f32, try_gets, mbind, EM_bind. by rewrite read_f32_pattern. Qed.
Lemma read_f64_run {A} r (f : Z -> M A) : is_u 5 r -> (read_f64 r ≫= f) s = f (pattern FD (cpu s) r) s.
Proof. intros Hr. unfold read_f64, try_gets, mbind, EM_bind. by rewrite read_f64_pattern. Qed.
Lemma freg_bits_run {A} r (f : Z -> M A) : is_u 5 r -> (freg_bits r ≫= f) s = f (pattern FD (cpu s) r) s.
Proof. apply read_f64_run. Qed.

Lemma write_f32_set r v :
  is_u 5 r -> is_u 32 v -> write_f32 r v s = Ok (E:=CpuError) tt (on_cpu (set_F FS r (number FS v)) s).
Proof. intros. unfold write_f32, try_cpu. by rewrite write_f32_F. Qed.
Lemma write_f64_set r v :
  is_u 5 r -> is_u 64 v -> write_f64 r v s = Ok (E:=CpuError) tt (on_cpu (set_F FD r (number FD v)) s).
Proof. intros. unfold write_f64, try_cpu. by rewrite write_f64_F. Qed.
Lemma set_freg_set w r b :
  is_u 5 r -> set_freg r (box w b) s = Ok (E:=CpuError) tt (on_cpu (set_pattern w r b) s).
Proof. intros. unfold set_freg, try_cpu. by rewrite set_freg_pattern. Qed.

Lemma or_illegal_run {A B} w (a : A) (f : A -> M B) : (or_illegal w (Some a) ≫= f) s = f a s.
Proof. done. Qed.
End RunFloat.

#[export] Hint Resolve f32_bits_range f64_bits_range f32_of_sf_range f64_of_sf_range : range.
#[export] Hint Extern 1 (is_u 32 (pattern FS _ _)) => apply (pattern_range _) with (w := FS) : range.
#[export] Hint Extern 1 (is_u 64 (pattern FD _ _)) => apply (pattern_range _) with (w := FD) : range.

(** Runs the accesses to floating-point registers. *)
Ltac run_fregs :=
  repeat first
    [ rewrite read_f32_run by auto with range
    | rewrite read_f64_run by auto with range
    | rewrite freg_bits_run by auto with range
    | rewrite read_reg_run by auto with range ]; cbv zeta.

Section RunInstrs.
Context {H Mem : Type} `{HostOps H} `{!MemoryOps H Mem} `{BuildProfile} `{FloatEnv}.
Context (s : Machine H Mem) (Hc : cpu_ok (cpu s)) (d : DecodedInst32).
Context (Hd : is_u 5 (rd d)) (Hr1 : is_u 5 (rs1 d)) (Hr2 : is_u 5 (rs2 d)).
Abbreviation op_run w f5 := ((match w with FS => op_fp_single d f5 | FD => op_fp_double d f5 end) s).
Abbreviation done_with res := (Ok tt (on_cpu (put res) s)).

Lemma write_single v f :
  is_u 32 v -> number FS v = f -> write_f32 (E:=CpuError) (rd d) v s = done_with (ToF FS (rd d) f).
Proof. intros Hv <-. by apply write_f32_set. Qed.
Lemma write_double v f :
  is_u 64 v -> number FD v = f -> write_f64 (E:=CpuError) (rd d) v s = done_with (ToF FD (rd d) f).
Proof. intros Hv <-. by apply write_f64_set. Qed.
Lemma write_int v v' : v = v' -> write_reg (E:=CpuError) (rd d) v s = done_with (ToX (rd d) v').
Proof. intros <-. by apply write_reg_last. Qed.

Lemma run_arith w op :
  op_run w (farith_code op)
  = done_with (ToF w (rd d) (farith_sem w op (F w (cpu s) (rs1 d)) (F w (cpu s) (rs2 d)))).
Proof.
  destruct w; cbv iota.
  - destruct op; cbn [farith_code]; unfold op_fp_single; decide_consts; unfold f32_binop; run_fregs;
      (apply write_single; [apply f32_bits_range|]).
    + apply (number_add FS).
    + apply (number_sub FS).
    + apply (number_mul FS).
    + apply (number_div FS).
  - destruct op; cbn [farith_code]; unfold op_fp_double; decide_consts; unfold f64_binop; run_fregs;
      (apply write_double; [apply f64_bits_range|]).
    + apply (number_add FD).
    + apply (number_sub FD).
    + apply (number_mul FD).
    + apply (number_div FD).
Qed.

Lemma run_sqrt w :
  op_run w 0x0B = done_with (ToF w (rd d) (SFsqrt (fprec w) (femax w) (F w (cpu s) (rs1 d)))).
Proof.
  destruct w; unfold op_fp_single, op_fp_double; decide_consts; run_fregs.
  - apply write_single; [apply f32_bits_range|apply (number_sqrt FS)].
  - apply write_double; [apply f64_bits_range|apply (number_sqrt FD)].
Qed.

Lemma run_sgnj w op :
  funct3 d = fsgn_code op ->
  op_run w 0x04
  = done_with (ToPattern w (rd d) (fsgn_sem w op (pattern w (cpu s) (rs1 d)) (pattern w (cpu s) (rs2 d)))).
Proof.
  intros Hf3. pose proof (sgnj_sem w op _ _ (pattern_range _ Hc _ Hr1 w) (pattern_range _ Hc _ Hr2 w)) as E.
  destruct w; unfold op_fp_single, op_fp_double; decide_consts; run_fregs; rewrite Hf3.
  - change (sgnj_bits 32 0x7FFFFFFF 0x80000000) with (sgnj_bits (fsize FS) (2 ^ (fsize FS - 1) - 1) (2 ^ (fsize FS - 1))).
    rewrite E, or_illegal_run, box_single; [by apply set_freg_set|].
    unfold fsgn_sem. cbv zeta. change (fsize FS - 1) with 31. unfold is_u. case_match; zlia.
  - change (sgnj_bits 64 0x7FFFFFFFFFFFFFFF 0x8000000000000000)
      with (sgnj_bits (fsize FD) (2 ^ (fsize FD - 1) - 1) (2 ^ (fsize FD - 1))).
    rewrite E, or_illegal_run. by apply (set_freg_set s Hc FD).
Qed.

Lemma run_minmax w max :
  funct3 d = b2z max ->
  op_run w 0x05
  = done_with (ToF w (rd d) (fminmax_sem w max (pattern w (cpu s) (rs1 d)) (pattern w (cpu s) (rs2 d)))).
Proof.
  intros Hf3. set (a := pattern w (cpu s) (rs1 d)). set (b := pattern w (cpu s) (rs2 d)).
  assert (Ha : is_u (fsize w) a) by by apply pattern_range. assert (Hb : is_u (fsize w) b) by by apply pattern_range.
  destruct (f_minmax_range (mbits w) (ebits w) (fsize w) a b Ha Hb) as [Hmin Hmax].
  pose proof (number_minmax w a b max) as Hn.
  assert (E : fminmax (f_is_nan (mbits w) (ebits w)) (f_min (mbits w) (ebits w)) (f_max (mbits w) (ebits w)) (b2z max) a b
    = Some ((if max then f_max (mbits w) (ebits w) else f_min (mbits w) (ebits w)) a b)).
  { unfold fminmax, f_min, f_max. destruct max; cbn [b2z]; decide_consts; by repeat case_match. }
  destruct w; unfold op_fp_single, op_fp_double; decide_consts; run_fregs; rewrite Hf3.
  - fold a b. rewrite (E : fminmax f32_is_nan f32_min f32_max (b2z max) a b = _), or_illegal_run.
    apply write_single; [by destruct max|done].
  - fold a b. rewrite (E : fminmax f64_is_nan f64_min f64_max (b2z max) a b = _), or_illegal_run.
    apply write_double; [by destruct max|done].
Qed.

Lemma run_cmp w op :
  funct3 d = fcmp_code op ->
  op_run w 0x14
  = done_with (ToX (rd d) (if fcmp_sem op (F w (cpu s) (rs1 d)) (F w (cpu s) (rs2 d)) then 1 else 0)).
Proof.
  intros Hf3. destruct w; unfold op_fp_single, op_fp_double; decide_consts; run_fregs; rewrite Hf3;
    destruct op; unfold fcompare; cbn [fcmp_code]; decide_consts; rewrite or_illegal_run; by apply write_int.
Qed.

Lemma run_class w :
  funct3 d = 1 ->
  op_run w 0x1C
  = done_with (ToX (rd d) (2 ^ fclass_bit (mbits w) (F w (cpu s) (rs1 d))
      (Z.testbit (pattern w (cpu s) (rs1 d)) (mbits w - 1)))).
Proof.
  intros Hf3. destruct w; unfold op_fp_single, op_fp_double; decide_consts; rewrite Hf3; decide_consts; run_fregs;
    apply write_int; [apply (class_sem FS)|apply (class_sem FD)].
Qed.

Lemma run_to_int w signed :
  rs2 d = b2z (negb signed) ->
  op_run w 0x18
  = done_with (ToX (rd d) (if signed then ftoint (- 2 ^ 31) (2 ^ 31 - 1) (F w (cpu s) (rs1 d)) mod 2 ^ 32
      else ftoint 0 (2 ^ 32 - 1) (F w (cpu s) (rs1 d)))).
Proof.
  intros Hrs. destruct w; unfold op_fp_single, op_fp_double; decide_consts; run_fregs; rewrite Hrs;
    apply write_int; destruct signed; cbn [negb b2z]; decide_consts.
  - unfold wrap. f_equal. apply (to_int_sem FS).
  - apply (to_int_sem FS).
  - unfold wrap. f_equal. apply (to_int_sem FD).
  - apply (to_int_sem FD).
Qed.

Lemma run_from_int w signed :
  rs2 d = b2z (negb signed) ->
  op_run w 0x1A
  = done_with (ToF w (rd d) (binary_normalize (fprec w) (femax w)
      (if signed then i32 (X (cpu s) (rs1 d)) else X (cpu s) (rs1 d)) 0 false)).
Proof.
  intros Hrs. destruct w; unfold op_fp_single, op_fp_double; decide_consts; run_fregs; rewrite Hrs;
    destruct signed; cbn [negb b2z]; decide_consts.
  1-2: apply write_single; [apply f32_bits_range|apply (number_of_int FS)].
  1-2: apply write_double; [apply f64_bits_range|apply (number_of_int FD)].
Qed.

Lemma run_conv w : op_run w 0x08 = done_with (ToF w (rd d) (fconv w (F (other w) (cpu s) (rs1 d)))).
Proof.
  destruct w; unfold op_fp_single, op_fp_double; decide_consts; run_fregs.
  - apply write_single; [apply f32_of_sf_range|apply (number_conv FS)].
  - apply write_double; [apply f64_of_sf_range|apply (number_conv FD)].
Qed.

Lemma run_mv_x_w : funct3 d = 0 -> op_fp_single d 0x1C s = done_with (ToX (rd d) (freg (cpu s) (rs1 d) mod 2 ^ 32)).
Proof.
  intros Hf3. unfold op_fp_single. decide_consts. rewrite Hf3. decide_consts. run_fregs.
  apply write_int. apply u32_land.
Qed.

Lemma run_mv_w_x : op_fp_single d 0x1E s = done_with (ToPattern FS (rd d) (X (cpu s) (rs1 d))).
Proof.
  unfold op_fp_single. decide_consts. run_fregs. rewrite box_single by by apply X_ok. by apply set_freg_set.
Qed.

Lemma run_fma w op :
  is_u 5 (rs3 d) -> shift_then_mask (raw d) 25 3 = fmt_code w -> opcode d = ffma_code op ->
  exec_madd d s
  = done_with (ToF w (rd d) (mul_then_add w op (F w (cpu s) (rs1 d)) (F w (cpu s) (rs2 d)) (F w (cpu s) (rs3 d)))).
Proof.
  intros Hr3 Hfmt Hop. unfold exec_madd. rewrite Hfmt. cbv zeta. destruct w; cbn [fmt_code].
  - change (u8 0 =? 0) with true. cbv iota. run_fregs. rewrite Hop.
    destruct op; unfold madd_value; cbn [ffma_code]; decide_consts; rewrite or_illegal_run;
      apply write_single; try apply f32_bits_range; try (by apply f_neg_range; [..|apply f32_bits_range]);
      rewrite ?(number_neg FS) by apply f32_bits_range; unfold mul_then_add;
      rewrite ?(number_add FS), ?(number_sub FS), ?(number_mul FS); done.
  - change (u8 1 =? 0) with false. change (u8 1 =? 1) with true. cbv iota. run_fregs. rewrite Hop.
    destruct op; unfold madd_value; cbn [ffma_code]; decide_consts; rewrite or_illegal_run;
      apply write_double; try apply f64_bits_range; try (by apply f_neg_range; [..|apply f64_bits_range]);
      rewrite ?(number_neg FD) by apply f64_bits_range; unfold mul_then_add;
      rewrite ?(number_add FD), ?(number_sub FD), ?(number_mul FD); done.
Qed.
End RunInstrs.

(** ** The refinement *)

Section RefineFloat.
Context {H Mem : Type} `{HostOps H} `{!MemoryOps H Mem} `{BuildProfile} `{FloatEnv}.

Lemma fsgn_range w op a b : is_u (fsize w) (fsgn_sem w op a b).
Proof.
  unfold fsgn_sem. cbv zeta. set (g := match op with FSGNJ => _ | FSGNJN => _ | FSGNJX => _ end). clearbody g.
  destruct w; [change (fsize FS - 1) with 31; change (fsize FS) with 32
              |change (fsize FD - 1) with 63; change (fsize FD) with 64];
    unfold is_u; destruct g; zlia.
Qed.

(** Results are canonical numbers, or patterns of the width. *)
Lemma fresult_ok c i :
  cpu_ok c -> finstr_ok i ->
  match fresult i c with
  | ToF w rd f => is_u 5 rd /\ valid_in w f = true
  | ToPattern w rd b => is_u 5 rd /\ is_u (fsize w) b
  | ToX rd v => is_u 5 rd
  end.
Proof.
  intros Hc Hi. assert (Hp : forall w, 1 < fprec w) by by intros [].
  assert (Hv : forall w r, valid_in w (F w c r) = true) by (intros; apply number_valid).
  unfold finstr_ok in Hi. destruct i; cbn [fresult fto_asm op_fp asm32_ok] in *; destruct_and? Hi;
    try (split; [done|]); try done.
  - destruct op; [apply SFadd_valid|apply SFsub_valid|apply SFmul_valid|apply SFdiv_valid]; done || by destruct w.
  - by apply SFsqrt_valid.
  - apply fsgn_range.
  - unfold fminmax_sem. pose proof (number_valid w (pattern w c rs1)). pose proof (number_valid w (pattern w c rs2)).
    repeat case_match; congruence.
  - by apply normalize_valid.
  - apply fconv_valid.
  - by apply X_ok.
  - assert (Hm : valid_in w (SFmul (fprec w) (femax w) (F w c rs1) (F w c rs2)) = true)
      by (apply SFmul_valid; done || by destruct w).
    destruct op; cbn [mul_then_add]; rewrite ?SFopp_valid; (apply SFadd_valid || apply SFsub_valid); done.
Qed.

Lemma X_set_X c r v p : cpu_ok c -> is_u 5 r -> r <> 0 -> X (with_pc p (set_X r v c)) r = v.
Proof.
  intros Hc Hr Hne. unfold X, set_X. destruct (Z.eqb_spec r 0); [done|]. cbn [regs with_pc with_regs].
  apply nth_lookup_Some. apply list_lookup_insert_eq. rewrite (ok_regs_len _ Hc). by apply is_u5_nat.
Qed.

Lemma dispatch32_op_fp d npc : opcode d = OP_OP_FP -> dispatch32 (H:=H) (Mem:=Mem) d npc = (exec_op_fp d;; mret npc).
Proof. intros Hop. unfold dispatch32, is_rv32i_opcode, is_rv32fd_opcode, exec_rv32fd. rewrite Hop. by decide_consts. Qed.

Lemma dispatch32_fma d npc op : opcode d = ffma_code op -> dispatch32 (H:=H) (Mem:=Mem) d npc = (exec_madd d;; mret npc).
Proof.
  intros Hop. unfold dispatch32, is_rv32i_opcode, is_rv32fd_opcode, exec_rv32fd, is_madd.
  destruct op; rewrite Hop; cbn [ffma_code]; by decide_consts.
Qed.

Lemma op_fp_code w f5 d :
  funct7 d = 4 * f5 + fmt_code w -> 0 <= f5 ->
  exec_op_fp (H:=H) (Mem:=Mem) d = match w with FS => op_fp_single d f5 | FD => op_fp_double d f5 end.
Proof.
  intros H7 Hf. unfold exec_op_fp. cbv zeta.
  assert (E1 : funct7 d .& 0x3 = fmt_code w).
  { change 0x3 with (Z.ones 2). rewrite Z.land_ones by lia. rewrite H7. destruct w; cbn [fmt_code]; zlia. }
  assert (E2 : funct7 d .>> 2 = f5).
  { rewrite Z.shiftr_div_pow2 by lia. rewrite H7. destruct w; cbn [fmt_code]; zlia. }
  rewrite E1, E2. by destruct w.
Qed.

Lemma fdispatch s i npc :
  cpu_ok (cpu s) -> finstr_ok i ->
  dispatch32 (decode32 (fassemble i)) npc s = Ok npc (on_cpu (put (fresult i (cpu s))) s).
Proof.
  intros Hc Hi. unfold fassemble, finstr_ok in *. assert (Hok := Hi).
  assert (Hgo : forall (m : EM (Machine H Mem) CpuError unit) r, m s = Ok tt (on_cpu (put r) s) ->
    (m;; mret npc) s = Ok npc (on_cpu (put r) s)).
  { intros m r E. by rewrite (em_bind_ok _ _ _ _ _ E). }
  destruct i; cbn [fto_asm] in *; unfold op_fp in *; decoded Hok;
    first [rewrite dispatch32_op_fp by done | rewrite (dispatch32_fma _ _ op) by done]; apply Hgo; cbn [fresult];
    try (erewrite (op_fp_code w); [|eassumption|done || by destruct op]).
  - by apply run_arith.
  - by apply run_sqrt.
  - by apply run_sgnj.
  - by apply run_minmax.
  - by apply run_cmp.
  - by apply run_class.
  - by apply run_to_int.
  - by apply run_from_int.
  - by apply run_conv.
  - rewrite (op_fp_code FS 0x1C) by done. by apply run_mv_x_w.
  - rewrite (op_fp_code FS 0x1E) by done. by apply run_mv_w_x.
  - by apply run_fma.
Qed.

Lemma float_run (s : Machine H Mem) i :
  cpu_ok (cpu s) -> finstr_ok i -> execute_inst32 (fassemble i) s = Ok tt (on_cpu (fexec i) s).
Proof. intros Hc Hi. by rewrite (execute_by_dispatch _ _ _ _ (fdispatch s i _ Hc Hi)). Qed.

(** C3: The F and D instructions compute on IEEE 754 numbers.  For every arithmetic,
    square-root, sign-injection, minimum, comparison, classification, conversion,
    move and multiply-add instruction, single or double, with encodable operands and
    any rounding-mode field, [execute_inst32] succeeds, changes only the destination
    register and the program counter, and puts there the result of [fresult] on the
    numbers the source registers hold, whether normal, subnormal, infinite or NaN:
    for one operation its correctly rounded (nearest, ties to even) result; for a
    multiply-add the product rounded first and then the sum, two roundings where the
    manual's fused operation has one; for conversions to integers the number
    truncated and saturated, zero for a NaN.  The destination read back as a number
    of the instruction's width is exactly that result. *)
Theorem float_refines (s : Machine H Mem) i :
  cpu_ok (cpu s) -> finstr_ok i ->
  execute_inst32 (fassemble i) s = Ok tt (Build_Machine (fexec i (cpu s)) (mem s) (host s))
  /\ match fresult i (cpu s) with
     | ToF w rd f => F w (fexec i (cpu s)) rd = f
     | ToPattern w rd b => pattern w (fexec i (cpu s)) rd = b
     | ToX rd v => rd <> 0 -> X (fexec i (cpu s)) rd = v
     end.
Proof.
  intros Hc Hi. split; [by apply float_run|].
  pose proof (fresult_ok (cpu s) i Hc Hi) as Hr. unfold fexec. destruct (fresult i (cpu s)); cbn [put].
  - destruct Hr as [Hr Hv]. exact (F_set_F (cpu s) Hc rd Hr w f Hv).
  - destruct Hr as [Hr Hb]. exact (pattern_set (cpu s) Hc rd Hr w b Hb).
  - intros Hne. by apply X_set_X.
Qed.
End RefineFloat.

(** ** Exact conversions *)

Lemma normalize_exact w m e z :
  Zdigits2 (Z.abs m) <= fprec w -> emin (fprec w) (femax w) <= e -> Zdigits2 (Z.abs m) + e <= femax w -> m <> 0 ->
  exists m' n, 0 <= n /\ Zpos m' = Z.abs m * 2 ^ n
    /\ binary_normalize (fprec w) (femax w) m e z = S754_finite (m <? 0) m' (e - n).
Proof.
  intros Hd He Hx Hm. assert (Hw : 1 < fprec w /\ fprec w < femax w) by by destruct w.
  destruct m as [|p|p]; [done|..]; cbn [binary_normalize Z.abs Z.ltb] in *.
  - destruct (binary_round_exact (fprec w) (femax w) ltac:(lia) ltac:(lia) false p e Hd He Hx)
      as (m' & n & Hn & Em & E & _). exists m', n. by rewrite E.
  - destruct (binary_round_exact (fprec w) (femax w) ltac:(lia) ltac:(lia) true p e Hd He Hx)
      as (m' & n & Hn & Em & E & _). exists m', n. by rewrite E.
Qed.

(** An integer of at most [prec] digits survives a conversion to floating point. *)
Lemma ftoint_of_int w lo hi z :
  Zdigits2 (Z.abs z) <= fprec w -> lo <= z <= hi ->
  ftoint lo hi (binary_normalize (fprec w) (femax w) z 0 false) = z.
Proof.
  intros Hd Hz. destruct (decide (z = 0)) as [->|Hne]; [done|].
  assert (Hw : emin (fprec w) (femax w) <= 0 /\ fprec w <= femax w) by by destruct w.
  destruct (normalize_exact w z 0 false) as (m & n & Hn & Em & ->); [lia..|]. cbn [ftoint].
  rewrite (Z.max_l 0 (0 - n)), (Z.max_r 0 (- (0 - n))) by lia. replace (- (0 - n)) with n by lia.
  assert (E : (if z <? 0 then Zneg m else Zpos m) = z * 2 ^ n).
  { destruct (Z.ltb_spec z 0); [change (Zneg m) with (- Zpos m)|]; rewrite Em; [rewrite Z.abs_neq|rewrite Z.abs_eq]; lia. }
  rewrite E, Z.mul_1_r, Z.quot_mul by lia. lia.
Qed.

Lemma abs_i32_digits x : is_i 32 x -> Zdigits2 (Z.abs x) <= 32.
Proof. unfold is_i. intros. apply Zdigits2_le; lia. Qed.
Lemma abs_u32_digits x : is_u 32 x -> Zdigits2 (Z.abs x) <= 32.
Proof. unfold is_u. intros. apply Zdigits2_le; lia. Qed.

(** A single is exactly representable as a double, and comes back from one. *)
Lemma fconv_there_back f : valid_in FS f = true -> fconv FS (fconv FD f) = f.
Proof.
  intros Hv. destruct f as [s|s| |s m e]; try done. cbn [fconv].
  pose proof Hv as Hf. apply valid_finite in Hf as (Hd & He & _); [|done..].
  assert (Ha : forall b : bool, Z.abs (if b then Zneg m else Zpos m) = Zpos m) by by intros [].
  destruct (normalize_exact FD (if s then Zneg m else Zpos m) e s) as (m' & n & Hn & Em & E);
    rewrite ?Ha in *; [..|by destruct s|].
  { change (fprec FS) with 24 in Hd. change (fprec FD) with 53. lia. }
  { change (emin (fprec FD) (femax FD)) with (-1074). change (emin (fprec FS) (femax FS)) with (-149) in He. lia. }
  { change (femax FS) with 128 in He. change (fprec FS) with 24 in *. change (femax FD) with 1024. lia. }
  rewrite E. assert (Es : ((if s then Zneg m else Zpos m) <? 0) = s) by by destruct s. rewrite Es. cbn [fconv].
  assert (Eb : binary_normalize (fprec FS) (femax FS) (if s then Zneg m' else Zpos m') (e - n) s
    = binary_round (fprec FS) (femax FS) s m' (e - n)) by by destruct s.
  rewrite Eb. by apply binary_round_canonical.
Qed.

Section Conversions.
Context {H Mem : Type} `{HostOps H} `{!MemoryOps H Mem} `{BuildProfile} `{FloatEnv}.
Implicit Types s : Machine H Mem.

Lemma set_F_ok w r f c p : cpu_ok c -> is_u 5 r -> is_u 32 p -> cpu_ok (with_pc p (set_F w r f c)).
Proof.
  intros Hc Hr Hp. apply with_pc_ok; [|done]. pose proof (box_range w _ (encode_range w f)) as Hb.
  destruct (Cpu_set_freg_ok c r _ Hc Hr Hb) as (c' & E & Hc' & _).
  rewrite set_freg_pattern in E by done. by injection E as <-.
Qed.

Lemma fexec_F c i w r f : cpu_ok c -> finstr_ok i -> fresult i c = ToF w r f -> F w (fexec i c) r = f.
Proof.
  intros Hc Hi Hres. pose proof (fresult_ok c i Hc Hi) as Hr. unfold fexec. rewrite Hres in *.
  destruct Hr as [Hr Hv]. exact (F_set_F c Hc r Hr w f Hv).
Qed.

(** Two instructions, the first with a result in a floating-point register. *)
Lemma float_run2 s i j w r f :
  cpu_ok (cpu s) -> finstr_ok i -> finstr_ok j -> fresult i (cpu s) = ToF w r f -> is_u 5 r ->
  (execute_inst32 (fassemble i);; execute_inst32 (fassemble j)) s = Ok tt (on_cpu (fun c => fexec j (fexec i c)) s)
  /\ cpu_ok (fexec i (cpu s)).
Proof.
  intros Hc Hi Hj Hres Hr. assert (Hok : cpu_ok (fexec i (cpu s))).
  { unfold fexec. rewrite Hres. apply set_F_ok; [done..|by apply wrap_is_u]. }
  split; [|done]. rewrite (em_bind_ok _ _ _ _ _ (float_run s i Hc Hi)).
  exact (float_run (on_cpu (fexec i) s) j Hok Hj).
Qed.

(** C36: Conversions that must be exact are.  Every 32-bit integer, signed or
    unsigned, survives [fcvt.d.w[u]] followed by [fcvt.w[u].d]; every single,
    infinities, subnormals and NaN included, survives [fcvt.d.s] followed by
    [fcvt.s.d]; in any registers and with any rounding-mode fields, and memory and
    host are untouched. *)
Theorem convert_round_trip s signed r1 r2 rf rm rm' :
  cpu_ok (cpu s) -> is_u 5 r1 -> is_u 5 r2 -> is_u 5 rf -> is_u 3 rm -> is_u 3 rm' ->
  (exists s', (execute_inst32 (fassemble (FFromInt FD signed rf r1 rm));;
               execute_inst32 (fassemble (FToInt FD signed r2 rf rm'))) s = Ok tt s'
     /\ mem s' = mem s /\ host s' = host s /\ (r2 <> 0 -> X (cpu s') r2 = X (cpu s) r1))
  /\ (exists s', (execute_inst32 (fassemble (FConv FD rf r1 rm));;
                  execute_inst32 (fassemble (FConv FS r2 rf rm'))) s = Ok tt s'
     /\ mem s' = mem s /\ host s' = host s /\ F FS (cpu s') r2 = F FS (cpu s) r1).
Proof.
  intros Hc H1' H2' Hf Hm Hm'. pose proof (X_ok _ _ Hc H1') as Hx.
  assert (Hi : finstr_ok (FFromInt FD signed rf r1 rm) /\ finstr_ok (FToInt FD signed r2 rf rm')
    /\ finstr_ok (FConv FD rf r1 rm) /\ finstr_ok (FConv FS r2 rf rm')) by (destruct signed; split_and!; done).
  destruct Hi as (I1 & I2 & I3 & I4). split.
  - destruct (float_run2 s _ _ FD rf _ Hc I1 I2 eq_refl Hf) as [E Hok]. rewrite E. eexists. split; [done|].
    do 2 (split; [done|]). intros Hne. cbn [on_cpu cpu].
    pose proof (fexec_F _ _ _ _ _ Hc I1 eq_refl) as EF. unfold fexec at 1. cbn [fresult put].
    rewrite X_set_X by done. rewrite EF. destruct signed.
    + rewrite ftoint_of_int; [rewrite <- (wrap_small _ _ Hx) at 2; apply u32_i32|..].
      * pose proof (abs_i32_digits _ (i32_is_i (X (cpu s) r1))). change (fprec FD) with 53. lia.
      * pose proof (i32_is_i (X (cpu s) r1)) as Hi. unfold is_i in Hi. lia.
    + apply ftoint_of_int; [|unfold is_u in Hx; lia].
      pose proof (abs_u32_digits _ Hx). change (fprec FD) with 53. lia.
  - destruct (float_run2 s _ _ FD rf _ Hc I3 I4 eq_refl Hf) as [E Hok]. rewrite E. eexists. split; [done|].
    do 2 (split; [done|]). cbn [on_cpu cpu]. rewrite (fexec_F _ _ _ _ _ Hok I4 eq_refl).
    cbn [other]. rewrite (fexec_F _ _ _ _ _ Hc I3 eq_refl). apply fconv_there_back, number_valid.
Qed.
End Conversions.

(** ** The hypotheses hold *)

#[local] Existing Instance release_profile.
#[local] Existing Instance default_float_env.

(** [f1] holds [1.5], [f2] holds [-0.25]. *)
Definition float_machine : Machine (MockHost unit) Memory :=
  on_cpu (fun c => set_pattern FS 2 0xBE800000 (set_pattern FS 1 0x3FC00000 c)) fresh_machine.

Lemma float_machine_ok : cpu_ok (cpu float_machine).
Proof.
  split; try done; try apply map_Forall_empty; cbn; by repeat constructor.
Qed.

Lemma float_refines_witness :
  finstr_ok (FArith FS FMUL 3 1 2 7)
  /\ execute_inst32 (fassemble (FArith FS FMUL 3 1 2 7)) float_machine
     = Ok tt (on_cpu (fexec (FArith FS FMUL 3 1 2 7)) float_machine)
  /\ F FS (fexec (FArith FS FMUL 3 1 2 7) (cpu float_machine)) 3 = S754_finite true 0xC00000 (-25).
Proof.
  assert (Hi : finstr_ok (FArith FS FMUL 3 1 2 7)) by (cbn; unfold is_u, OP_OP_FP; lia).
  destruct (float_refines float_machine (FArith FS FMUL 3 1 2 7) float_machine_ok Hi) as [E EF].
  split; [exact Hi|]. split; [exact E|]. rewrite EF. vm_compute. reflexivity.
Defined.

Lemma convert_round_trip_witness :
  exists s', (execute_inst32 (fassemble (FFromInt FD true 4 2 0));;
              execute_inst32 (fassemble (FToInt FD true 6 4 1))) float_machine = Ok tt s'
    /\ X (cpu s') 6 = 0x7FFFFFC.
Proof.
  destruct (convert_round_trip float_machine true 2 6 4 0 1 float_machine_ok
    ltac:(unfold is_u; lia) ltac:(unfold is_u; lia) ltac:(unfold is_u; lia) ltac:(unfold is_u; lia)
    ltac:(unfold is_u; lia)) as [(s' & E & _ & _ & EX) _].
  exists s'. split; [exact E|]. exact (EX ltac:(lia)).
Defined.
