(* ===== verification/Errors.v ===== *)
(** Which instruction words are refused.

    [verdict32] is a table over the fields of an instruction word: it executes, it
    is an illegal instruction, or its opcode is unknown.  [execute_inst32] follows
    it, and an instruction that executes has no other error than an [ecall] with an
    unknown number. *)

From S2P Require Import Prelude Bits Inst Fmt Host Memory MemoryProps Float Cpu Syscall Exec Rvc Run Safe SafeExec RunProps IsaSpec.

(** ** The table *)

Inductive verdict := Executes | Illegal | BadOpcode.

Definition ok_if (b : bool) : verdict := if b then Executes else Illegal.
Definition one_of (l : list Z) (x : Z) : bool := existsb (Z.eqb x) l.

(** [OP_FP]: single ([fmt] 0) and double ([fmt] 1). *)
Definition fp_entry (fmt f5 f3 : Z) : bool :=
  if one_of [0x00; 0x01; 0x02; 0x03; 0x08; 0x0B; 0x18; 0x1A; 0x1C] f5 then true
  else if one_of [0x04; 0x14] f5 then one_of [0; 1; 2] f3
  else if f5 =? 0x05 then one_of [0; 1] f3
  else if f5 =? 0x1E then fmt =? 0
  else false.
Definition op_fp_legal (fmt f5 f3 : Z) : bool := one_of [0; 1] fmt && fp_entry fmt f5 f3.

Definition amo_legal (f5 : Z) : bool :=
  one_of [0x00; 0x01; 0x02; 0x03; 0x04; 0x08; 0x0C; 0x10; 0x14; 0x18; 0x1C] f5.

Definition verdict32 (d : DecodedInst32) : verdict :=
  let op := opcode d in
  let f3 := funct3 d in
  let f7 := funct7 d in
  if one_of [OP_LUI; OP_AUIPC; OP_JAL; OP_JALR; OP_IMM; OP_MISC_MEM; OP_SYSTEM] op then Executes
  else if op =? OP_BRANCH then ok_if (one_of [0; 1; 4; 5; 6; 7] f3)
  else if op =? OP_LOAD then ok_if (one_of [0; 1; 2; 4; 5] f3)
  else if op =? OP_STORE then ok_if (one_of [0; 1; 2] f3)
  else if op =? OP_OP then ok_if (one_of [0; 1] f7 || (f7 =? 0x20) && one_of [0; 5] f3)
  else if op =? OP_AMO then ok_if (amo_legal (f7 / 4))
  else if one_of [OP_LOAD_FP; OP_STORE_FP] op then ok_if (one_of [2; 3] f3)
  else if op =? OP_OP_FP then ok_if (op_fp_legal (f7 mod 4) (f7 / 4) f3)
  else if one_of [OP_MADD; OP_MSUB; OP_NMSUB; OP_NMADD] op then ok_if (one_of [0; 1] (slice (raw d) 25 2))
  else BadOpcode.

Definition is_ecall (d : DecodedInst32) : bool :=
  (opcode d =? OP_SYSTEM) && (funct3 d =? 0) && (raw d / 2 ^ 20 =? 0).

(** ** Computations without errors *)

Section NoError.
Context {S E : Type}.

Definition no_error {A} (m : EM S E A) : Prop :=
  forall s, match m s with Err _ _ => False | _ => True end.

Lemma no_error_ret {A} (a : A) : no_error (mret a).
Proof. done. Qed.
Lemma no_error_bind {A B} (m : EM S E A) (f : A -> EM S E B) :
  no_error m -> (forall a, no_error (f a)) -> no_error (m ≫= f).
Proof.
  intros Hm Hf s. unfold mbind, EM_bind. specialize (Hm s). destruct (m s); [apply Hf|done..].
Qed.
Lemma no_error_if {A} (b : bool) (m n : EM S E A) :
  (b = true -> no_error m) -> (b = false -> no_error n) -> no_error (if b then m else n).
Proof. destruct b; auto. Qed.
End NoError.

Section NoErrorOps.
Context {H Mem : Type} `{HostOps H} `{!MemoryOps H Mem} `{BuildProfile} `{FloatEnv}.
Context {E : Type}.
Abbreviation M := (EM (Machine H Mem) E).

Lemma no_error_try_gets {A} (f : Cpu -> option A) : no_error (try_gets f : M A).
Proof. intros s. unfold try_gets. by destruct (f (cpu s)). Qed.
Lemma no_error_try_cpu f : no_error (try_cpu f : M unit).
Proof. intros s. unfold try_cpu. by destruct (f (cpu s)). Qed.
Lemma no_error_mread {A} (f : Mem -> HM H A) : no_error (mread f : M A).
Proof. intros s. unfold mread. by destruct (f (mem s) (host s)) as [[]|]. Qed.
Lemma no_error_mwrite f : no_error (mwrite f : M unit).
Proof. intros s. unfold mwrite. by destruct (f (mem s) (host s)) as [[]|]. Qed.
Lemma no_error_get_cpu : no_error (get_cpu : M Cpu).
Proof. done. Qed.
Lemma no_error_modify f : no_error (modify_cpu f : M unit).
Proof. done. Qed.
Lemma no_error_read_reg r : no_error (read_reg r : M Z).
Proof. apply no_error_try_gets. Qed.
Lemma no_error_write_reg r v : no_error (write_reg r v : M unit).
Proof. apply no_error_try_cpu. Qed.
Lemma no_error_checked_add w a b : no_error (checked_add w a b : M Z).
Proof. intros s. unfold checked_add. by destruct (overflow_checks && _). Qed.
End NoErrorOps.

Create HintDb no_error.
#[export] Hint Resolve no_error_ret no_error_try_gets no_error_try_cpu no_error_mread no_error_mwrite
  no_error_get_cpu no_error_modify no_error_read_reg no_error_write_reg no_error_checked_add : no_error.

(** Walks through a computation; conditionals give their test. *)
Ltac no_error :=
  repeat match goal with
  | |- no_error (_ ≫= _) => apply no_error_bind; [|intros ?]
  | |- no_error (if _ then _ else _) => apply no_error_if; intros ?
  | |- no_error (let _ := _ in _) => cbv zeta
  | |- no_error (match ?x with (_, _) => _ end) => destruct x
  | |- no_error _ => solve [eauto with no_error nocore]
  end.

(** ** The code's tables *)

(** Follows a chain of tests that ends in [Some] or [None]. *)
Ltac by_table :=
  repeat match goal with |- context [if ?b then Some _ else _] => destruct b end;
  cbn [orb andb]; rewrite ?orb_true_r; (split; [done || intros []; done | eauto || done]).

Lemma branch_table f3 a b : is_Some (branch_taken f3 a b) <-> one_of [0; 1; 4; 5; 6; 7] f3 = true.
Proof. unfold branch_taken, one_of. cbn [existsb]. by_table. Qed.

Lemma amo_table f5 a b : is_Some (amo_op f5 a b) <-> amo_legal f5 = true.
Proof. unfold amo_op, amo_legal, one_of. cbn [existsb]. by_table. Qed.

Lemma sgnj_table w m g f3 a b : is_Some (sgnj_bits w m g f3 a b) <-> one_of [0; 1; 2] f3 = true.
Proof. unfold sgnj_bits, one_of. cbn [existsb]. by_table. Qed.

Lemma minmax_table nan mn mx f3 a b : is_Some (fminmax nan mn mx f3 a b) <-> one_of [0; 1] f3 = true.
Proof. unfold fminmax, one_of. cbn [existsb]. by_table. Qed.

Lemma compare_table le lt eq f3 a b : is_Some (fcompare le lt eq f3 a b) <-> one_of [0; 1; 2] f3 = true.
Proof. unfold fcompare, one_of. cbn [existsb]. by_table. Qed.

Lemma f3_cases f3 : is_u 3 f3 -> f3 = 0 \/ f3 = 1 \/ f3 = 2 \/ f3 = 3 \/ f3 = 4 \/ f3 = 5 \/ f3 = 6 \/ f3 = 7.
Proof. unfold is_u. lia. Qed.

Lemma alu_imm_total f3 f7 a imm sh : is_u 3 f3 -> is_Some (alu_imm f3 f7 a imm sh).
Proof. intros Hf. by destruct (f3_cases f3 Hf) as [->|[->|[->|[->|[->|[->|[->| ->]]]]]]]. Qed.

Lemma mul_total f3 a b : is_u 3 f3 -> is_Some (mul_op f3 a b).
Proof. intros Hf. by destruct (f3_cases f3 Hf) as [->|[->|[->|[->|[->|[->|[->| ->]]]]]]]. Qed.

Lemma alu_table f7 f3 a b :
  is_u 3 f3 -> f7 <> 1 ->
  is_Some (alu_op f7 f3 a b) <-> one_of [0; 1] f7 || (f7 =? 0x20) && one_of [0; 5] f3 = true.
Proof.
  intros Hf H7. unfold alu_op, one_of. cbn [existsb]. destruct (Z.eqb_spec f7 1); [done|].
  destruct (Z.eqb_spec f7 0) as [->|]; [|destruct (Z.eqb_spec f7 0x20) as [->|]].
  - decide_consts. cbn [orb andb].
    destruct (f3_cases f3 Hf) as [->|[->|[->|[->|[->|[->|[->| ->]]]]]]]; decide_consts; cbn; split; eauto.
  - decide_consts. cbn [orb andb].
    destruct (f3_cases f3 Hf) as [->|[->|[->|[->|[->|[->|[->| ->]]]]]]]; decide_consts; cbn; split; (done || intros []; done || eauto).
  - cbn [orb andb]. split; [by intros []|done].
Qed.

(** ** Every opcode follows the table *)

Section Verdicts.
Context {H Mem : Type} `{HostOps H} `{!HostReads H} `{!MemoryOps H Mem} `{!MemoryLaws H Mem}.
Context `{BuildProfile} `{FloatEnv}.
Abbreviation M := (EM (Machine H Mem) CpuError).
Context (d : DecodedInst32) (Hd : inst_ok d) (Hf3 : is_u 3 (funct3 d)).

(** Refused as illegal with the machine as it was, up to the one memory read of an
    atomic instruction. *)
Definition refused {A} (s : Machine H Mem) (r : outcome (Machine H Mem) CpuError A) : Prop :=
  exists h', r = Err (IllegalInstruction (pc (cpu s)) (raw d)) (Build_Machine (cpu s) (mem s) h')
    /\ (opcode d <> OP_AMO -> h' = host s).

Definition follows {A} (b : bool) (m : M A) : Prop :=
  if b then no_error m else forall s, machine_ok s -> refused s (m s).

Lemma follows_true {A} (m : M A) : no_error m -> follows true m.
Proof. done. Qed.
Lemma follows_illegal {A} : follows false (illegal (raw d) : M A).
Proof. intros [c m h] _. by exists h. Qed.
Lemma follows_bind {A B} b (m : M A) (f : A -> M B) :
  follows b m -> (forall a, no_error (f a)) -> follows b (m ≫= f).
Proof.
  intros Hm Hf. destruct b; [by apply no_error_bind|]. intros s Hs.
  destruct (Hm s Hs) as (h' & E & Hh). exists h'. split; [|done]. unfold mbind, EM_bind. by rewrite E.
Qed.
Lemma follows_then b (m : M unit) npc : follows b m -> follows b (m;; mret npc : M Z).
Proof. intros Hm. by apply follows_bind. Qed.
Lemma follows_gets {A B} b (f : Cpu -> option A) (k : A -> M B) :
  (forall c, cpu_ok c -> is_Some (f c)) -> (forall a, follows b (k a)) -> follows b (try_gets f ≫= k).
Proof.
  intros Hf Hk. destruct b; [apply no_error_bind; [apply no_error_try_gets|done]|]. intros s Hs.
  unfold mbind, EM_bind, try_gets. destruct (Hf (cpu s)) as [a ->]; [apply Hs|]. by apply Hk.
Qed.
Lemma follows_or_illegal {A B} b (o : option A) (k : A -> M B) :
  (is_Some o <-> b = true) -> (forall a, no_error (k a)) -> follows b (or_illegal (raw d) o ≫= k).
Proof.
  intros Ho Hk. destruct o as [a|].
  - destruct b; [|by destruct Ho as [Ho _]; discriminate Ho].
    apply no_error_bind; [apply no_error_ret|done].
  - destruct b; [by destruct Ho as [_ [? ?]]|]. apply follows_bind; [apply follows_illegal|done].
Qed.
Lemma follows_or_illegal_last {A} b (o : option A) :
  (is_Some o <-> b = true) -> follows b (or_illegal (raw d) o : M A).
Proof.
  intros Ho. destruct o as [a|].
  - destruct b; [apply no_error_ret|by destruct Ho as [Ho _]; discriminate Ho].
  - destruct b; [by destruct Ho as [_ [? ?]]|apply follows_illegal].
Qed.

Lemma follows_read_reg {A} b r (k : Z -> M A) :
  is_u 5 r -> (forall a, follows b (k a)) -> follows b (read_reg r ≫= k).
Proof.
  intros Hr. apply follows_gets. intros c Hc. destruct (Cpu_read_reg_ok c r Hc Hr) as (v & -> & _). by exists v.
Qed.
Lemma follows_freg {A} b r (k : Z -> M A) :
  is_u 5 r -> (forall a, follows b (k a)) -> follows b (freg_bits r ≫= k).
Proof.
  intros Hr. apply follows_gets. intros c Hc. destruct (idx_ok (fregs c) 64 r) as (v & -> & _); [apply Hc..|done|].
  by exists v.
Qed.
Lemma follows_read_f64 {A} b r (k : Z -> M A) :
  is_u 5 r -> (forall a, follows b (k a)) -> follows b (read_f64 r ≫= k).
Proof. apply follows_freg. Qed.
Lemma follows_read_f32 {A} b r (k : Z -> M A) :
  is_u 5 r -> (forall a, follows b (k a)) -> follows b (read_f32 r ≫= k).
Proof.
  intros Hr. apply follows_gets. intros c Hc. unfold Cpu_read_f32.
  destruct (idx_ok (fregs c) 64 r) as (v & -> & _); [apply Hc..|done|]. by eexists.
Qed.

Let Hrd := iok_rd d Hd.
Let Hrs1 := iok_rs1 d Hd.
Let Hrs2 := iok_rs2 d Hd.
Let Hrs3 := iok_rs3 d Hd.

(** Register reads in front of the decision. *)
Ltac reads :=
  repeat first
    [ apply follows_read_reg; [done|intros ?] | apply follows_read_f32; [done|intros ?]
    | apply follows_read_f64; [done|intros ?] | apply follows_freg; [done|intros ?] ]; cbv zeta.
Ltac tail := intros; no_error; unfold write_f32, write_f64, set_freg, read_f32, read_f64, freg_bits; eauto with no_error.

Lemma follows_branch npc : opcode d = OP_BRANCH -> follows (one_of [0; 1; 4; 5; 6; 7] (funct3 d)) (exec_rv32i d npc).
Proof.
  intros Hop. unfold exec_rv32i. rewrite Hop. decide_consts. reads.
  apply follows_or_illegal; [apply branch_table|]. tail.
Qed.

Lemma follows_load npc : opcode d = OP_LOAD -> follows (one_of [0; 1; 2; 4; 5] (funct3 d)) (exec_rv32i d npc).
Proof.
  intros Hop. unfold exec_rv32i. rewrite Hop. decide_consts. reads. apply follows_bind; [|tail].
  unfold load_value, one_of. cbn [existsb].
  repeat match goal with |- context [funct3 d =? ?k] => destruct (funct3 d =? k) end; cbn [orb];
    (apply follows_illegal || (apply follows_true; tail)).
Qed.

Lemma follows_store npc : opcode d = OP_STORE -> follows (one_of [0; 1; 2] (funct3 d)) (exec_rv32i d npc).
Proof.
  intros Hop. unfold exec_rv32i. rewrite Hop. decide_consts. reads. apply follows_bind; [|tail].
  unfold store_value, one_of. cbn [existsb].
  repeat match goal with |- context [funct3 d =? ?k] => destruct (funct3 d =? k) end; cbn [orb];
    (apply follows_illegal || (apply follows_true; tail)).
Qed.

Lemma follows_op npc :
  opcode d = OP_OP ->
  follows (one_of [0; 1] (funct7 d) || (funct7 d =? 0x20) && one_of [0; 5] (funct3 d)) (dispatch32 d npc).
Proof.
  intros Hop. destruct (decide (funct7 d = 1)) as [E|E].
  - rewrite dispatch32_rv32m by done. apply follows_bind; [|tail]. unfold exec_rv32m. reads.
    apply follows_or_illegal; [|tail]. rewrite E. split; [done|]. intros _. by apply mul_total.
  - rewrite dispatch32_rv32i by by right. unfold exec_rv32i. rewrite Hop. decide_consts. reads.
    apply follows_or_illegal; [by apply alu_table|tail].
Qed.

Lemma follows_rv32i npc :
  one_of [OP_LUI; OP_AUIPC; OP_JAL; OP_JALR; OP_IMM; OP_MISC_MEM] (opcode d) = true -> no_error (exec_rv32i d npc : M Z).
Proof.
  intros Hop. unfold exec_rv32i. cbv zeta.
  destruct (Z.eqb_spec (opcode d) OP_LUI); [tail|]. destruct (Z.eqb_spec (opcode d) OP_AUIPC); [tail|].
  destruct (Z.eqb_spec (opcode d) OP_JAL); [tail|]. destruct (Z.eqb_spec (opcode d) OP_JALR); [tail|].
  destruct (Z.eqb_spec (opcode d) OP_BRANCH) as [E|_]; [by rewrite E in Hop|].
  destruct (Z.eqb_spec (opcode d) OP_LOAD) as [E|_]; [by rewrite E in Hop|].
  destruct (Z.eqb_spec (opcode d) OP_STORE) as [E|_]; [by rewrite E in Hop|].
  destruct (Z.eqb_spec (opcode d) OP_IMM).
  { apply no_error_bind; [tail|]. intros a. destruct (alu_imm_total (funct3 d) (funct7 d) a (i_imm d) (rs2 d .& 0x1F)) as [v ->];
      [done|tail]. }
  destruct (Z.eqb_spec (opcode d) OP_OP) as [E|_]; [by rewrite E in Hop|].
  destruct (Z.eqb_spec (opcode d) OP_MISC_MEM); [tail|].
  exfalso. unfold one_of in Hop. cbn [existsb] in Hop. repeat (rewrite (proj2 (Z.eqb_neq _ _)) in Hop by done). done.
Qed.

Lemma follows_amo : opcode d = OP_AMO -> follows (amo_legal (funct7 d / 4)) (exec_rv32a d).
Proof.
  intros Hop. unfold exec_rv32a. cbv zeta. rewrite Z.shiftr_div_pow2 by lia. change (2 ^ 2) with 4.
  destruct (amo_legal (funct7 d / 4)) eqn:El.
  { unfold follows. do 3 (apply no_error_bind; [tail|]; intros ?).
    destruct (proj2 (amo_table (funct7 d / 4) a1 a0) El) as [[v r] ->]. tail. }
  intros s Hs. rewrite !read_reg_run by (done || apply Hs).
  destruct (read_u32_law (mem s) (X (cpu s) (rs1 d)) (host s) (mok_mem _ Hs)) as (v & h & E & _);
    [apply X_ok; [apply Hs|done]|].
  unfold mbind at 1, EM_bind at 1, mread. rewrite E. exists h. split; [|done].
  destruct (amo_op _ _ _) eqn:Eo; [|done].
  assert (Hl : amo_legal (funct7 d / 4) = true) by (apply (amo_table _ v (X (cpu s) (rs2 d))); rewrite Eo; eauto).
  by rewrite El in Hl.
Qed.

Lemma follows_fp_mem :
  one_of [OP_LOAD_FP; OP_STORE_FP] (opcode d) = true ->
  follows (one_of [2; 3] (funct3 d)) (if opcode d =? OP_LOAD_FP then exec_load_fp d else exec_store_fp d).
Proof.
  intros _. unfold exec_load_fp, exec_store_fp, one_of. cbn [existsb]. destruct (opcode d =? OP_LOAD_FP); reads.
  all: destruct (funct3 d =? 2); [cbn [orb]; apply follows_true; tail|].
  all: destruct (funct3 d =? 3); cbn [orb]; [apply follows_true; tail|apply follows_illegal].
Qed.

Lemma follows_madd : one_of [OP_MADD; OP_MSUB; OP_NMSUB; OP_NMADD] (opcode d) = true ->
  follows (one_of [0; 1] (slice (raw d) 25 2)) (exec_madd d).
Proof.
  intros Hop. unfold exec_madd. cbv zeta.
  assert (E : u8 (shift_then_mask (raw d) 25 3) = slice (raw d) 25 2).
  { unfold shift_then_mask. change 3 with (Z.ones 2). rewrite <- slice_bits by lia. apply wrap_small.
    unfold slice, is_u. pose proof (Z.mod_pos_bound (raw d / 2 ^ 25) (2 ^ 2)). lia. }
  rewrite E. unfold one_of in *. cbn [existsb] in *.
  assert (Hv : forall f1 f2 f3 g a b c, is_Some (madd_value (opcode d) f1 f2 f3 g a b c)).
  { intros. unfold madd_value. destruct (opcode d =? OP_MADD), (opcode d =? OP_MSUB), (opcode d =? OP_NMSUB), (opcode d =? OP_NMADD); eauto. done. }
  destruct (slice (raw d) 25 2 =? 0); [|destruct (slice (raw d) 25 2 =? 1)]; cbn [orb]; [| |apply follows_illegal].
  all: reads; apply follows_or_illegal; [by split|tail].
Qed.

(** One test of the chain on [funct5]: the entry of the table that it decides. *)
Ltac eval_one_of :=
  repeat match goal with
  | |- context [one_of ?l ?k] =>
    is_Z_lit k; let v := eval vm_compute in (one_of l k) in change (one_of l k) with v
  end; cbv iota; decide_consts.
Ltac entry f5 :=
  match goal with |- context [if f5 =? ?k then _ else _] =>
    destruct (Z.eqb_spec f5 k) as [->|]; [unfold fp_entry; eval_one_of|]
  end.

Lemma fp_entry_none fmt f5 f3 :
  one_of [0x00; 0x01; 0x02; 0x03; 0x08; 0x0B; 0x18; 0x1A; 0x1C; 0x04; 0x14; 0x05] f5 = false ->
  f5 <> 0x1E \/ fmt <> 0 -> fp_entry fmt f5 f3 = false.
Proof.
  intros Hf H1E. unfold fp_entry, one_of in *. cbn [existsb] in *.
  repeat (apply orb_false_elim in Hf as [-> Hf]). cbn [orb].
  destruct (Z.eqb_spec f5 0x1E); [|done]. apply Z.eqb_neq. by destruct H1E.
Qed.

Ltac no_entry := unfold one_of; cbn [existsb]; repeat (rewrite (proj2 (Z.eqb_neq _ _)) by done); done.

Lemma follows_single f5 : follows (fp_entry 0 f5 (funct3 d)) (op_fp_single d f5).
Proof.
  unfold op_fp_single, f32_binop. do 5 (entry f5; [apply follows_true; tail|]).
  entry f5; [reads; apply follows_or_illegal; [apply sgnj_table|tail]|].
  entry f5; [reads; apply follows_or_illegal; [apply minmax_table|tail]|].
  do 4 (entry f5; [apply follows_true; tail|]).
  entry f5; [reads; apply follows_or_illegal; [apply compare_table|tail]|].
  entry f5; [apply follows_true; tail|].
  rewrite fp_entry_none; [apply follows_illegal|no_entry|by left].
Qed.

Lemma follows_double f5 : follows (fp_entry 1 f5 (funct3 d)) (op_fp_double d f5).
Proof.
  unfold op_fp_double, f64_binop. do 5 (entry f5; [apply follows_true; tail|]).
  entry f5; [reads; apply follows_or_illegal; [apply sgnj_table|tail]|].
  entry f5; [reads; apply follows_or_illegal; [apply minmax_table|tail]|].
  do 4 (entry f5; [apply follows_true; tail|]).
  entry f5; [reads; apply follows_or_illegal; [apply compare_table|tail]|].
  rewrite fp_entry_none; [apply follows_illegal|no_entry|by right].
Qed.

Lemma follows_op_fp : follows (op_fp_legal (funct7 d mod 4) (funct7 d / 4) (funct3 d)) (exec_op_fp d).
Proof.
  unfold exec_op_fp. cbv zeta. change 0x3 with (Z.ones 2). rewrite Z.land_ones, Z.shiftr_div_pow2 by lia.
  change (2 ^ 2) with 4. unfold op_fp_legal. generalize (funct7 d / 4). intros f5.
  unfold one_of. cbn [existsb].
  destruct (Z.eqb_spec (funct7 d mod 4) 0) as [->|]; [|destruct (Z.eqb_spec (funct7 d mod 4) 1) as [->|]];
    cbn [orb andb]; [apply follows_single|apply follows_double|apply follows_illegal].
Qed.

(** ** System calls *)

Lemma builtin_error a7 a0 a1 a2 a3 s :
  match handle_ecall_builtin (H:=H) (Mem:=Mem) a7 a0 a1 a2 a3 s with
  | Err u s' => u = {| sys_num := a7; sys_a0 := a0; sys_a1 := a1; sys_a2 := a2; sys_a3 := a3 |} /\ s' = s
  | _ => True
  end.
Proof.
  assert (Hne : forall m : EM (Machine H Mem) UnknownSyscall unit, no_error m ->
    match m s with Err u s' => u = {| sys_num := a7; sys_a0 := a0; sys_a1 := a1; sys_a2 := a2; sys_a3 := a3 |} /\ s' = s
    | _ => True end).
  { intros m Hm. specialize (Hm s). by destruct (m s). }
  unfold handle_ecall_builtin. destruct (_ || _ || _); [by apply Hne|].
  destruct (_ || _); [apply Hne; unfold sys_write; no_error; done|].
  destruct (_ || _).
  { apply Hne. unfold sys_read. cbv zeta. apply no_error_bind; [intros st; unfold hcall; by destruct (read_from_stdin _ _)|].
    intros [n bs]. no_error. intros st. unfold em_index. by destruct (slice_to _ _). }
  destruct (_ || _); [apply Hne; unfold sys_brk; no_error; done|].
  destruct (_ || _ || _); [apply Hne; no_error|done].
Qed.

Lemma ecall_error s :
  cpu_ok (cpu s) ->
  match handle_ecall (H:=H) (Mem:=Mem) s with Err u _ => sys_num u = X (cpu s) A7 | _ => True end.
Proof.
  intros Hc. unfold handle_ecall. rewrite !read_reg_run by done. rewrite get_cpu_run.
  assert (Hb : forall s', match handle_ecall_builtin (H:=H) (Mem:=Mem) (X (cpu s) A7) (X (cpu s) A0) (X (cpu s) A1) (X (cpu s) A2) (X (cpu s) A3) s' with
    Err u _ => sys_num u = X (cpu s) A7 | _ => True end).
  { intros s'. pose proof (builtin_error (X (cpu s) A7) (X (cpu s) A0) (X (cpu s) A1) (X (cpu s) A2) (X (cpu s) A3) s') as E.
    destruct (handle_ecall_builtin _ _ _ _ _ s'); [done| |done]. by destruct E as [-> _]. }
  destruct (has_custom_syscalls (cpu s)); [|apply Hb].
  unfold mbind, EM_bind, hcall. destruct (custom_syscall _ _ _ _ _ _) as [r h].
  destruct (negb (r =? 0)); [|apply Hb].
  pose proof (no_error_write_reg (E:=UnknownSyscall) (H:=H) (Mem:=Mem) A0 (u32 r) (Build_Machine (cpu s) (mem s) h)) as E.
  by destruct (write_reg _ _ _).
Qed.

Lemma csr_error npc s :
  cpu_ok (cpu s) -> opcode d = OP_SYSTEM ->
  match exec_csr d npc s with
  | Err e _ => is_ecall d = true /\ exists u, e = UnknownSyscallError u /\ sys_num u = X (cpu s) A7
  | _ => True
  end.
Proof.
  intros Hc Hop. unfold exec_csr, is_ecall. rewrite Hop, Z.shiftr_div_pow2 by lia.
  destruct (funct3 d =? 0); [destruct (raw d / 2 ^ 20 =? 0)|].
  - unfold mbind, EM_bind, em_map_err. pose proof (ecall_error s Hc) as E.
    destruct (handle_ecall s); [done| |done]. split; [done|]. eauto.
  - assert (E : no_error (if raw d / 2 ^ 20 =? 1 then modify_cpu (with_halted true);; mret npc
      else if raw d / 2 ^ 20 =? 0x302 then exec_mret npc else mret npc : M Z)) by (unfold exec_mret; no_error).
    specialize (E s). by destruct ((if _ =? 1 then _ else _ : M Z) s).
  - match goal with |- match ?m s with _ => _ end => assert (E : no_error m) by no_error; specialize (E s); by destruct (m s) end.
Qed.

(** ** The verdict *)

(** What [dispatch32] gives for each verdict. *)
Definition obeys (v : verdict) (s : Machine H Mem) (r : outcome (Machine H Mem) CpuError Z) : Prop :=
  match v with
  | Executes =>
    match r with
    | Err e _ => is_ecall d = true /\ exists u, e = UnknownSyscallError u /\ sys_num u = X (cpu s) A7
    | _ => True
    end
  | Illegal => refused s r
  | BadOpcode => r = Err (UnknownOpcode (pc (cpu s)) (opcode d)) s
  end.

Lemma obeys_follows b (m : M Z) npc s :
  machine_ok s -> follows b m -> dispatch32 d npc = m -> verdict32 d = ok_if b ->
  obeys (verdict32 d) s (dispatch32 d npc s).
Proof.
  intros Hs Hm -> ->. destruct b; cbn [ok_if obeys]; [|by apply Hm]. specialize (Hm s). by destruct (m s).
Qed.

Ltac known Hop := unfold verdict32, dispatch32, exec_rv32fd; rewrite Hop; reflexivity.

Lemma dispatch_verdict npc s : machine_ok s -> obeys (verdict32 d) s (dispatch32 d npc s).
Proof.
  intros Hs. pose proof (fun b m => obeys_follows b m npc s Hs) as Hgo.
  destruct (one_of [OP_LUI; OP_AUIPC; OP_JAL; OP_JALR; OP_IMM; OP_MISC_MEM] (opcode d)) eqn:E0.
  { apply (Hgo true (exec_rv32i d npc)); [by apply follows_rv32i|..].
    all: unfold one_of in E0; cbn [existsb] in E0.
    all: repeat (apply orb_prop in E0 as [Hop%Z.eqb_eq|E0]; [known Hop|]); done. }
  destruct (decide (opcode d = OP_SYSTEM)) as [Hop|?].
  { replace (verdict32 d) with Executes by (symmetry; known Hop).
    replace (dispatch32 d npc) with (exec_csr (H:=H) (Mem:=Mem) d npc) by (symmetry; known Hop).
    apply csr_error; [apply Hs|done]. }
  destruct (decide (opcode d = OP_BRANCH)) as [Hop|?]; [eapply Hgo; [by apply follows_branch|known Hop..]|].
  destruct (decide (opcode d = OP_LOAD)) as [Hop|?]; [eapply Hgo; [by apply follows_load|known Hop..]|].
  destruct (decide (opcode d = OP_STORE)) as [Hop|?]; [eapply Hgo; [by apply follows_store|known Hop..]|].
  destruct (decide (opcode d = OP_OP)) as [Hop|?]; [eapply Hgo; [by apply follows_op|done|known Hop]|].
  destruct (decide (opcode d = OP_AMO)) as [Hop|?].
  { eapply Hgo; [by apply follows_then, follows_amo|known Hop..]. }
  destruct (one_of [OP_LOAD_FP; OP_STORE_FP] (opcode d)) eqn:Em.
  { eapply Hgo; [by apply follows_then, follows_fp_mem|..].
    all: unfold one_of in Em; cbn [existsb] in Em.
    all: repeat (apply orb_prop in Em as [Hop%Z.eqb_eq|Em]; [known Hop|]); done. }
  destruct (decide (opcode d = OP_OP_FP)) as [Hop|?].
  { eapply Hgo; [by apply follows_then, follows_op_fp|known Hop..]. }
  destruct (one_of [OP_MADD; OP_MSUB; OP_NMSUB; OP_NMADD] (opcode d)) eqn:Ea.
  { eapply Hgo; [by apply follows_then, follows_madd|..].
    all: unfold one_of in Ea; cbn [existsb] in Ea.
    all: repeat (apply orb_prop in Ea as [Hop%Z.eqb_eq|Ea]; [known Hop|]); done. }
  assert (Hn : forall k, opcode d <> k -> (opcode d =? k) = false) by (intros; by apply Z.eqb_neq).
  unfold one_of in *. cbn [existsb] in *.
  unfold verdict32, dispatch32, is_rv32i_opcode, is_rv32fd_opcode, one_of. cbn [existsb]. cbv zeta.
  repeat (apply orb_false_elim in E0 as [-> E0]). repeat (apply orb_false_elim in Em as [-> Em]).
  repeat (apply orb_false_elim in Ea as [-> Ea]). by rewrite !Hn by done.
Qed.
End Verdicts.

Section Refusal.
Context {H Mem : Type} `{HostOps H} `{!HostReads H} `{!MemoryOps H Mem} `{!MemoryLaws H Mem}.
Context `{BuildProfile} `{FloatEnv}.

(** C7: Exactly the illegal instruction words are refused.  For every 32-bit word the
    table [verdict32] decides: an unknown opcode is the error [UnknownOpcode], a word
    whose function codes name no instruction is [IllegalInstruction], both with the
    word's address and with registers, memory and host untouched (a reserved atomic
    operation reads its word first, which a device can notice); every other word
    executes, and its only possible error is that of an [ecall] whose number, in
    [a7], nobody knows. *)
Theorem illegal_exact (s : Machine H Mem) w :
  overflow_checks = false -> machine_ok s -> is_u 32 w ->
  let d := decode32 w in
  match verdict32 d with
  | Executes =>
    match execute_inst32 w s with
    | Ok _ _ => True
    | Err e _ => is_ecall d = true /\ exists u, e = UnknownSyscallError u /\ sys_num u = X (cpu s) A7
    | Panic => False
    end
  | Illegal =>
    exists h, execute_inst32 w s = Err (IllegalInstruction (pc (cpu s)) w) (Build_Machine (cpu s) (mem s) h)
      /\ (opcode d <> OP_AMO -> h = host s)
  | BadOpcode => execute_inst32 w s = Err (UnknownOpcode (pc (cpu s)) (opcode d)) s
  end.
Proof.
  intros Hr Hs Hw d. pose proof (decode32_ok w Hw) as Hd.
  assert (Hf3 : is_u 3 (funct3 d)) by (destruct (decode32_bounds w Hw) as (? & ? & ? & ? & ? & ? & ?); done).
  pose proof (dispatch_verdict d Hd Hf3 (wrapping_add (pc (cpu s)) 4) s Hs) as Hv.
  pose proof (execute_inst32_triple w (cpu s) Hr Hw s (good_self s Hs)) as Hsafe.
  unfold execute_inst32 in *. cbv zeta in *. rewrite get_cpu_run in *. fold d in Hsafe |- *.
  unfold mbind, EM_bind in *. destruct (verdict32 d); cbn [obeys] in Hv.
  - by destruct (dispatch32 d _ s).
  - destruct Hv as (h & -> & Hh). by exists h.
  - by rewrite Hv.
Qed.
End Refusal.

(** ** The hypotheses hold *)

#[local] Existing Instance release_profile.
#[local] Existing Instance default_float_env.

Lemma fresh_ok : machine_ok fresh_machine.
Proof. split; [apply Cpu_new_ok|apply Memory_new_ok]. Qed.

(** [and x0, x0, x0] with [funct7 = 2] is no instruction. *)
Lemma illegal_exact_witness :
  verdict32 (decode32 0x04007033) = Illegal
  /\ execute_inst32 0x04007033 fresh_machine = Err (IllegalInstruction 0 0x04007033) fresh_machine.
Proof.
  split; [vm_compute; reflexivity|].
  destruct (illegal_exact fresh_machine 0x04007033 eq_refl fresh_ok
    ltac:(unfold is_u; lia)) as (h & E & Hh).
  rewrite (Hh ltac:(vm_compute; discriminate)) in E. exact E.
Defined.
