(* ===== verification/Profile.v ===== *)
(** Builds with and without overflow checks.

    A development build panics where a plain [+] overflows, the release build wraps.
    Among the instructions only [fld] and [fsd] have such an addition (the address of
    the second word), and the run loops have one more, the step counter.  So the two
    builds compute the same, or the checked one panics. *)

From S2P Require Import Prelude Bits Inst Fmt Host Memory MemoryProps Float Cpu Syscall Exec Rvc Run Safe SafeExec RunProps IsaSpec Errors.

(** [fld] or [fsd] whose second word is past the end of the address space. *)
Definition wraps (d : DecodedInst32) (c : Cpu) : bool :=
  (funct3 d =? 3)
  && ((opcode d =? OP_LOAD_FP) && (2 ^ 32 <=? (X c (rs1 d) + i_imm d) mod 2 ^ 32 + 4)
      || (opcode d =? OP_STORE_FP) && (2 ^ 32 <=? (X c (rs1 d) + s_imm d) mod 2 ^ 32 + 4)).

(** ** Equal, or a panic *)

Section Below.
Context {S E : Type}.

Definition below {A} (m n : EM S E A) : Prop := forall s, m s = Panic \/ m s = n s.

Lemma below_refl {A} (m : EM S E A) : below m m.
Proof. by right. Qed.
Lemma below_bind {A B} (m n : EM S E A) (f g : A -> EM S E B) :
  below m n -> (forall a, below (f a) (g a)) -> below (m ≫= f) (n ≫= g).
Proof.
  intros Hm Hf s. unfold mbind, EM_bind. destruct (Hm s) as [->| ->]; [by left|].
  destruct (n s); [apply Hf|by right..].
Qed.
Lemma below_bind_r {A B} (m : EM S E A) (f g : A -> EM S E B) :
  (forall a, below (f a) (g a)) -> below (m ≫= f) (m ≫= g).
Proof. intros. by apply below_bind; [apply below_refl|]. Qed.
Lemma below_if {A} (b : bool) (m n m' n' : EM S E A) :
  below m m' -> below n n' -> below (if b then m else n) (if b then m' else n').
Proof. by destruct b. Qed.
Lemma below_result {E' A} (m n : EM S E' A) :
  (forall s, m s = Panic \/ m s = n s) -> below (em_result m) (em_result n).
Proof. intros Hm s. unfold em_result. destruct (Hm s) as [->| ->]; [by left|by right]. Qed.

Lemma below_loop {A R} (f g : A -> EM S E (A + R)) n a :
  (forall a, below (f a) (g a)) -> below (em_loop f n a) (em_loop g n a).
Proof.
  intros Hf s. unfold em_loop. rewrite !loop_spec. revert a s.
  induction (Pos.to_nat n) as [|k IH]; intros a s; [by left|].
  cbn [loop_nat]. unfold em_loop_body at 1 3 5. cbn [fst snd].
  destruct (Hf a s) as [->| ->]; [by left|]. destruct (g a s) as [[a'|r] s'|e s'|]; [apply IH|by right..].
Qed.
End Below.

Section Profiles.
Context {H Mem : Type} `{HostOps H} `{!HostReads H} `{!MemoryOps H Mem} `{!MemoryLaws H Mem} `{FloatEnv}.
Abbreviation checked := debug_profile.
Abbreviation plain := release_profile.

Lemma below_add {E} w a b :
  below (S:=Machine H Mem) (E:=E) (checked_add (H2:=checked) w a b) (checked_add (H2:=plain) w a b).
Proof. intros s. unfold checked_add. cbn. destruct (_ <=? _); [by left|by right]. Qed.

(** ** One instruction *)

Lemma add_4 {A} a s (f : Z -> EM (Machine H Mem) CpuError A) :
  (checked_add (H2:=checked) 32 a 4 ≫= f) s
  = if 2 ^ 32 <=? a + 4 then Panic else (checked_add (H2:=plain) 32 a 4 ≫= f) s.
Proof. unfold checked_add, mbind, EM_bind. cbn [overflow_checks debug_profile release_profile andb]. by destruct (_ <=? _). Qed.

Context (d : DecodedInst32) (Hd : inst_ok d).

Lemma load_fp_profile s :
  machine_ok s ->
  exec_load_fp (H2:=checked) d s
  = if (funct3 d =? 3) && (2 ^ 32 <=? (X (cpu s) (rs1 d) + i_imm d) mod 2 ^ 32 + 4) then Panic
    else exec_load_fp (H2:=plain) d s.
Proof.
  intros Hs. unfold exec_load_fp. rewrite !read_reg_run by (apply Hs || apply Hd). cbv zeta.
  rewrite wrapping_add_mod. set (a := (X (cpu s) (rs1 d) + i_imm d) mod 2 ^ 32).
  destruct (Z.eqb_spec (funct3 d) 2) as [->|]; [done|]. destruct (funct3 d =? 3); [|done]. cbn [andb].
  destruct (read_u32_law (mem s) a (host s) (mok_mem _ Hs)) as (v & h & E & _); [by apply wrap_is_u|].
  do 2 rewrite (em_bind_ok (mread (fun m => read_u32 m a)) _ _ v (Build_Machine (cpu s) (mem s) h)) by (unfold mread; by rewrite E).
  apply add_4.
Qed.

Lemma store_fp_profile s :
  machine_ok s ->
  exec_store_fp (H2:=checked) d s
  = if (funct3 d =? 3) && (2 ^ 32 <=? (X (cpu s) (rs1 d) + s_imm d) mod 2 ^ 32 + 4) then Panic
    else exec_store_fp (H2:=plain) d s.
Proof.
  intros Hs. unfold exec_store_fp. rewrite !read_reg_run by (apply Hs || apply Hd). cbv zeta.
  rewrite wrapping_add_mod. set (a := (X (cpu s) (rs1 d) + s_imm d) mod 2 ^ 32).
  destruct (Z.eqb_spec (funct3 d) 2) as [->|]; [done|]. destruct (funct3 d =? 3); [|done]. cbn [andb].
  destruct (idx_ok (fregs (cpu s)) 64 (rs2 d)) as (b & Eb & _); [apply Hs..|apply Hd|].
  do 2 rewrite (em_bind_ok (read_f64 (rs2 d)) _ _ b s) by (unfold read_f64, try_gets, Cpu_read_f64; by rewrite Eb).
  destruct (write_u32_law (mem s) a (u32 b) (host s) (mok_mem _ Hs)) as (m & h & E & _); [by apply wrap_is_u..|].
  do 2 rewrite (em_bind_ok (mwrite (fun m => write_u32 m a (u32 b))) _ _ tt (Build_Machine (cpu s) m h)) by (unfold mwrite; by rewrite E).
  apply add_4.
Qed.

Lemma dispatch_profile npc s :
  machine_ok s ->
  dispatch32 (H2:=checked) d npc s
  = if wraps d (cpu s) then Panic else dispatch32 (H2:=plain) d npc s.
Proof.
  intros Hs. unfold wraps.
  destruct (decide (opcode d = OP_LOAD_FP)) as [Hop|Hl]; [|destruct (decide (opcode d = OP_STORE_FP)) as [Hop|Hst]].
  - rewrite Hop. decide_consts. cbn [andb orb]. rewrite orb_false_r.
    unfold dispatch32, exec_rv32fd, is_rv32i_opcode, is_rv32fd_opcode. rewrite Hop. decide_consts. cbn [orb].
    unfold mbind, EM_bind. rewrite load_fp_profile by done. by destruct (_ && _).
  - rewrite Hop. decide_consts. cbn [andb orb].
    unfold dispatch32, exec_rv32fd, is_rv32i_opcode, is_rv32fd_opcode. rewrite Hop. decide_consts. cbn [orb].
    unfold mbind, EM_bind. rewrite store_fp_profile by done. by destruct (_ && _).
  - rewrite (proj2 (Z.eqb_neq _ _) Hl), (proj2 (Z.eqb_neq _ _) Hst). cbn [andb orb]. rewrite andb_false_r.
    unfold dispatch32, exec_rv32fd.
    by rewrite (proj2 (Z.eqb_neq _ _) Hl), (proj2 (Z.eqb_neq _ _) Hst).
Qed.
End Profiles.

(** ** The run loops *)

Ltac below :=
  repeat match goal with
  | |- below (checked_add _ _ _) (checked_add _ _ _) => apply below_add
  | |- below (_ ≫= _) (_ ≫= _) => apply below_bind; [|intros ?]
  | |- below (if _ then _ else _) (if _ then _ else _) => apply below_if
  | |- below (match ?x with (_, _) => _ end) _ => destruct x
  | |- below (match ?x with inl _ => _ | inr _ => _ end) _ => destruct x
  | |- below (match ?x with Some _ => _ | None => _ end) _ => destruct x
  | |- below (em_result _) (em_result _) => apply below_result
  | |- below ?m ?m => apply below_refl
  | |- below _ _ => progress cbv zeta
  end.

Section Loops.
Context {H Mem : Type} `{HostOps H} `{!MemoryOps H Mem} `{FloatEnv}.
Abbreviation checked := debug_profile.
Abbreviation plain := release_profile.
Abbreviation Mach := (Machine H Mem).

Lemma below_execute w : below (S:=Mach) (execute_inst32 (H2:=checked) w) (execute_inst32 (H2:=plain) w).
Proof.
  unfold execute_inst32, dispatch32, exec_rv32fd, exec_load_fp, exec_store_fp. below.
Qed.

Lemma below_fetch p : below (S:=Mach) (fetch_execute (H2:=checked) p) (fetch_execute (H2:=plain) p).
Proof. unfold fetch_execute. below; [by right|apply below_execute]. Qed.

Lemma below_count : below (S:=Mach) (count_step (H2:=checked)) (count_step (H2:=plain)).
Proof. unfold count_step. below. Qed.

Lemma below_step : below (S:=Mach) (step_instruction (H2:=checked)) (step_instruction (H2:=plain)).
Proof. unfold step_instruction. below; [apply below_fetch|apply below_count]. Qed.

Lemma below_slice b : below (S:=Mach) (run_slice (H2:=checked) b) (run_slice (H2:=plain) b).
Proof.
  unfold run_slice. below. apply below_loop. intros [executed skip]. unfold outer_step. below.
  unfold inner_loop. apply below_loop. intros [n skip']. unfold inner_step. below; [apply below_fetch|apply below_count].
Qed.

Lemma below_run k : below (S:=Mach) (run (H2:=checked) k) (run (H2:=plain) k).
Proof.
  induction k as [|k IH]; cbn [run]; [apply below_refl|]. apply below_bind; [apply below_slice|].
  intros o. destruct (status o); (apply IH || apply below_refl).
Qed.
End Loops.

Section Overflow.
Context {H Mem : Type} `{HostOps H} `{!HostReads H} `{!MemoryOps H Mem} `{!MemoryLaws H Mem} `{FloatEnv}.

(** C22: Overflow checks never change a result.  In a build with overflow checks an
    instruction computes exactly what it computes in the release build, except that
    it panics if it is an [fld] or [fsd] whose second word lies past the end of the
    32-bit address space; a step, a slice and a whole run either panic or leave
    exactly the machine and the outcome of the release build. *)
Theorem overflow_profile (s : Machine H Mem) w budget k :
  machine_ok s -> is_u 32 w ->
  execute_inst32 (H2:=debug_profile) w s
  = (if wraps (decode32 w) (cpu s) then Panic else execute_inst32 (H2:=release_profile) w s)
  /\ (step_instruction (H2:=debug_profile) s = Panic
      \/ step_instruction (H2:=debug_profile) s = step_instruction (H2:=release_profile) s)
  /\ (run_slice (H2:=debug_profile) budget s = Panic
      \/ run_slice (H2:=debug_profile) budget s = run_slice (H2:=release_profile) budget s)
  /\ (run (H2:=debug_profile) k s = Panic
      \/ run (H2:=debug_profile) k s = run (H2:=release_profile) k s).
Proof.
  intros Hs Hw. split_and!; [|apply below_step|apply below_slice|apply below_run].
  unfold execute_inst32. cbv zeta. rewrite !get_cpu_run. unfold mbind, EM_bind.
  rewrite dispatch_profile by (done || by apply decode32_ok). by destruct (wraps _ _).
Qed.
End Overflow.

(** ** The hypotheses hold *)

#[local] Existing Instance default_float_env.

(** [fld f4, -4(x0)] reaches past the end, [fld f4, -8(x0)] does not. *)
Lemma overflow_profile_witness :
  execute_inst32 (H2:=debug_profile) (encode32 (FmtI OP_LOAD_FP 4 3 0 (-4))) fresh_machine = Panic
  /\ execute_inst32 (H2:=debug_profile) (encode32 (FmtI OP_LOAD_FP 4 3 0 (-8))) fresh_machine
     = execute_inst32 (H2:=release_profile) (encode32 (FmtI OP_LOAD_FP 4 3 0 (-8))) fresh_machine.
Proof.
  split.
  - exact (proj1 (overflow_profile fresh_machine (encode32 (FmtI OP_LOAD_FP 4 3 0 (-4))) 1 1 fresh_ok
      ltac:(vm_compute; split; [discriminate|reflexivity]))).
  - exact (proj1 (overflow_profile fresh_machine (encode32 (FmtI OP_LOAD_FP 4 3 0 (-8))) 1 1 fresh_ok
      ltac:(vm_compute; split; [discriminate|reflexivity]))).
Defined.
