(* ===== verification/Cli.v ===== *)
(** The argument parser: [SimConfig] of [src/src/cli.rs].

    A Rust string is its UTF-8 bytes.  [usize] has the width of the target, 32 bits
    in the browser build and 64 on a native one: the class [Target]. *)

From S2P Require Import Prelude Bits Fmt.
From Stdlib Require Import Ascii.

Class Target := usize_bits : Z.
Definition wasm32 : Target := 32.
Definition native64 : Target := 64.

(** ** String operations of the standard library *)

Fixpoint strip_prefix (p s : string) : option string :=
  match p, s with
  | EmptyString, _ => Some s
  | String c p, String d s => if Ascii.eqb c d then strip_prefix p s else None
  | String _ _, EmptyString => None
  end.

Definition starts_with (p s : string) : bool :=
  match strip_prefix p s with Some _ => true | None => false end.

(** [trim_start_matches]: removes the non-empty prefix [p] as often as it occurs. *)
Fixpoint trim_start_matches_fuel (fuel : nat) (p s : string) : string :=
  match fuel with
  | O => s
  | S fuel =>
    match strip_prefix p s with Some s' => trim_start_matches_fuel fuel p s' | None => s end
  end.
Definition trim_start_matches (p s : string) : string :=
  trim_start_matches_fuel (String.length s) p s.

(** [split_once] at a character. *)
Fixpoint split_once (d : ascii) (s : string) : option (string * string) :=
  match s with
  | EmptyString => None
  | String c s =>
    if Ascii.eqb c d then Some (EmptyString, s)
    else '(a, b) ← split_once d s; Some (String c a, b)
  end.

(** The encodings of the characters with the Unicode property [White_Space]. *)
Definition whitespace : list (list Z) :=
  map (fun b => [b]) [0x09; 0x0A; 0x0B; 0x0C; 0x0D; 0x20]
  ++ [[0xC2; 0x85]; [0xC2; 0xA0]; [0xE1; 0x9A; 0x80]]
  ++ map (fun b => [0xE2; 0x80; b]) (seqZ 0x80 11)
  ++ [[0xE2; 0x80; 0xA8]; [0xE2; 0x80; 0xA9]; [0xE2; 0x80; 0xAF]; [0xE2; 0x81; 0x9F];
      [0xE3; 0x80; 0x80]].

Fixpoint strip_bytes (p s : list Z) : option (list Z) :=
  match p, s with
  | [], _ => Some s
  | c :: p, d :: s => if c =? d then strip_bytes p s else None
  | _ :: _, [] => None
  end.
Fixpoint strip_any (ps : list (list Z)) (s : list Z) : option (list Z) :=
  match ps with
  | [] => None
  | p :: ps => match strip_bytes p s with Some s' => Some s' | None => strip_any ps s end
  end.
Fixpoint trim_bytes (ps : list (list Z)) (fuel : nat) (s : list Z) : list Z :=
  match fuel with
  | O => s
  | S fuel => match strip_any ps s with Some s' => trim_bytes ps fuel s' | None => s end
  end.

Fixpoint string_to_bytes (s : string) : list Z :=
  match s with
  | EmptyString => []
  | String c s => Z.of_nat (nat_of_ascii c) :: string_to_bytes s
  end.

(** [str::trim].  An encoding starts with a lead byte, so it is a suffix of the bytes
    only as the last character: the end is trimmed on the reversed bytes. *)
Definition trim (s : string) : string :=
  let bs := string_to_bytes s in
  let bs := trim_bytes whitespace (length bs) bs in
  let bs := rev (trim_bytes (map (@rev Z) whitespace) (length bs) (rev bs)) in
  bytes_to_string bs.

(** ** [SimConfig] *)

Record SimConfig := {
  binary_path : option string;
  isa_string : string;
  register_inits : list (Z * Z);
  is_interactive : bool;
  is_newlib : bool
}.

Definition SimConfig_default : SimConfig := {|
  binary_path := None;
  isa_string := "";
  register_inits := [];
  is_interactive := false;
  is_newlib := false
|}.

Definition with_binary_path (p : string) (c : SimConfig) : SimConfig :=
  Build_SimConfig (Some p) (isa_string c) (register_inits c) (is_interactive c) (is_newlib c).
Definition with_isa_string (i : string) (c : SimConfig) : SimConfig :=
  Build_SimConfig (binary_path c) i (register_inits c) (is_interactive c) (is_newlib c).
Definition push_register_init (r : Z * Z) (c : SimConfig) : SimConfig :=
  Build_SimConfig (binary_path c) (isa_string c) (register_inits c ++ [r]) (is_interactive c)
    (is_newlib c).
Definition set_interactive (c : SimConfig) : SimConfig :=
  Build_SimConfig (binary_path c) (isa_string c) (register_inits c) true (is_newlib c).
Definition set_newlib (c : SimConfig) : SimConfig :=
  Build_SimConfig (binary_path c) (isa_string c) (register_inits c) (is_interactive c) true.

Section Parse.
Context `{Target}.

Definition is_one_of (names : list string) (s : string) : bool := bool_decide (s ∈ names).

(** The [match reg_name.trim()]: the names it lists, and [x] with a number. *)
Definition setreg_named (name : string) : option Z :=
  if is_one_of ["sp"; "x2"] name then Some 2
  else if is_one_of ["ra"; "x1"] name then Some 1
  else if is_one_of ["gp"; "x3"] name then Some 3
  else if is_one_of ["tp"; "x4"] name then Some 4
  else if is_one_of ["t0"; "x5"] name then Some 5
  else if is_one_of ["a0"; "x10"] name then Some 10
  else if is_one_of ["a1"; "x11"] name then Some 11
  else if is_one_of ["a7"; "x17"] name then Some 17
  else None.

Definition setreg_index (name : string) : Z :=
  match setreg_named name with
  | Some idx => idx
  | None =>
    match strip_prefix "x" name with
    | Some digits => default 0 (parse_radix 10 (2 ^ usize_bits) digits)
    | None => 0
    end
  end.

Definition setreg_value (val_clean : string) : Z :=
  match strip_prefix "0x" val_clean, strip_prefix "0X" val_clean with
  | Some digits, _ | None, Some digits => default 0 (parse_radix 16 (2 ^ 32) digits)
  | None, None => default 0 (parse_radix 10 (2 ^ 32) val_clean)
  end.

Definition parse_setreg (config : SimConfig) (kv : string) : SimConfig :=
  match split_once "=" kv with
  | Some (reg_name, val_str) =>
    let reg_idx := setreg_index (trim reg_name) in
    let val := setreg_value (trim val_str) in
    if (0 <? reg_idx) && (reg_idx <? 32) then push_register_init (reg_idx, val) config else config
  | None => config
  end.

(** The loop over the arguments: [args] are those from index [i] on. *)
Fixpoint parse_args_loop (args : list string) (config : SimConfig) : SimConfig :=
  match args with
  | [] => config
  | arg :: rest =>
    if is_one_of ["--newlib"; "-n"] arg then
      let config := set_newlib config in
      match rest with
      | next :: rest' =>
        if negb (starts_with "-" next) then parse_args_loop rest' (with_binary_path next config)
        else parse_args_loop rest config
      | [] => config
      end
    else if is_one_of ["--isa"] arg then
      match rest with
      | next :: rest' => parse_args_loop rest' (with_isa_string next config)
      | [] => config
      end
    else if starts_with "--setreg" arg then
      match strip_prefix "--setreg=" arg, rest with
      | Some kv, _ => parse_args_loop rest (parse_setreg config kv)
      | None, kv :: rest' => parse_args_loop rest' (parse_setreg config kv)
      | None, [] => config
      end
    else if is_one_of ["--interactive"] arg then parse_args_loop rest (set_interactive config)
    else if starts_with "-" arg && bool_decide (binary_path config = None) then
      let cleaned := trim_start_matches "working/" (trim_start_matches "/" arg) in
      parse_args_loop rest (with_binary_path cleaned config)
    else parse_args_loop rest config
  end.

Definition parse_args (args : list string) : SimConfig := parse_args_loop args SimConfig_default.
End Parse.

(** ** Strings of plain characters *)

Fixpoint str_forall (P : Z -> bool) (s : string) : bool :=
  match s with
  | EmptyString => true
  | String c s => P (Z.of_nat (nat_of_ascii c)) && str_forall P s
  end.

Definition printable (b : Z) : bool := in_range 0x21 0x7F b.
Definition decimal (b : Z) : bool := in_range 48 57 b.

Lemma str_forall_app P s t : str_forall P (s +:+ t) = str_forall P s && str_forall P t.
Proof. induction s as [|c s IH]; [done|]. change (String c s +:+ t) with (String c (s +:+ t)).
  cbn [str_forall]. by rewrite IH, andb_assoc. Qed.

Lemma str_forall_mono P Q s :
  (forall b, P b = true -> Q b = true) -> str_forall P s = true -> str_forall Q s = true.
Proof.
  intros HPQ. induction s as [|c s IH]; [done|]. cbn. intros [Hc Hs]%andb_prop.
  by rewrite HPQ, IH.
Qed.

Lemma digit_char_check base lo hi :
  base <= 16 ->
  forallb (fun d => (base <=? d) || in_range lo hi (Z.of_nat (nat_of_ascii (digit_char d)))) (seqZ 0 16) = true ->
  forall d, 0 <= d < base -> in_range lo hi (Z.of_nat (nat_of_ascii (digit_char d))) = true.
Proof.
  intros Hb Hall d Hd. rewrite forallb_forall in Hall. specialize (Hall d).
  destruct (Z.leb_spec base d); [lia|]. apply Hall, list_elem_of_In, elem_of_seqZ. lia.
Qed.

Lemma digits_forall (P : Z -> bool) base fuel z acc :
  2 <= base -> (forall d, 0 <= d < base -> P (Z.of_nat (nat_of_ascii (digit_char d))) = true) ->
  str_forall P acc = true -> str_forall P (digits base fuel z acc) = true.
Proof.
  intros Hb HP. revert z acc. induction fuel as [|fuel IH]; intros z acc Hacc; [done|].
  assert (Hm : 0 <= z mod base < base) by (apply Z.mod_pos_bound; lia).
  cbn [digits]. destruct (z / base =? 0); [|apply IH]; cbn; by rewrite HP, Hacc.
Qed.

Lemma fmt_dec_decimal z : str_forall decimal (fmt_radix 10 z) = true.
Proof. apply digits_forall; [lia|by apply digit_char_check|done]. Qed.
Lemma decimal_printable s : str_forall decimal s = true -> str_forall printable s = true.
Proof. apply str_forall_mono. unfold decimal, printable, in_range. intros b. lia. Qed.
Lemma fmt_hex_printable z : str_forall printable (fmt_radix 16 z) = true.
Proof. apply digits_forall; [lia|by apply digit_char_check|done]. Qed.

(** A printable string has no surrounding whitespace. *)
Definition heads_avoid (P : Z -> bool) (ps : list (list Z)) : bool :=
  forallb (fun p => match p with [] => false | c :: _ => negb (P c) end) ps.

Lemma strip_any_avoid P ps b s : heads_avoid P ps = true -> P b = true -> strip_any ps (b :: s) = None.
Proof.
  intros Hps Hb. induction ps as [|p ps IH]; [done|]. apply andb_prop in Hps as [Hp Hps].
  cbn [strip_any]. destruct p as [|c p]; [done|]. cbn [strip_bytes].
  destruct (Z.eqb_spec c b) as [->|]; [by rewrite Hb in Hp|]. by apply IH.
Qed.

Lemma strip_any_nil P ps : heads_avoid P ps = true -> strip_any ps [] = None.
Proof.
  intros Hps. induction ps as [|p ps IH]; [done|]. apply andb_prop in Hps as [Hp Hps].
  destruct p; [done|]. by apply IH.
Qed.

Lemma trim_bytes_avoid P ps fuel s :
  heads_avoid P ps = true -> Forall (fun b => P b = true) s -> trim_bytes ps fuel s = s.
Proof.
  intros Hps Hs. destruct fuel; [done|]. cbn [trim_bytes].
  destruct Hs as [|b s Hb _]; [by rewrite (strip_any_nil P)|by rewrite (strip_any_avoid P)].
Qed.

Lemma bytes_string_bytes s : bytes_to_string (string_to_bytes s) = s.
Proof.
  induction s as [|c s IH]; [done|]. cbn. rewrite IH. f_equal. unfold byte_char.
  by rewrite Nat2Z.id, ascii_nat_embedding.
Qed.

Lemma str_forall_bytes P s : str_forall P s = true -> Forall (fun b => P b = true) (string_to_bytes s).
Proof. induction s as [|c s IH]; [constructor|]. cbn. intros [? ?]%andb_prop. constructor; auto. Qed.

Lemma trim_printable s : str_forall printable s = true -> trim s = s.
Proof.
  intros Hs%str_forall_bytes. unfold trim. cbv zeta.
  rewrite !(trim_bytes_avoid printable whitespace) by done.
  rewrite (trim_bytes_avoid printable) by (done || by apply Forall_rev).
  by rewrite rev_involutive, bytes_string_bytes.
Qed.

Lemma strip_0x s c : c = "x"%char \/ c = "X"%char ->
  str_forall decimal s = true -> strip_prefix (String "0" (String c "")) s = None.
Proof.
  intros Hc Hs. destruct s as [|a [|b s]]; cbn [strip_prefix]; [done|by destruct (Ascii.eqb "0" a)|].
  destruct (Ascii.eqb "0" a); [|done]. destruct (Ascii.eqb_spec c b) as [->|]; [|done].
  cbn [str_forall] in Hs. apply andb_prop in Hs as [_ [Hb _]%andb_prop].
  by destruct Hc as [->| ->].
Qed.

Lemma split_once_app (d : ascii) a b :
  str_forall (fun c => negb (c =? Z.of_nat (nat_of_ascii d))) a = true ->
  split_once d (a +:+ String d b) = Some (a, b).
Proof.
  induction a as [|c a IH].
  - intros _. change ("" +:+ String d b) with (String d b). cbn [split_once]. by rewrite Ascii.eqb_refl.
  - change (String c a +:+ String d b) with (String c (a +:+ String d b)). cbn [str_forall split_once].
    intros [Hc Ha]%andb_prop. destruct (Ascii.eqb_spec c d) as [->|]; [by rewrite Z.eqb_refl in Hc|].
    by rewrite (IH Ha).
Qed.

(** ** Register options *)

Section Setreg.
Context `{Target}.

(** The values a parsed configuration can hold. *)
Definition init_ok (rv : Z * Z) : Prop := 1 <= rv.1 < 32 /\ is_u 32 rv.2.
Definition config_ok (c : SimConfig) : Prop := Forall init_ok (register_inits c).

Lemma parse_digits_bound base bound acc s v :
  0 <= acc < bound -> 0 <= base -> parse_digits base bound acc s = Some v -> 0 <= v < bound.
Proof.
  intros Hacc Hb. revert acc Hacc. induction s as [|c s IH]; intros acc Hacc; cbn; [intros [= <-]; lia|].
  destruct (digit_value c) as [d|] eqn:Ed; [|done].
  assert (0 <= d) by (unfold digit_value in Ed; repeat case_match; simplify_eq; lia).
  destruct (d <? base); [|done]. destruct (Z.ltb_spec (acc * base + d) bound); [|done].
  apply IH. nia.
Qed.

Lemma parse_radix_bound base bound s v :
  0 < bound -> 0 <= base -> parse_radix base bound s = Some v -> 0 <= v < bound.
Proof.
  intros Hbd Hb. unfold parse_radix. repeat case_match; try done;
    apply parse_digits_bound; lia.
Qed.

Lemma setreg_value_range s : is_u 32 (setreg_value s).
Proof.
  assert (Hd : forall base s', 0 <= base -> is_u 32 (default 0 (parse_radix base (2 ^ 32) s'))).
  { intros base s' Hb. destruct (parse_radix base (2 ^ 32) s') eqn:E; [|by unfold is_u; cbn].
    apply parse_radix_bound in E; [done|lia|lia]. }
  unfold setreg_value. repeat case_match; apply Hd; lia.
Qed.

Lemma parse_setreg_ok c kv : config_ok c -> config_ok (parse_setreg c kv).
Proof.
  intros Hc. unfold parse_setreg. destruct (split_once "=" kv) as [[a b]|]; [|done].
  destruct (_ && _) eqn:E; [|done]. apply andb_prop in E as [E1 E2].
  apply Forall_app. split; [done|]. constructor; [|done]. split; cbn; [lia|apply setreg_value_range].
Qed.

Lemma parse_args_loop_ok args c : config_ok c -> config_ok (parse_args_loop args c).
Proof.
  remember (length args) as n eqn:Hn. assert (Hl : (length args <= n)%nat) by lia. clear Hn.
  revert args c Hl. induction n as [|n IH]; intros args c Hl Hc; destruct args as [|arg rest];
    cbn [length] in Hl; try done; [lia|].
  cbn [parse_args_loop].
  repeat case_match; subst; cbn [length] in *; try done; apply IH;
    cbn [length]; (lia || done || by apply parse_setreg_ok).
Qed.

(** The text of a register option: the value in hexadecimal or decimal, joined to
    the option or as the next argument. *)
Record setreg_opt := { opt_hex : bool; opt_joined : bool; opt_reg : Z; opt_val : Z }.
Definition setreg_kv (o : setreg_opt) : string :=
  "x" +:+ fmt_dec (opt_reg o) +:+ "="
  +:+ (if opt_hex o then "0x" +:+ fmt_hex (opt_val o) else fmt_dec (opt_val o)).
Definition setreg_args (o : setreg_opt) : list string :=
  if opt_joined o then ["--setreg=" +:+ setreg_kv o] else ["--setreg"; setreg_kv o].
Definition opt_ok (o : setreg_opt) : Prop := 1 <= opt_reg o < 32 /\ is_u 32 (opt_val o).

Lemma string_app_assoc (a b c : string) : (a +:+ b) +:+ c = a +:+ b +:+ c.
Proof.
  induction a as [|x a IH]; [done|].
  change (String x ((a +:+ b) +:+ c) = String x (a +:+ b +:+ c)). by rewrite IH.
Qed.

(** The thirty-one register names. *)
Definition name_check (r : Z) : bool :=
  let name := "x" +:+ fmt_dec r in
  str_forall (fun c => negb (c =? 61)) name && bool_decide (trim name = name)
  && bool_decide (fmt_dec r = fmt_radix 10 r)
  && match setreg_named name with Some i => i =? r | None => true end.

Lemma setreg_name r :
  1 <= r < 32 -> 5 <= usize_bits ->
  let name := "x" +:+ fmt_dec r in
  str_forall (fun c => negb (c =? 61)) name = true /\ setreg_index (trim name) = r.
Proof.
  intros Hr Hw name.
  assert (Hn : forallb name_check (seqZ 1 31) = true) by by vm_compute.
  rewrite forallb_forall in Hn. specialize (Hn r ltac:(apply list_elem_of_In, elem_of_seqZ; lia)).
  unfold name_check in Hn. fold name in Hn. cbv zeta in Hn.
  apply andb_prop in Hn as [Hn Hnamed]. apply andb_prop in Hn as [Hn Hd%bool_decide_eq_true].
  apply andb_prop in Hn as [Heq Ht%bool_decide_eq_true]. split; [done|].
  rewrite Ht. unfold setreg_index. destruct (setreg_named name); [lia|].
  change (strip_prefix "x" name) with (Some (fmt_dec r)). rewrite Hd.
  pose proof (Z.pow_le_mono_r 2 5 usize_bits). rewrite parse_fmt_radix; [done|lia|unfold is_u; lia|lia].
Qed.

Lemma setreg_value_text hex v :
  is_u 32 v -> setreg_value (trim (if (hex : bool) then "0x" +:+ fmt_hex v else fmt_dec v)) = v.
Proof.
  intros Hv. assert (Hd : fmt_dec v = fmt_radix 10 v).
  { unfold fmt_dec. unfold is_u in Hv. destruct (Z.ltb_spec v 0); [lia|done]. }
  assert (H64 : is_u 64 v) by (unfold is_u in *; lia).
  destruct hex.
  - rewrite trim_printable by apply fmt_hex_printable. unfold setreg_value.
    change (strip_prefix "0x" ("0x" +:+ fmt_hex v)) with (Some (fmt_hex v)).
    unfold fmt_hex. rewrite parse_fmt_radix; [done|lia|done|apply Hv].
  - rewrite Hd. rewrite trim_printable by apply decimal_printable, fmt_dec_decimal.
    unfold setreg_value. rewrite !strip_0x by (auto || apply fmt_dec_decimal).
    rewrite parse_fmt_radix; [done|lia|done|apply Hv].
Qed.

Lemma parse_setreg_kv c o :
  5 <= usize_bits -> opt_ok o ->
  parse_setreg c (setreg_kv o) = push_register_init (opt_reg o, opt_val o) c.
Proof.
  intros Hw [Hr Hv]. unfold parse_setreg, setreg_kv.
  destruct (setreg_name (opt_reg o) Hr Hw) as [Hn Hi]. cbv zeta in Hi.
  rewrite <- string_app_assoc.
  match goal with |- context [?n +:+ "=" +:+ ?t] => change (n +:+ "=" +:+ t) with (n +:+ String "=" t) end.
  rewrite split_once_app by exact Hn. rewrite Hi, setreg_value_text by done.
  by destruct (Z.ltb_spec 0 (opt_reg o)), (Z.ltb_spec (opt_reg o) 32); try lia.
Qed.

Lemma parse_setreg_opts os rest c :
  5 <= usize_bits -> Forall opt_ok os ->
  parse_args_loop (concat (map setreg_args os) ++ rest) c
  = parse_args_loop rest (foldl (fun c o => push_register_init (opt_reg o, opt_val o) c) c os).
Proof.
  intros Hw Hos. revert c. induction Hos as [|o os Ho _ IH]; intros c; [done|].
  cbn [map concat foldl]. rewrite <- app_assoc. unfold setreg_args at 1.
  rewrite <- IH, <- (parse_setreg_kv c o) by done. by destruct (opt_joined o).
Qed.

Lemma foldl_register_inits os c :
  register_inits (foldl (fun c o => push_register_init (opt_reg o, opt_val o) c) c os)
  = (register_inits c ++ map (fun o => (opt_reg o, opt_val o)) os)%list.
Proof.
  revert c. induction os as [|o os IH]; intros c; cbn; [by rewrite app_nil_r|].
  rewrite IH. cbn [register_inits push_register_init]. by rewrite <- app_assoc.
Qed.

(** C40: Register options are parsed as written, and nothing else gets through.
    For any sequence of [--setreg xN=V] options for the registers 1 to 31, with
    32-bit values in decimal or [0x] hexadecimal, joined with [=] or as separate
    arguments, the configuration holds exactly those initial values, in order.
    Whatever the arguments, every initial value parsed is a 32-bit value for a
    register from 1 to 31: [x0] and names out of range are dropped. *)
Theorem setreg_parsed os args :
  5 <= usize_bits -> Forall opt_ok os ->
  register_inits (parse_args (concat (map setreg_args os))) = map (fun o => (opt_reg o, opt_val o)) os
  /\ config_ok (parse_args args).
Proof.
  intros Hw Hos. split.
  - unfold parse_args. rewrite <- (app_nil_r (concat _)), parse_setreg_opts by done.
    cbn [parse_args_loop]. by rewrite foldl_register_inits.
  - apply parse_args_loop_ok. constructor.
Qed.

(** A path given as a plain argument is not recorded: the last arm asks for a
    leading dash, so it never sees one, and the prefixes it strips cannot occur. *)
Lemma positional_ignored path :
  starts_with "-" path = false -> binary_path (parse_args [path]) = None.
Proof.
  intros Hp. unfold parse_args. cbn [parse_args_loop]. rewrite Hp.
  destruct (is_one_of ["--newlib"; "-n"] path); [done|]. destruct (is_one_of ["--isa"] path); [done|].
  assert (Hs : starts_with "--setreg" path = false).
  { unfold starts_with in *. destruct path as [|c path]; [done|]. cbn [strip_prefix] in *.
    by destruct (Ascii.eqb "-" c). }
  rewrite Hs. by destruct (is_one_of ["--interactive"] path).
Qed.
End Setreg.

(** ** The hypotheses hold *)

#[local] Existing Instance wasm32.

Lemma setreg_parsed_witness :
  register_inits (parse_args ["--setreg"; "x2=0x80000000"; "--setreg=x31=7"]) = [(2, 2147483648); (31, 7)].
Proof.
  exact (proj1 (@setreg_parsed wasm32 [Build_setreg_opt true false 2 2147483648; Build_setreg_opt false true 31 7] []
    ltac:(vm_compute; discriminate)
    ltac:(repeat constructor; vm_compute; (reflexivity || discriminate)))).
Defined.
