(* ===== verification/Disasm.v ===== *)
(** The disassembler: [src/src/disasm.rs]. *)

From S2P Require Import Prelude Bits Inst Fmt Host Memory.

Record DisassembledInst := {
  address : Z;
  opcode_hex : string;
  asm_text : string;
  is_compressed : bool;
  label : option string
}.

Definition reg_names : list string :=
  ["zero"; "ra"; "sp"; "gp"; "tp"; "t0"; "t1"; "t2"; "s0"; "s1"; "a0"; "a1"; "a2"; "a3"; "a4"; "a5";
   "a6"; "a7"; "s2"; "s3"; "s4"; "s5"; "s6"; "s7"; "s8"; "s9"; "s10"; "s11"; "t3"; "t4"; "t5"; "t6"].
Definition freg_names : list string :=
  ["ft0"; "ft1"; "ft2"; "ft3"; "ft4"; "ft5"; "ft6"; "ft7"; "fs0"; "fs1"; "fa0"; "fa1"; "fa2"; "fa3";
   "fa4"; "fa5"; "fa6"; "fa7"; "fs2"; "fs3"; "fs4"; "fs5"; "fs6"; "fs7"; "fs8"; "fs9"; "fs10"; "fs11";
   "ft8"; "ft9"; "ft10"; "ft11"].

Definition reg_name (reg : Z) : string := nth (Z.to_nat (reg .& 0x1f)) reg_names "unknown".
Definition freg_name (reg : Z) : string := nth (Z.to_nat (reg .& 0x1f)) freg_names "unknown".

(** [format!("0x{:x} <{}>", ...)]. *)
Definition format_target (addr : Z) (symbols : option (gmap Z string)) : string :=
  match syms ← symbols; syms !! addr with
  | Some name => "0x" +:+ fmt_hex addr +:+ " <" +:+ name +:+ ">"
  | None => "0x" +:+ fmt_hex addr
  end.

(** ["{} {}, {}"] and ["{} {}, {}, {}"] and ["{} {}, {}({})"]. *)
Definition text2 (op a b : string) : string := op +:+ " " +:+ a +:+ ", " +:+ b.
Definition text3 (op a b c : string) : string := op +:+ " " +:+ a +:+ ", " +:+ b +:+ ", " +:+ c.
Definition text_mem (op a off base : string) : string :=
  op +:+ " " +:+ a +:+ ", " +:+ off +:+ "(" +:+ base +:+ ")".

(** The mnemonics chosen by [funct3] and [funct7]. *)
Definition branch_name (funct3 rs2 : Z) : string :=
  if funct3 =? 0x0 then if rs2 =? 0 then "beqz" else "beq"
  else if funct3 =? 0x1 then if rs2 =? 0 then "bnez" else "bne"
  else if funct3 =? 0x4 then if rs2 =? 0 then "bltz" else "blt"
  else if funct3 =? 0x5 then if rs2 =? 0 then "bgez" else "bge"
  else if funct3 =? 0x6 then "bltu"
  else if funct3 =? 0x7 then "bgeu"
  else "unknown_branch".

Definition load_name (funct3 : Z) : string :=
  if funct3 =? 0x0 then "lb" else if funct3 =? 0x1 then "lh" else if funct3 =? 0x2 then "lw"
  else if funct3 =? 0x4 then "lbu" else if funct3 =? 0x5 then "lhu" else "load_unknown".

Definition store_name (funct3 : Z) : string :=
  if funct3 =? 0x0 then "sb" else if funct3 =? 0x1 then "sh" else if funct3 =? 0x2 then "sw"
  else "store_unknown".

Definition op_table : list (Z * Z * string) :=
  [(0x00, 0x0, "add"); (0x20, 0x0, "sub"); (0x00, 0x1, "sll"); (0x00, 0x2, "slt"); (0x00, 0x3, "sltu");
   (0x00, 0x4, "xor"); (0x00, 0x5, "srl"); (0x20, 0x5, "sra"); (0x00, 0x6, "or"); (0x00, 0x7, "and");
   (0x01, 0x0, "mul"); (0x01, 0x1, "mulh"); (0x01, 0x2, "mulhsu"); (0x01, 0x3, "mulhu");
   (0x01, 0x4, "div"); (0x01, 0x5, "divu"); (0x01, 0x6, "rem"); (0x01, 0x7, "remu")].
Fixpoint table_find (t : list (Z * Z * string)) (funct7 funct3 : Z) : option string :=
  match t with
  | [] => None
  | (f7, f3, name) :: t =>
    if (funct7 =? f7) && (funct3 =? f3) then Some name else table_find t funct7 funct3
  end.
Definition op_name (funct7 funct3 : Z) : string := default "op_unknown" (table_find op_table funct7 funct3).

Definition csr_name (funct3 : Z) : string :=
  if funct3 =? 0x1 then "csrrw" else if funct3 =? 0x2 then "csrrs" else if funct3 =? 0x3 then "csrrc"
  else if funct3 =? 0x5 then "csrrwi" else if funct3 =? 0x6 then "csrrsi"
  else if funct3 =? 0x7 then "csrrci" else "csr_op".

(** The [OP_IMM] arm. *)
Definition decode_op_imm (decoded : DecodedInst32) (raw_inst : Z) : string :=
  let rd := reg_name (rd decoded) in
  let rs1n := reg_name (rs1 decoded) in
  let imm := i_imm decoded in
  let shamt := rs2 decoded in
  if funct3 decoded =? 0x0 then
    if raw_inst =? 0x00000013 then "nop"
    else if rs1 decoded =? 0 then text2 "li" rd (fmt_dec imm)
    else if imm =? 0 then text2 "mv" rd rs1n
    else text3 "addi" rd rs1n (fmt_dec imm)
  else if funct3 decoded =? 0x2 then text3 "slti" rd rs1n (fmt_dec imm)
  else if funct3 decoded =? 0x3 then text3 "sltiu" rd rs1n (fmt_dec (u32 imm))
  else if funct3 decoded =? 0x4 then text3 "xori" rd rs1n (fmt_dec imm)
  else if funct3 decoded =? 0x6 then text3 "ori" rd rs1n (fmt_dec imm)
  else if funct3 decoded =? 0x7 then text3 "andi" rd rs1n (fmt_dec imm)
  else if funct3 decoded =? 0x1 then text3 "slli" rd rs1n (fmt_dec shamt)
  else if funct3 decoded =? 0x5 then
    if funct7 decoded =? 0x20 then text3 "srai" rd rs1n (fmt_dec shamt)
    else text3 "srli" rd rs1n (fmt_dec shamt)
  else "op_imm_unknown 0x" +:+ fmt_hex_pad 8 raw_inst.

Definition decode_rv32 (addr raw_inst : Z) (symbols : option (gmap Z string)) : string :=
  let decoded := decode32 raw_inst in
  let rd_ := reg_name (rd decoded) in
  let rs1_ := reg_name (rs1 decoded) in
  let rs2_ := reg_name (rs2 decoded) in
  let op := opcode decoded in
  if op =? OP_LUI then text2 "lui" rd_ (fmt_dec (i32 (u_imm decoded) .>> 12))
  else if op =? OP_AUIPC then text2 "auipc" rd_ (fmt_dec (i32 (u_imm decoded) .>> 12))
  else if op =? OP_JAL then
    let target := wrapping_add addr (u32 (j_imm decoded)) in
    let target_str := format_target target symbols in
    if rd decoded =? 0 then "j " +:+ target_str else text2 "jal" rd_ target_str
  else if op =? OP_JALR then
    let imm := i_imm decoded in
    if (rd decoded =? 0) && (rs1 decoded =? 1) && (imm =? 0) then "ret"
    else if (rd decoded =? 0) && (imm =? 0) then "jr " +:+ rs1_
    else text_mem "jalr" rd_ (fmt_dec imm) rs1_
  else if op =? OP_BRANCH then
    let target := wrapping_add addr (u32 (b_imm decoded)) in
    let target_str := format_target target symbols in
    let name := branch_name (funct3 decoded) (rs2 decoded) in
    if bool_decide (name ∈ ["beqz"; "bnez"; "bltz"; "bgez"]) then text2 name rs1_ target_str
    else text3 name rs1_ rs2_ target_str
  else if op =? OP_LOAD then
    text_mem (load_name (funct3 decoded)) rd_ (fmt_dec (i_imm decoded)) rs1_
  else if op =? OP_STORE then
    text_mem (store_name (funct3 decoded)) rs2_ (fmt_dec (s_imm decoded)) rs1_
  else if op =? OP_IMM then decode_op_imm decoded raw_inst
  else if op =? OP_OP then text3 (op_name (funct7 decoded) (funct3 decoded)) rd_ rs1_ rs2_
  else if op =? OP_LOAD_FP then text_mem "flw" (freg_name (rd decoded)) (fmt_dec (i_imm decoded)) rs1_
  else if op =? OP_STORE_FP then text_mem "fsw" (freg_name (rs2 decoded)) (fmt_dec (s_imm decoded)) rs1_
  else if op =? OP_SYSTEM then
    if raw_inst =? 0x00000073 then "ecall"
    else if raw_inst =? 0x00100073 then "ebreak"
    else if raw_inst =? 0x30200073 then "mret"
    else
      let csr := raw_inst .>> 20 in
      text3 (csr_name (funct3 decoded)) rd_ ("0x" +:+ fmt_hex csr) rs1_
  else "unimpl 0x" +:+ fmt_hex_pad 8 raw_inst.

(** ** Compressed instructions *)

Definition format_target_rvc (addr inst : Z) : string :=
  let imm11 :=
    u16 (shift_then_mask inst 12 1 .<< 11) .| u16 (shift_then_mask inst 8 1 .<< 10)
    .| u16 (shift_then_mask inst 9 3 .<< 8) .| u16 (shift_then_mask inst 6 1 .<< 7)
    .| u16 (shift_then_mask inst 7 1 .<< 6) .| u16 (shift_then_mask inst 2 1 .<< 5)
    .| u16 (shift_then_mask inst 11 1 .<< 4) .| u16 (shift_then_mask inst 3 7 .<< 1) in
  let offset := i16 (i16 imm11 .<< 4) .>> 4 in
  "0x" +:+ fmt_hex (wrapping_add addr (u32 offset)).

Definition format_branch_target_rvc (addr inst : Z) : string :=
  let imm :=
    u16 (shift_then_mask inst 12 1 .<< 8) .| u16 (shift_then_mask inst 5 3 .<< 6)
    .| u16 (shift_then_mask inst 2 1 .<< 5) .| u16 (shift_then_mask inst 10 3 .<< 3)
    .| u16 (shift_then_mask inst 3 3 .<< 1) in
  let offset := i16 (i16 imm .<< 7) .>> 7 in
  "0x" +:+ fmt_hex (wrapping_add addr (u32 offset)).

Definition reserved_text (inst : Z) : string := "c.reserved 0x" +:+ fmt_hex_pad 4 inst.

(** [imm6] as [i16] and its sign extension. *)
Definition rvc_imm6 (inst : Z) : Z :=
  i16 (u16 (shift_then_mask inst 12 1 .<< 5) .| shift_then_mask inst 2 0x1F).
Definition rvc_imm6_sext (inst : Z) : Z := i16 (rvc_imm6 inst .<< 10) .>> 10.

Definition decode_rvc_q0 (inst f3 : Z) : string :=
  let rdc := creg inst 2 in
  let rs1c := creg inst 7 in
  if f3 =? 0x0 then
    let imm := shift_then_mask inst 7 0x30 .| shift_then_mask inst 1 0x3C0
               .| shift_then_mask inst 4 0x4 .| shift_then_mask inst 2 0x8 in
    if imm =? 0 then reserved_text inst
    else "c.addi4spn " +:+ reg_name rdc +:+ ", sp, " +:+ fmt_dec imm
  else if f3 =? 0x1 then text_mem "c.fld" (freg_name rdc) (fmt_dec (cl_double_offset inst)) (reg_name rs1c)
  else if f3 =? 0x2 then text_mem "c.lw" (reg_name rdc) (fmt_dec (cl_word_offset inst)) (reg_name rs1c)
  else if f3 =? 0x3 then text_mem "c.flw" (freg_name rdc) (fmt_dec (cl_word_offset inst)) (reg_name rs1c)
  else if f3 =? 0x5 then text_mem "c.fsd" (freg_name rdc) (fmt_dec (cl_double_offset inst)) (reg_name rs1c)
  else if f3 =? 0x6 then text_mem "c.sw" (reg_name rdc) (fmt_dec (cl_word_offset inst)) (reg_name rs1c)
  else if f3 =? 0x7 then text_mem "c.fsw" (freg_name rdc) (fmt_dec (cl_word_offset inst)) (reg_name rs1c)
  else reserved_text inst.

Definition decode_rvc_lui (inst : Z) : string :=
  let rd := shift_then_mask inst 7 0x1F in
  if rd =? 2 then
    let imm :=
      u16 (shift_then_mask inst 12 1 .<< 9) .| u16 (shift_then_mask inst 3 3 .<< 7)
      .| u16 (shift_then_mask inst 5 1 .<< 6) .| u16 (shift_then_mask inst 2 1 .<< 5)
      .| u16 (shift_then_mask inst 6 1 .<< 4) in
    if imm =? 0 then reserved_text inst
    else "c.addi16sp sp, " +:+ fmt_dec (i16 (i16 imm .<< 6) .>> 6)
  else if (rd =? 0) || (rvc_imm6 inst =? 0) then reserved_text inst
  else text2 "c.lui" (reg_name rd) (fmt_dec (rvc_imm6_sext inst)).

Definition decode_rvc_alu (inst : Z) : string :=
  let rdc := creg inst 2 in
  let rs1c := creg inst 7 in
  let bit12 := shift_then_mask inst 12 1 in
  let sel := shift_then_mask inst 10 0x3 in
  if (sel =? 0) || (sel =? 1) then
    let op_name := if sel =? 0 then "c.srli" else "c.srai" in
    if negb (bit12 =? 0) then reserved_text inst
    else text2 op_name (reg_name rs1c) (fmt_dec (shift_then_mask inst 2 0x1F))
  else if sel =? 2 then text2 "c.andi" (reg_name rs1c) (fmt_dec (rvc_imm6_sext inst))
  else if negb (bit12 =? 0) then reserved_text inst
  else
    let sel2 := shift_then_mask inst 5 0x3 in
    let op_name := if sel2 =? 0 then "c.sub" else if sel2 =? 1 then "c.xor"
                   else if sel2 =? 2 then "c.or" else "c.and" in
    text2 op_name (reg_name rs1c) (reg_name rdc).

Definition decode_rvc_q1 (addr inst f3 : Z) : string :=
  let rd := shift_then_mask inst 7 0x1F in
  let rs1c := creg inst 7 in
  if f3 =? 0x0 then
    if rd =? 0 then "c.nop" else text2 "c.addi" (reg_name rd) (fmt_dec (rvc_imm6_sext inst))
  else if f3 =? 0x1 then "c.jal " +:+ format_target_rvc addr inst
  else if f3 =? 0x2 then text2 "c.li" (reg_name rd) (fmt_dec (rvc_imm6_sext inst))
  else if f3 =? 0x3 then decode_rvc_lui inst
  else if f3 =? 0x4 then decode_rvc_alu inst
  else if f3 =? 0x5 then "c.j " +:+ format_target_rvc addr inst
  else if f3 =? 0x6 then text2 "c.beqz" (reg_name rs1c) (format_branch_target_rvc addr inst)
  else if f3 =? 0x7 then text2 "c.bnez" (reg_name rs1c) (format_branch_target_rvc addr inst)
  else reserved_text inst.

(** ["{} {}, {}(sp)"]. *)
Definition text_sp (op a : string) (off : Z) : string :=
  op +:+ " " +:+ a +:+ ", " +:+ fmt_dec off +:+ "(sp)".

Definition decode_rvc_q2 (inst f3 : Z) : string :=
  let rd := shift_then_mask inst 7 0x1F in
  let rs2 := shift_then_mask inst 2 0x1F in
  if f3 =? 0x0 then
    if negb (shift_then_mask inst 12 1 =? 0) then reserved_text inst
    else text2 "c.slli" (reg_name rd) (fmt_dec (shift_then_mask inst 2 0x1F))
  else if f3 =? 0x1 then text_sp "c.fldsp" (freg_name rd) (ci_double_sp_offset inst)
  else if f3 =? 0x2 then
    if rd =? 0 then reserved_text inst else text_sp "c.lwsp" (reg_name rd) (ci_word_sp_offset inst)
  else if f3 =? 0x3 then text_sp "c.flwsp" (freg_name rd) (ci_word_sp_offset inst)
  else if f3 =? 0x4 then
    let bit12 := shift_then_mask inst 12 1 in
    if (bit12 =? 0) && (rs2 =? 0) then
      if rd =? 0 then reserved_text inst else "c.jr " +:+ reg_name rd
    else if bit12 =? 0 then text2 "c.mv" (reg_name rd) (reg_name rs2)
    else if (rd =? 0) && (rs2 =? 0) then "c.ebreak"
    else if rs2 =? 0 then "c.jalr " +:+ reg_name rd
    else text2 "c.add" (reg_name rd) (reg_name rs2)
  else if f3 =? 0x5 then text_sp "c.fsdsp" (freg_name rs2) (css_double_sp_offset inst)
  else if f3 =? 0x6 then text_sp "c.swsp" (reg_name rs2) (css_word_sp_offset inst)
  else if f3 =? 0x7 then text_sp "c.fswsp" (freg_name rs2) (css_word_sp_offset inst)
  else reserved_text inst.

Definition decode_rvc (addr inst : Z) : string :=
  let op := inst .& 0x3 in
  let f3 := shift_then_mask inst 13 0x7 in
  if op =? 0x0 then decode_rvc_q0 inst f3
  else if op =? 0x1 then decode_rvc_q1 addr inst f3
  else if op =? 0x2 then decode_rvc_q2 inst f3
  else reserved_text inst.

Definition decode_instruction_with_symbols (addr op : Z) (symbols : option (gmap Z string))
  : DisassembledInst :=
  let is_compressed := negb ((op .& 0x3) =? 0x3) in
  let '(hex_str, asm) :=
    if is_compressed then
      let half := u16 (op .& 0xFFFF) in (fmt_hex_pad 4 half, decode_rvc addr half)
    else (fmt_hex_pad 8 op, decode_rv32 addr op symbols) in
  let label := syms ← symbols; syms !! addr in
  {| address := addr; opcode_hex := hex_str; asm_text := asm; is_compressed := is_compressed;
     label := label |}.

Definition decode_instruction (addr op : Z) : DisassembledInst :=
  decode_instruction_with_symbols addr op None.
