(* ===== verification/Sim.v ===== *)
(** The simulator object: [Simulator] of [src/src/lib.rs], the program loader and
    the debugger commands.

    The ELF parser is the [goblin] crate: [elf_parse] is a parameter, and [Elf] holds
    the fields of its result that the loader reads.  They are 64-bit numbers (32 for
    types and flags are enough), which the loader casts to [usize] and [u32]; plain
    additions are checked or wrap with the build profile.

    [run_until_breakpoint] and [run] need not return: they take a number of slices to
    try, and [None] means that the program is still running after them. *)

From S2P Require Import Prelude Bits Inst Fmt Host Memory Float Cpu Syscall Exec Rvc Run Cli Disasm.

(** ** What the loader reads of an ELF file *)

Record ProgramHeader := { p_type : Z; p_offset : Z; p_filesz : Z; p_vaddr : Z }.
Record SectionHeader := {
  sh_type : Z; sh_flags : Z; sh_addr : Z; sh_offset : Z; sh_size : Z; sh_addralign : Z
}.
Record Sym := { st_name : Z; st_value : Z; st_shndx : Z }.
Record Elf := {
  e_entry : Z;
  program_headers : list ProgramHeader;
  section_headers : list SectionHeader;
  elf_syms : list Sym;
  strtab_get_at : Z -> option string
}.

Class ElfParser := elf_parse : list Z -> option Elf.

Definition PT_LOAD : Z := 1.
Definition SHT_PROGBITS : Z := 1.
Definition SHT_NOBITS : Z := 8.

(** [is_call_instruction]. *)
Definition is_call_instruction (inst : Z) : bool :=
  if negb ((inst .& 0x3) =? 0x3) then
    let op2 := inst .& 0x3 in
    let funct3 := shift_then_mask inst 13 0x7 in
    if (op2 =? 0x1) && (funct3 =? 0x1) then true
    else (op2 =? 0x2) && (funct3 =? 0x4) && (shift_then_mask inst 12 1 =? 1)
  else
    let decoded := decode32 inst in
    if (opcode decoded =? OP_JAL) || (opcode decoded =? OP_JALR) then
      (rd decoded =? 1) || (rd decoded =? 5)
    else false.

(** [u32::saturating_add]. *)
Definition saturating_add (a b : Z) : Z := Z.min (a + b) u32_MAX.

(** [&bytes[start..end]]; [None] is an index out of bounds. *)
Definition byte_slice (bytes : list Z) (start stop : Z) : option (list Z) :=
  if (start <=? stop) && (stop <=? Z.of_nat (length bytes)) then
    Some (take (Z.to_nat (stop - start)) (drop (Z.to_nat start) bytes))
  else None.

Record Simulator (H : Type) := { machine : Machine H Memory; symbols : gmap Z string }.
Arguments machine {H}.
Arguments symbols {H}.
Arguments Build_Simulator {H}.

Section Simulator.
Context {H : Type} `{HostOps H} `{BuildProfile} `{FloatEnv} `{Target} `{ElfParser}.
Abbreviation M := (EM (Machine H Memory) Infallible).
Abbreviation MS := (EM (Simulator H) Infallible).

(** A computation on the machine, as one on the simulator. *)
Definition on_machine {A} (m : M A) : MS A := fun s =>
  match m (machine s) with
  | Ok a c => Ok a (Build_Simulator c (symbols s))
  | Err e c => Err e (Build_Simulator c (symbols s))
  | Panic => Panic
  end.
Definition modify_symbols (f : gmap Z string -> gmap Z string) : MS unit :=
  em_modify (fun s => Build_Simulator (machine s) (f (symbols s))).

Definition Simulator_new (h : H) : Simulator H :=
  Build_Simulator (Build_Machine Cpu_new Memory_new h) ∅.

Definition Simulator_default (h : H) : Simulator H := Simulator_new h.

(** A plain [-] on [w]-bit unsigned integers. *)
Definition checked_sub (w a b : Z) : M Z :=
  if overflow_checks && (a <? b) then em_panic else mret (wrap w (a - b)).

(** ** The loader *)

Fixpoint init_registers (inits : list (Z * Z)) : M unit :=
  match inits with
  | [] => mret tt
  | (reg_idx, val) :: inits => write_reg reg_idx val;; init_registers inits
  end.

(** Copies [binary_bytes[offset..offset + size]] to [addr] if the range is inside
    the file. *)
Definition load_range (binary : list Z) (offset size addr : Z) : M unit :=
  stop ← checked_add usize_bits offset size;
  if stop <=? Z.of_nat (length binary) then
    bytes ← em_index (byte_slice binary offset stop);
    mwrite (fun m => write_bytes m addr bytes)
  else mret tt.

Fixpoint load_segments (binary : list Z) (phdrs : list ProgramHeader) : M unit :=
  match phdrs with
  | [] => mret tt
  | phdr :: phdrs =>
    (if p_type phdr =? PT_LOAD then
       load_range binary (wrap usize_bits (p_offset phdr)) (wrap usize_bits (p_filesz phdr))
         (u32 (p_vaddr phdr))
     else mret tt);;
    load_segments binary phdrs
  end.

(** The symbols of an executable: named, with a value. *)
Definition exec_symbols (elf : Elf) (m : gmap Z string) : gmap Z string :=
  fold_left (fun m sym =>
    match strtab_get_at elf (st_name sym) with
    | Some name =>
      if negb (bool_decide (name = "")) && negb (st_value sym =? 0)
      then <[u32 (st_value sym) := name]> m else m
    | None => m
    end) (elf_syms elf) m.

(** The address of a section of an object file, and the next free address. *)
Definition place_section (shdr : SectionHeader) (current_addr : Z) : M (Z * Z) :=
  if negb (sh_addr shdr =? 0) then mret (u32 (sh_addr shdr), current_addr)
  else
    let align := if 0 <? sh_addralign shdr then u32 (sh_addralign shdr) else 4 in
    a ← checked_add 32 current_addr align;
    a ← checked_sub 32 a 1;
    b ← checked_sub 32 align 1;
    let assigned := a .& not_u 32 b in
    next ← checked_add 32 assigned (u32 (wrap usize_bits (sh_size shdr)));
    mret (assigned, next).

Definition is_allocated (shdr : SectionHeader) : bool :=
  (0 <? wrap usize_bits (sh_size shdr))
  && (negb ((sh_flags shdr .& 2) =? 0) || (sh_type shdr =? SHT_PROGBITS)).

Fixpoint load_sections (binary : list Z) (shdrs : list SectionHeader) (current_addr : Z)
    (section_addrs : list Z) : M (list Z) :=
  match shdrs with
  | [] => mret section_addrs
  | shdr :: shdrs =>
    if is_allocated shdr then
      '(addr, current_addr) ← place_section shdr current_addr;
      (if negb (sh_type shdr =? SHT_NOBITS) then
         load_range binary (wrap usize_bits (sh_offset shdr)) (wrap usize_bits (sh_size shdr)) addr
       else mret tt);;
      load_sections binary shdrs current_addr (section_addrs ++ [addr])%list
    else load_sections binary shdrs current_addr (section_addrs ++ [0])%list
  end.

(** The symbols of an object file, and the entry point found on the way. *)
Definition object_symbols (elf : Elf) (section_addrs : list Z) (entry : Z) (m : gmap Z string)
  : Z * gmap Z string :=
  fold_left (fun '(entry, m) sym =>
    match strtab_get_at elf (st_name sym) with
    | Some name =>
      if negb (bool_decide (name = "")) then
        let sec_base := default 0x10000 (section_addrs !! Z.to_nat (st_shndx sym)) in
        let addr := wrapping_add sec_base (u32 (st_value sym)) in
        (if (bool_decide (name = "_start") || bool_decide (name = "main")) && (entry =? 0)
         then addr else entry, <[addr := name]> m)
      else (entry, m)
    | None => (entry, m)
    end) (elf_syms elf) (entry, m).

(** The first symbol [_start] with a value. *)
Fixpoint find_start (elf : Elf) (syms : list Sym) (entry : Z) : Z :=
  match syms with
  | [] => entry
  | sym :: syms =>
    match strtab_get_at elf (st_name sym) with
    | Some name =>
      if bool_decide (name = "_start") && negb (st_value sym =? 0) then u32 (st_value sym)
      else find_start elf syms entry
    | None => find_start elf syms entry
    end
  end.

Definition load_elf (binary : list Z) (elf : Elf) : MS Z :=
  let entry_point := u32 (e_entry elf) in
  entry_point ←
    (if negb (bool_decide (program_headers elf = [])) then
       on_machine (load_segments binary (program_headers elf));;
       modify_symbols (exec_symbols elf);;
       mret entry_point
     else
       section_addrs ← on_machine (load_sections binary (section_headers elf) 0x10000 []);
       syms ← em_gets symbols;
       let '(entry_point, syms) := object_symbols elf section_addrs entry_point syms in
       modify_symbols (fun _ => syms);;
       mret (if entry_point =? 0 then 0x10000 else entry_point));
  let entry_point :=
    if negb (e_entry elf =? 0) then find_start elf (elf_syms elf) entry_point else entry_point in
  on_machine (modify_cpu (with_pc entry_point));;
  mret entry_point.

Definition load_binary_with_args (binary : list Z) (args : list string) : MS Z :=
  let config := parse_args args in
  on_machine (
    modify_cpu (fun c => with_custom_syscalls (has_custom_syscalls c) Cpu_new);;
    modify_mem (fun _ => Memory_new));;
  modify_symbols (fun _ => ∅);;
  on_machine (init_registers (register_inits config));;
  match elf_parse binary with
  | Some elf => load_elf binary elf
  | None =>
    on_machine (mwrite (fun m => write_bytes m 0 binary);; modify_cpu (with_pc 0));;
    mret 0
  end.

(** [load_binary]: the arguments are a JavaScript array; elements that are not
    strings ([None]) are skipped. *)
Definition load_binary (binary : list Z) (args_js : list (option string)) : MS Z :=
  load_binary_with_args binary (omap id args_js).

(** ** Settings and the debugger *)

Definition set_has_custom_syscalls (enabled : bool) : M unit := modify_cpu (with_custom_syscalls enabled).
Definition set_debug_mode (enabled : bool) : M unit := modify_cpu (with_debug enabled).
Definition add_breakpoint (addr : Z) : M unit :=
  modify_cpu (fun c => with_breakpoints ({[addr]} ∪ breakpoints c) c).
Definition remove_breakpoint (addr : Z) : M unit :=
  modify_cpu (fun c => with_breakpoints (breakpoints c ∖ {[addr]}) c).
Definition clear_breakpoints : M unit := modify_cpu (with_breakpoints ∅).

Definition run_full (slices : nat) : M (option Z) := run slices.
Definition Simulator_run_slice (budget : Z) : M SliceOutcome := run_slice budget.
Definition Simulator_has_custom_syscalls : M bool := c ← get_cpu; mret (has_custom_syscalls c).

Definition get_snapshot_js (is_breakpoint : bool) (hit_address : Z) : M DebuggerSnapshot :=
  c ← get_cpu; mret (snapshot c is_breakpoint hit_address).

Definition debug_step : M DebuggerSnapshot :=
  res ← step_instruction;
  match res with
  | BreakpointHit addr => get_snapshot_js true addr
  | _ => get_snapshot_js false 0
  end.

Fixpoint run_until_breakpoint (slices : nat) : M (option DebuggerSnapshot) :=
  match slices with
  | O => mret None
  | S slices =>
    outcome ← run_slice u32_MAX;
    match status outcome with
    | Breakpoint => snap ← get_snapshot_js true (out_pc outcome); mret (Some snap)
    | Halted | Trapped => snap ← get_snapshot_js false 0; mret (Some snap)
    | Running => run_until_breakpoint slices
    end
  end.

(** Runs to a breakpoint placed at [addr], which is removed unless it was there. *)
Definition run_to_temporary (slices : nat) (addr : Z) : M (option DebuggerSnapshot) :=
  c ← get_cpu;
  let had_bp := bool_decide (addr ∈ breakpoints c) in
  add_breakpoint addr;;
  snap ← run_until_breakpoint slices;
  match snap with
  | None => mret None
  | Some snap =>
    (if negb had_bp then remove_breakpoint addr else mret tt);;
    mret (Some snap)
  end.

Definition debug_step_over (slices : nat) : M (option DebuggerSnapshot) :=
  c ← get_cpu;
  let current_pc := pc c in
  inst ← mread (fun m => read_u32 m current_pc);
  if is_call_instruction inst then
    next_pc ← checked_add 32 current_pc (if (inst .& 0x3) =? 0x3 then 4 else 2);
    run_to_temporary slices next_pc
  else snap ← debug_step; mret (Some snap).

Definition debug_step_out (slices : nat) : M (option DebuggerSnapshot) :=
  ra ← try_gets (fun c => idx (regs c) 1);
  run_to_temporary slices ra.

(** ** Memory, registers, symbols *)

(** The buffer [vec![0; len]] cannot be larger than [isize::MAX] bytes. *)
Definition read_memory_range (addr len : Z) : M (list Z) :=
  if 2 ^ (usize_bits - 1) <=? len then em_panic
  else mread (fun m => read_each Memory_read_u8 m addr 0 (Z.to_nat len)).
Definition write_memory_byte (addr val : Z) : M unit := mwrite (fun m => write_u8 m addr val).
Definition write_register (reg_idx val : Z) : M unit :=
  if reg_idx <? 32 then write_reg reg_idx val else mret tt.

Definition disassemble_step (start len : Z) (v : Z * list DisassembledInst)
  : MS ((Z * list DisassembledInst) + list DisassembledInst) :=
  let '(curr, items) := v in
  if curr <? saturating_add start len then
    inst ← on_machine (mread (fun m => read_u32 m curr));
    syms ← em_gets symbols;
    let item := decode_instruction_with_symbols curr inst (Some syms) in
    let step := if is_compressed item then 2 else 4 in
    mret (inl (saturating_add curr step, items ++ [item])%list)
  else mret (inr items).

(** Every iteration advances by two at least, or reaches the last address. *)
Definition disassemble_range (start len : Z) : MS (list DisassembledInst) :=
  em_loop (disassemble_step start len) (Z.to_pos (len + 1)) (start, []).

Definition get_symbol_at (addr : Z) : MS (option string) := em_gets (fun s => symbols s !! addr).
End Simulator.

Section Entry.
Context {H : Type} `{HostOps H} `{BuildProfile} `{FloatEnv} `{Target} `{ElfParser}.

(** [run_riscv_binary]. *)
Definition run_riscv_binary (slices : nat) (binary : list Z) (args_js : list (option string)) (h : H)
  : outcome (Simulator H) Infallible (option Z) :=
  (load_binary binary args_js;; on_machine (run_full slices)) (Simulator_new h).
End Entry.
