(* ===== verification/DisasmProps.v ===== *)
(** The disassembler's text against the instruction set: the integer, memory and CSR
    instructions are rendered as the assembler would write them, the targets shown are
    the ones the CPU jumps to, a compressed instruction shows the operands of the one it
    expands to or is shown as reserved exactly when it is illegal, and the hexadecimal
    column is the instruction. *)

From S2P Require Import Prelude Bits Inst Fmt Host Memory MemoryProps Float Cpu Syscall Exec Rvc Run Safe SafeExec RunProps IsaSpec RvcProps IsaMem SysProps Cli Disasm.
From Stdlib Require Import Ascii.

(** ** The text of an instruction *)

Definition alu_text (op : alu) : string :=
  match op with
  | ADD => "add" | SUB => "sub" | SLL => "sll" | SLT => "slt" | SLTU => "sltu" | XOR => "xor"
  | SRL => "srl" | SRA => "sra" | OR => "or" | AND => "and" | MUL => "mul" | MULH => "mulh"
  | MULHSU => "mulhsu" | MULHU => "mulhu" | DIV => "div" | DIVU => "divu" | REM => "rem"
  | REMU => "remu"
  end.
Definition alui_text (op : alui) : string :=
  match op with
  | ADDI => "addi" | SLTI => "slti" | SLTIU => "sltiu" | XORI => "xori" | ORI => "ori" | ANDI => "andi"
  end.
Definition shifti_text (op : shifti) : string :=
  match op with SLLI => "slli" | SRLI => "srli" | SRAI => "srai" end.
(** The mnemonic, and the one of the comparison with zero. *)
Definition branch_text (op : branch) : string * option string :=
  match op with
  | BEQ => ("beq", Some "beqz") | BNE => ("bne", Some "bnez") | BLT => ("blt", Some "bltz")
  | BGE => ("bge", Some "bgez") | BLTU => ("bltu", None) | BGEU => ("bgeu", None)
  end.

Section Render.
Context (addr : Z) (syms : option (gmap Z string)).

Definition target_text (off : Z) : string := format_target ((addr + off) mod 2 ^ 32) syms.

Definition render (i : instr) : string :=
  match i with
  | Lui rd imm => text2 "lui" (reg_name rd) (fmt_dec (i32 imm / 2 ^ 12))
  | Auipc rd imm => text2 "auipc" (reg_name rd) (fmt_dec (i32 imm / 2 ^ 12))
  | Jal rd off =>
    if rd =? 0 then "j " +:+ target_text off else text2 "jal" (reg_name rd) (target_text off)
  | Jalr rd rs1 off =>
    if negb (rd =? 0) || negb (off =? 0) then text_mem "jalr" (reg_name rd) (fmt_dec off) (reg_name rs1)
    else if rs1 =? 1 then "ret" else "jr " +:+ reg_name rs1
  | Branch op rs1 rs2 off =>
    match branch_text op, (rs2 =? 0)%Z with
    | (_, Some name), true => text2 name (reg_name rs1) (target_text off)
    | (name, _), _ => text3 name (reg_name rs1) (reg_name rs2) (target_text off)
    end
  | OpImm ADDI rd rs1 imm =>
    if rs1 =? 0 then
      if (rd =? 0) && (imm =? 0) then "nop" else text2 "li" (reg_name rd) (fmt_dec imm)
    else if imm =? 0 then text2 "mv" (reg_name rd) (reg_name rs1)
    else text3 "addi" (reg_name rd) (reg_name rs1) (fmt_dec imm)
  | OpImm op rd rs1 imm => text3 (alui_text op) (reg_name rd) (reg_name rs1) (fmt_dec imm)
  | ShiftImm op rd rs1 shamt => text3 (shifti_text op) (reg_name rd) (reg_name rs1) (fmt_dec shamt)
  | Op op rd rs1 rs2 => text3 (alu_text op) (reg_name rd) (reg_name rs1) (reg_name rs2)
  | Fence => "fence"
  end.

(** The instructions the disassembler shows as an assembler writes them. *)
Definition rendered (i : instr) : Prop :=
  match i with OpImm SLTIU _ _ imm => 0 <= imm | Fence => False | _ => True end.

(** What it shows for [sltiu]: the immediate as an unsigned number. *)
Definition sltiu_text (rd rs1 imm : Z) : string :=
  text3 "sltiu" (reg_name rd) (reg_name rs1) (fmt_dec (imm mod 2 ^ 32)).

Lemma branch_target_text off : format_target (wrapping_add addr (u32 off)) syms = target_text off.
Proof. by rewrite wrapping_add_mod. Qed.

Lemma shr12 x : i32 x .>> 12 = i32 x / 2 ^ 12.
Proof. by rewrite Z.shiftr_div_pow2. Qed.

Lemma nop_iff rd rs1 imm :
  asm32_ok (FmtI OP_IMM rd 0 rs1 imm) ->
  (encode32 (FmtI OP_IMM rd 0 rs1 imm) =? 0x13) = (rs1 =? 0) && ((rd =? 0) && (imm =? 0)).
Proof.
  intros Hok. pose proof (decode_encode_lemma _ Hok) as Hd. cbn [decodes_to] in Hd. destruct_and! Hd.
  destruct (Z.eqb_spec (encode32 (FmtI OP_IMM rd 0 rs1 imm)) 0x13) as [E|E].
  - rewrite E in *. by subst.
  - destruct (Z.eqb_spec rs1 0) as [->|]; [|done]. destruct (Z.eqb_spec rd 0) as [->|]; [|done].
    destruct (Z.eqb_spec imm 0) as [->|]; [|done]. by vm_compute in E.
Qed.

(** Decodes an encoding and settles the opcode tests. *)
Ltac text_of Hok :=
  unfold decode_rv32, assemble; cbn [to_asm]; decoded Hok;
  match goal with E : opcode ?d = _ |- _ => rewrite !E end; decide_consts.

Lemma text_op op rd rs1 rs2 :
  asm32_ok (to_asm (Op op rd rs1 rs2)) -> decode_rv32 addr (assemble (Op op rd rs1 rs2)) syms = render (Op op rd rs1 rs2).
Proof.
  intros Hok. cbn [to_asm] in Hok. text_of Hok. cbn [render].
  match goal with E : funct3 ?d = _, E' : funct7 ?d = _ |- _ => rewrite E, E' end. by destruct op.
Qed.

Lemma text_shift op rd rs1 sh :
  asm32_ok (to_asm (ShiftImm op rd rs1 sh)) ->
  decode_rv32 addr (assemble (ShiftImm op rd rs1 sh)) syms = render (ShiftImm op rd rs1 sh).
Proof.
  intros Hok. cbn [to_asm] in Hok. text_of Hok. cbn [render]. unfold decode_op_imm.
  match goal with E : funct3 ?d = _, E' : funct7 ?d = _ |- _ => rewrite E, E' end. by destruct op.
Qed.

Lemma text_op_imm op rd rs1 imm :
  asm32_ok (to_asm (OpImm op rd rs1 imm)) ->
  decode_rv32 addr (assemble (OpImm op rd rs1 imm)) syms
  = match op with SLTIU => sltiu_text rd rs1 imm | _ => render (OpImm op rd rs1 imm) end.
Proof.
  intros Hok. cbn [to_asm] in Hok. pose proof (nop_iff rd rs1 imm) as Hnop.
  unfold assemble. cbn [to_asm]. set (w := encode32 (FmtI OP_IMM rd (alui_code op) rs1 imm)).
  assert (Hd : decodes_to (decode32 w) (FmtI OP_IMM rd (alui_code op) rs1 imm))
    by (apply decode_encode_lemma; exact Hok).
  unfold decode_rv32. cbn [decodes_to] in Hd. destruct_and! Hd.
  match goal with E : opcode _ = _ |- _ => rewrite !E end. decide_consts. unfold decode_op_imm.
  match goal with E : funct3 _ = _ |- _ => rewrite E end.
  match goal with E : Inst.rd _ = _ |- _ => rewrite !E end.
  match goal with E : Inst.rs1 _ = _ |- _ => rewrite !E end.
  match goal with E : i_imm _ = _ |- _ => rewrite !E end.
  cbn [render]. destruct op; cbn [alui_code] in *; decide_consts; try done.
  subst w. rewrite Hnop by exact Hok. destruct (rs1 =? 0); [|done]. by destruct ((rd =? 0) && (imm =? 0)).
Qed.

Lemma text_branch op rs1 rs2 off :
  asm32_ok (to_asm (Branch op rs1 rs2 off)) ->
  decode_rv32 addr (assemble (Branch op rs1 rs2 off)) syms = render (Branch op rs1 rs2 off).
Proof.
  intros Hok. cbn [to_asm] in Hok. text_of Hok. cbn [render].
  match goal with E : funct3 ?d = _ |- _ => rewrite E end. rewrite branch_target_text.
  unfold branch_name. by destruct op, (Inst.rs2 d =? 0)%Z.
Qed.

Lemma text_jalr rd rs1 off :
  asm32_ok (to_asm (Jalr rd rs1 off)) ->
  decode_rv32 addr (assemble (Jalr rd rs1 off)) syms = render (Jalr rd rs1 off).
Proof.
  intros Hok. cbn [to_asm] in Hok. text_of Hok. cbn [render].
  by destruct (Inst.rd d =? 0), (i_imm d =? 0), (Inst.rs1 d =? 1).
Qed.

(** Loads, stores and CSR accesses. *)
Definition load_text (op : load_op) : string :=
  match op with LB => "lb" | LH => "lh" | LW => "lw" | LBU => "lbu" | LHU => "lhu" end.
Definition store_text (op : store_op) : string := match op with SB => "sb" | SH => "sh" | SW => "sw" end.
Definition csr_text (op : csr_op) : string :=
  match op with
  | CSRRW => "csrrw" | CSRRS => "csrrs" | CSRRC => "csrrc"
  | CSRRWI => "csrrwi" | CSRRSI => "csrrsi" | CSRRCI => "csrrci"
  end.

Lemma text_load op r r1 off :
  asm32_ok (FmtI OP_LOAD r (load_code op) r1 off) ->
  decode_rv32 addr (encode32 (FmtI OP_LOAD r (load_code op) r1 off)) syms
  = text_mem (load_text op) (reg_name r) (fmt_dec off) (reg_name r1).
Proof. intros Hok. text_of Hok. match goal with E : funct3 _ = _ |- _ => rewrite E end. by destruct op. Qed.

Lemma text_store op r1 r2 off :
  asm32_ok (FmtS OP_STORE (store_code op) r1 r2 off) ->
  decode_rv32 addr (encode32 (FmtS OP_STORE (store_code op) r1 r2 off)) syms
  = text_mem (store_text op) (reg_name r2) (fmt_dec off) (reg_name r1).
Proof. intros Hok. text_of Hok. match goal with E : funct3 _ = _ |- _ => rewrite E end. by destruct op. Qed.

Lemma text_csr op r r1 num :
  is_u 5 r -> is_u 5 r1 -> is_u 12 num ->
  decode_rv32 addr (csr_word r (csr_code op) r1 num) syms
  = text3 (csr_text op) (reg_name r) ("0x" +:+ fmt_hex num) (reg_name r1).
Proof.
  intros Hr Hr1 Hn. assert (H3 : is_u 3 (csr_code op)) by by destruct op.
  destruct (csr_decode r (csr_code op) r1 num Hr H3 Hr1 Hn) as (Eop & Erd & Er1 & E3 & En).
  assert (Es : csr_word r (csr_code op) r1 num .>> 20 = num).
  { unfold csr_word, OP_SYSTEM. unfold_inst. bits. }
  set (w := csr_word r (csr_code op) r1 num) in *. clearbody w.
  assert (Hne : forall k, funct3 (decode32 k) = 0 -> (w =? k) = false).
  { intros k Hk. apply Z.eqb_neq. intros ->. rewrite E3 in Hk. by destruct op. }
  unfold decode_rv32. rewrite Eop. decide_consts. rewrite !Hne by done. cbv zeta. rewrite Es, E3, Erd, Er1. by destruct op.
Qed.

Lemma text_instr i : instr_ok i -> rendered i -> decode_rv32 addr (assemble i) syms = render i.
Proof.
  unfold instr_ok. destruct i as [| | | | |op rd rs1 imm| | |]; intros Hok Hr.
  - cbn [to_asm] in Hok. text_of Hok. by rewrite shr12.
  - cbn [to_asm] in Hok. text_of Hok. by rewrite shr12.
  - cbn [to_asm] in Hok. text_of Hok. by rewrite branch_target_text.
  - by apply text_jalr.
  - by apply text_branch.
  - rewrite text_op_imm by done. destruct op; try done. cbn [rendered render alui_text] in *.
    unfold sltiu_text. rewrite Z.mod_small; [done|]. cbn in Hok. unfold is_i in Hok. lia.
  - by apply text_shift.
  - by apply text_op.
  - destruct Hr.
Qed.

(** The CSR instructions whose source is a register. *)
Definition csr_from_reg (op : csr_op) : bool :=
  match op with CSRRW | CSRRS | CSRRC => true | _ => false end.

(** C38: The integer, memory and CSR instructions are shown as an assembler would
    write them, with three exceptions.  For every RV32IM register, immediate, shift,
    branch and jump instruction the text is its mnemonic (or the usual
    pseudo-instruction: [nop], [li], [mv], [j], [jr], [ret], [beqz], ...) with its
    operands, immediates in decimal with their sign; the target of a branch or jump
    is the address it transfers control to, with the symbol there if there is one.
    Loads and stores show the register transferred, the signed offset and the base
    register; [csrrw], [csrrs] and [csrrc] show their destination, the CSR number in
    hexadecimal and their source register.  The exceptions: a negative immediate of
    [sltiu] is shown as the unsigned number [2^32] above it, a [fence] is shown as
    [unimpl], and the immediate forms of the CSR instructions show the name of the
    register whose number is the immediate. *)
Theorem disasm_integer :
  (forall i, instr_ok i -> rendered i -> decode_rv32 addr (assemble i) syms = render i)
  /\ (forall op r r1 off, asm32_ok (FmtI OP_LOAD r (load_code op) r1 off) ->
      decode_rv32 addr (encode32 (FmtI OP_LOAD r (load_code op) r1 off)) syms
      = text_mem (load_text op) (reg_name r) (fmt_dec off) (reg_name r1))
  /\ (forall op r1 r2 off, asm32_ok (FmtS OP_STORE (store_code op) r1 r2 off) ->
      decode_rv32 addr (encode32 (FmtS OP_STORE (store_code op) r1 r2 off)) syms
      = text_mem (store_text op) (reg_name r2) (fmt_dec off) (reg_name r1))
  /\ (forall op r r1 num, csr_from_reg op = true -> is_u 5 r -> is_u 5 r1 -> is_u 12 num ->
      decode_rv32 addr (csr_word r (csr_code op) r1 num) syms
      = text3 (csr_text op) (reg_name r) ("0x" +:+ fmt_hex num) (reg_name r1))
  /\ (forall rd rs1 imm, instr_ok (OpImm SLTIU rd rs1 imm) -> imm < 0 ->
      decode_rv32 addr (assemble (OpImm SLTIU rd rs1 imm)) syms
      = text3 "sltiu" (reg_name rd) (reg_name rs1) (fmt_dec (imm + 2 ^ 32)))
  /\ decode_rv32 addr (assemble Fence) syms = "unimpl 0x0000000f"
  /\ (forall op r imm num, csr_from_reg op = false -> is_u 5 r -> is_u 5 imm -> is_u 12 num ->
      decode_rv32 addr (csr_word r (csr_code op) imm num) syms
      = text3 (csr_text op) (reg_name r) ("0x" +:+ fmt_hex num) (reg_name imm)).
Proof.
  split_and!; [exact text_instr|exact text_load|exact text_store|intros; by apply text_csr| | |intros; by apply text_csr].
  - intros rd rs1 imm Hok Hneg. rewrite text_op_imm by exact Hok. unfold sltiu_text. do 2 f_equal.
    unfold instr_ok in Hok. cbn in Hok. unfold is_i in Hok. symmetry. apply Z.mod_unique with (-1); lia.
  - by vm_compute.
Qed.
End Render.

(** ** Compressed instructions *)

(** A text that is not the one of a reserved code point. *)
Definition not_reserved (s : string) : Prop := starts_with "c.reserved" s = false.

Section RvcText.
Context (addr x : Z) (Hx : is_u 16 x).

Lemma rvc_imm6_table : rvc_imm6_sext x = c_imm x.
Proof. unfold rvc_imm6_sext, rvc_imm6. rvc_unfold. bits. Qed.
Lemma rvc_imm6_zero : (rvc_imm6 x =? 0) = (c_imm x =? 0).
Proof. rewrite <- zero_imm6 by done. f_equal. unfold rvc_imm6. rvc_unfold. bits. Qed.
Lemma target_rvc_table : format_target_rvc addr x = "0x" +:+ fmt_hex ((addr + c_j_imm x) mod 2 ^ 32).
Proof.
  rewrite <- off_j, <- wrapping_add_mod by done.
  unfold format_target_rvc, cj_offset, cj_imm. cbv zeta. reflexivity.
Qed.
Lemma branch_target_table :
  format_branch_target_rvc addr x = "0x" +:+ fmt_hex ((addr + c_b_imm x) mod 2 ^ 32).
Proof.
  rewrite <- off_b, <- wrapping_add_mod by done.
  unfold format_branch_target_rvc, cb_offset, cb_imm. cbv zeta. reflexivity.
Qed.

(** The text of a compressed instruction, from the instruction it expands to; the
    quadrant [q], [funct3] and bit 12 tell apart those with the same expansion. *)
Definition rvc_imm_text (q f3 : Z) (r b off : Z) : string :=
  if q =? 0 then "c.addi4spn " +:+ reg_name r +:+ ", sp, " +:+ fmt_dec off
  else if f3 =? 0 then if r =? 0 then "c.nop" else text2 "c.addi" (reg_name r) (fmt_dec off)
  else if f3 =? 2 then text2 "c.li" (reg_name r) (fmt_dec off)
  else if f3 =? 3 then "c.addi16sp sp, " +:+ fmt_dec off
  else text2 "c.andi" (reg_name r) (fmt_dec off).
Definition rvc_mem_text (q : Z) (op r : string) (off base : Z) : string :=
  if q =? 0 then text_mem op r (fmt_dec off) (reg_name base) else text_sp (op +:+ "sp") r off.
Definition rvc_jump_text (op : string) (off : Z) : string :=
  op +:+ "0x" +:+ fmt_hex ((addr + off) mod 2 ^ 32).

Definition rvc_render (q f3 : Z) (a : asm32) : string :=
  match a with
  | FmtI op r w b off =>
    if op =? OP_LOAD then rvc_mem_text q "c.lw" (reg_name r) off b
    else if op =? OP_LOAD_FP then
      rvc_mem_text q (if w =? 2 then "c.flw" else "c.fld") (freg_name r) off b
    else if op =? OP_IMM then rvc_imm_text q f3 r b off
    else if op =? OP_JALR then (if r =? 0 then "c.jr " else "c.jalr ") +:+ reg_name b
    else "c.ebreak"
  | FmtS op w b r off =>
    if op =? OP_STORE then rvc_mem_text q "c.sw" (reg_name r) off b
    else rvc_mem_text q (if w =? 2 then "c.fsw" else "c.fsd") (freg_name r) off b
  | FmtU _ r imm => text2 "c.lui" (reg_name r) (fmt_dec (i32 imm / 2 ^ 12))
  | FmtR op r w _ b f7 =>
    if op =? OP_IMM then
      text2 (if w =? 1 then "c.slli" else if f7 =? 0 then "c.srli" else "c.srai") (reg_name r) (fmt_dec b)
    else
      text2 (if q =? 2 then if slice x 12 1 =? 0 then "c.mv" else "c.add"
             else if w =? 0 then "c.sub" else if w =? 4 then "c.xor" else if w =? 6 then "c.or" else "c.and")
        (reg_name r) (reg_name b)
  | FmtJ _ r off => rvc_jump_text (if r =? 0 then "c.j " else "c.jal ") off
  | FmtB _ w r _ off => text2 (if w =? 0 then "c.beqz" else "c.bnez") (reg_name r) (rvc_jump_text "" off)
  | FmtR4 _ _ _ _ _ _ _ => ""
  end.

(** The text is that of the expansion, or says that there is none. *)
Definition text_matches (q f3 : Z) (o : option asm32) (text : string) : Prop :=
  match o with
  | None => text = "c.reserved 0x" +:+ fmt_hex_pad 4 x
  | Some a => not_reserved text /\ text = rvc_render q f3 a
  end.

Lemma text_q0 f3 : is_u 3 f3 -> text_matches 0 f3 (expand_q0 x f3) (decode_rvc_q0 x f3).
Proof.
  intros Hf. pose proof (is_u_3_cases f3 Hf) as Hcases.
  destruct_or! Hcases; subst f3; unfold expand_q0, decode_rvc_q0; cbv zeta; decide_consts;
    rewrite ?off_lw, ?off_ld, ?creg_field by auto; try done.
  fold (addi4spn_imm x). rewrite off_4spn by done. by destruct (c_addi4spn_uimm x =? 0).
Qed.

Lemma lui_imm : i32 (u32 (c_imm x .<< 12)) / 2 ^ 12 = c_imm x.
Proof.
  pose proof (sext_is_i 6 (slice x 12 1 .<< 5 + slice x 2 5) ltac:(lia)) as Hc. fold (c_imm x) in Hc.
  unfold is_i in Hc. rewrite Z.shiftl_mul_pow2 by lia. unfold i32, u32, wrap, sext. zlia.
Qed.

Lemma addi16sp_offset_eq i : addi16sp_offset i = i16 (i16 i .<< 6) .>> 6.
Proof. reflexivity. Qed.
Lemma addi16sp_text : i16 (i16 (addi16sp_imm x) .<< 6) .>> 6 = c_addi16sp_imm x.
Proof. by rewrite <- addi16sp_offset_eq, off_16sp. Qed.

Lemma text_lui : text_matches 1 3 (expand_q1 x 3) (decode_rvc_lui x).
Proof.
  unfold expand_q1, decode_rvc_lui. cbv zeta. decide_consts. fold (addi16sp_imm x).
  rewrite addi16sp_text, rvc_imm6_table.
  rewrite field5, zero_16sp, rvc_imm6_zero by auto. destruct (slice x 7 5 =? 2).
  - by destruct (c_addi16sp_imm x =? 0).
  - destruct (slice x 7 5 =? 0), (c_imm x =? 0); [done..|]. cbn [orb]. split; [done|].
    cbn [rvc_render]. by rewrite lui_imm.
Qed.

Lemma slice1_cases lo : slice x lo 1 = 0 \/ slice x lo 1 = 1.
Proof. pose proof (slice_range x lo 1 ltac:(lia)) as Hu. unfold is_u in Hu. lia. Qed.

Lemma text_alu : text_matches 1 4 (expand_alu x) (decode_rvc_alu x).
Proof.
  destruct (field_sel x Hx) as [Fs Fv].
  unfold expand_alu, decode_rvc_alu. cbv zeta. rewrite Fs, Fv, field_bit12, rvc_imm6_table by done.
  rewrite field5, !creg_field by auto.
  assert (Hsel : is_u 2 (slice x 10 2)) by by apply slice_range.
  assert (Hv : is_u 2 (slice x 5 2)) by by apply slice_range.
  destruct (is_u_2_cases _ Hsel) as [E|[E|[E|E]]], (slice1_cases 12) as [Eb|Eb]; rewrite E, Eb; try done.
  by destruct (is_u_2_cases _ Hv) as [E2|[E2|[E2|E2]]]; rewrite E2.
Qed.

Lemma text_q1 f3 : is_u 3 f3 -> text_matches 1 f3 (expand_q1 x f3) (decode_rvc_q1 addr x f3).
Proof.
  intros Hf. pose proof (is_u_3_cases f3 Hf) as Hcases.
  destruct_or! Hcases; subst f3; try exact text_lui.
  all: unfold expand_q1, decode_rvc_q1; cbv zeta; decide_consts; rewrite ?target_rvc_table,
    ?branch_target_table, ?rvc_imm6_table; rewrite ?field5, ?creg_field by auto; try done.
  - cbn [text_matches rvc_render]. decide_consts. unfold rvc_imm_text. decide_consts.
    by destruct (slice x 7 5 =? 0).
  - exact text_alu.
Qed.

Lemma text_q2 f3 : is_u 3 f3 -> text_matches 2 f3 (expand_q2 x f3) (decode_rvc_q2 x f3).
Proof.
  intros Hf. pose proof (is_u_3_cases f3 Hf) as Hcases.
  destruct_or! Hcases; subst f3; unfold expand_q2, decode_rvc_q2; cbv zeta; decide_consts;
    rewrite ?off_lwsp, ?off_ldsp, ?off_swsp, ?off_sdsp by done; rewrite ?field5, ?field_bit12 by auto; try done.
  - by destruct (slice1_cases 12) as [-> | ->].
  - by destruct (slice x 7 5 =? 0).
  - cbn [text_matches rvc_render].
    destruct (slice1_cases 12) as [E | E]; rewrite E; destruct (slice x 7 5 =? 0), (slice x 2 5 =? 0);
      decide_consts; cbn [andb]; try done; unfold text_matches, rvc_render; rewrite E; by decide_consts.
Qed.

Lemma rvc_text_matches : slice x 0 2 <> 3 -> text_matches (slice x 0 2) (slice x 13 3) (expand x) (decode_rvc addr x).
Proof.
  intros Hop. assert (Hf3 : is_u 3 (slice x 13 3)) by by apply slice_range.
  pose proof (slice_range x 0 2 ltac:(lia)) as Ho.
  assert (Fo : x .& 0x3 = slice x 0 2) by (rvc_unfold; bits).
  assert (Ff : shift_then_mask x 13 0x7 = slice x 13 3) by (rvc_unfold; bits).
  unfold expand, decode_rvc. cbv zeta. rewrite Fo, Ff.
  destruct (is_u_2_cases _ Ho) as [E|[E|[E|E]]]; rewrite E in *; decide_consts; [..|done].
  - by apply text_q0.
  - by apply text_q1.
  - by apply text_q2.
Qed.
End RvcText.

(** ** The hexadecimal column *)

Lemma digits_length base fuel n z acc :
  2 <= base -> 0 <= z < base ^ Z.of_nat (S n) -> (n < fuel)%nat ->
  (String.length (digits base fuel z acc) <= S n + String.length acc)%nat.
Proof.
  intros Hb. revert fuel z acc. induction n as [|n IH]; intros fuel z acc Hz Hf;
    (destruct fuel as [|fuel]; [lia|]); cbn [digits].
  - change (base ^ Z.of_nat 1) with (base ^ 1) in Hz. rewrite Z.pow_1_r in Hz.
    rewrite Z.div_small by lia. cbn. lia.
  - destruct (z / base =? 0); [cbn; lia|]. etransitivity; [apply IH|cbn; lia]; [|lia].
    rewrite (Nat2Z.inj_succ (S n)), Z.pow_succ_r in Hz by lia.
    split; [apply Z.div_pos; lia|apply Z.div_lt_upper_bound; lia].
Qed.

Fixpoint zeros (k : nat) : string := match k with O => "" | S k => String "0"%char (zeros k) end.

Lemma concat_zeros k : String.concat "" (replicate k "0") = zeros k.
Proof.
  induction k as [|k IH]; [done|]. destruct k as [|k]; [done|].
  change (String.concat "" (replicate (S (S k)) "0"))
    with (String "0"%char (String.concat "" (replicate (S k) "0"))). by rewrite IH.
Qed.

Lemma length_zeros k s : String.length (zeros k +:+ s) = (k + String.length s)%nat.
Proof.
  induction k as [|k IH]; [done|]. change (zeros (S k) +:+ s) with (String "0"%char (zeros k +:+ s)).
  cbn [String.length]. by rewrite IH.
Qed.

Lemma parse_digits_zeros base bound k s :
  2 <= base -> 0 < bound -> parse_digits base bound 0 (zeros k +:+ s) = parse_digits base bound 0 s.
Proof.
  intros Hb Hbd. induction k as [|k IH]; [done|]. change (zeros (S k) +:+ s) with (String "0"%char (zeros k +:+ s)).
  cbn [parse_digits]. change (digit_value "0") with (Some 0).
  cbv beta iota zeta. change (0 * base + 0) with 0.
  by rewrite (proj2 (Z.ltb_lt 0 base)), (proj2 (Z.ltb_lt 0 bound)) by lia.
Qed.

Lemma hex_pad_spec n z :
  is_u 32 z -> z < 16 ^ Z.of_nat (S n) -> (n < 64)%nat ->
  parse_radix 16 (2 ^ 32) (fmt_hex_pad (S n) z) = Some z /\ String.length (fmt_hex_pad (S n) z) = S n.
Proof.
  intros Hz Hn Hf. unfold is_u in Hz. unfold fmt_hex_pad, zero_pad. rewrite concat_zeros.
  pose proof (digits_length 16 64 n z "" ltac:(lia) ltac:(lia) Hf) as Hlen. cbn [String.length] in Hlen.
  fold (fmt_radix 16 z) in Hlen. rewrite length_zeros. split; [|lia].
  destruct (S n - String.length (fmt_radix 16 z))%nat as [|k].
  { change (zeros 0 +:+ fmt_radix 16 z) with (fmt_radix 16 z).
    apply parse_fmt_radix; [lia|unfold is_u; lia|lia]. }
  change (parse_digits 16 (2 ^ 32) 0 (zeros (S k) +:+ fmt_radix 16 z) = Some z).
  rewrite parse_digits_zeros by lia. unfold fmt_radix. by rewrite parse_digits_digits by lia.
Qed.

Section DisasmTheorems.
Context {H Mem : Type} `{HostOps H} `{!MemoryOps H Mem} `{BuildProfile} `{FloatEnv}.

(** C39: A line of the disassembly belongs to its instruction.  For every 32-bit
    word at every address: the hexadecimal column is the word (the low halfword for
    a compressed instruction), in eight (four) digits; an instruction counts as
    compressed exactly when its two low bits are not [11]; a compressed code point
    is shown as [c.reserved] exactly when the CPU refuses it as illegal, and any
    other shows the mnemonic, registers, immediate and target of the instruction it
    expands to, whose effect the CPU's is. *)
Theorem disasm_line (s : Machine H Mem) addr w syms :
  overflow_checks = false -> cpu_ok (cpu s) -> is_u 32 w ->
  let i := decode_instruction_with_symbols addr w syms in
  let half := w mod 2 ^ 16 in
  parse_radix 16 (2 ^ 32) (opcode_hex i) = Some (if is_compressed i then half else w)
  /\ String.length (opcode_hex i) = (if is_compressed i then 4%nat else 8%nat)
  /\ is_compressed i = negb (w mod 4 =? 3)
  /\ (is_compressed i = true ->
      text_matches addr half (slice half 0 2) (slice half 13 3) (expand half) (asm_text i)
      /\ match expand half with
         | Some a => forall npc, dispatch16 half npc s = dispatch32 (decode32 (encode32 a)) npc s
         | None => execute_inst16 half s = Err (IllegalInstruction (pc (cpu s)) half) s
         end).
Proof.
  intros Hr Hc Hw i half. assert (Hh : is_u 16 half) by by apply wrap_is_u.
  assert (Hl : w .& 0x3 = w mod 4) by (change 0x3 with (Z.ones 2); by rewrite Z.land_ones).
  assert (Hm : u16 (w .& 0xFFFF) = half).
  { change 0xFFFF with (Z.ones 16). rewrite Z.land_ones by lia. by apply wrap_small. }
  assert (Hi : is_compressed i = negb (w mod 4 =? 3)).
  { subst i. unfold decode_instruction_with_symbols. rewrite Hl. by destruct (w mod 4 =? 3). }
  assert (Hhex : opcode_hex i = if is_compressed i then fmt_hex_pad 4 half else fmt_hex_pad 8 w).
  { subst i. unfold decode_instruction_with_symbols. rewrite Hl, Hm. by destruct (w mod 4 =? 3). }
  assert (Htext : is_compressed i = true -> asm_text i = decode_rvc addr half).
  { subst i. unfold decode_instruction_with_symbols. rewrite Hl, Hm. by destruct (w mod 4 =? 3). }
  rewrite Hhex. unfold is_u in Hw, Hh.
  split_and!; try done.
  - destruct (is_compressed i); apply hex_pad_spec; unfold is_u; cbn; lia.
  - destruct (is_compressed i); apply hex_pad_spec; unfold is_u; cbn; lia.
  - intros Hcomp. rewrite Htext by done.
    assert (Hop : slice half 0 2 <> 3).
    { rewrite Hi in Hcomp. unfold slice, half. change (2 ^ 0) with 1. change (2 ^ 2) with 4.
      rewrite Z.div_1_r. zlia. }
    split; [by apply rvc_text_matches|]. by apply compressed_expands.
Qed.
End DisasmTheorems.

(** ** The hypotheses hold *)

#[local] Existing Instance release_profile.
#[local] Existing Instance default_float_env.

Lemma disasm_integer_witness :
  decode_rv32 0x1000 (assemble (Branch BNE 10 0 (-16))) None = "bnez a0, 0xff0"
  /\ decode_rv32 0x1000 (csr_word 5 (csr_code CSRRSI) 8 0x300) None = "csrrsi t0, 0x300, s0".
Proof.
  split.
  - exact (proj1 (disasm_integer 0x1000 None) (Branch BNE 10 0 (-16))
      ltac:(vm_compute; repeat split; (reflexivity || discriminate)) I).
  - destruct (disasm_integer 0x1000 None) as (_ & _ & _ & _ & _ & _ & Hc).
    exact (Hc CSRRSI 5 8 0x300 eq_refl ltac:(unfold is_u; lia) ltac:(unfold is_u; lia) ltac:(unfold is_u; lia)).
Defined.

(** [c.j] to itself. *)
Lemma disasm_line_witness :
  is_compressed (decode_instruction_with_symbols 0x1000 0xA001 None) = true
  /\ opcode_hex (decode_instruction_with_symbols 0x1000 0xA001 None) = "a001"
  /\ asm_text (decode_instruction_with_symbols 0x1000 0xA001 None) = "c.j 0x1000".
Proof.
  split; [exact (proj1 (proj2 (proj2 (disasm_line fresh_machine 0x1000 0xA001 None eq_refl Cpu_new_ok
    ltac:(unfold is_u; lia)))))|]. split; reflexivity.
Defined.
