(* ===== verification/SimProps.v ===== *)
(** The simulator: loading a program gives a fresh, well-formed machine with the
    program's image in memory; the debugger commands stop where they say and leave the
    breakpoints as they were; the disassembly of a range is complete. *)

From S2P Require Import Prelude Bits Inst Fmt Host Memory MemoryProps Float Cpu Syscall Exec Rvc Run Safe SafeExec RunProps IsaSpec RvcProps RunRef IsaMem Cli Disasm Sim.

(** ** The loader *)

Section Load.
Context {H : Type} `{HostOps H} `{BuildProfile} `{Target} (Hrelease : overflow_checks = false).
Implicit Types s : Machine H Memory.
Abbreviation M := (EM (Machine H Memory) Infallible).

(** A computation that changes only the memory and the host, and returns unless
    [bad], when it panics. *)
Definition mem_only {A} (bad : bool) (m : M A) (Q : A -> Prop) : Prop :=
  forall s, mem_ok (mem s) ->
  if bad then m s = Panic
  else exists a m' h', m s = Ok a (Build_Machine (cpu s) m' h') /\ mem_ok m' /\ Q a.

Lemma mem_only_ret {A} (a : A) (Q : A -> Prop) : Q a -> mem_only false (mret a) Q.
Proof. intros HQ s Hs. exists a, (mem s), (host s). by destruct s. Qed.

Lemma mem_only_bind {A B} b1 b2 (m : M A) (f : A -> M B) Q' Q :
  mem_only b1 m Q' -> (forall a, Q' a -> mem_only b2 (f a) Q) -> mem_only (b1 || b2) (m ≫= f) Q.
Proof.
  intros Hm Hf s Hs. specialize (Hm s Hs). destruct b1; cbn [orb].
  - unfold mbind, EM_bind. by rewrite Hm.
  - destruct Hm as (a & m' & h' & E & Hm' & Ha). rewrite (em_bind_ok _ _ _ _ _ E).
    by apply (Hf a Ha (Build_Machine (cpu s) m' h')).
Qed.

Lemma mem_only_add w a b : mem_only false (checked_add w a b) (fun r => r = wrap w (a + b)).
Proof. unfold checked_add. rewrite Hrelease. by apply mem_only_ret. Qed.
Lemma mem_only_sub w a b : mem_only false (checked_sub w a b) (fun r => r = wrap w (a - b)).
Proof. unfold checked_sub. rewrite Hrelease. by apply mem_only_ret. Qed.

(** A range of the file whose end does not overflow the target's [usize]. *)
Definition range_fits (offset size : Z) : Prop :=
  wrap usize_bits offset + wrap usize_bits size < 2 ^ usize_bits.

Lemma byte_slice_in binary offset size :
  0 <= offset -> 0 <= size -> offset + size <= Z.of_nat (length binary) ->
  byte_slice binary offset (offset + size)
  = Some (take (Z.to_nat size) (drop (Z.to_nat offset) binary)).
Proof.
  intros. unfold byte_slice. rewrite (proj2 (Z.leb_le offset _)), (proj2 (Z.leb_le _ _)) by lia.
  cbn [andb]. by replace (offset + size - offset) with size by lia.
Qed.

(** The part of the file a header selects, if it is inside the file. *)
Definition file_range (binary : list Z) (offset size : Z) : option (list Z) :=
  let offset := wrap usize_bits offset in
  let size := wrap usize_bits size in
  if offset + size <=? Z.of_nat (length binary) then
    Some (take (Z.to_nat size) (drop (Z.to_nat offset) binary))
  else None.

Lemma load_range_run binary offset size addr s :
  0 <= usize_bits -> range_fits offset size ->
  load_range binary (wrap usize_bits offset) (wrap usize_bits size) addr s
  = match file_range binary offset size with
    | Some bytes => mwrite (fun m => write_bytes m addr bytes) s
    | None => Ok tt s
    end.
Proof.
  intros Hw Hfit. unfold range_fits in Hfit.
  pose proof (wrap_is_u usize_bits offset Hw) as [Ho _]. pose proof (wrap_is_u usize_bits size Hw) as [Hs _].
  unfold load_range, file_range, checked_add. rewrite (proj2 (Z.leb_gt _ _)) by lia. rewrite andb_false_r.
  rewrite (wrap_small _ (_ + _)) by (unfold is_u; lia).
  unfold mbind at 1, EM_bind at 1, mret at 1, EM_ret at 1.
  destruct (Z.leb_spec (wrap usize_bits offset + wrap usize_bits size) (Z.of_nat (length binary))); [|done].
  by rewrite byte_slice_in.
Qed.

Lemma mem_only_write_bytes addr bytes :
  is_u 32 addr -> Forall (is_u 8) bytes ->
  mem_only false (mwrite (fun m => write_bytes m addr bytes)) (fun _ => True).
Proof.
  intros Ha Hb s Hs. unfold mwrite.
  destruct (write_bytes_law (MemoryLaws:=Memory_laws (H:=H)) (mem s) addr bytes (host s) Hs Ha Hb) as (m' & h' & E & Hm').
  rewrite E. by exists tt, m', h'.
Qed.

Lemma file_range_bytes binary offset size bytes :
  Forall (is_u 8) binary -> file_range binary offset size = Some bytes -> Forall (is_u 8) bytes.
Proof.
  intros Hb. unfold file_range. cbv zeta. destruct (_ <=? _); [|done]. intros [= <-].
  by apply Forall_take, Forall_drop.
Qed.

Section File.
Context (binary : list Z) (Hbytes : Forall (is_u 8) binary) (Hw : 0 <= usize_bits).

(** A range whose end wraps around the target's [usize] to a place inside the file:
    it passes the loader's bounds test, and the slice panics. *)
Definition range_bad (offset size : Z) : bool :=
  let stop := wrap usize_bits offset + wrap usize_bits size in
  (2 ^ usize_bits <=? stop) && (stop - 2 ^ usize_bits <=? Z.of_nat (length binary)).

Lemma load_range_wraps offset size addr s :
  2 ^ usize_bits <= wrap usize_bits offset + wrap usize_bits size ->
  load_range binary (wrap usize_bits offset) (wrap usize_bits size) addr s
  = if range_bad offset size then Panic else Ok tt s.
Proof.
  intros Hov. pose proof (wrap_is_u usize_bits offset Hw) as [Ho Ho']. pose proof (wrap_is_u usize_bits size Hw) as [Hs Hs'].
  unfold load_range, checked_add, range_bad. rewrite Hrelease, (proj2 (Z.leb_le _ _) Hov). cbn [andb].
  set (o := wrap usize_bits offset) in *. set (n := wrap usize_bits size) in *.
  replace (wrap usize_bits (o + n)) with (o + n - 2 ^ usize_bits).
  2:{ unfold wrap. apply Z.mod_unique with 1; lia. }
  unfold mbind at 1, EM_bind at 1, mret at 1, EM_ret at 1. destruct (_ <=? _); [|done].
  unfold byte_slice. by rewrite (proj2 (Z.leb_gt o _)) by lia.
Qed.

Lemma mem_only_load_range offset size addr :
  is_u 32 addr ->
  mem_only (range_bad offset size)
    (load_range binary (wrap usize_bits offset) (wrap usize_bits size) addr) (fun _ => True).
Proof.
  intros Ha s Hs.
  destruct (Z.le_gt_cases (2 ^ usize_bits) (wrap usize_bits offset + wrap usize_bits size)) as [Hov|Hfit].
  - rewrite load_range_wraps by done. destruct (range_bad offset size); [done|].
    by apply (mem_only_ret tt (fun _ => True) I).
  - unfold range_bad. rewrite (proj2 (Z.leb_gt _ _) Hfit). cbn [andb]. rewrite load_range_run by done.
    destruct (file_range binary offset size) as [bytes|] eqn:E.
    + apply (mem_only_write_bytes addr bytes); [done| |done]. by apply file_range_bytes with binary offset size.
    + by apply (mem_only_ret tt (fun _ => True) I).
Qed.

Definition segment_bad (ph : ProgramHeader) : bool :=
  (p_type ph =? PT_LOAD) && range_bad (p_offset ph) (p_filesz ph).
Definition section_bad (sh : SectionHeader) : bool :=
  is_allocated sh && negb (sh_type sh =? SHT_NOBITS) && range_bad (sh_offset sh) (sh_size sh).

Lemma mem_only_segments phdrs :
  mem_only (existsb segment_bad phdrs) (load_segments binary phdrs) (fun _ => True).
Proof.
  induction phdrs as [|ph phdrs IH]; [by apply mem_only_ret|]. cbn [load_segments existsb].
  apply mem_only_bind with (fun _ => True); [|done]. unfold segment_bad.
  destruct (p_type ph =? PT_LOAD); [|by apply mem_only_ret].
  apply mem_only_load_range, u32_range.
Qed.

Lemma mem_only_place shdr cur : mem_only false (place_section shdr cur) (fun r => is_u 32 r.1).
Proof.
  unfold place_section. destruct (negb _); [apply mem_only_ret, u32_range|]. cbv zeta.
  eapply (mem_only_bind false false); [apply mem_only_add|]. intros a ->.
  eapply (mem_only_bind false false); [apply mem_only_sub|]. intros b ->.
  eapply (mem_only_bind false false); [apply mem_only_sub|]. intros c ->.
  eapply (mem_only_bind false false); [apply mem_only_add|]. intros d ->.
  apply mem_only_ret. cbn [fst]. apply land_range; [apply u32_range|apply not_u_range, u32_range].
Qed.

Lemma mem_only_sections shdrs cur addrs :
  mem_only (existsb section_bad shdrs) (load_sections binary shdrs cur addrs) (fun _ => True).
Proof.
  revert cur addrs. induction shdrs as [|sh shdrs IH]; intros cur addrs;
    cbn [load_sections existsb]; [by apply mem_only_ret|]. unfold section_bad at 1.
  destruct (is_allocated sh); cbn [andb]; [|apply IH].
  eapply (mem_only_bind false); [apply mem_only_place|]. intros [addr cur'] Ha. cbn [fst] in Ha.
  apply mem_only_bind with (fun _ => True); [|intros; apply IH].
  destruct (negb _); [by apply mem_only_load_range|by apply mem_only_ret].
Qed.
End File.

(** No loadable segment has a range that overflows [usize]. *)
Definition segments_fit (phdrs : list ProgramHeader) : Prop :=
  Forall (fun ph => p_type ph = PT_LOAD -> range_fits (p_offset ph) (p_filesz ph)) phdrs.
End Load.

(** ** A loaded simulator *)

Definition init_regs (inits : list (Z * Z)) (c : Cpu) : Cpu :=
  foldl (fun c '(r, v) => set_X r v c) c inits.

Lemma init_regs_ok inits c : Forall init_ok inits -> cpu_ok c -> cpu_ok (init_regs inits c).
Proof.
  intros Hi. revert c. induction Hi as [|[r v] inits [Hr Hv] _ IH]; intros c Hc; [done|].
  cbn [init_regs foldl fst snd] in *. apply IH, set_X_ok; [done|unfold is_u; lia|done].
Qed.

(** Setting registers changes nothing else. *)
Lemma init_regs_frame inits c :
  exists l, init_regs inits c = with_regs l c.
Proof.
  revert c. induction inits as [|[r v] inits IH]; intros c; [exists (regs c); by destruct c|].
  destruct (IH (set_X r v c)) as [l Hl]. exists l. cbn [init_regs foldl]. unfold init_regs in Hl. rewrite Hl.
  unfold set_X. by destruct (r =? 0).
Qed.

Section LoadTheorem.
Context {H : Type} `{HostOps H} `{BuildProfile} `{Target} `{ElfParser}.

Lemma init_registers_run inits (s : Machine H Memory) :
  Forall init_ok inits -> cpu_ok (cpu s) ->
  init_registers inits s = Ok tt (on_cpu (init_regs inits) s).
Proof.
  intros Hi. revert s. induction Hi as [|[r v] inits [Hr Hv] _ IH]; intros s Hc; [by destruct s|].
  cbn [init_registers fst snd] in *. assert (is_u 5 r) by (unfold is_u; lia).
  rewrite write_reg_run by done. rewrite IH by (apply set_X_ok; done). done.
Qed.

Lemma on_machine_run {A} (m : EM (Machine H Memory) Infallible A) (s : Simulator H) a c :
  m (machine s) = Ok a c -> on_machine m s = Ok a (Build_Simulator c (symbols s)).
Proof. intros E. unfold on_machine. by rewrite E. Qed.

(** The file has a header the loader panics on. *)
Definition elf_bad (binary : list Z) (elf : Elf) : bool :=
  if bool_decide (program_headers elf = []) then existsb (section_bad binary) (section_headers elf)
  else existsb (segment_bad binary) (program_headers elf).
Definition file_bad (binary : list Z) : bool :=
  match elf_parse binary with Some elf => elf_bad binary elf | None => false end.

(** A simulator whose CPU is [c] and whose memory is well-formed. *)
Definition loaded (c : Cpu) (o : outcome (Simulator H) Infallible Z) : Prop :=
  exists entry m h syms,
    o = Ok entry (Build_Simulator (Build_Machine (with_pc entry c) m h) syms) /\ mem_ok m /\ is_u 32 entry.

Lemma find_start_range elf syms entry : is_u 32 entry -> is_u 32 (find_start elf syms entry).
Proof.
  intros He. induction syms as [|sym syms IH]; [done|]. cbn [find_start].
  destruct (strtab_get_at elf (st_name sym)); [|done]. destruct (_ && _); [apply u32_range|done].
Qed.

Lemma object_entry_range elf addrs entry syms :
  is_u 32 entry -> is_u 32 (object_symbols elf addrs entry syms).1.
Proof.
  intros He. unfold object_symbols. revert entry syms He.
  induction (elf_syms elf) as [|sym l IH]; intros entry syms He; [done|]. cbn [fold_left].
  destruct (strtab_get_at elf (st_name sym)); [|by apply IH]. destruct (negb _); [|by apply IH].
  apply IH. destruct (_ && _); [apply wrapping_add_u32|done].
Qed.

(** The machine the program is loaded into. *)
Definition reset_machine (args : list string) (s : Simulator H) : Machine H Memory :=
  Build_Machine
    (init_regs (register_inits (parse_args args))
       (with_custom_syscalls (has_custom_syscalls (cpu (machine s))) Cpu_new))
    Memory_new (host (machine s)).

Lemma parse_args_ok args : Forall init_ok (register_inits (parse_args args)).
Proof. apply (parse_args_loop_ok args). constructor. Qed.

Lemma load_reset binary args (s : Simulator H) :
  load_binary_with_args binary args s =
  match elf_parse binary with
  | Some elf => load_elf binary elf
  | None =>
    on_machine (mwrite (fun m => write_bytes m 0 binary);; modify_cpu (with_pc 0));;
    mret 0
  end (Build_Simulator (reset_machine args s) ∅).
Proof.
  set (s1 := Build_Machine (with_custom_syscalls (has_custom_syscalls (cpu (machine s))) Cpu_new)
               Memory_new (host (machine s))).
  assert (Hc1 : cpu_ok (cpu s1)) by (destruct Cpu_new_ok; by split).
  pose proof (init_registers_run _ s1 (parse_args_ok args) Hc1) as Hinit.
  unfold load_binary_with_args, mbind, EM_bind, on_machine.
  cbn [modify_cpu modify_mem em_modify modify_symbols machine symbols cpu mem host].
  fold s1. by rewrite Hinit.
Qed.

Section OneFile.
Context (Hrelease : overflow_checks = false) (Hw : 0 <= usize_bits).
Context (binary : list Z) (Hbytes : Forall (is_u 8) binary).

Lemma load_elf_loaded elf (s : Simulator H) :
  mem_ok (mem (machine s)) ->
  if elf_bad binary elf then load_elf binary elf s = Panic
  else loaded (cpu (machine s)) (load_elf binary elf s).
Proof.
  intros Hm. unfold load_elf, elf_bad.
  set (tail := fun e => if negb (e_entry elf =? 0) then find_start elf (elf_syms elf) e else e).
  assert (Htail : forall e, is_u 32 e -> is_u 32 (tail e)).
  { intros e He. unfold tail. destruct (negb _); [by apply find_start_range|done]. }
  destruct (bool_decide (program_headers elf = [])); cbn [negb].
  - pose proof (mem_only_sections Hrelease binary Hbytes Hw (section_headers elf) 0x10000 [] (machine s) Hm) as Hs.
    destruct (existsb _ _); [unfold mbind, EM_bind, on_machine; by rewrite Hs|].
    destruct Hs as (addrs & m' & h' & E & Hm' & _).
    unfold mbind, EM_bind. rewrite (on_machine_run _ _ _ _ E). unfold em_gets. cbn [symbols].
    pose proof (object_entry_range elf addrs (u32 (e_entry elf)) (symbols s) (u32_range _)) as He.
    destruct (object_symbols elf addrs (u32 (e_entry elf)) (symbols s)) as [entry syms]. cbn [fst] in He.
    exists (tail (if entry =? 0 then 0x10000 else entry)), m', h', syms.
    split; [done|]. split; [done|]. apply Htail. by destruct (entry =? 0).
  - pose proof (mem_only_segments Hrelease binary Hbytes Hw (program_headers elf) (machine s) Hm) as Hs.
    destruct (existsb _ _); [unfold mbind, EM_bind, on_machine; by rewrite Hs|].
    destruct Hs as (u & m' & h' & E & Hm' & _).
    unfold mbind, EM_bind. rewrite (on_machine_run _ _ _ _ E).
    exists (tail (u32 (e_entry elf))), m', h', (exec_symbols elf (symbols s)).
    split; [done|]. split; [done|]. apply Htail, u32_range.
Qed.

Lemma load_loaded args (s : Simulator H) :
  if file_bad binary then load_binary_with_args binary args s = Panic
  else loaded (with_custom_syscalls (has_custom_syscalls (cpu (machine s)))
                 (init_regs (register_inits (parse_args args)) Cpu_new))
         (load_binary_with_args binary args s).
Proof.
  set (custom := has_custom_syscalls (cpu (machine s))).
  set (inits := register_inits (parse_args args)).
  assert (Hc : with_custom_syscalls custom (init_regs inits Cpu_new)
               = init_regs inits (with_custom_syscalls custom Cpu_new)).
  { generalize Cpu_new. induction inits as [|[r v] l IH]; intros c0; [done|].
    cbn [init_regs foldl]. unfold init_regs in IH. rewrite IH. f_equal.
    unfold set_X. by destruct (r =? 0). }
  unfold file_bad. rewrite load_reset, Hc. destruct (elf_parse binary) as [elf|].
  - exact (load_elf_loaded elf (Build_Simulator (reset_machine args s) ∅) Memory_new_ok).
  - destruct (mem_only_write_bytes 0 binary ltac:(done) Hbytes (reset_machine args s) Memory_new_ok)
      as (u & m' & h' & Ew & Hm' & _).
    exists 0, m', h', ∅. unfold mbind, EM_bind, on_machine. cbn [machine symbols]. by rewrite Ew.
Qed.
End OneFile.

(** A new simulator with a custom-syscall flag and a host. *)
Definition blank (flag : bool) (h : H) : Simulator H :=
  Build_Simulator (Build_Machine (with_custom_syscalls flag Cpu_new) Memory_new h) ∅.

(** C34: Loading starts from scratch, and panics exactly on wrapping headers.  For
    every file (a sequence of bytes), every argument list and every simulator,
    whatever was loaded or running before, in the release build:
    [load_binary_with_args] does exactly what it does on a new simulator with the
    same custom-syscall flag and host, so nothing else of the old CPU, memory or
    symbol table has any effect.  It panics if and only if the file is ELF and has
    a loadable segment (or, without program headers, an allocated section with
    contents) whose file range wraps around [usize] to an end inside the file.
    Otherwise it returns a well-formed machine with the program counter at the
    entry point it returns, not halted, no breakpoints, step counter zero, and the
    registers of a new CPU with the initial values of the arguments. *)
Theorem load_fresh binary args (s : Simulator H) :
  overflow_checks = false -> 0 <= usize_bits -> Forall (is_u 8) binary ->
  load_binary_with_args binary args s
  = load_binary_with_args binary args (blank (has_custom_syscalls (cpu (machine s))) (host (machine s)))
  /\ (load_binary_with_args binary args s = Panic <-> file_bad binary = true)
  /\ (file_bad binary = false ->
      exists entry s', load_binary_with_args binary args s = Ok entry s'
        /\ machine_ok (machine s')
        /\ cpu (machine s') = with_pc entry (with_custom_syscalls (has_custom_syscalls (cpu (machine s)))
             (init_regs (register_inits (parse_args args)) Cpu_new))
        /\ is_halted (cpu (machine s')) = false /\ trapped (cpu (machine s')) = false
        /\ breakpoints (cpu (machine s')) = ∅ /\ step_counter (cpu (machine s')) = 0
        /\ resume_past_breakpoint (cpu (machine s')) = None).
Proof.
  intros Hr Hw Hb. split; [by rewrite !load_reset|].
  pose proof (load_loaded Hr Hw binary Hb args s) as Hl. destruct (file_bad binary); [by rewrite Hl|].
  destruct Hl as (entry & m & h & syms & E & Hm & He). rewrite E. split; [done|].
  intros _. eexists _, _. split; [done|]. cbn [machine cpu].
  pose proof (init_regs_ok _ _ (parse_args_ok args) Cpu_new_ok) as Hc.
  destruct (init_regs_frame (register_inits (parse_args args)) Cpu_new) as [l Hl'].
  split_and!; try done; try by rewrite Hl'.
  split; [|done]. apply with_pc_ok; [|done]. destruct Hc. by split.
Qed.
End LoadTheorem.

(** ** The entry point *)

(** The values of the symbols called [name], in the order of the table, without
    zeros. *)
Definition values_of (elf : Elf) (name : string) : list Z :=
  map st_value (filter (fun sym => strtab_get_at elf (st_name sym) = Some name /\ st_value sym <> 0) (elf_syms elf)).

(** A header with an entry point starts at the first [_start] if the table has one
    (its value as it stands), else at the entry point. *)
Definition header_start (elf : Elf) : Z :=
  match values_of elf "_start" with v :: _ => v mod 2 ^ 32 | [] => e_entry elf mod 2 ^ 32 end.

Lemma find_start_spec elf :
  find_start elf (elf_syms elf) (u32 (e_entry elf)) = header_start elf.
Proof.
  unfold header_start, values_of. induction (elf_syms elf) as [|sym syms IH]; [done|].
  cbn [find_start]. rewrite filter_cons. destruct (strtab_get_at elf (st_name sym)) as [name|] eqn:E.
  - destruct (bool_decide_reflect (name = "_start")) as [->|Hne]; cbn [andb].
    + destruct (Z.eqb_spec (st_value sym) 0) as [Hz|Hz]; cbn [negb].
      * rewrite decide_False by tauto. exact IH.
      * by rewrite decide_True.
    + rewrite decide_False by (intros [[= ->] _]; done). exact IH.
  - rewrite decide_False by (intros [? _]; done). exact IH.
Qed.

(** ** The image of an executable *)

Section Image.
Context {H : Type} `{HostOps H} `{BuildProfile} `{Target} `{ElfParser}.
Context (binary : list Z).

(** The address and the bytes of a loadable segment inside the file. *)
Definition segment (ph : ProgramHeader) : option (Z * list Z) :=
  if p_type ph =? PT_LOAD then
    bytes ← file_range binary (p_offset ph) (p_filesz ph); Some (u32 (p_vaddr ph), bytes)
  else None.

Definition segment_byte (a : Z) (seg : Z * list Z) : option Z :=
  if decide (seg.1 <= a) then seg.2 !! Z.to_nat (a - seg.1) else None.

(** The byte at [a] of an image in several pieces: that of the last one that covers
    it. *)
Definition covering (pieces : list (Z * list Z)) (a : Z) : option Z :=
  foldl (fun acc p => match segment_byte a p with Some b => Some b | None => acc end) None pieces.

Definition image_byte (phdrs : list ProgramHeader) (a : Z) : option Z := covering (omap segment phdrs) a.

Definition segment_in_ram (ph : ProgramHeader) : Prop :=
  match segment ph with
  | Some (v, bytes) => v < MMIO_BASE /\ v + Z.of_nat (length bytes) <= MMIO_BASE
  | None => True
  end.

Definition place_piece (m : Memory) (p : Z * list Z) : Memory := set_bytes m p.1 p.2.

Lemma mwrite_bytes_ram a bytes (s : Machine H Memory) :
  ram a -> a + Z.of_nat (length bytes) <= MMIO_BASE ->
  mwrite (E:=Infallible) (fun m => write_bytes m a bytes) s
  = Ok tt (Build_Machine (cpu s) (set_bytes (mem s) a bytes) (host s)).
Proof.
  intros Ha Hl. assert (is_u 32 a) by (unfold ram, is_u, MMIO_BASE in *; lia).
  unfold mwrite. cbn [write_bytes Memory_ops]. rewrite write_bytes_default by done.
  unfold default_write_bytes. rewrite write_each_ram by (done || lia). by rewrite Z.add_0_r.
Qed.

Lemma load_segments_image phdrs (s : Machine H Memory) :
  0 <= usize_bits -> segments_fit phdrs -> Forall segment_in_ram phdrs ->
  load_segments binary phdrs s
  = Ok tt (Build_Machine (cpu s) (foldl place_piece (mem s) (omap segment phdrs)) (host s)).
Proof.
  intros Hw Hfit Hram. revert s. induction Hram as [|ph phdrs Hph _ IH]; intros s; [by destruct s|].
  inversion_clear Hfit as [|?? Hfit1 Hfit2]. specialize (IH Hfit2). cbn [load_segments omap list_omap].
  unfold segment_in_ram in Hph. unfold segment at 1. unfold segment in Hph.
  destruct (Z.eqb_spec (p_type ph) PT_LOAD) as [Ht|]; [|apply IH].
  unfold mbind at 1, EM_bind at 1. rewrite load_range_run by auto.
  destruct (file_range binary (p_offset ph) (p_filesz ph)) as [bytes|]; cbn [mbind option_bind] in *; [|apply IH].
  destruct Hph as [Hv Hl]. pose proof (u32_range (p_vaddr ph)) as [Hu _].
  rewrite mwrite_bytes_ram by (unfold ram; done || lia). by rewrite IH.
Qed.

Lemma byte_at_segment m a v bytes :
  byte_at (set_bytes m v bytes) a = default (byte_at m a) (segment_byte a (v, bytes)).
Proof.
  rewrite byte_at_set_bytes. unfold segment_byte. cbn [fst snd].
  destruct (decide (v <= a)); destruct (bytes !! Z.to_nat (a - v)); done.
Qed.

Lemma covering_from pieces acc a :
  foldl (fun acc p => match segment_byte a p with Some b => Some b | None => acc end) acc pieces
  = match covering pieces a with Some b => Some b | None => acc end.
Proof.
  unfold covering. revert acc. induction pieces as [|p pieces IH]; intros acc; [done|]. cbn [foldl].
  rewrite IH, (IH (match segment_byte a p with Some b => Some b | None => None end)).
  by destruct (foldl _ None pieces), (segment_byte a p).
Qed.

Lemma covering_cons p pieces a :
  covering (p :: pieces) a = match covering pieces a with Some b => Some b | None => segment_byte a p end.
Proof. unfold covering at 1. cbn [foldl]. rewrite covering_from. by destruct (segment_byte a p). Qed.

Lemma covering_spec pieces m a :
  byte_at (foldl place_piece m pieces) a = default (byte_at m a) (covering pieces a).
Proof.
  revert m. induction pieces as [|[v bytes] pieces IH]; intros m; [done|]. cbn [foldl].
  rewrite IH, covering_cons. unfold place_piece. cbn [fst snd]. rewrite byte_at_segment.
  by destruct (covering pieces a).
Qed.

(** Where an executable starts: the entry point of the header if it is zero. *)
Definition start_address (elf : Elf) : Z := if e_entry elf =? 0 then 0 else header_start elf.

(** What the program must be for the image theorem: an executable whose segments
    have file ranges that do not overflow [usize] and lie below the MMIO window, or a
    flat binary that fits below it. *)
Definition program_ok (o : option Elf) : Prop :=
  match o with
  | Some elf => program_headers elf <> [] /\ segments_fit (program_headers elf)
                /\ Forall segment_in_ram (program_headers elf)
  | None => Z.of_nat (length binary) <= MMIO_BASE
  end.

(** C16: The loaded memory is the program's image.  For an ELF executable whose
    loadable segments lie below the MMIO window and have file ranges that do not
    overflow [usize]: every byte of memory is that of the last loadable segment that
    covers its address, and zero elsewhere (so a [.bss] is zeroed); if the header's
    entry point is not zero, execution starts at the first symbol called [_start]
    with a non-zero value, or at the entry point if there is none; if it is zero,
    execution starts at address zero, whatever the symbols.  A file that is not ELF
    and fits below the MMIO window is placed at address zero and starts there.  No
    device is touched. *)
Theorem load_image args (s : Simulator H) :
  0 <= usize_bits -> program_ok (elf_parse binary) ->
  exists s', load_binary_with_args binary args s
    = Ok (match elf_parse binary with Some elf => start_address elf | None => 0 end) s'
    /\ host (machine s') = host (machine s)
    /\ match elf_parse binary with
       | Some elf =>
         pc (cpu (machine s')) = start_address elf /\ symbols s' = exec_symbols elf ∅
         /\ forall a, byte_at (mem (machine s')) a = default 0 (image_byte (program_headers elf) a)
       | None =>
         pc (cpu (machine s')) = 0 /\ symbols s' = ∅
         /\ forall a, 0 <= a -> byte_at (mem (machine s')) a = default 0 (binary !! Z.to_nat a)
       end.
Proof.
  intros Hw Hp. rewrite load_reset. set (s2 := reset_machine args s).
  destruct (elf_parse binary) as [elf|]; cbn [program_ok] in Hp.
  - destruct Hp as (Hne & Hfit & Hram). unfold load_elf.
    rewrite (bool_decide_eq_false_2 _ Hne). cbn [negb].
    unfold mbind, EM_bind, on_machine. cbn [machine symbols].
    rewrite (load_segments_image _ s2) by done. cbn.
    assert (He : (if negb (e_entry elf =? 0) then find_start elf (elf_syms elf) (u32 (e_entry elf))
                  else u32 (e_entry elf)) = start_address elf).
    { unfold start_address. rewrite find_start_spec. by destruct (Z.eqb_spec (e_entry elf) 0) as [->|]. }
    rewrite He. eexists. split; [done|]. cbn. split_and!; [done..|].
    intros a. by rewrite covering_spec.
  - unfold mbind, EM_bind, on_machine. cbn [machine symbols].
    rewrite mwrite_bytes_ram by (unfold ram; (done || lia)).
    eexists. split; [done|]. cbn. split_and!; [done..|].
    intros a Ha. rewrite byte_at_set_bytes, Z.sub_0_r.
    destruct (binary !! Z.to_nat a); [by rewrite decide_True|done].
Qed.
End Image.

(** ** Call instructions *)

Definition is_link (r : Z) : bool := (r =? 1) || (r =? 5).
Definition links (a : asm32) : bool :=
  match a with
  | FmtJ op r _ => (op =? OP_JAL) && is_link r
  | FmtI op r _ _ _ => (op =? OP_JALR) && is_link r
  | _ => false
  end.

(** [c.add] and [c.ebreak] share [funct4] with [c.jalr]. *)
Definition c_jalr_group (x : Z) : bool :=
  (slice x 0 2 =? 2) && (slice x 13 3 =? 4) && (slice x 12 1 =? 1).

Lemma low_bits_opcode w : is_u 32 w -> w .& 0x3 = opcode (decode32 w) .& 0x3.
Proof. intros Hw. cbn [decode32 opcode]. bits. Qed.

Lemma is_call_compressed x w :
  is_u 16 x -> is_u 32 w -> u16 w = x -> slice x 0 2 <> 3 ->
  is_call_instruction w = match expand x with Some a => links a || c_jalr_group x | None => false end.
Proof.
  intros Hx Hw32 Hw Hop. unfold is_call_instruction.
  assert (F0 : w .& 0x3 = slice x 0 2) by (subst x; rewrite slice_bits by lia; eval_ones; bits).
  assert (F13 : shift_then_mask w 13 0x7 = slice x 13 3).
  { subst x. unfold shift_then_mask. rewrite slice_bits by lia. eval_ones. bits. }
  assert (F12 : shift_then_mask w 12 1 = slice x 12 1).
  { subst x. unfold shift_then_mask. rewrite slice_bits by lia. eval_ones. bits. }
  rewrite F0, F12, F13. unfold c_jalr_group.
  assert (Hf3 : is_u 3 (slice x 13 3)) by by apply slice_range.
  pose proof (slice_range x 0 2 ltac:(lia)) as Ho. pose proof (is_u_3_cases _ Hf3) as Hc3.
  assert (Hb : slice x 12 1 = 0 \/ slice x 12 1 = 1).
  { pose proof (slice_range x 12 1 ltac:(lia)) as Hu. unfold is_u in Hu. lia. }
  unfold expand. cbv zeta. destruct (is_u_2_cases _ Ho) as [E|[E|[E|E]]]; rewrite E in *; [..|done].
  - decide_consts. cbn [negb andb]. unfold expand_q0. cbv zeta.
    destruct_or! Hc3; rewrite Hc3; decide_consts; try done. by destruct (c_addi4spn_uimm x =? 0).
  - decide_consts. cbn [negb andb]. unfold expand_q1, expand_alu. cbv zeta.
    destruct_or! Hc3; rewrite Hc3; decide_consts; try done.
    + by destruct (slice x 7 5 =? 2), (c_addi16sp_imm x =? 0), (slice x 7 5 =? 0), (c_imm x =? 0).
    + by destruct (slice x 10 2 =? 2), (slice x 12 1 =? 1), (slice x 10 2 =? 0), (slice x 10 2 =? 1),
        (slice x 5 2 =? 0), (slice x 5 2 =? 1), (slice x 5 2 =? 2).
  - decide_consts. cbn [negb andb]. unfold expand_q2. cbv zeta.
    destruct_or! Hc3; rewrite Hc3; decide_consts; destruct Hb as [Hb|Hb]; rewrite Hb; decide_consts; try done.
    all: by destruct (slice x 7 5 =? 0), (slice x 2 5 =? 0).
Qed.

(** What "step over" takes for a call.  Among the integer instructions, exactly
    [jal] and [jalr] with a link register ([x1] or [x5]) as destination.  Among the
    compressed ones, exactly those whose expansion is such a jump, and in addition
    [c.add] and [c.ebreak], which share [funct4] with [c.jalr]. *)
Lemma call_detection :
  (forall i, instr_ok i ->
     is_call_instruction (assemble i)
     = match i with Jal r _ | Jalr r _ _ => is_link r | _ => false end)
  /\ (forall w, is_u 32 w -> slice w 0 2 <> 3 ->
     is_call_instruction w
     = match expand (u16 w) with Some a => links a || c_jalr_group (u16 w) | None => false end).
Proof.
  split.
  - intros i Hok. unfold is_call_instruction.
    rewrite low_bits_opcode by by apply assemble_is_u32. unfold instr_ok in Hok.
    destruct i; unfold assemble; cbn [to_asm] in *; decoded Hok;
      match goal with E : opcode _ = _ |- _ => rewrite !E end; done.
  - intros w Hw Hop. apply is_call_compressed; [by apply wrap_is_u|done|done|].
    replace (slice (u16 w) 0 2) with (slice w 0 2); [done|].
    rewrite !slice_bits by lia. eval_ones. bits.
Qed.

(** ** Debugger commands *)

Lemma union_remove (a : Z) (l : gset Z) : a ∉ l -> ({[a]} ∪ l) ∖ {[a]} = l.
Proof.
  intros Ha. apply set_eq. intros x. rewrite elem_of_difference, elem_of_union, elem_of_singleton.
  destruct (decide (x = a)) as [->|]; tauto.
Qed.

Section Debugger.
Context {H : Type} `{HostOps H} `{!HostReads H} `{BuildProfile} `{FloatEnv}.
Context (Hrelease : overflow_checks = false).
Implicit Types s : Machine H Memory.

(** A snapshot of the machine [s], stopped at a breakpoint of [bps] or for good. *)
Definition stopped_at (bps : gset Z) (snap : DebuggerSnapshot) s : Prop :=
  (snap = snapshot (cpu s) true (pc (cpu s)) /\ pc (cpu s) ∈ bps /\ is_halted (cpu s) = false
   /\ debug_enabled (cpu s) = true)
  \/ (snap = snapshot (cpu s) false 0 /\ is_halted (cpu s) = true).

Lemma until_ok k s :
  machine_ok s ->
  exists r s', run_until_breakpoint k s = Ok r s' /\ machine_ok s'
    /\ breakpoints (cpu s') = breakpoints (cpu s) /\ debug_enabled (cpu s') = debug_enabled (cpu s)
    /\ match r with Some snap => stopped_at (breakpoints (cpu s)) snap s' | None => True end.
Proof.
  revert s. induction k as [|k IH]; intros s Hok; [by exists None, s|]. cbn [run_until_breakpoint].
  pose proof (run_slice_triple Hrelease (cpu s) u32_MAX ltac:(by unfold u32_MAX) s (conj Hok eq_refl)) as Ht.
  destruct (run_slice u32_MAX s) as [o s1|[]|] eqn:E; [|done].
  destruct Ht as [(_ & ([Hok1 Hdbg Hbps _ _] & Hpost & _) & _) [Hpc _]]. cbn [fst snd] in *.
  rewrite (em_bind_ok _ _ _ _ _ E). destruct (status o).
  - destruct (IH s1 Hok1) as (r & s' & E' & Hok' & Hb' & Hd' & Hr). exists r, s'.
    rewrite Hb', Hd', <- Hbps. done.
  - exists (Some (snapshot (cpu s1) false 0)), s1. split_and!; try done. right. by destruct Hpost.
  - exists (Some (snapshot (cpu s1) false 0)), s1. split_and!; try done. right. by destruct Hpost.
  - exists (Some (snapshot (cpu s1) true (out_pc o))), s1. split_and!; try done. left.
    destruct Hpost as (? & _ & ? & ? & _). rewrite Hpc. split_and!; try done. by rewrite Hdbg.
Qed.

(** A call that has returned does not depend on how many slices it was given. *)
Lemma until_more k j s snap s' :
  run_until_breakpoint k s = Ok (Some snap) s' -> run_until_breakpoint (k + j) s = Ok (Some snap) s'.
Proof.
  revert s. induction k as [|k IH]; intros s; [done|]. cbn [Nat.add run_until_breakpoint].
  unfold mbind, EM_bind. destruct (run_slice u32_MAX s) as [o s1|[]|]; [|done].
  destruct (status o); [by apply IH|done..].
Qed.

Lemma temporary_more k j addr s snap s' :
  run_to_temporary k addr s = Ok (Some snap) s' -> run_to_temporary (k + j) addr s = Ok (Some snap) s'.
Proof.
  unfold run_to_temporary, add_breakpoint, modify_cpu. rewrite !get_cpu_run. unfold mbind, EM_bind. cbn [em_modify].
  set (s0 := Build_Machine _ _ _). destruct (run_until_breakpoint k s0) as [[sn|] s1|[]|] eqn:E; [|done..].
  by rewrite (until_more _ j _ _ _ E).
Qed.

Lemma step_over_more k j s snap s' :
  debug_step_over k s = Ok (Some snap) s' -> debug_step_over (k + j) s = Ok (Some snap) s'.
Proof.
  unfold debug_step_over. rewrite !get_cpu_run. cbv zeta. unfold mbind, EM_bind.
  destruct (mread _ s) as [inst s1|[]|]; [|done]. destruct (is_call_instruction inst); [|done].
  destruct (checked_add _ _ _ s1) as [a s2|[]|]; [|done]. apply temporary_more.
Qed.

Lemma step_out_more k j s snap s' :
  debug_step_out k s = Ok (Some snap) s' -> debug_step_out (k + j) s = Ok (Some snap) s'.
Proof.
  unfold debug_step_out, mbind, EM_bind. destruct (try_gets _ s) as [ra s1|[]|]; [|done]. apply temporary_more.
Qed.

Lemma breakpoints_ok b c : cpu_ok c -> cpu_ok (with_breakpoints b c).
Proof. intros []. by split. Qed.

Lemma temporary_ok k addr s :
  machine_ok s ->
  exists r s', run_to_temporary k addr s = Ok r s' /\ machine_ok s'
    /\ debug_enabled (cpu s') = debug_enabled (cpu s)
    /\ match r with
       | Some snap => breakpoints (cpu s') = breakpoints (cpu s)
                      /\ stopped_at ({[addr]} ∪ breakpoints (cpu s)) snap s'
       | None => True
       end.
Proof.
  intros [Hc Hm]. unfold run_to_temporary, add_breakpoint, remove_breakpoint, modify_cpu.
  rewrite get_cpu_run. unfold mbind at 1, EM_bind at 1. cbn [em_modify].
  set (s0 := Build_Machine (with_breakpoints ({[addr]} ∪ breakpoints (cpu s)) (cpu s)) (mem s) (host s)).
  assert (Hok0 : machine_ok s0) by (split; [by apply breakpoints_ok|done]).
  destruct (until_ok k s0 Hok0) as (r & s1 & E & [Hc1 Hm1] & Hb & Hd & Hr).
  rewrite (em_bind_ok _ _ _ _ _ E). cbn [s0 cpu breakpoints with_breakpoints] in Hb, Hr.
  destruct r as [snap|]; [|by exists None, s1].
  destruct (decide (addr ∈ breakpoints (cpu s))) as [Hin|Hnin].
  - rewrite bool_decide_eq_true_2 by done. cbn [negb].
    exists (Some snap), s1. split_and!; try done. rewrite Hb. by apply (subseteq_union_1_L {[addr]}), singleton_subseteq_l.
  - rewrite bool_decide_eq_false_2 by done. cbn [negb].
    exists (Some snap), (on_cpu (fun c => with_breakpoints (breakpoints c ∖ {[addr]}) c) s1).
    split; [done|]. split; [split; [by apply breakpoints_ok|done]|]. split; [done|]. split; [|exact Hr].
    cbn [on_cpu cpu breakpoints with_breakpoints]. rewrite Hb. by apply union_remove.
Qed.

Lemma debug_step_ok s :
  machine_ok s ->
  exists snap s', debug_step s = Ok snap s' /\ machine_ok s'
    /\ breakpoints (cpu s') = breakpoints (cpu s) /\ debug_enabled (cpu s') = debug_enabled (cpu s).
Proof.
  intros Hok. destruct (step_instruction_ok s Hrelease Hok) as (r & s' & E & Hok' & _ & Hs).
  unfold debug_step. rewrite (em_bind_ok _ _ _ _ _ E). destruct r; by eexists _, s'.
Qed.

(** The address after the instruction [inst] at [a]. *)
Definition return_address (a inst : Z) : Z := (a + (if inst .& 0x3 =? 0x3 then 4 else 2)) mod 2 ^ 32.

Lemma step_over_ok k s inst h :
  machine_ok s -> read_u32 (mem s) (pc (cpu s)) (host s) = Some (inst, h) ->
  exists r s', debug_step_over k s = Ok r s' /\ machine_ok s'
    /\ debug_enabled (cpu s') = debug_enabled (cpu s)
    /\ match r with
       | Some snap =>
         breakpoints (cpu s') = breakpoints (cpu s)
         /\ (is_call_instruction inst = true ->
             stopped_at ({[return_address (pc (cpu s)) inst]} ∪ breakpoints (cpu s)) snap s')
       | None => True
       end.
Proof.
  intros [Hc Hm] Hread. unfold debug_step_over. rewrite get_cpu_run. cbv zeta.
  set (s1 := Build_Machine (cpu s) (mem s) h). assert (Hok1 : machine_ok s1) by by split.
  assert (E1 : mread (E:=Infallible) (fun m => read_u32 m (pc (cpu s))) s = Ok inst s1)
    by (unfold mread; by rewrite Hread).
  rewrite (em_bind_ok _ _ _ _ _ E1). destruct (is_call_instruction inst).
  - unfold checked_add. rewrite Hrelease. cbn [andb]. unfold mbind, EM_bind, mret, EM_ret.
    destruct (temporary_ok k (return_address (pc (cpu s)) inst) s1 Hok1) as (r & s' & E & Hok' & Hd & Hr).
    exists r, s'. change (wrap 32 ?a) with (a mod 2 ^ 32). split; [exact E|].
    destruct r; [|done]. destruct Hr. done.
  - destruct (debug_step_ok s1 Hok1) as (snap & s' & E & Hok' & Hb & Hd).
    exists (Some snap), s'. rewrite (em_bind_ok _ _ _ _ _ E). done.
Qed.

Lemma step_out_ok k s :
  machine_ok s ->
  exists r s', debug_step_out k s = Ok r s' /\ machine_ok s'
    /\ debug_enabled (cpu s') = debug_enabled (cpu s)
    /\ match r with
       | Some snap => breakpoints (cpu s') = breakpoints (cpu s)
                      /\ stopped_at ({[X (cpu s) 1]} ∪ breakpoints (cpu s)) snap s'
       | None => True
       end.
Proof.
  intros Hok. destruct Hok as [Hc Hm] eqn:Eok. unfold debug_step_out, try_gets.
  assert (Hx : idx (regs (cpu s)) 1 = Some (X (cpu s) 1)).
  { destruct (idx_ok (regs (cpu s)) 32 1) as (v & Hv & _); [apply Hc..|done|]. unfold X, idx in *.
    by rewrite Hv, (nth_lookup_Some _ _ _ _ Hv). }
  unfold mbind, EM_bind. rewrite Hx. by apply temporary_ok.
Qed.
End Debugger.

Section DebuggerTheorems.
Context {H : Type} `{HostOps H} `{!HostReads H} `{BuildProfile} `{FloatEnv}.
Implicit Types s : Machine H Memory.

(** C29: "Step over" and "step out" use their breakpoint and put things back.  From
    a well-formed machine neither command panics, whatever the program does, and
    the debug flag is unchanged.  When a command returns, the breakpoint set is what
    it was, whether or not the temporary breakpoint was already in it.  The
    snapshot of a step over a call is taken at the instruction after it, at another
    breakpoint, or at the end of the program; that of a step out at the address in
    [ra], at another breakpoint, or at the end. *)
Theorem step_over_out k s inst h :
  overflow_checks = false -> machine_ok s ->
  read_u32 (mem s) (pc (cpu s)) (host s) = Some (inst, h) ->
  (exists r s', debug_step_over k s = Ok r s' /\ machine_ok s'
     /\ debug_enabled (cpu s') = debug_enabled (cpu s)
     /\ match r with
        | Some snap =>
          breakpoints (cpu s') = breakpoints (cpu s)
          /\ (is_call_instruction inst = true ->
              stopped_at ({[return_address (pc (cpu s)) inst]} ∪ breakpoints (cpu s)) snap s')
        | None => True
        end)
  /\ (exists r s', debug_step_out k s = Ok r s' /\ machine_ok s'
     /\ debug_enabled (cpu s') = debug_enabled (cpu s)
     /\ match r with
        | Some snap => breakpoints (cpu s') = breakpoints (cpu s)
                       /\ stopped_at ({[X (cpu s) 1]} ∪ breakpoints (cpu s)) snap s'
        | None => True
        end).
Proof. intros. split; [by apply step_over_ok with h|by apply step_out_ok]. Qed.
End DebuggerTheorems.

(** ** Continuing to a breakpoint *)

Section Continue.
Context {H : Type} `{HostOps H} `{!HostReads H} `{!QuietHost H} `{BuildProfile} `{FloatEnv}.
Implicit Types s : Machine H Memory.

(** The snapshot for the outcome of a slice. *)
Definition outcome_snapshot (o : SliceOutcome) (c : Cpu) : DebuggerSnapshot :=
  match status o with Breakpoint => snapshot c true (out_pc o) | _ => snapshot c false 0 end.

Lemma until_stop s o s1 k :
  run_slice u32_MAX s = Ok o s1 -> status o <> Running ->
  run_until_breakpoint (S k) s = Ok (Some (outcome_snapshot o (cpu s1))) s1.
Proof.
  intros E Hs. cbn [run_until_breakpoint]. rewrite (em_bind_ok _ _ _ _ _ E).
  unfold outcome_snapshot. by destruct (status o).
Qed.

Lemma until_reaches k s n o s1 :
  overflow_checks = false -> machine_ok s -> 0 < n <= Z.of_nat k * u32_MAX ->
  run_slice n s = Ok o s1 -> status o <> Running ->
  run_until_breakpoint k s = Ok (Some (outcome_snapshot o (cpu s1))) s1.
Proof.
  intros Hrelease. assert (Hmax : 0 < u32_MAX) by done.
  revert s n o s1. induction k as [|k IH]; intros s n o s1 Hok Hn E Hs; [lia|].
  destruct (Z.le_gt_cases n u32_MAX).
  { pose proof (run_slice_add n (u32_MAX - n) s o s1 Hrelease Hok ltac:(lia) ltac:(lia) E) as Hadd.
    replace (n + (u32_MAX - n)) with u32_MAX in Hadd by lia.
    apply until_stop; [|done]. rewrite Hadd. by destruct (status o). }
  pose proof (run_slice_triple Hrelease (cpu s) u32_MAX ltac:(lia) s (conj Hok eq_refl)) as Ht.
  destruct (run_slice u32_MAX s) as [o2 s2|[]|] eqn:E2; [|done].
  destruct Ht as [(_ & (Hin & _ & _) & _) _]. cbn [fst snd] in *.
  pose proof (run_slice_add u32_MAX (n - u32_MAX) s o2 s2 Hrelease Hok ltac:(lia) ltac:(lia) E2) as Hadd.
  replace (u32_MAX + (n - u32_MAX)) with n in Hadd by lia. rewrite E in Hadd.
  destruct (status o2) eqn:S2.
  - cbn [run_until_breakpoint]. rewrite (em_bind_ok _ _ _ _ _ E2), S2.
    destruct (run_slice (n - u32_MAX) s2) as [o3 s3|[]|] eqn:E3; [|done]. injection Hadd as -> ->.
    change (outcome_snapshot _ (cpu s3)) with (outcome_snapshot o3 (cpu s3)).
    apply (IH s2 (n - u32_MAX) o3 s3 (in_ok _ _ _ Hin)); [lia|exact E3|exact Hs].
  - injection Hadd as -> ->. apply until_stop; [done|congruence].
  - injection Hadd as -> ->. apply until_stop; [done|congruence].
  - injection Hadd as -> ->. apply until_stop; [done|congruence].
Qed.

(** C30: "Continue" reaches the first stop.  In the release build and on a host whose
    interrupt controller is idle (each slice polls it when it starts), if the guest
    stops within [n] instructions (at a breakpoint, by exiting or by a trap), then
    [run_until_breakpoint] returns within [n / (2^32 - 1)] slices, rounded up: the
    machine is the one of a single slice of [n] instructions, and the snapshot
    shows it, with the breakpoint address if that is why it stopped. *)
Theorem continue_complete k s n o s1 :
  overflow_checks = false -> machine_ok s -> 0 < n <= Z.of_nat k * u32_MAX ->
  run_slice n s = Ok o s1 -> status o <> Running ->
  run_until_breakpoint k s = Ok (Some (outcome_snapshot o (cpu s1))) s1.
Proof. apply until_reaches. Qed.
End Continue.

(** ** Disassembling a range *)

(** [items] is the disassembly of consecutive instructions from [start] on, below
    [limit]; [curr] is the address after the last one. *)
Inductive listed (m : Memory) (syms : gmap Z string) (limit start : Z)
  : list DisassembledInst -> Z -> Prop :=
| listed_nil : listed m syms limit start [] start
| listed_snoc items curr w :
    listed m syms limit start items curr -> curr < limit -> is_u 32 w ->
    (curr + 4 <= MMIO_BASE -> w = le_value m curr 4) ->
    let item := decode_instruction_with_symbols curr w (Some syms) in
    listed m syms limit start (items ++ [item])%list
      (saturating_add curr (if is_compressed item then 2 else 4)).

Section Listing.
Context {H : Type} `{HostOps H}.

Lemma read_word_ok m a (h : H) :
  mem_ok m -> is_u 32 a ->
  exists w h', read_u32 m a h = Some (w, h') /\ is_u 32 w /\ (a + 4 <= MMIO_BASE -> w = le_value m a 4).
Proof.
  intros Hm Ha. destruct (read_u32_law (MemoryLaws:=Memory_laws (H:=H)) m a h Hm Ha) as (w & h' & E & Hw).
  exists w, h'. split_and!; [done..|]. intros Hl.
  cbn [read_u32 Memory_ops] in E. rewrite read_u32_ram in E by (unfold ram, is_u in *; done || lia). congruence.
Qed.

Lemma saturating_add_spec a b limit :
  is_u 32 a -> 0 < b -> a < limit <= u32_MAX ->
  is_u 32 (saturating_add a b) /\ a < saturating_add a b.
Proof. unfold saturating_add, is_u, u32_MAX. lia. Qed.

(** The state of the loop at [(curr, items)]. *)
Definition listing (c : Cpu) (m : Memory) (syms : gmap Z string) (limit start : Z)
    (v : Z * list DisassembledInst) (s : Simulator H) : Prop :=
  cpu (machine s) = c /\ mem (machine s) = m /\ symbols s = syms /\ is_u 32 v.1
  /\ listed m syms limit start v.2 v.1.

Lemma disassemble_step_ok c m syms start len v :
  mem_ok m ->
  let limit := saturating_add start len in
  triple (listing c m syms limit start v) (disassemble_step start len v)
    (fun r s =>
       match r with
       | inl v' => listing c m syms limit start v' s
                   /\ 0 <= Z.max 0 (limit - v'.1) < Z.max 0 (limit - v.1)
       | inr items => cpu (machine s) = c /\ mem (machine s) = m /\ symbols s = syms
                      /\ exists curr, listed m syms limit start items curr /\ limit <= curr
       end)
    (fun _ _ => False).
Proof.
  intros Hm limit [s syms'] (Hc & Hmem & Hsyms & Hu & Hl). destruct v as [curr items].
  cbn [machine symbols fst snd] in *. subst syms'. unfold disassemble_step. fold limit.
  destruct (Z.ltb_spec curr limit) as [Hlt|Hge]; [|cbn; split_and!; try done; by exists curr].
  destruct (read_word_ok m curr (host s) Hm Hu) as (w & h' & E & Hw & Hval).
  assert (E' : on_machine (mread (fun m => read_u32 m curr)) (Build_Simulator s syms)
               = Ok w (Build_Simulator (Build_Machine (cpu s) (mem s) h') syms)).
  { unfold on_machine, mread. cbn [machine symbols]. by rewrite Hmem, E. }
  unfold mbind at 1, EM_bind at 1. rewrite E'. unfold mbind, EM_bind, em_gets, mret, EM_ret. cbn [symbols].
  set (item := decode_instruction_with_symbols curr w (Some syms)).
  assert (Hmax : limit <= u32_MAX) by (unfold limit, saturating_add; lia).
  destruct (saturating_add_spec curr (if is_compressed item then 2 else 4) limit) as [Hu' Hadv];
    [done|by destruct (is_compressed item)|lia|].
  cbn [fst snd]. split; [|lia]. split_and!; try done. by apply listed_snoc.
Qed.

Lemma disassemble_ok (s : Simulator H) start len :
  mem_ok (mem (machine s)) -> is_u 32 start -> is_u 32 len ->
  exists items s' curr, disassemble_range start len s = Ok items s'
    /\ cpu (machine s') = cpu (machine s) /\ mem (machine s') = mem (machine s)
    /\ symbols s' = symbols s
    /\ listed (mem (machine s)) (symbols s) (saturating_add start len) start items curr
    /\ saturating_add start len <= curr.
Proof.
  intros Hm Hs Hl. set (limit := saturating_add start len).
  pose proof (triple_em_loop (disassemble_step start len)
    (listing (cpu (machine s)) (mem (machine s)) (symbols s) limit start)
    (fun v => Z.max 0 (limit - v.1)) _ (fun _ _ => False) (Z.to_pos (len + 1)) (start, [])
    (fun v => disassemble_step_ok _ _ _ start len v Hm)) as Hloop.
  assert (Hb : 0 <= Z.max 0 (limit - start) < Z.pos (Z.to_pos (len + 1)))
    by (unfold limit, saturating_add, is_u in *; lia).
  specialize (Hloop Hb s). unfold disassemble_range.
  destruct (em_loop _ _ _ s) as [items s'|[]|] eqn:E.
  - destruct Hloop as (? & ? & ? & curr & ? & ?); [split_and!; try done; constructor|].
    by exists items, s', curr.
  - exfalso. apply Hloop. split_and!; try done; constructor.
Qed.

(** C37: The disassembly of a range is complete and gap-free.  For every start
    address and length, [disassemble_range] terminates without changing the
    machine: the items are those of consecutive instructions from the start
    address, each two or four bytes after the previous one by the size of that one,
    up to the first instruction at or past the end of the range (or the top of the
    address space); each item is the disassembly of the little-endian word in
    memory at its address. *)
Theorem disassemble_complete (s : Simulator H) start len :
  mem_ok (mem (machine s)) -> is_u 32 start -> is_u 32 len ->
  exists items s' curr, disassemble_range start len s = Ok items s'
    /\ cpu (machine s') = cpu (machine s) /\ mem (machine s') = mem (machine s)
    /\ symbols s' = symbols s
    /\ listed (mem (machine s)) (symbols s) (saturating_add start len) start items curr
    /\ saturating_add start len <= curr.
Proof. apply disassemble_ok. Qed.
End Listing.

(** ** The hypotheses hold: a parser that knows one executable *)

#[local] Existing Instance release_profile.
#[local] Existing Instance default_float_env.
#[local] Existing Instance wasm32.

Definition demo_elf (offset size : Z) : Elf := {|
  e_entry := 0x1000;
  program_headers := [{| p_type := PT_LOAD; p_offset := offset; p_filesz := size; p_vaddr := 0x1000 |}];
  section_headers := [];
  elf_syms := [{| st_name := 1; st_value := 0x1004; st_shndx := 1 |}];
  strtab_get_at := fun n => if n =? 1 then Some "_start" else None
|}.
Definition demo_parser (offset size : Z) : ElfParser := fun bytes =>
  if bool_decide (bytes = demo_program) then Some (demo_elf offset size) else None.
Definition demo_simulator : Simulator (MockHost unit) := Build_Simulator loop_machine ∅.

(** A program header whose end overflows a 32-bit [usize] passes the bounds test and
    then panics on the slice. *)
Lemma load_overflow_panics :
  @load_binary_with_args _ _ release_profile wasm32 (demo_parser 0xFFFFFFFF 2) demo_program [] demo_simulator
  = Panic.
Proof. by vm_compute. Qed.

#[local] Instance demo_parser_12 : ElfParser := demo_parser 0 12.

Lemma demo_bytes : Forall (is_u 8) demo_program.
Proof. unfold demo_program. repeat constructor; apply le_byte_u8. Qed.

Lemma demo_parses : elf_parse demo_program = Some (demo_elf 0 12).
Proof. vm_compute. reflexivity. Qed.
Lemma usize_32 : 0 <= @usize_bits wasm32.
Proof. unfold usize_bits, wasm32. lia. Qed.

Lemma load_fresh_witness :
  (exists s', load_binary_with_args demo_program ["--setreg=x5=7"] demo_simulator = Ok 0x1004 s'
    /\ machine_ok (machine s') /\ breakpoints (cpu (machine s')) = ∅)
  /\ @load_binary_with_args _ _ release_profile wasm32 (demo_parser 0xFFFFFFFF 2) demo_program [] demo_simulator
     = Panic.
Proof.
  split.
  - destruct (load_fresh demo_program ["--setreg=x5=7"] demo_simulator release_ok usize_32 demo_bytes) as (_ & _ & Hl).
    destruct (Hl ltac:(vm_compute; reflexivity)) as (entry & s' & E & Hok & _ & _ & _ & Hb & _).
    exists s'. split; [|split; [exact Hok|exact Hb]].
    assert (He : match load_binary_with_args demo_program ["--setreg=x5=7"] demo_simulator with
                 | Ok e _ => e = 0x1004 | _ => False end) by (vm_compute; reflexivity).
    rewrite E in He |- *. by rewrite He.
  - apply (load_fresh (H3:=demo_parser 0xFFFFFFFF 2) demo_program [] demo_simulator release_ok usize_32 demo_bytes).
    vm_compute. reflexivity.
Defined.

Lemma load_image_witness :
  exists s', load_binary_with_args demo_program [] demo_simulator = Ok 0x1004 s'
    /\ byte_at (mem (machine s')) 0x1001 = 5 /\ byte_at (mem (machine s')) 0x100C = 0.
Proof.
  assert (Hp : program_ok demo_program (elf_parse demo_program)).
  { rewrite demo_parses. split; [discriminate|]. split; constructor; try constructor. all: by vm_compute. }
  destruct (load_image demo_program [] demo_simulator usize_32 Hp)
    as (s' & E & _ & Hs).
  rewrite demo_parses in E, Hs. destruct Hs as (_ & _ & Hb). exists s'. split; [exact E|]. split; rewrite Hb; vm_compute; reflexivity.
Defined.

(** A one-instruction loop with a breakpoint on it: the machine stops there. *)
Lemma continue_complete_witness :
  exists o s1, run_slice 10 loop_machine = Ok o s1 /\
    run_until_breakpoint 1 loop_machine = Ok (Some (snapshot (cpu s1) true 0x1000)) s1.
Proof.
  destruct (run_slice 10 loop_machine) as [o s1|[]|] eqn:E; [|vm_compute in E; discriminate E].
  exists o, s1. split; [reflexivity|].
  assert (S1 : status o = Breakpoint /\ out_pc o = 0x1000)
    by (vm_compute in E; injection E as <- _; split; reflexivity).
  destruct S1 as [S1 P1]. assert (Hs : status o <> Running) by (rewrite S1; discriminate).
  pose proof (continue_complete 1 loop_machine 10 o s1 release_ok loop_ok ltac:(unfold u32_MAX; lia) E Hs) as Hc.
  unfold outcome_snapshot in Hc. rewrite S1, P1 in Hc. exact Hc.
Defined.

Lemma step_over_out_witness :
  exists r s', debug_step_over 1 loop_machine = Ok r s' /\ machine_ok s'.
Proof.
  destruct (read_u32 (mem loop_machine) (pc (cpu loop_machine)) (host loop_machine)) as [[inst h]|] eqn:E;
    [|vm_compute in E; discriminate E].
  destruct (proj1 (step_over_out 1 loop_machine inst h release_ok loop_ok E)) as (r & s' & Er & Hok & _).
  exists r, s'. split; [exact Er|exact Hok].
Defined.

Lemma disassemble_complete_witness :
  exists items s' curr, disassemble_range 0x1000 12 demo_simulator = Ok items s'
    /\ listed (mem loop_machine) ∅ 0x100C 0x1000 items curr /\ 0x100C <= curr.
Proof.
  destruct (disassemble_complete demo_simulator 0x1000 12 (mok_mem _ loop_ok) ltac:(unfold is_u; lia)
    ltac:(unfold is_u; lia)) as (items & s' & curr & E & _ & _ & _ & Hl & Hc).
  exists items, s', curr. split; [exact E|]. split; [exact Hl|exact Hc].
Defined.
