(* ===== verification/Object.v ===== *)
(** Loading an object file, and a whole batch run.

    An object file has no program headers: the loader lays its sections out itself.
    [layout] is that placement in ordinary arithmetic; [load_object] shows that the
    32-bit arithmetic of the loader computes it, that sections are aligned and do not
    overlap, and what memory, symbols and program counter are afterwards.
    [batch_run] composes the loader with the run loop: it is the theorem about the
    crate's entry point [run_riscv_binary]. *)

From S2P Require Import Prelude Bits Inst Fmt Host Memory MemoryProps Float Cpu Syscall Exec Rvc Run Safe SafeExec RunProps IsaSpec RvcProps RunRef IsaMem Cli Disasm Sim SimProps.

(** ** Where the sections go *)

(** The least multiple of [n] from [a] on. *)
Definition align_up (a n : Z) : Z := (a + n - 1) / n * n.

Lemma align_up_spec a n : 0 < n -> a <= align_up a n < a + n /\ (n | align_up a n).
Proof.
  intros Hn. unfold align_up. pose proof (Z.div_mod (a + n - 1) n ltac:(lia)).
  pose proof (Z.mod_pos_bound (a + n - 1) n Hn). split; [lia|]. by exists ((a + n - 1) / n).
Qed.

(** Clearing the low bits rounds down to a power of two. *)
Lemma land_align x k :
  0 <= k <= 32 -> is_u 32 x -> x .& not_u 32 (2 ^ k - 1) = x / 2 ^ k * 2 ^ k.
Proof.
  intros Hk Hx. assert (0 < 2 ^ k <= 2 ^ 32) by (split; [lia|apply Z.pow_le_mono_r; lia]).
  rewrite land_not_u by (done || unfold is_u; lia).
  replace (2 ^ k - 1) with (Z.ones k) by (rewrite Z.ones_equiv; lia).
  rewrite Z.ldiff_ones_r, Z.shiftl_mul_pow2, Z.shiftr_div_pow2 by lia. done.
Qed.

Section Layout.
Context `{Target}.

Definition section_align (sh : SectionHeader) : Z := if 0 <? sh_addralign sh then sh_addralign sh else 4.
Definition section_size (sh : SectionHeader) : Z := wrap usize_bits (sh_size sh).

(** A section the loader chooses an address for. *)
Definition floating (sh : SectionHeader) : bool := is_allocated sh && (sh_addr sh =? 0).

(** The address of a section and the next free address, [free] being the first. *)
Definition placement (free : Z) (sh : SectionHeader) : Z * Z :=
  if floating sh then
    let a := align_up free (section_align sh) in (a, a + section_size sh)
  else (if is_allocated sh then u32 (sh_addr sh) else 0, free).

Fixpoint layout (free : Z) (shdrs : list SectionHeader) : list Z :=
  match shdrs with
  | [] => []
  | sh :: shdrs => (placement free sh).1 :: layout (placement free sh).2 shdrs
  end.

(** A section that is aligned to a power of two of at most 64 KiB and whose range in
    the file does not overflow [usize]. *)
Definition section_ok (sh : SectionHeader) : Prop :=
  (exists k, 0 <= k <= 16 /\ section_align sh = 2 ^ k)
  /\ range_fits (sh_offset sh) (sh_size sh).

Definition in_ram (sh : SectionHeader) (a : Z) : Prop :=
  is_allocated sh = true -> a + section_size sh <= MMIO_BASE.

(** The sections with contents and where they are placed. *)
Definition section_piece (binary : list Z) (p : SectionHeader * Z) : option (Z * list Z) :=
  if is_allocated p.1 && negb (sh_type p.1 =? SHT_NOBITS) then
    bytes ← file_range binary (sh_offset p.1) (sh_size p.1); Some (p.2, bytes)
  else None.

Lemma section_align_pos sh : section_ok sh -> 0 < section_align sh.
Proof. intros [(k & Hk & ->) _]. lia. Qed.

Lemma section_size_nonneg sh : 0 <= usize_bits -> 0 <= section_size sh.
Proof. intros Hw. apply (wrap_is_u _ _ Hw). Qed.

(** A section is placed at a multiple of its alignment from [free] on, and the next
    ones come after it. *)
Lemma placement_spec free sh :
  0 <= usize_bits -> section_ok sh ->
  free <= (placement free sh).2
  /\ (floating sh = true -> free <= (placement free sh).1 /\ (section_align sh | (placement free sh).1)
        /\ (placement free sh).2 = (placement free sh).1 + section_size sh).
Proof.
  intros Hw Hok. pose proof (align_up_spec free _ (section_align_pos _ Hok)) as [Hup Hdiv].
  pose proof (section_size_nonneg sh Hw). unfold placement.
  destruct (floating sh); cbn [fst snd]; (split; [lia|]); [|done]. intros _. by split_and!; [lia|..].
Qed.

Lemma layout_aligned free shdrs i sh a :
  0 <= usize_bits -> Forall section_ok shdrs ->
  shdrs !! i = Some sh -> layout free shdrs !! i = Some a -> floating sh = true ->
  free <= a /\ (section_align sh | a).
Proof.
  intros Hw Hok. revert free i. induction Hok as [|sh0 shdrs Hsh _ IH]; intros free i Hi Ha Hf; [done|].
  destruct (placement_spec free sh0 Hw Hsh) as [Hle Hp]. destruct i as [|i]; cbn in Hi, Ha.
  - injection Hi as ->. injection Ha as <-. destruct (Hp Hf) as (? & ? & _). done.
  - destruct (IH _ i Hi Ha Hf) as [Hle' Hd]. split; [lia|done].
Qed.

(** Placed sections do not overlap. *)
Lemma layout_disjoint free shdrs i j sh sh' a a' :
  0 <= usize_bits -> Forall section_ok shdrs -> (i < j)%nat ->
  shdrs !! i = Some sh -> layout free shdrs !! i = Some a -> floating sh = true ->
  shdrs !! j = Some sh' -> layout free shdrs !! j = Some a' -> floating sh' = true ->
  a + section_size sh <= a'.
Proof.
  intros Hw Hok. revert free i j. induction Hok as [|sh0 shdrs Hsh Hrest IH]; intros free i j Hij Hi Ha Hf Hj Ha' Hf'; [done|].
  destruct j as [|j]; [lia|]. destruct i as [|i]; cbn in Hi, Ha, Hj, Ha'.
  - injection Hi as ->. injection Ha as <-.
    destruct (placement_spec free sh Hw Hsh) as [_ Hp]. destruct (Hp Hf) as (_ & _ & Hn). rewrite <- Hn.
    by apply (layout_aligned _ _ _ _ _ Hw Hrest Hj Ha' Hf').
  - eapply (IH _ i j); (done || lia).
Qed.

Lemma layout_length free shdrs : length (layout free shdrs) = length shdrs.
Proof. revert free. induction shdrs as [|sh shdrs IH]; intros free; cbn; [done|by rewrite IH]. Qed.
End Layout.

(** ** The memory image *)

Section Image.
Context `{Target} (Hw : 0 <= usize_bits) (binary : list Z).

Definition pieces (free : Z) (shdrs : list SectionHeader) : list (Z * list Z) :=
  omap (section_piece binary) (zip shdrs (layout free shdrs)).

Lemma file_range_length offset size bytes :
  file_range binary offset size = Some bytes -> Z.of_nat (length bytes) = wrap usize_bits size.
Proof.
  unfold file_range. cbv zeta. destruct (Z.leb_spec (wrap usize_bits offset + wrap usize_bits size)
    (Z.of_nat (length binary))); [|done]. intros [= <-].
  pose proof (wrap_is_u usize_bits offset Hw) as [? _]. pose proof (wrap_is_u usize_bits size Hw) as [? _].
  rewrite length_take, length_drop. lia.
Qed.

Lemma segment_byte_outside a p :
  a < p.1 \/ p.1 + Z.of_nat (length p.2) <= a -> segment_byte a p = None.
Proof.
  intros Ha. unfold segment_byte. destruct (decide (p.1 <= a)); [|done]. apply lookup_ge_None_2. lia.
Qed.

Lemma pieces_cons free sh shdrs :
  pieces free (sh :: shdrs) =
  match section_piece binary (sh, (placement free sh).1) with
  | Some p => p :: pieces (placement free sh).2 shdrs
  | None => pieces (placement free sh).2 shdrs
  end.
Proof. done. Qed.

Lemma section_piece_inv sh a p :
  section_piece binary (sh, a) = Some p ->
  is_allocated sh = true /\ p.1 = a /\ Z.of_nat (length p.2) = section_size sh.
Proof.
  unfold section_piece. cbn [fst snd]. destruct (is_allocated sh); [|done]. destruct (negb _); [|done].
  cbn [andb]. destruct (file_range _ _ _) eqn:E; [|done]. intros [= <-]. by apply file_range_length in E.
Qed.

(** When the file fixes no address, nothing is placed below [free]. *)
Lemma pieces_above free shdrs a :
  Forall section_ok shdrs -> Forall (fun sh => sh_addr sh = 0) shdrs -> a < free ->
  covering (pieces free shdrs) a = None.
Proof.
  intros Hok H0. revert free. induction Hok as [|sh shdrs Hsh _ IH]; intros free Ha; [done|].
  inversion_clear H0 as [|?? Hz H0']. specialize (IH H0'). rewrite pieces_cons.
  destruct (placement_spec free sh Hw Hsh) as [Hle Hp].
  destruct (section_piece _ _) as [p|] eqn:E; [rewrite covering_cons|]; rewrite IH by lia; [|done].
  apply section_piece_inv in E as (Hal & E & _). unfold floating in Hp. rewrite Hal, Hz in Hp.
  apply segment_byte_outside. specialize (Hp eq_refl). lia.
Qed.

(** Every section is intact in the image. *)
Lemma pieces_intact free shdrs i sh a p k b :
  Forall section_ok shdrs -> Forall (fun sh => sh_addr sh = 0) shdrs ->
  shdrs !! i = Some sh -> layout free shdrs !! i = Some a ->
  section_piece binary (sh, a) = Some p -> p.2 !! k = Some b ->
  covering (pieces free shdrs) (a + Z.of_nat k) = Some b.
Proof.
  intros Hok H0. revert free i. induction Hok as [|sh0 shdrs Hsh Hrest IH]; intros free i Hi Ha Hp Hk; [done|].
  inversion_clear H0 as [|?? Hz H0']. specialize (IH H0'). rewrite pieces_cons.
  destruct i as [|i]; cbn in Hi, Ha.
  - injection Hi as ->. injection Ha as <-. apply section_piece_inv in Hp as Hinv. destruct Hinv as (Hal & Ep & Hl).
    destruct (placement_spec free sh Hw Hsh) as [_ Hpl]. unfold floating in Hpl. rewrite Hal, Hz in Hpl.
    destruct (Hpl eq_refl) as (_ & _ & Hn). rewrite Hp, covering_cons. apply lookup_lt_Some in Hk as Hlt.
    rewrite pieces_above by (done || lia). unfold segment_byte. rewrite decide_True by lia.
    rewrite <- Hk. f_equal. lia.
  - destruct (section_piece binary (sh0, _)); [rewrite covering_cons|]; by rewrite (IH _ i Hi Ha Hp Hk).
Qed.
End Image.

(** ** Running the loader *)

Section LoadSections.
Context {H : Type} `{HostOps H} `{BuildProfile} `{Target} `{ElfParser} (Hw : 0 <= usize_bits).
Implicit Types s : Machine H Memory.

Lemma checked_add_fits w a b s :
  0 <= a -> 0 <= b -> a + b < 2 ^ w -> checked_add (E:=Infallible) w a b s = Ok (a + b) s.
Proof.
  intros. unfold checked_add. rewrite (proj2 (Z.leb_gt _ _)), andb_false_r by lia.
  by rewrite wrap_small by (unfold is_u; lia).
Qed.

Lemma checked_sub_fits w a b s :
  0 <= b <= a -> a < 2 ^ w -> checked_sub w a b s = Ok (a - b) s.
Proof.
  intros. unfold checked_sub. rewrite (proj2 (Z.ltb_ge _ _)), andb_false_r by lia.
  by rewrite wrap_small by (unfold is_u; lia).
Qed.

Lemma allocated_size sh : is_allocated sh = true -> 0 < section_size sh.
Proof. unfold is_allocated. intros [Hs _]%andb_prop. by apply Z.ltb_lt in Hs. Qed.

(** The 32-bit arithmetic of the loader computes the layout. *)
Lemma place_section_run sh free s :
  section_ok sh -> 0 <= free -> is_allocated sh = true -> in_ram sh (placement free sh).1 ->
  place_section sh free s = Ok (placement free sh) s.
Proof.
  intros Hok Hf Hal Hram. specialize (Hram Hal). unfold placement, floating in *. rewrite Hal in *. cbn [andb] in *.
  unfold place_section. destruct (Z.eqb_spec (sh_addr sh) 0) as [Hz|]; [|done].
  cbn [negb fst] in *. pose proof (allocated_size _ Hal) as Hsize.
  pose proof (align_up_spec free _ (section_align_pos _ Hok)) as [Hup _].
  destruct Hok as [(k & Hk & Hal2) _].
  assert (Hk16 : 0 < 2 ^ k <= 2 ^ 16) by (split; [lia|apply Z.pow_le_mono_r; lia]).
  assert (Hu : (if 0 <? sh_addralign sh then u32 (sh_addralign sh) else 4) = 2 ^ k).
  { unfold section_align in Hal2. destruct (0 <? sh_addralign sh); [|done].
    rewrite <- Hal2. apply wrap_small. unfold is_u. lia. }
  rewrite Hu. cbv zeta. unfold section_align in Hal2. fold (section_align sh) in Hal2. rewrite Hal2 in *.
  unfold MMIO_BASE in Hram. fold (section_size sh).
  rewrite (em_bind_ok _ _ _ _ _ (checked_add_fits 32 free (2 ^ k) s ltac:(lia) ltac:(lia) ltac:(lia))).
  rewrite (em_bind_ok _ _ _ _ _ (checked_sub_fits 32 (free + 2 ^ k) 1 s ltac:(lia) ltac:(lia))).
  rewrite (em_bind_ok _ _ _ _ _ (checked_sub_fits 32 (2 ^ k) 1 s ltac:(lia) ltac:(lia))).
  rewrite land_align by (lia || unfold is_u; lia). fold (align_up free (2 ^ k)).
  assert (Hs32 : u32 (section_size sh) = section_size sh) by (apply wrap_small; unfold is_u; lia).
  rewrite Hs32.
  unfold mbind, EM_bind. by rewrite checked_add_fits by lia.
Qed.

Lemma load_sections_run binary shdrs free addrs s :
  Forall section_ok shdrs -> Forall2 in_ram shdrs (layout free shdrs) -> 0 <= free ->
  load_sections binary shdrs free addrs s
  = Ok (addrs ++ layout free shdrs)%list
       (Build_Machine (cpu s) (foldl place_piece (mem s) (pieces binary free shdrs)) (host s)).
Proof.
  intros Hok. revert free addrs s. induction Hok as [|sh shdrs Hsh _ IH]; intros free addrs s Hram Hf.
  { unfold pieces. cbn. rewrite app_nil_r. by destruct s. }
  cbn [load_sections layout] in *. rewrite pieces_cons.
  destruct (placement_spec free sh Hw Hsh) as [Hle Hp]. inversion Hram as [|???? Ha Hrest]. subst.
  assert (Hnext : forall s', load_sections binary shdrs (placement free sh).2 (addrs ++ [(placement free sh).1])%list s'
    = Ok (addrs ++ (placement free sh).1 :: layout (placement free sh).2 shdrs)%list (Build_Machine (cpu s')
        (foldl place_piece (mem s') (pieces binary (placement free sh).2 shdrs)) (host s'))).
  { intros s'. rewrite IH by (done || lia). by rewrite <- app_assoc. }
  unfold section_piece at 1. cbn [fst snd]. destruct (is_allocated sh) eqn:Hal; cbn [andb].
  2:{ rewrite <- Hnext. unfold placement, floating. by rewrite Hal. }
  rewrite (em_bind_ok _ _ _ _ _ (place_section_run sh free s Hsh Hf Hal Ha)).
  assert (Ha0 : 0 <= (placement free sh).1).
  { destruct (floating sh) eqn:Hfl; [destruct (Hp eq_refl); lia|]. unfold placement. rewrite Hfl, Hal. apply u32_range. }
  rewrite (surjective_pairing (placement free sh)). cbn [fst snd].
  destruct (negb _); [|apply Hnext].
  unfold mbind at 1, EM_bind at 1. rewrite load_range_run by (done || apply Hsh).
  destruct (file_range binary (sh_offset sh) (sh_size sh)) as [bytes|] eqn:E; [|apply Hnext].
  apply file_range_length in E; [|done]. pose proof (allocated_size _ Hal). fold (section_size sh) in E.
  specialize (Ha Hal). rewrite mwrite_bytes_ram by (unfold ram; lia). apply Hnext.
Qed.
End LoadSections.

(** ** Symbols and the entry point of an object file *)

Section Symbols.
Context (elf : Elf) (addrs : list Z).

(** The address and the name of a symbol: its value relative to its section, or to
    the load address for the special section numbers. *)
Definition named (sym : Sym) : option (Z * string) :=
  match strtab_get_at elf (st_name sym) with
  | Some name =>
    if bool_decide (name = "") then None
    else Some ((default 0x10000 (addrs !! Z.to_nat (st_shndx sym)) + st_value sym) mod 2 ^ 32, name)
  | None => None
  end.

Definition is_start (p : Z * string) : bool :=
  (bool_decide (p.2 = "_start") || bool_decide (p.2 = "main")) && negb (p.1 =? 0).

(** Without an entry point in the header: the placed address of the first [_start] or
    [main] that is not zero, or else the load address.  With one, as for an executable:
    the value of [_start] as it stands in the table, not moved with its section, or
    else the entry point. *)
Definition object_entry : Z :=
  if e_entry elf =? 0 then
    match List.find is_start (omap named (elf_syms elf)) with Some p => p.1 | None => 0x10000 end
  else header_start elf.

Lemma wrapping_add_u32_r a b : wrapping_add a (u32 b) = (a + b) mod 2 ^ 32.
Proof. unfold wrapping_add, u32, wrap. by rewrite Zplus_mod_idemp_r. Qed.

Definition first_start (entry : Z) (l : list (Z * string)) : Z :=
  if entry =? 0 then match List.find is_start l with Some p => p.1 | None => 0 end else entry.

Lemma object_symbols_spec entry m :
  object_symbols elf addrs entry m
  = (first_start entry (omap named (elf_syms elf)),
     list_to_map (reverse (omap named (elf_syms elf))) ∪ m).
Proof.
  unfold object_symbols. revert entry m. induction (elf_syms elf) as [|sym syms IH]; intros entry m.
  { cbn. rewrite map_empty_union. unfold first_start. by destruct (Z.eqb_spec entry 0) as [->|]. }
  change (omap named (sym :: syms))
    with (match named sym with Some p => p :: omap named syms | None => omap named syms end).
  cbn [fold_left]. destruct (named sym) as [p|] eqn:En; unfold named in En;
    destruct (strtab_get_at elf (st_name sym)) as [name|]; try done; [|destruct (bool_decide (name = "")); [|done]];
    [|apply IH..].
  destruct (bool_decide (name = "")); [done|]. injection En as <-. cbn [negb]. rewrite IH, wrapping_add_u32_r.
  set (a := (_ + st_value sym) mod 2 ^ 32). f_equal.
  - unfold first_start. cbn [List.find]. unfold is_start at 2. cbn [fst snd].
    destruct (Z.eqb_spec entry 0) as [->|Hne]; rewrite ?andb_true_r, ?andb_false_r; [|by rewrite (proj2 (Z.eqb_neq _ _) Hne)].
    destruct (_ || _); cbn [andb]; [|done]. by destruct (Z.eqb_spec a 0) as [->|].
  - rewrite reverse_cons, list_to_map_app. cbn [list_to_map foldr fst snd].
    by rewrite <- map_union_assoc, <- insert_union_l, map_empty_union.
Qed.
End Symbols.

Section ObjectTheorem.
Context {H : Type} `{HostOps H} `{BuildProfile} `{Target} `{ElfParser}.

Lemma load_object_run binary elf (s : Simulator H) :
  0 <= usize_bits -> program_headers elf = [] -> is_u 32 (e_entry elf) ->
  Forall section_ok (section_headers elf) ->
  Forall2 in_ram (section_headers elf) (layout 0x10000 (section_headers elf)) ->
  let addrs := layout 0x10000 (section_headers elf) in
  load_elf binary elf s
  = Ok (object_entry elf addrs)
       (Build_Simulator (Build_Machine (with_pc (object_entry elf addrs) (cpu (machine s)))
          (foldl place_piece (mem (machine s)) (pieces binary 0x10000 (section_headers elf))) (host (machine s)))
          (list_to_map (reverse (omap (named elf addrs) (elf_syms elf))) ∪ symbols s)).
Proof.
  intros Hw Hph He Hok Hram addrs. unfold load_elf. rewrite Hph, bool_decide_eq_true_2 by done. cbn [negb].
  pose proof (load_sections_run Hw binary _ 0x10000 [] (machine s) Hok Hram ltac:(lia)) as Hs.
  unfold mbind, EM_bind. rewrite (on_machine_run _ _ _ _ Hs). unfold em_gets. cbn [symbols app].
  fold addrs. rewrite object_symbols_spec.
  assert (Hent : (if negb (e_entry elf =? 0)
      then find_start elf (elf_syms elf) (if first_start (u32 (e_entry elf)) (omap (named elf addrs) (elf_syms elf)) =? 0
             then 0x10000 else first_start (u32 (e_entry elf)) (omap (named elf addrs) (elf_syms elf)))
      else (if first_start (u32 (e_entry elf)) (omap (named elf addrs) (elf_syms elf)) =? 0
             then 0x10000 else first_start (u32 (e_entry elf)) (omap (named elf addrs) (elf_syms elf))))
    = object_entry elf addrs).
  { unfold object_entry, first_start. rewrite <- find_start_spec, (wrap_small 32 (e_entry elf) He).
    destruct (Z.eqb_spec (e_entry elf) 0) as [_|Hne]; cbn [negb]; [|by rewrite (proj2 (Z.eqb_neq _ _) Hne)].
    destruct (List.find is_start _) as [p|] eqn:Ef; [|done].
    apply find_some in Ef as [_ Ef]. unfold is_start in Ef. apply andb_prop in Ef as [_ Ef]. cbn [Z.eqb].
    by destruct (p.1 =? 0). }
  cbn. by rewrite Hent.
Qed.

(** C17: An object file is laid out in memory.  For a file without program headers,
    with a 32-bit entry point, whose sections have power-of-two alignments (at most
    64 KiB), file ranges that do not overflow [usize], and places below the MMIO
    window, in a build with or without overflow checks: the loader returns; every
    allocated section without an address of its own is placed at a multiple of its
    alignment from 0x10000 on, no two of these overlapping (sections with an address
    of their own go there, and may overlap others); memory holds, at every address,
    the byte of the last section covering it and zero elsewhere, so if no section
    has an address of its own the contents of every section are intact at its place;
    the symbol table maps each address to the last name defined there.  If the
    header has no entry point, execution starts at the first [_start] or [main] whose
    place in memory is not address zero, or at 0x10000 if there is none; if the
    header has one, execution starts at the value of the first [_start] with a
    non-zero value, as it stands in the symbol table (not moved with its section), or
    at that entry point if there is none. *)
Theorem load_object binary elf args (s : Simulator H) :
  0 <= usize_bits -> elf_parse binary = Some elf -> program_headers elf = [] -> is_u 32 (e_entry elf) ->
  Forall section_ok (section_headers elf) ->
  Forall2 in_ram (section_headers elf) (layout 0x10000 (section_headers elf)) ->
  let shdrs := section_headers elf in
  let addrs := layout 0x10000 shdrs in
  exists s', load_binary_with_args binary args s = Ok (object_entry elf addrs) s'
    /\ pc (cpu (machine s')) = object_entry elf addrs /\ host (machine s') = host (machine s)
    /\ symbols s' = list_to_map (reverse (omap (named elf addrs) (elf_syms elf)))
    /\ (forall a, byte_at (mem (machine s')) a = default 0 (covering (pieces binary 0x10000 shdrs) a))
    /\ (forall i sh a, shdrs !! i = Some sh -> addrs !! i = Some a -> floating sh = true ->
          0x10000 <= a /\ (section_align sh | a))
    /\ (forall i j sh sh' a a', (i < j)%nat ->
          shdrs !! i = Some sh -> addrs !! i = Some a -> floating sh = true ->
          shdrs !! j = Some sh' -> addrs !! j = Some a' -> floating sh' = true ->
          a + section_size sh <= a')
    /\ (Forall (fun sh => sh_addr sh = 0) shdrs ->
        forall i sh a p k b, shdrs !! i = Some sh -> addrs !! i = Some a ->
          section_piece binary (sh, a) = Some p -> p.2 !! k = Some b ->
          byte_at (mem (machine s')) (a + Z.of_nat k) = b).
Proof.
  intros Hw Helf Hph He Hok Hram shdrs addrs. rewrite load_reset, Helf, load_object_run by done.
  fold shdrs addrs. eexists. split; [done|]. cbn [machine symbols cpu mem host].
  assert (Himg : forall a, byte_at (foldl place_piece Memory_new (pieces binary 0x10000 shdrs)) a
                           = default 0 (covering (pieces binary 0x10000 shdrs) a)).
  { intros a. by rewrite covering_spec. }
  split; [done|]. split; [done|]. split; [by rewrite map_union_empty|]. split; [exact Himg|].
  split; [intros; by eapply layout_aligned|]. split; [intros; by eapply layout_disjoint|].
  intros H0s i sh a p k b Hi Ha Hp Hk. rewrite Himg, (pieces_intact Hw binary 0x10000 shdrs i sh a p k b); done.
Qed.
End ObjectTheorem.

(** ** A whole run *)

Section Batch.
Context {H : Type} `{HostOps H} `{!HostReads H} `{BuildProfile} `{FloatEnv} `{Target} `{ElfParser}.

(** C15: The batch entry point loads and runs a program to its end.  For every file
    and arguments, in the release build, [run_riscv_binary] panics exactly if loading
    does, that is, if a header's file range wraps around [usize] to an end inside the
    file.  Otherwise loading returns a well-formed machine at its entry point, and
    however many slices are run the loop does not panic; when it returns, the guest
    is halted and the result is its exit code.  On a host whose interrupt controller
    is idle, if the loaded guest stops within [n] instructions then
    [run_riscv_binary] does return, within [n / (2^32 - 1)] slices rounded up, with
    the exit code the guest stopped with (134 after a trap), the machine it stopped
    in and the symbols of the file. *)
Theorem batch_run binary args (h : H) k :
  overflow_checks = false -> 0 <= usize_bits -> Forall (is_u 8) binary ->
  (file_bad binary = true -> run_riscv_binary k binary args h = Panic)
  /\ (file_bad binary = false ->
  exists entry s1, load_binary binary args (Simulator_new h) = Ok entry s1
    /\ machine_ok (machine s1) /\ pc (cpu (machine s1)) = entry
    /\ (exists r s', run_riscv_binary k binary args h = Ok r s' /\ machine_ok (machine s')
          /\ symbols s' = symbols s1
          /\ match r with
             | Some code => is_halted (cpu (machine s')) = true /\ code = exit_code (cpu (machine s'))
             | None => True
             end)
    /\ (QuietHost H ->
        forall n o m, 0 < n <= Z.of_nat k * u32_MAX -> run_slice n (machine s1) = Ok o m -> stops o ->
         run_riscv_binary k binary args h
         = Ok (Some (out_exit_code o)) (Build_Simulator (on_cpu (with_halted true) m) (symbols s1))
         /\ (status o = Trapped -> out_exit_code o = TRAP_EXIT_CODE))).
Proof.
  intros Hr Hw Hb. pose proof (load_loaded Hr Hw binary Hb (omap id args) (Simulator_new h)) as Hl.
  split; intros Hbad; rewrite Hbad in Hl.
  { unfold run_riscv_binary, load_binary, mbind, EM_bind. by rewrite Hl. }
  destruct Hl as (entry & m1 & h1 & syms & E & Hm & He).
  exists entry. eexists. split; [exact E|]. cbn [machine symbols cpu pc with_pc].
  set (s1 := Build_Machine _ m1 h1) in *.
  assert (Hok : machine_ok s1).
  { pose proof (init_regs_ok _ _ (parse_args_ok (omap id args)) Cpu_new_ok) as Hc.
    split; [|done]. apply with_pc_ok; [|done]. destruct Hc. by split. }
  assert (Hdbg : debug_enabled (cpu s1) = false).
  { destruct (init_regs_frame (register_inits (parse_args (omap id args))) Cpu_new) as [l Hl]. cbn. by rewrite Hl. }
  assert (Hbatch : run_riscv_binary k binary args h = on_machine (run k) (Build_Simulator s1 syms)).
  { unfold run_riscv_binary, load_binary, mbind, EM_bind. by rewrite E. }
  rewrite Hbatch. split; [done|]. split; [done|]. split.
  - destruct (run_ok k s1 Hr Hok) as (r & s' & Er & Hok' & Hpost). exists r. eexists.
    rewrite (on_machine_run _ (Build_Simulator s1 syms) _ _ Er). split; [done|]. split; [done|]. split; [done|].
    destruct r; [|done]. by destruct Hpost as (? & ? & _).
  - intros Hquiet n o m Hn Eo Hs. pose proof (run_slice_triple Hr (cpu s1) n ltac:(lia) s1 (conj Hok eq_refl)) as Ht.
    rewrite Eo in Ht. destruct Ht as [(_ & (_ & Hpost & _) & _) [_ Hcode]]. cbn [fst snd] in *.
    pose proof (run_reaches Hr k s1 n o m Hok Hdbg Hn Eo Hs) as Hrun.
    rewrite (on_machine_run _ (Build_Simulator s1 syms) _ _ Hrun), Hcode. split; [done|].
    intros Hst. rewrite Hst in Hpost. by destruct Hpost as (_ & _ & ? & _).
Qed.
End Batch.

(** ** The hypotheses hold *)

#[local] Existing Instance release_profile.
#[local] Existing Instance default_float_env.
#[local] Existing Instance wasm32.

(** An object file with a [.text] of eight bytes, a [.bss] and a [.data] of four, and
    the symbols [main] in [.text] and [x] in [.data]. *)
Definition object_bytes : list Z := [1; 2; 3; 4; 5; 6; 7; 8; 9; 10; 11; 12].
Definition object_section (type flags offset size align : Z) : SectionHeader := {|
  sh_type := type; sh_flags := flags; sh_addr := 0; sh_offset := offset; sh_size := size;
  sh_addralign := align |}.
Definition object_elf : Elf := {|
  e_entry := 0;
  program_headers := [];
  section_headers :=
    [object_section 0 0 0 0 0; object_section SHT_PROGBITS 6 0 8 4;
     object_section SHT_NOBITS 3 8 6 8; object_section SHT_PROGBITS 3 8 4 16];
  elf_syms := [{| st_name := 1; st_value := 0; st_shndx := 3 |};
               {| st_name := 2; st_value := 4; st_shndx := 1 |}];
  strtab_get_at := fun n => if n =? 1 then Some "x" else if n =? 2 then Some "main" else None
|}.
#[local] Instance object_parser : ElfParser := fun bytes =>
  if bool_decide (bytes = object_bytes) then Some object_elf else None.

(** [.text] is at 0x10000, [.bss] at 0x10008 and [.data] at 0x10010. *)
Lemma load_object_witness :
  exists s', load_binary_with_args object_bytes [] demo_simulator = Ok 0x10004 s'
    /\ symbols s' !! 0x10010 = Some "x" /\ byte_at (mem (machine s')) 0x10011 = 10.
Proof.
  assert (Hok : Forall section_ok (section_headers object_elf)).
  { repeat constructor; try by vm_compute.
    - exists 2; vm_compute; split; [split; discriminate|reflexivity].
    - exists 2; vm_compute; split; [split; discriminate|reflexivity].
    - exists 3; vm_compute; split; [split; discriminate|reflexivity].
    - exists 4; vm_compute; split; [split; discriminate|reflexivity]. }
  assert (Hram : Forall2 in_ram (section_headers object_elf) (layout 0x10000 (section_headers object_elf))).
  { repeat constructor; vm_compute; discriminate. }
  destruct (load_object object_bytes object_elf [] demo_simulator usize_32 ltac:(by vm_compute) eq_refl
    ltac:(vm_compute; split; [discriminate|reflexivity]) Hok Hram) as (s' & E & _ & _ & Hsym & Hmem & _).
  exists s'. split; [exact E|]. split; [rewrite Hsym|rewrite Hmem]; vm_compute; reflexivity.
Defined.

(** The same file with an entry point in the header and [_start] at offset 4 of
    [.text]: execution starts at address 4, not at 0x10004. *)
Definition linked_elf : Elf := {|
  e_entry := 0x10000;
  program_headers := [];
  section_headers := section_headers object_elf;
  elf_syms := [{| st_name := 1; st_value := 4; st_shndx := 1 |}];
  strtab_get_at := fun n => if n =? 1 then Some "_start" else None
|}.
Definition linked_parser : ElfParser := fun _ => Some linked_elf.

Lemma object_start_not_moved :
  match @load_binary_with_args _ _ release_profile wasm32 linked_parser object_bytes [] demo_simulator with
  | Ok entry s => entry = 4 /\ symbols s !! 0x10004 = Some "_start"
  | _ => False
  end.
Proof. vm_compute. split; reflexivity. Qed.

(** [write(1, "hello", 5); exit(42)] as a flat binary at address zero. *)
Definition hello : list Z :=
  flat_map word_bytes
    [encode_i OP_IMM A0 0 0 1; encode_i OP_IMM A1 0 0 32; encode_i OP_IMM A2 0 0 5;
     encode_i OP_IMM A7 0 0 64; encode_i OP_SYSTEM 0 0 0 0;
     encode_i OP_IMM A0 0 0 42; encode_i OP_IMM A7 0 0 93; encode_i OP_SYSTEM 0 0 0 0]
  ++ [104; 101; 108; 108; 111].

Lemma batch_run_witness :
  exists s', run_riscv_binary 1 hello [] mock_host0 = Ok (Some 42) s'
    /\ get_mock_stdout (host (machine s')) = ["hello"].
Proof.
  assert (Hb : Forall (is_u 8) hello).
  { unfold hello. repeat constructor; try apply le_byte_u8; vm_compute; discriminate. }
  assert (Hbad : file_bad hello = false) by (vm_compute; reflexivity).
  destruct (proj2 (batch_run hello [] mock_host0 1 release_ok usize_32 Hb) Hbad)
    as (entry & s1 & E & _ & _ & _ & Hn).
  specialize (Hn _).
  assert (V : match load_binary hello [] (Simulator_new mock_host0) with
              | Ok _ s1 =>
                match run_slice 100 (machine s1) with
                | Ok o m => status o = Halted /\ out_exit_code o = 42 /\ get_mock_stdout (host m) = ["hello"]
                | _ => False
                end
              | _ => False
              end) by (vm_compute; repeat split; reflexivity).
  rewrite E in V. destruct (run_slice 100 (machine s1)) as [o m|[]|] eqn:Es; [|destruct V].
  destruct V as (Hst & Hc & Ho). destruct (Hn 100 o m ltac:(unfold u32_MAX; lia) Es (or_introl Hst)) as [Hrun _].
  rewrite Hc in Hrun. eexists. split; [exact Hrun|exact Ho].
Defined.
