(* ===== verification/Session.v ===== *)
(** Sessions: the public operations of [Simulator] in any order.

    A host (the browser's worker or a debugger front end) drives the simulator by
    calling its methods.  [command] lists them with their arguments, [exec_command] is
    one call and [api_step] one call that returns; the theorem is an invariant of
    every state a session can be in, and says what the next call does.

    Four calls run the guest until it stops, which need not happen: [exec_command]
    takes the number of slices to try and answers [None] if the guest is still
    running after them.  Such a call has not returned, and is no [api_step]. *)

From S2P Require Import Prelude Bits Inst Fmt Host Memory MemoryProps Float Cpu Syscall Exec Rvc Run Safe SafeExec RunProps IsaSpec RvcProps RunRef IsaMem Cli Disasm Sim SimProps.

(** ** Commands *)




Section Session.
Context {H : Type} `{HostOps H} `{!HostReads H} `{BuildProfile} `{FloatEnv} `{Target} `{ElfParser}.
Abbreviation MS := (EM (Simulator H) Infallible).






(** ** What a call does *)









Context (Hrelease : overflow_checks = false) (Hw : 0 <= usize_bits).








End Session.

(** ** Sessions *)

Section SessionTheorem.
Context {H : Type} `{HostOps H} `{!HostReads H} `{BuildProfile} `{FloatEnv} `{Target} `{ElfParser}.







End SessionTheorem.

(** ** The hypotheses hold *)

#[local] Existing Instance release_profile.
#[local] Existing Instance default_float_env.
#[local] Existing Instance wasm32.
#[local] Existing Instance demo_parser_12.


